(** * The Mininet smart-campus experiment controller

    A shallow embedding of [mininet_smart_campus_experiment.py]
    (class [MininetSmartCampusExperiment]) and the properties of its
    constructor, of [setup_topology], of [run_experiment] and of
    [setup_seismic_test].

    Conventions of the embedding:
    - Python integers are [Z]; [str] values are [string], compared
      bytewise as Python 2 does;
    - a Python exception is a constructor of [exn]; code that may raise
      returns a [result];
    - the emulated network, the process table, the wall clock and the log
      are fields of an explicit [world] threaded through a state and
      exception monad [M];
    - everything outside the file (the topology model, the controller
      adapter, the constants of [config.py]) is a field of a record that
      the functions take as an argument. *)

From Stdlib Require Import ZArith Lia Bool Ascii.
From Stdlib Require Import DecimalString DecimalN.
From Stdlib Require HexadecimalString HexadecimalN.
From stdpp Require Import base option list list_numbers sorting gmap strings pretty.

Local Open Scope string_scope.
Local Open Scope list_scope.
Local Open Scope Z_scope.

(** ** Exceptions and results *)

Inductive exn : Type :=
  | IndexError
  | KeyError (key : string)
  | AttributeError
  | TypeError
  | ValueError
  | NotImplementedError
  | AssertionError
  | AddressValueError
  | NoPath
  | IOError
  | ZeroDivisionError
  | Exception.

(** [Timeout] is the outcome of a loop whose fuel ran out: the model of a
    loop that is still running. *)
Inductive result (A : Type) : Type :=
  | Ok (a : A)
  | Raise (e : exn)
  | Timeout.
Arguments Ok {A} a.
Arguments Raise {A} e.
Arguments Timeout {A}.

#[global] Instance exn_eq_dec : EqDecision exn.
Proof. solve_decision. Defined.

Definition is_ok {A} (r : result A) : bool :=
  match r with Ok _ => true | _ => false end.

(** A list comprehension whose element expression may raise: the first
    exception aborts the whole comprehension. *)
Fixpoint comprehension {A B} (f : A -> result B) (l : list A) : result (list B) :=
  match l with
  | [] => Ok []
  | x :: l' =>
      match f x with
      | Ok y =>
          match comprehension f l' with
          | Ok ys => Ok (y :: ys)
          | Raise e => Raise e
          | Timeout => Timeout
          end
      | Raise e => Raise e
      | Timeout => Timeout
      end
  end.

(** [range(n)] of Python 2: the list [0, ..., n-1], empty when [n <= 0]. *)
Definition py_range (n : Z) : list Z := seqZ 0 n.

(** ** IPv4 addresses ([ipaddress.IPv4Address]) *)

Module IPv4.

Definition ALL_ONES : Z := 2 ^ 32 - 1.

(** An address is its integer; the constructor refuses integers outside
    [0, 2^32 - 1] with [AddressValueError] ([_check_int_address]). *)
Record IPv4Address : Type := { ip_int : Z }.

Definition of_int (z : Z) : result IPv4Address :=
  if (z <? 0) || (ALL_ONES <? z) then Raise AddressValueError
  else Ok {| ip_int := z |}.

(** [__add__]: [self.__class__(int(self) + other)]. *)
Definition add (a : IPv4Address) (i : Z) : result IPv4Address :=
  of_int (ip_int a + i).

Definition octet_str (n : Z) : string :=
  NilEmpty.string_of_uint (N.to_uint (Z.to_N n)).

Definition octets (z : Z) : list Z :=
  [z / 2 ^ 24; (z / 2 ^ 16) mod 256; (z / 2 ^ 8) mod 256; z mod 256].

(** [str(address)]: the four octets in decimal, joined by dots. *)
Definition str (a : IPv4Address) : string :=
  match octets (ip_int a) with
  | [o1; o2; o3; o4] =>
      octet_str o1 +:+ "." +:+ octet_str o2 +:+ "." +:+ octet_str o3
        +:+ "." +:+ octet_str o4
  | _ => ""
  end.

End IPv4.

(** ** The multicast address pool of [__init__] (lines 128-132)

    [MULTICAST_ADDRESS_BASE] and [MULTICAST_ALERT_BASE_SRC_PORT] come from
    [config.py]; the base address is taken as the integer of the address
    the constant denotes. *)

Definition mcast_address_pool (MULTICAST_ADDRESS_BASE MULTICAST_ALERT_BASE_SRC_PORT : Z)
    (ntrees : Z) : result (list (string * Z)) :=
  match IPv4.of_int MULTICAST_ADDRESS_BASE with
  | Ok base_addr =>
      comprehension
        (fun i => match IPv4.add base_addr i with
                  | Ok a => Ok (IPv4.str a, MULTICAST_ALERT_BASE_SRC_PORT + i)
                  | Raise e => Raise e
                  | Timeout => Timeout
                  end)
        (py_range ntrees)
  | Raise e => Raise e
  | Timeout => Timeout
  end.


(** ** Strings *)

(** [s.replace(old, new)] for one-character [old] and [new]. *)
Fixpoint str_replace (old new : ascii) (s : string) : string :=
  match s with
  | EmptyString => EmptyString
  | String c s' => String (if Ascii.eqb c old then new else c) (str_replace old new s')
  end.

Definition ascii_upper (c : ascii) : ascii :=
  let n := Ascii.N_of_ascii c in
  if ((97 <=? n) && (n <=? 122))%N then Ascii.ascii_of_N (n - 32) else c.

(** [s.upper()] on ASCII strings. *)
Fixpoint str_upper (s : string) : string :=
  match s with
  | EmptyString => EmptyString
  | String c s' => String (ascii_upper c) (str_upper s')
  end.

(** [s.translate(None, c)]: [s] without the characters [c]. *)
Fixpoint str_delete (c : ascii) (s : string) : string :=
  match s with
  | EmptyString => EmptyString
  | String a s' =>
      if Ascii.eqb a c then str_delete c s' else String a (str_delete c s')
  end.

(** [c * n]: the character [c], [n] times. *)
Fixpoint str_repeat (c : ascii) (n : nat) : string :=
  match n with
  | O => EmptyString
  | S n' => String c (str_repeat c n')
  end.

(** The white space of [str.isspace]. *)
Definition py_isspace (c : ascii) : bool :=
  let n := Ascii.N_of_ascii c in
  (((9 <=? n) && (n <=? 13)) || (n =? 32))%N.

Fixpoint str_lstrip (s : string) : string :=
  match s with
  | EmptyString => EmptyString
  | String c s' => if py_isspace c then str_lstrip s' else s
  end.

Fixpoint str_rstrip (s : string) : string :=
  match s with
  | EmptyString => EmptyString
  | String c s' =>
      match str_rstrip s' with
      | EmptyString => if py_isspace c then EmptyString else String c EmptyString
      | r => String c r
      end
  end.

Definition is_digit (c : ascii) : bool :=
  let n := Ascii.N_of_ascii c in ((48 <=? n) && (n <=? 57))%N.

(** The value of a hexadecimal digit, of either case. *)
Definition hex_digit (c : ascii) : option Z :=
  let n := Z.of_N (Ascii.N_of_ascii c) in
  if (48 <=? n) && (n <=? 57) then Some (n - 48)
  else if (97 <=? n) && (n <=? 102) then Some (n - 87)
  else if (65 <=? n) && (n <=? 70) then Some (n - 55)
  else None.

Fixpoint hex_digits (acc : Z) (s : string) : option Z :=
  match s with
  | EmptyString => Some acc
  | String c s' =>
      match hex_digit c with
      | Some d => hex_digits (16 * acc + d) s'
      | None => None
      end
  end.

(** [int(s, 16)]: the integer that [s] denotes in base 16, [None] where
    Python raises [ValueError].  The literal is a sequence of hexadecimal
    digits; it may follow a sign and the prefix [0x], and stand between
    white space. *)
Definition int_16 (s : string) : option Z :=
  let s := str_rstrip (str_lstrip s) in
  let '(sign, s) := match s with
                    | String "-" s' => (-1, s')
                    | String "+" s' => (1, s')
                    | _ => (1, s)
                    end in
  let s := match s with
           | String "0" (String x (String d s')) =>
               if (Ascii.eqb x "x" || Ascii.eqb x "X") && bool_decide (is_Some (hex_digit d))
               then String d s' else s
           | _ => s
           end in
  match s with
  | EmptyString => None
  | _ => match hex_digits 0 s with
         | Some v => Some (sign * v)
         | None => None
         end
  end.

(** [re.findall(r'\d+', s)[0]]: the first run of decimal digits of [s],
    when it has one. *)
Fixpoint leading_digits (s : string) : string :=
  match s with
  | EmptyString => EmptyString
  | String c s' => if is_digit c then String c (leading_digits s') else EmptyString
  end.

Fixpoint first_number (s : string) : option string :=
  match s with
  | EmptyString => None
  | String c s' => if is_digit c then Some (leading_digits s) else first_number s'
  end.

(** [hex(int(digits))[2:]]: the hexadecimal digits, in lower case, of
    the number that the decimal [digits] denote; a number beyond
    [sys.maxint] (here [2^63 - 1]) is a [long], whose [hex] ends in [L]. *)
Definition hex_of_decimal (digits : string) : string :=
  let n := default 0%N (N.of_uint <$> NilEmpty.uint_of_string digits) in
  HexadecimalString.NilZero.string_of_uint (N.to_hex_uint n)
  +:+ (if (2 ^ 63 <=? n)%N then "L" else "").

(** ** Ordering of [(str, str)] tuples and [sorted]

    Python compares tuples lexicographically and [str] values bytewise.
    [sorted] returns the ascending rearrangement of its argument; the
    order is antisymmetric, so that rearrangement is unique and the
    sorting algorithm does not matter (see [sorted_unique]). *)

Definition tuple_leb (a b : string * string) : bool :=
  match String.compare a.1 b.1 with
  | Lt => true
  | Gt => false
  | Eq => String.leb a.2 b.2
  end.

Definition tuple_le (a b : string * string) : Prop := tuple_leb a b = true.

#[global] Instance tuple_le_dec a b : Decision (tuple_le a b).
Proof. unfold tuple_le. apply _. Defined.

Definition sorted (l : list (string * string)) : list (string * string) :=
  merge_sort tuple_le l.

(** ** Nodes of the emulated network ([mininet.node]) *)

(** The classes of the nodes: [NAT] and [Controller] are subclasses of
    [Node], neither of [Switch] nor of [Host]. *)
Inductive node_class : Type := Switch | Host | NAT | Controller.

#[global] Instance node_class_eq_dec : EqDecision node_class.
Proof. solve_decision. Defined.

(** [node_id] is the identity of the Python object: two nodes created by
    two calls are different objects even when they carry the same name. *)
Record Node : Type := {
  node_id : nat;
  node_name : string;
  node_class_of : node_class;
  node_dpid : string;
  node_IP : string;
  node_MAC : string
}.

#[global] Instance Node_eq_dec : EqDecision Node.
Proof. solve_decision. Defined.

Inductive status : Type := up | down.

#[global] Instance status_eq_dec : EqDecision status.
Proof. solve_decision. Defined.

(** Traffic-control parameters of a [TCLink]. *)
Record tc_params : Type := {
  tc_bw : Z;
  tc_delay_ms : Z;
  tc_jitter_ms : Z;
  tc_loss : Z
}.

Record Link : Type := {
  link_node1 : Node;
  link_node2 : Node;
  link_tc : option tc_params
}.

(** ** The emulation ([mininet.net.Mininet]) *)

Module Mininet.

Record t : Type := {
  hosts : list Node;
  switches : list Node;
  controllers : list Node;
  links : list Link;
  nameToNode : gmap string Node;
  next_id : nat
}.

(** [Mininet(topo=None, build=False, ...)]. *)
Definition empty : t :=
  {| hosts := []; switches := []; controllers := []; links := [];
     nameToNode := ∅; next_id := 0 |}.

(** [addController(name, controller=RemoteController, ip=, port=)]: a new
    controller is appended to [controllers] and bound to its name. *)
Definition addController (name : string) (net : t) : Node * t :=
  let c := {| node_id := next_id net; node_name := name; node_class_of := Controller;
              node_dpid := ""; node_IP := ""; node_MAC := "" |} in
  (c, {| hosts := hosts net; switches := switches net;
         controllers := controllers net ++ [c]; links := links net;
         nameToNode := <[name := c]> (nameToNode net); next_id := S (next_id net) |}).

(** [addHost(name, ip=, mac=)]: a new [Host] object is appended to
    [hosts] and bound to its name, replacing an older binding. *)
Definition addHost (name ip mac : string) (cls : node_class) (net : t) : Node * t :=
  let h := {| node_id := next_id net; node_name := name; node_class_of := cls;
              node_dpid := ""; node_IP := ip; node_MAC := mac |} in
  (h, {| hosts := hosts net ++ [h]; switches := switches net;
         controllers := controllers net; links := links net;
         nameToNode := <[name := h]> (nameToNode net); next_id := S (next_id net) |}).

(** [Switch.dpidLen]. *)
Definition dpidLen : nat := 16.

(** [Switch.defaultDpid(dpid)]: a given dpid loses its colons, must have
    at most [dpidLen] characters and be a hexadecimal number that is not
    negative; without a dpid, the first number in the name of the switch
    is taken, in hexadecimal.  The result is padded with zeros to
    [dpidLen] characters. *)
Definition defaultDpid (name dpid : string) : result string :=
  match (if decide (dpid = "")
         then match first_number name with
              | Some nums => Ok (hex_of_decimal nums)
              | None => Raise Exception
              end
         else
           let dpid := str_delete ":" dpid in
           (* assert len(dpid) <= self.dpidLen and int(dpid, 16) >= 0 *)
           if (dpidLen <? String.length dpid)%nat then Raise AssertionError
           else match int_16 dpid with
                | None => Raise ValueError
                | Some v => if v <? 0 then Raise AssertionError else Ok dpid
                end) with
  | Ok dpid => Ok (str_repeat "0" (dpidLen - String.length dpid) +:+ dpid)
  | Raise e => Raise e
  | Timeout => Timeout
  end.

(** [addSwitch(name, dpid=, cls=OVSKernelSwitch)]: the constructor of the
    switch sets its dpid with [defaultDpid]; the new switch is appended to
    [switches] and bound to its name.  When the constructor raises, the
    emulation is as it was. *)
Definition addSwitch (name dpid : string) (net : t) : result (Node * t) :=
  match defaultDpid name dpid with
  | Ok dpid =>
      let s := {| node_id := next_id net; node_name := name; node_class_of := Switch;
                  node_dpid := dpid; node_IP := ""; node_MAC := "" |} in
      Ok (s, {| hosts := hosts net; switches := switches net ++ [s];
                controllers := controllers net; links := links net;
                nameToNode := <[name := s]> (nameToNode net);
                next_id := S (next_id net) |})
  | Raise e => Raise e
  | Timeout => Timeout
  end.

(** [addLink(node1, node2, ...)]: the link is made at once, and with it
    one interface on each of its two nodes. *)
Definition addLink (n1 n2 : Node) (tc : option tc_params) (net : t) : Link * t :=
  let l := {| link_node1 := n1; link_node2 := n2; link_tc := tc |} in
  (l, {| hosts := hosts net; switches := switches net;
         controllers := controllers net; links := links net ++ [l];
         nameToNode := nameToNode net; next_id := next_id net |}).

(** [net.get(name)]: [nameToNode[name]]. *)
Definition get (name : string) (net : t) : result Node :=
  match nameToNode net !! name with
  | Some n => Ok n
  | None => Raise (KeyError name)
  end.

(** The interfaces of a node: one for every link end that the node is,
    in the order of the links. *)
Definition intfs (node : Node) (net : t) : list Link :=
  filter (λ l, link_node1 l = node ∨ link_node2 l = node) (links net).

(** [node.IP()]: the address of the default interface of the node.  A
    node without interface has no default interface ([defaultIntf()]
    returns [None] with a warning), and asking [None] for its address
    raises [AttributeError]. *)
Definition IP (node : Node) (net : t) : result string :=
  match intfs node net with
  | [] => Raise AttributeError
  | _ => Ok (node_IP node)
  end.

End Mininet.

(** ** Flow rules (the [FlowRule] of the controller adapter) *)

Inductive match_value : Type := MInt (z : Z) | MStr (s : string).

#[global] Instance match_value_eq_dec : EqDecision match_value.
Proof. solve_decision. Defined.

Inductive action : Type :=
  | Output (port : Z)
  | SetField (field : string) (value : match_value)
  | Group (group_id : Z).

Record FlowRule : Type := {
  fr_dpid : string;
  fr_priority : Z;
  fr_matches : gmap string match_value;
  fr_actions : list action
}.

(** ** The topology model read from the topology file
    ([NetworkxSdnTopology], not part of this file) *)

Module NetworkxSdnTopology.

Record t : Type := {
  get_switches : list string;
  get_hosts : list string;
  get_servers : list string;
  get_clouds : list string;
  (** [(u, v, attributes)] *)
  get_links : list (string * string * gmap string Z);
  is_cloud_gateway : string -> bool;
  (** [get_path(src, dst, weight=)]: raises when there is no path *)
  get_path : string -> string -> option string -> result (list string);
  (** [self.topo.topo.number_of_edges()] *)
  number_of_edges : nat
}.

End NetworkxSdnTopology.

(** ** The controller adapter ([SdnTopology], built by
    [topology_manager.build_topology_adapter]) *)

Module SdnTopology.

Record t : Type := {
  get_hosts : list string;
  get_switches : list string;
  (** [self.topology_adapter.topo.number_of_edges()] *)
  number_of_edges : nat;
  get_path : string -> string -> option string -> result (list string);
  merge_paths : list string -> list string -> list string;
  build_matches : gmap string match_value -> gmap string match_value;
  (** [build_flow_rules_from_path(path, add_matches=None, priority=)] *)
  build_flow_rules_from_path :
    list string -> option (gmap string match_value) -> Z -> result (list FlowRule)
}.

End SdnTopology.

(** ** The world: the experiment object and its surroundings *)

(** The processes started on the hosts. *)
Inductive role : Type :=
  | EdgeServer
  | CloudServer
  | Client (is_sensor is_subscriber : bool).

Inductive log_message : Type :=
  | MissingHosts (found expected : nat)
  | MissingLinks (found expected : nat)
  | MissingSwitches (found expected : nat)
  | PingingAgain
  | ProblemInstallingSubscriber (sub : Node) (rules : list FlowRule)
  | ErrorInstallingStaticRoutes (e : exn)
  | ProblemInstallingProbes (gw : Node) (rules : list FlowRule)
  | ProblemInstallingGateway (sub gw : Node) (rules : list FlowRule).

(** What the experiment does to the emulation, to the controller and to
    the hosts, in the order in which it does it.  Messages of the levels
    debug and info are left out. *)
Inductive event : Type :=
  | EvNetStart
  | EvSleep (secs : Z)
  | EvSetDefaultRoute
  | EvSetHostRoute (addr : string)
  | EvPing (hosts : list Node)
  | EvStaticArp
  | EvSetARP (host : Node) (ip mac : string)
  | EvBuildTopologyAdapter (n_hosts n_links n_switches : nat)
  | EvInstallFlowRules (rules : list FlowRule) (ok : bool)
  | EvIperfClient (host : Node) (port : Z)
  | EvIperfServer (port : Z)
  | EvPopen (host : Node) (r : role)
  | EvConfigLinkStatus (src dst : string) (s : status)
  | EvStop (node : Node)
  | EvLogWarning (m : log_message)
  | EvLogError (m : log_message).

(** The answers of the surroundings: how long the [k]-th operation takes
    beyond its nominal duration, the view of the controller when the
    [k]-th adapter is built, whether the [k]-th batch installation
    succeeds, and the hosts drawn by [_choose_random_hosts]. *)
Record Outside : Type := {
  lag : nat -> Z;
  controller_view : nat -> SdnTopology.t;
  install_result : nat -> bool;
  random_hosts : list string
}.

Record world : Type := Build_world {
  (** attributes of the experiment object *)
  self_net : option Mininet.t;
  self_hosts : list Node;
  self_switches : list Node;
  self_cloud_gateways : list Node;
  self_cloud_switches : list Node;
  self_links : list Link;
  self_nat : option Node;
  self_server : option Node;
  self_cloud : option Node;
  self_server_switch : option Node;
  self_popens : list (Node * role);
  self_client_iperfs : list Z;
  self_server_iperfs : list Z;
  self_topology_adapter : option SdnTopology.t;
  (** the wall clock, the record of what was done to the emulation, the
      controller and the hosts, and how many answers were consumed *)
  clock : Z;
  trace : list event;
  ticks : nat;
  n_adapters : nat;
  n_installs : nat;
  (** what the outside will answer *)
  outside : Outside
}.

Definition set_self_net (v : option Mininet.t) (w : world) : world :=
  let '(Build_world x0 x1 x2 x3 x4 x5 x6 x7 x8 x9 x10 x11 x12 x13 x14 x15 x16 x17 x18 x19) := w in
  Build_world v x1 x2 x3 x4 x5 x6 x7 x8 x9 x10 x11 x12 x13 x14 x15 x16 x17 x18 x19.
Definition set_self_hosts (v : list Node) (w : world) : world :=
  let '(Build_world x0 x1 x2 x3 x4 x5 x6 x7 x8 x9 x10 x11 x12 x13 x14 x15 x16 x17 x18 x19) := w in
  Build_world x0 v x2 x3 x4 x5 x6 x7 x8 x9 x10 x11 x12 x13 x14 x15 x16 x17 x18 x19.
Definition set_self_switches (v : list Node) (w : world) : world :=
  let '(Build_world x0 x1 x2 x3 x4 x5 x6 x7 x8 x9 x10 x11 x12 x13 x14 x15 x16 x17 x18 x19) := w in
  Build_world x0 x1 v x3 x4 x5 x6 x7 x8 x9 x10 x11 x12 x13 x14 x15 x16 x17 x18 x19.
Definition set_self_cloud_gateways (v : list Node) (w : world) : world :=
  let '(Build_world x0 x1 x2 x3 x4 x5 x6 x7 x8 x9 x10 x11 x12 x13 x14 x15 x16 x17 x18 x19) := w in
  Build_world x0 x1 x2 v x4 x5 x6 x7 x8 x9 x10 x11 x12 x13 x14 x15 x16 x17 x18 x19.
Definition set_self_cloud_switches (v : list Node) (w : world) : world :=
  let '(Build_world x0 x1 x2 x3 x4 x5 x6 x7 x8 x9 x10 x11 x12 x13 x14 x15 x16 x17 x18 x19) := w in
  Build_world x0 x1 x2 x3 v x5 x6 x7 x8 x9 x10 x11 x12 x13 x14 x15 x16 x17 x18 x19.
Definition set_self_links (v : list Link) (w : world) : world :=
  let '(Build_world x0 x1 x2 x3 x4 x5 x6 x7 x8 x9 x10 x11 x12 x13 x14 x15 x16 x17 x18 x19) := w in
  Build_world x0 x1 x2 x3 x4 v x6 x7 x8 x9 x10 x11 x12 x13 x14 x15 x16 x17 x18 x19.
Definition set_self_nat (v : option Node) (w : world) : world :=
  let '(Build_world x0 x1 x2 x3 x4 x5 x6 x7 x8 x9 x10 x11 x12 x13 x14 x15 x16 x17 x18 x19) := w in
  Build_world x0 x1 x2 x3 x4 x5 v x7 x8 x9 x10 x11 x12 x13 x14 x15 x16 x17 x18 x19.
Definition set_self_server (v : option Node) (w : world) : world :=
  let '(Build_world x0 x1 x2 x3 x4 x5 x6 x7 x8 x9 x10 x11 x12 x13 x14 x15 x16 x17 x18 x19) := w in
  Build_world x0 x1 x2 x3 x4 x5 x6 v x8 x9 x10 x11 x12 x13 x14 x15 x16 x17 x18 x19.
Definition set_self_cloud (v : option Node) (w : world) : world :=
  let '(Build_world x0 x1 x2 x3 x4 x5 x6 x7 x8 x9 x10 x11 x12 x13 x14 x15 x16 x17 x18 x19) := w in
  Build_world x0 x1 x2 x3 x4 x5 x6 x7 v x9 x10 x11 x12 x13 x14 x15 x16 x17 x18 x19.
Definition set_self_server_switch (v : option Node) (w : world) : world :=
  let '(Build_world x0 x1 x2 x3 x4 x5 x6 x7 x8 x9 x10 x11 x12 x13 x14 x15 x16 x17 x18 x19) := w in
  Build_world x0 x1 x2 x3 x4 x5 x6 x7 x8 v x10 x11 x12 x13 x14 x15 x16 x17 x18 x19.
Definition set_self_popens (v : list (Node * role)) (w : world) : world :=
  let '(Build_world x0 x1 x2 x3 x4 x5 x6 x7 x8 x9 x10 x11 x12 x13 x14 x15 x16 x17 x18 x19) := w in
  Build_world x0 x1 x2 x3 x4 x5 x6 x7 x8 x9 v x11 x12 x13 x14 x15 x16 x17 x18 x19.
Definition set_self_client_iperfs (v : list Z) (w : world) : world :=
  let '(Build_world x0 x1 x2 x3 x4 x5 x6 x7 x8 x9 x10 x11 x12 x13 x14 x15 x16 x17 x18 x19) := w in
  Build_world x0 x1 x2 x3 x4 x5 x6 x7 x8 x9 x10 v x12 x13 x14 x15 x16 x17 x18 x19.
Definition set_self_server_iperfs (v : list Z) (w : world) : world :=
  let '(Build_world x0 x1 x2 x3 x4 x5 x6 x7 x8 x9 x10 x11 x12 x13 x14 x15 x16 x17 x18 x19) := w in
  Build_world x0 x1 x2 x3 x4 x5 x6 x7 x8 x9 x10 x11 v x13 x14 x15 x16 x17 x18 x19.
Definition set_self_topology_adapter (v : option SdnTopology.t) (w : world) : world :=
  let '(Build_world x0 x1 x2 x3 x4 x5 x6 x7 x8 x9 x10 x11 x12 x13 x14 x15 x16 x17 x18 x19) := w in
  Build_world x0 x1 x2 x3 x4 x5 x6 x7 x8 x9 x10 x11 x12 v x14 x15 x16 x17 x18 x19.
Definition set_clock (v : Z) (w : world) : world :=
  let '(Build_world x0 x1 x2 x3 x4 x5 x6 x7 x8 x9 x10 x11 x12 x13 x14 x15 x16 x17 x18 x19) := w in
  Build_world x0 x1 x2 x3 x4 x5 x6 x7 x8 x9 x10 x11 x12 x13 v x15 x16 x17 x18 x19.
Definition set_trace (v : list event) (w : world) : world :=
  let '(Build_world x0 x1 x2 x3 x4 x5 x6 x7 x8 x9 x10 x11 x12 x13 x14 x15 x16 x17 x18 x19) := w in
  Build_world x0 x1 x2 x3 x4 x5 x6 x7 x8 x9 x10 x11 x12 x13 x14 v x16 x17 x18 x19.
Definition set_ticks (v : nat) (w : world) : world :=
  let '(Build_world x0 x1 x2 x3 x4 x5 x6 x7 x8 x9 x10 x11 x12 x13 x14 x15 x16 x17 x18 x19) := w in
  Build_world x0 x1 x2 x3 x4 x5 x6 x7 x8 x9 x10 x11 x12 x13 x14 x15 v x17 x18 x19.
Definition set_n_adapters (v : nat) (w : world) : world :=
  let '(Build_world x0 x1 x2 x3 x4 x5 x6 x7 x8 x9 x10 x11 x12 x13 x14 x15 x16 x17 x18 x19) := w in
  Build_world x0 x1 x2 x3 x4 x5 x6 x7 x8 x9 x10 x11 x12 x13 x14 x15 x16 v x18 x19.
Definition set_n_installs (v : nat) (w : world) : world :=
  let '(Build_world x0 x1 x2 x3 x4 x5 x6 x7 x8 x9 x10 x11 x12 x13 x14 x15 x16 x17 x18 x19) := w in
  Build_world x0 x1 x2 x3 x4 x5 x6 x7 x8 x9 x10 x11 x12 x13 x14 x15 x16 x17 v x19.

(** ** The monad of the experiment: state and exceptions *)

Definition M (A : Type) : Type := world -> result A * world.

#[global] Instance M_ret : MRet M := λ A a w, (Ok a, w).

#[global] Instance M_bind : MBind M := λ A B f m w,
  match m w with
  | (Ok a, w') => f a w'
  | (Raise e, w') => (Raise e, w')
  | (Timeout, w') => (Timeout, w')
  end.

#[global] Instance result_ret : MRet result := λ A a, Ok a.

#[global] Instance result_bind : MBind result := λ A B f r,
  match r with
  | Ok a => f a
  | Raise e => Raise e
  | Timeout => Timeout
  end.

Definition raise {A} (e : exn) : M A := λ w, (Raise e, w).

Definition timeout {A} : M A := λ w, (Timeout, w).

Definition lift {A} (r : result A) : M A := λ w, (r, w).

Definition gets {A} (f : world -> A) : M A := λ w, (Ok (f w), w).

Definition modify (f : world -> world) : M unit := λ w, (Ok tt, f w).

(** [try: body except Exception as e: handler e]. *)
Definition try_except {A} (body : M A) (handler : exn -> M A) : M A := λ w,
  match body w with
  | (Raise e, w') => handler e w'
  | other => other
  end.

(** Reading an attribute of an object that may be [None]. *)
Definition attr {A} (o : option A) : result A :=
  match o with
  | Some a => Ok a
  | None => Raise AttributeError
  end.

(** [l[0]]. *)
Definition getitem0 {A} (l : list A) : result A :=
  match l with
  | x :: _ => Ok x
  | [] => Raise IndexError
  end.

(** A log record: written at once. *)
Definition emit (e : event) : M unit :=
  modify (λ w, set_trace (trace w ++ [e]) w).

(** An operation on the surroundings: it is recorded and takes the time
    the surroundings decide. *)
Definition effect (e : event) : M unit :=
  modify (λ w, set_ticks (S (ticks w))
                 (set_clock (clock w + lag (outside w) (ticks w))
                    (set_trace (trace w ++ [e]) w))).

(** [time.time()]. *)
Definition time_time : M Z := gets clock.

(** [time.sleep(secs)]: refuses a negative duration. *)
Definition time_sleep (secs : Z) : M unit :=
  if secs <? 0 then raise IOError
  else modify (λ w, set_clock (clock w + secs) w);; effect (EvSleep secs).

Fixpoint for_each {A} (l : list A) (body : A -> M unit) : M unit :=
  match l with
  | [] => mret tt
  | x :: l' => body x;; for_each l' body
  end.

(** A list comprehension whose element expression acts on the world. *)
Fixpoint comprehensionM {A B} (f : A -> M B) (l : list A) : M (list B) :=
  match l with
  | [] => mret []
  | x :: l' => y ← f x; ys ← comprehensionM f l'; mret (y :: ys)
  end.

(** ** The constructor (lines 83-88 and 128-132)

    The keyword arguments are given by the entries the constructor reads;
    [super_init] is the outcome of the constructor of the superclass. *)

Record experiment : Type := {
  exp_comparison : option string;
  exp_tree_construction_algorithm : list string;
  exp_mcast_address_pool : list (string * Z)
}.

Definition __init__ (comparison : option string)
    (kwargs_tree_construction_algorithm : list string) (kwargs_ntrees : Z)
    (super_init : result unit)
    (MULTICAST_ADDRESS_BASE MULTICAST_ALERT_BASE_SRC_PORT : Z) : result experiment :=
  algorithm ← match comparison with
              | Some c =>
                  (* assert comparison in ('oracle', 'unicast') *)
                  if bool_decide (c ∈ ["oracle"; "unicast"]) then Ok [c]
                  else Raise AssertionError
              | None => Ok kwargs_tree_construction_algorithm
              end;
  super_init;;
  pool ← mcast_address_pool MULTICAST_ADDRESS_BASE MULTICAST_ALERT_BASE_SRC_PORT
           kwargs_ntrees;
  mret {| exp_comparison := comparison;
          exp_tree_construction_algorithm := algorithm;
          exp_mcast_address_pool := pool |}.

(** ** The parameters of one experiment *)

Record Config : Type := {
  (** arguments of the constructor and of the superclass *)
  comparison : option string;
  ntrees : Z;
  with_cloud : bool;
  with_ride_c : bool;
  with_ride_d : bool;
  topology_adapter_type : string;
  error_rate : Z;
  mcast_pool : list (string * Z);
  (** the topology the topology file denotes ([self.topo]) *)
  topo : NetworkxSdnTopology.t;
  (** constants of [config.py] *)
  ALL_PAIRS : bool;
  DISTANCE_METRIC : string;
  SEISMIC_EVENT_DELAY : Z;
  TIME_BETWEEN_SEISMIC_EVENTS : Z;
  EXPERIMENT_DURATION : Z;
  IPERF_BASE_PORT : Z;
  PROBE_BASE_SRC_PORT : Z;
  ECHO_SERVER_PORT : Z;
  STATIC_PATH_FLOW_RULE_PRIORITY : Z;
  (** helpers of [config.py]: [get_mac_for_switch(name, is_server, is_cloud)]
      and [get_ip_mac_for_host(name)] *)
  get_mac_for_switch : string -> bool -> bool -> string;
  get_ip_mac_for_host : string -> string * string;
  (** the address and the MAC that Mininet gives to a host added without
      them, from the number of nodes created before it *)
  mininet_auto_ip_mac : nat -> string * string
}.

(** The result of one run (the directories of the logs and of the
    outputs are not modelled). *)
Record run_result : Type := {
  quake_start_time : option Z;
  data_path_changes : list (string * status * Z);
  publishers : gmap string string;
  subscribers : gmap string string
}.

(** One planned change of a data path:
    [(cloud_gw, cloud_switch, new_status, delay)]. *)
Definition planned_change : Type := string * string * status * Z.

Section Experiment.

Variable cfg : Config.

(** *** Helpers for working with Mininet nodes *)

Definition the_net : M Mininet.t :=
  net ← gets self_net; lift (attr net).

Definition on_net {A} (f : Mininet.t -> A * Mininet.t) : M A :=
  net ← the_net;
  let '(a, net') := f net in
  modify (set_self_net (Some net'));; mret a.

(** A call on the emulation that may raise; the emulation is then left as
    it was. *)
Definition try_net {A} (f : Mininet.t -> result (A * Mininet.t)) : M A :=
  net ← the_net;
  r ← lift (f net);
  modify (set_self_net (Some r.2));; mret r.1.

Definition _get_mininet_nodes (nodes : list string) : M (list Node) :=
  net ← the_net;
  lift (comprehension (λ n, Mininet.get n net) nodes).

(** [host.defaultIntf().MAC()] and [host.IP()] are the address and the
    MAC of the host: a run comes here after every host of the emulation
    was asked for its address, so that the hosts have an interface. *)
Definition get_host_dpid (host : option Node) : result string :=
  if decide (topology_adapter_type cfg = "onos") then
    h ← attr host; mret (str_upper (node_MAC h) +:+ "/None")
  else if decide (topology_adapter_type cfg = "floodlight") then
    h ← attr host; mret (node_IP h)
  else Raise ValueError.

Definition get_switch_dpid (switch : Node) : result string :=
  if decide (topology_adapter_type cfg = "onos") then
    mret ("of:" +:+ node_dpid switch)
  else if decide (topology_adapter_type cfg = "floodlight") then
    Raise NotImplementedError
  else Raise ValueError.

Definition get_node_dpid (node : Node) : result string :=
  match node_class_of node with
  | Switch => get_switch_dpid node
  | Host => get_host_dpid (Some node)
  | NAT | Controller => Raise TypeError
  end.

(** The property [data_path_links]; [self.cloud_switches] is a list from
    the constructor on, never [None]. *)
Definition data_path_links (w : world) : result (list (string * string)) :=
  comprehension
    (λ gw, cs ← getitem0 (self_cloud_switches w); mret (node_name gw, node_name cs))
    (self_cloud_gateways w).

(** *** [setup_topology] *)

Definition setup_topology : M unit :=
  modify (set_self_net (Some Mininet.empty));;
  (* self.controller = self.net.addController(name='c0', ...); the
     attribute is read nowhere *)
  on_net (Mininet.addController "c0");;
  for_each (NetworkxSdnTopology.get_switches (topo cfg)) (λ switch,
    let mac := get_mac_for_switch cfg switch false false in
    s ← try_net (Mininet.addSwitch switch mac);
    modify (λ w, set_self_switches (self_switches w ++ [s]) w);;
    if NetworkxSdnTopology.is_cloud_gateway (topo cfg) switch
    then modify (λ w, set_self_cloud_gateways (self_cloud_gateways w ++ [s]) w)
    else mret tt);;
  for_each (NetworkxSdnTopology.get_hosts (topo cfg)) (λ host,
    let '(_ip, _mac) := get_ip_mac_for_host cfg host in
    h ← on_net (Mininet.addHost host _ip _mac Host);
    modify (λ w, set_self_hosts (self_hosts w ++ [h]) w));;
  for_each (NetworkxSdnTopology.get_servers (topo cfg)) (λ server,
    let server_switch_name := str_replace "s" "e" server in
    let server_switch_dpid := get_mac_for_switch cfg server_switch_name true false in
    server_switch ← try_net (Mininet.addSwitch server server_switch_dpid);
    modify (set_self_server_switch (Some server_switch));;
    let host := "h" +:+ server in
    let '(_ip, _mac) := get_ip_mac_for_host cfg host in
    s ← on_net (Mininet.addHost host _ip _mac Host);
    modify (set_self_server (Some s));;
    on_net (Mininet.addLink server_switch s None);;
    mret tt);;
  for_each (NetworkxSdnTopology.get_clouds (topo cfg)) (λ cloud,
    if with_cloud cfg then
      let cloud_switch_name := str_replace "x" "f" cloud in
      let cloud_switch_dpid := get_mac_for_switch cfg cloud_switch_name false true in
      cloud_switch ← try_net (Mininet.addSwitch cloud cloud_switch_dpid);
      modify (λ w, set_self_cloud_switches (self_cloud_switches w ++ [cloud_switch]) w);;
      let host := "h" +:+ cloud in
      let '(_ip, _mac) := get_ip_mac_for_host cfg host in
      c ← on_net (Mininet.addHost host _ip _mac Host);
      modify (set_self_cloud (Some c));;
      on_net (Mininet.addLink cloud_switch c None);;
      mret tt
    else
      on_net (λ net, let '(_ip, _mac) := mininet_auto_ip_mac cfg (Mininet.next_id net) in
                     Mininet.addHost cloud _ip _mac Host net);;
      c ← on_net (λ net, let '(_ip, _mac) := mininet_auto_ip_mac cfg (Mininet.next_id net) in
                         Mininet.addHost cloud _ip _mac Host net);
      modify (set_self_cloud (Some c)));;
  for_each (NetworkxSdnTopology.get_links (topo cfg)) (λ link,
    let from_link := link.1.1 in
    let to_link := link.1.2 in
    let attributes := link.2 in
    let _bw := default 10 (attributes !! "bw") in
    let _delay := default 10 (attributes !! "latency") in
    let _jitter := 1 in
    let _loss := error_rate cfg in
    net ← the_net;
    n1 ← lift (Mininet.get from_link net);
    n2 ← lift (Mininet.get to_link net);
    l ← on_net (Mininet.addLink n1 n2
                  (Some {| tc_bw := _bw; tc_delay_ms := _delay;
                           tc_jitter_ms := _jitter; tc_loss := _loss |}));
    modify (λ w, set_self_links (self_links w ++ [l]) w));;
  (* addNAT(connect=self.server): the NAT is one more host of the
     emulation, linked to the server when there is one *)
  server ← gets self_server;
  nat ← on_net (λ net, let '(_ip, _mac) := mininet_auto_ip_mac cfg (Mininet.next_id net) in
                       Mininet.addHost "nat0" _ip _mac NAT net);
  match server with
  | Some s => on_net (Mininet.addLink nat s None);; mret tt
  | None => mret tt
  end;;
  modify (set_self_nat (Some nat));;
  (* sorted(self.server.intfNames())[-1] *)
  lift (attr server);;
  mret tt.

(** *** [setup_topology_manager] and the calls on the adapter *)

Definition setup_topology_manager : M unit :=
  adapter ← gets (λ w, controller_view (outside w) (n_adapters w));
  modify (λ w, set_n_adapters (S (n_adapters w))
                 (set_self_topology_adapter (Some adapter) w));;
  effect (EvBuildTopologyAdapter (length (SdnTopology.get_hosts adapter))
            (SdnTopology.number_of_edges adapter)
            (length (SdnTopology.get_switches adapter))).

Definition the_adapter : M SdnTopology.t :=
  a ← gets self_topology_adapter; lift (attr a).

(** [self.topology_adapter.install_flow_rules(rules)]: one batch, whose
    success the controller decides. *)
Definition install_flow_rules (rules : list FlowRule) : M bool :=
  ok ← gets (λ w, install_result (outside w) (n_installs w));
  modify (λ w, set_n_installs (S (n_installs w)) w);;
  effect (EvInstallFlowRules rules ok);;
  mret ok.

(** [host.popen(cmd, ...)] followed by [self.popens.append(p)]; the
    command line is not modelled, only the host and what it runs. *)
Definition popen (host : Node) (r : role) : M unit :=
  effect (EvPopen host r);;
  modify (λ w, set_self_popens (self_popens w ++ [(host, r)]) w).

(** [self.net.configLinkStatus(src, dst, status)]. *)
Definition configLinkStatus (src dst : string) (s : status) : M unit :=
  the_net;; effect (EvConfigLinkStatus src dst s).

(** [enumerate(l)]. *)
Definition enumerate {A} (l : list A) : list (Z * A) :=
  zip (seqZ 0 (Z.of_nat (length l))) l.

(** *** [run_experiment]: the nested function [ping_hosts] (lines 393-425) *)

Definition ping_hosts (hosts : list Node) : M unit :=
  (if ALL_PAIRS cfg then effect (EvPing hosts)
   else
     for_each hosts (λ h,
       server ← gets self_server;
       s ← lift (attr server);
       effect (EvPing [h; s]));;
     (* loss /= len(hosts) *)
     if decide (hosts = []) then raise ZeroDivisionError else mret tt);;
  if ALL_PAIRS cfg then effect EvStaticArp
  else
    server ← gets self_server;
    s ← lift (attr server);
    let server_ip := node_IP s in
    let server_mac := node_MAC s in
    cloud ← gets self_cloud;
    c ← lift (attr cloud);
    let cloud_ip := node_IP c in
    let cloud_mac := node_MAC c in
    for_each hosts (λ src,
      effect (EvSetARP src server_ip server_mac);;
      effect (EvSetARP src cloud_ip cloud_mac);;
      effect (EvSetARP c (node_IP src) (node_MAC src));;
      effect (EvSetARP s (node_IP src) (node_MAC src))).

(** *** [run_experiment]: the loop that waits for the adapter (lines 439-464)

    [fuel] bounds the number of iterations the model follows; the loop
    of the source has no bound. *)

Fixpoint await_convergence (fuel : nat) (hosts : list Node)
    (expected_nhosts expected_nlinks expected_nswitches : nat)
    (n_sdn_hosts n_sdn_links n_sdn_switches : nat) (ntries : nat) : M unit :=
  if negb (n_sdn_hosts =? expected_nhosts)%nat
     || negb (n_sdn_links =? expected_nlinks)%nat
     || negb (n_sdn_switches =? expected_nswitches)%nat
  then
    match fuel with
    | O => timeout
    | S fuel' =>
        setup_topology_manager;;
        adapter ← the_adapter;
        let n_sdn_hosts := length (SdnTopology.get_hosts adapter) in
        let n_sdn_links := SdnTopology.number_of_edges adapter in
        let n_sdn_switches := length (SdnTopology.get_switches adapter) in
        let success := true in
        success ← (if negb (n_sdn_hosts =? expected_nhosts)%nat
                   then emit (EvLogWarning (MissingHosts n_sdn_hosts (length hosts)));;
                        mret false
                   else mret success);
        success ← (if negb (expected_nlinks =? n_sdn_links)%nat
                   then emit (EvLogWarning (MissingLinks n_sdn_links expected_nlinks));;
                        mret false
                   else mret success);
        success ← (if negb (expected_nswitches =? n_sdn_switches)%nat
                   then emit (EvLogWarning (MissingSwitches n_sdn_switches expected_nswitches));;
                        mret false
                   else mret success);
        time_sleep (if success then 2 else 10);;
        (if (ntries mod 5 =? 0)%nat && negb success
         then emit (EvLogWarning PingingAgain);; ping_hosts hosts
         else mret tt);;
        await_convergence fuel' hosts expected_nhosts expected_nlinks expected_nswitches
          n_sdn_hosts n_sdn_links n_sdn_switches (ntries + 1)
    end
  else mret tt.

(** *** [setup_traffic_generators] *)

Definition setup_traffic_generators : M unit :=
  names ← gets (λ w, random_hosts (outside w));
  generators ← _get_mininet_nodes names;
  srv ← gets self_server;
  for_each (enumerate generators) (λ '(n, g),
    (* srv.IP() *)
    lift (attr srv);;
    effect (EvIperfClient g (IPERF_BASE_PORT cfg + n));;
    modify (λ w, set_self_client_iperfs (self_client_iperfs w ++ [IPERF_BASE_PORT cfg + n]) w);;
    effect (EvIperfServer (IPERF_BASE_PORT cfg + n));;
    modify (λ w, set_self_server_iperfs (self_server_iperfs w ++ [IPERF_BASE_PORT cfg + n]) w)).

(** *** [setup_seismic_test]

    The command lines, the environment and the directories of the
    processes are not modelled; every call that can raise while they are
    built is.  The function is given block by block, in the order of the
    source. *)

Definition use_unicast : bool :=
  bool_decide (comparison cfg = Some "unicast") || bool_decide (ntrees cfg = 0).

(** Lines 660-679: the body of the loop over the subscribers of the
    unicast comparison. *)
Definition install_unicast_route (sub : Node) : M unit :=
  try_except
    (original_server_name ← lift (getitem0 (NetworkxSdnTopology.get_servers (topo cfg)));
     route ← lift (NetworkxSdnTopology.get_path (topo cfg) original_server_name
                     (node_name sub) (Some (DISTANCE_METRIC cfg)));
     route ← _get_mininet_nodes route;
     route ← lift (comprehension get_node_dpid route);
     self_server ← gets self_server;
     server_dpid ← lift (get_host_dpid self_server);
     let route := server_dpid :: route in
     adapter ← the_adapter;
     flow_rules ← lift (SdnTopology.build_flow_rules_from_path adapter route None
                          (STATIC_PATH_FLOW_RULE_PRIORITY cfg));
     ok ← install_flow_rules flow_rules;
     if negb ok then emit (EvLogError (ProblemInstallingSubscriber sub flow_rules))
     else mret tt)
    (λ e, emit (EvLogError (ErrorInstallingStaticRoutes e));; raise e).

(** Lines 656-683: the static routes of the unicast comparison, or the
    refusal of the oracle comparison. *)
Definition comparison_routes (subscribers : list Node) : M unit :=
  if use_unicast then for_each subscribers install_unicast_route
  else if bool_decide (comparison cfg = Some "oracle") then raise NotImplementedError
  else mret tt.

(** Lines 733-754: the body of the loop over the gateways and the source
    ports of their probes. *)
Definition install_probe_routes (gw_port : Node * Z) : M unit :=
  let gw := gw_port.1 in
  let src_port := gw_port.2 in
  gw_dpid ← lift (get_switch_dpid gw);
  adapter ← the_adapter;
  self_server ← gets self_server;
  server_dpid ← lift (get_host_dpid self_server);
  edge_gw_route ← lift (SdnTopology.get_path adapter server_dpid gw_dpid
                          (Some (DISTANCE_METRIC cfg)));
  cloud ← gets self_cloud;
  cloud_dpid ← lift (get_host_dpid cloud);
  gw_cloud_route ← lift (SdnTopology.get_path adapter gw_dpid cloud_dpid
                           (Some (DISTANCE_METRIC cfg)));
  let route := SdnTopology.merge_paths adapter edge_gw_route gw_cloud_route in
  let dst_port := ECHO_SERVER_PORT cfg in
  let matches : gmap string match_value :=
    {[ "udp_src" := MInt src_port; "udp_dst" := MInt dst_port ]} in
  frules ← lift (SdnTopology.build_flow_rules_from_path adapter route (Some matches)
                   (STATIC_PATH_FLOW_RULE_PRIORITY cfg));
  (* route.reverse() *)
  let route := reverse route in
  let matches : gmap string match_value :=
    {[ "udp_dst" := MInt src_port; "udp_src" := MInt dst_port ]} in
  more ← lift (SdnTopology.build_flow_rules_from_path adapter route (Some matches)
                 (STATIC_PATH_FLOW_RULE_PRIORITY cfg));
  let frules := (frules ++ more)%list in
  ok ← install_flow_rules frules;
  if negb ok then emit (EvLogError (ProblemInstallingProbes gw frules))
  else mret tt.

(** Lines 714-754: the arguments of RideC and the routes of its probes. *)
Definition ride_c_probe_routes (server : option Node) : M unit :=
  cloud_gateways ← gets self_cloud_gateways;
  let src_ports :=
    seqZ (PROBE_BASE_SRC_PORT cfg) (Z.of_nat (length cloud_gateways)) in
  cloud ← gets self_cloud;
  lift (comprehension
          (λ gw_port : Node * Z,
             gw_dpid ← get_switch_dpid gw_port.1;
             cloud_dpid ← get_host_dpid cloud;
             mret (node_name gw_port.1, gw_dpid, cloud_dpid, gw_port.2))
          (zip cloud_gateways src_ports));;
  (* edge_server=, cloud_server= of the RideC entry *)
  lift (get_host_dpid server);;
  lift (get_host_dpid cloud);;
  for_each (zip cloud_gateways src_ports) install_probe_routes.

(** Lines 815-826: the body of the loop over the gateways, for the
    subscriber [sub] and its [matches]. *)
Definition install_gateway_route (sub : Node) (matches : gmap string match_value)
    (gw : Node) : M unit :=
  path ← lift (NetworkxSdnTopology.get_path (topo cfg) (node_name gw)
                 (node_name sub) None);
  nodes ← _get_mininet_nodes path;
  path ← lift (comprehension get_node_dpid nodes);
  cloud_switches ← gets self_cloud_switches;
  cloud_switch ← lift (getitem0 cloud_switches);
  cloud_switch_dpid ← lift (get_node_dpid cloud_switch);
  let path := cloud_switch_dpid :: path in
  adapter ← the_adapter;
  frules ← lift (SdnTopology.build_flow_rules_from_path adapter path (Some matches)
                   (STATIC_PATH_FLOW_RULE_PRIORITY cfg));
  ok ← install_flow_rules frules;
  if negb ok then emit (EvLogError (ProblemInstallingGateway sub gw frules))
  else mret tt.

(** Lines 809-826: the static routes from every cloud gateway to every
    subscriber. *)
Definition cloud_gateway_routes (subscribers : list Node) : M unit :=
  for_each subscribers (λ sub,
    let sub_ip := node_IP sub in
    adapter ← the_adapter;
    cloud ← gets self_cloud;
    c ← lift (attr cloud);
    let matches :=
      SdnTopology.build_matches adapter
        {[ "ipv4_dst" := MStr sub_ip; "ipv4_src" := MStr (node_IP c) ]} in
    cloud_gateways ← gets self_cloud_gateways;
    for_each cloud_gateways (install_gateway_route sub matches)).

(** Lines 832-920: one process on every sensor and subscriber.
    [for client in set(sensors).union(set(subscribers))]: the order in
    which a Python set is walked is not specified; the model walks the
    sensors, then the subscribers that are not sensors. *)
Definition launch_clients (sensors subscribers : list Node) : M unit :=
  for_each (remove_dups (sensors ++ subscribers)) (λ client,
    popen client (Client (bool_decide (client ∈ sensors))
                         (bool_decide (client ∈ subscribers)))).

Definition setup_seismic_test (sensors subscribers : list Node) (server : option Node)
    : M unit :=
  srv ← lift (attr server);
  let server_ip := node_IP srv in
  (if decide (server_ip = "127.0.0.1") then raise AssertionError else mret tt);;
  comparison_routes subscribers;;
  (* ride_d_cfg: dpid=self.get_host_dpid(self.server) *)
  (if with_ride_d cfg
   then self_server ← gets self_server; lift (get_host_dpid self_server);; mret tt
   else mret tt);;
  (if with_ride_c cfg then ride_c_probe_routes server else mret tt);;
  popen srv EdgeServer;;
  (if with_cloud cfg then
     (if with_ride_d cfg
      then cloud ← gets self_cloud; lift (get_host_dpid cloud);; mret tt
      else mret tt);;
     cloud ← gets self_cloud;
     c ← lift (attr cloud);
     popen c CloudServer
   else mret tt);;
  cloud_gateway_routes subscribers;;
  launch_clients sensors subscribers.

(** *** [run_experiment]: the schedule of the data-path failures
    (lines 494-499) *)

Definition plan_data_path_changes (w : world) : result (list planned_change) :=
  links ← data_path_links w;
  let data_path_changes : list planned_change :=
    (λ dpl, (dpl.1, dpl.2, down, TIME_BETWEEN_SEISMIC_EVENTS cfg)) <$> tail (sorted links) in
  links ← data_path_links w;
  first_dpl ← getitem0 (sorted links);
  let data_path_changes := (first_dpl.1, first_dpl.2, down, 0) :: data_path_changes in
  mret (data_path_changes
          ++ [(first_dpl.1, first_dpl.2, up, TIME_BETWEEN_SEISMIC_EVENTS cfg)])%list.

(** *** [run_experiment]: the loop over the planned changes (lines 505-528) *)

Fixpoint apply_data_path_changes (i : Z) (changes : list planned_change)
    (failed_links : list (string * string)) (failed_nodes : list Node)
    (output_dp_changes : list (string * status * Z)) (quake_time : option Z)
    : M (list (string * status * Z) * option Z) :=
  match changes with
  | [] => mret (output_dp_changes, quake_time)
  | (cloud_gw, cloud_switch, new_status, delay) :: rest =>
      time_sleep delay;;
      dp_change_time ← time_time;
      let output_dp_changes :=
        (output_dp_changes ++ [(cloud_gw, new_status, dp_change_time)])%list in
      configLinkStatus cloud_gw cloud_switch new_status;;
      quake_time ← (if decide (i = 1) then
                      now ← time_time;
                      for_each failed_links (λ link, configLinkStatus link.1 link.2 down);;
                      for_each failed_nodes (λ node, effect (EvStop node));;
                      mret (Some now)
                    else mret quake_time);
      apply_data_path_changes (i + 1) rest failed_links failed_nodes
        output_dp_changes quake_time
  end.

(** [{p.IP(): p.name for p in nodes}]: a later node replaces an earlier
    one with the same address. *)
Definition ip_name_dict (nodes : list Node) : gmap string string :=
  foldl (λ d p, <[node_IP p := node_name p]> d) ∅ nodes.

(** *** [run_experiment]

    [self_publishers], [self_subscribers], [self_failed_nodes] and
    [self_failed_links] are the attributes the superclass sets before the
    run.  The function is given in two parts, up to the start of the
    applications (lines 364-474) and the failure model (lines 479-540),
    and the first part block by block. *)

(** Lines 364-429: the emulation is started, the routes of the server
    are set, every host is asked for its address and the hosts are
    discovered a first time; the result is the list [hosts] of the hosts
    of the emulation but the NAT. *)
Definition start_network : M (list Node) :=
  net ← the_net;
  effect EvNetStart;;
  time_sleep 5;;
  (* nat_ip = self.nat.IP() *)
  nat ← gets self_nat;
  n ← lift (attr nat);
  lift (Mininet.IP n net);;
  (* srv_iface = self.server.intfNames()[-1] *)
  server ← gets self_server;
  s ← lift (attr server);
  (if Mininet.intfs s net is [] then raise IndexError else mret tt);;
  effect EvSetDefaultRoute;;
  for_each (mcast_pool cfg) (λ ap, effect (EvSetHostRoute ap.1));;
  (* line 388: the argument of log.debug asks every host for its address *)
  lift (comprehension (λ host, Mininet.IP host net) (Mininet.hosts net));;
  let hosts := filter (λ h, Some h ≠ nat) (Mininet.hosts net) in
  ping_hosts hosts;;
  time_sleep 5;;
  mret hosts.

(** Lines 431-464: what the adapter must report, and the loop that waits
    until it does. *)
Definition wait_for_adapter (fuel : nat) (hosts : list Node) : M unit :=
  server ← gets self_server;
  cloud ← gets self_cloud;
  let expected_nhosts := length hosts in
  let expected_nlinks :=
    (NetworkxSdnTopology.number_of_edges (topo cfg)
     + (if server is Some _ then 1 else 0) + (if cloud is Some _ then 1 else 0))%nat in
  let expected_nswitches :=
    (length (NetworkxSdnTopology.get_switches (topo cfg))
     + (if server is Some _ then 1 else 0) + (if cloud is Some _ then 1 else 0))%nat in
  await_convergence fuel hosts expected_nhosts expected_nlinks expected_nswitches
    0 0 0 1.

Definition configure_experiment (fuel : nat)
    (self_publishers self_subscribers : list Node) : M unit :=
  hosts ← start_network;
  wait_for_adapter fuel hosts;;
  setup_traffic_generators;;
  server ← gets self_server;
  setup_seismic_test self_publishers self_subscribers server.

Definition failure_model
    (self_publishers self_subscribers self_failed_nodes : list Node)
    (self_failed_links : list (string * string)) : M run_result :=
  exp_start_time ← time_time;
  time_sleep (SEISMIC_EVENT_DELAY cfg);;
  changes ← (λ w, (plan_data_path_changes w, w));
  applied ← apply_data_path_changes 0 changes self_failed_links self_failed_nodes [] None;
  let output_dp_changes := applied.1 in
  let quake_time := applied.2 in
  now ← time_time;
  let remaining_time := exp_start_time + EXPERIMENT_DURATION cfg - now in
  (if 0 <? remaining_time then time_sleep remaining_time else mret tt);;
  mret {| quake_start_time := quake_time;
          data_path_changes := output_dp_changes;
          publishers := ip_name_dict self_publishers;
          subscribers := ip_name_dict self_subscribers |}.

Definition run_experiment (fuel : nat)
    (self_publishers self_subscribers self_failed_nodes : list Node)
    (self_failed_links : list (string * string)) : M run_result :=
  configure_experiment fuel self_publishers self_subscribers;;
  failure_model self_publishers self_subscribers self_failed_nodes self_failed_links.

End Experiment.

(** ** A small campus, for running the model

    One building switch [a0], two cloud gateways [g1] and [g0] (listed in
    that order by the topology), two hosts, the server [s0] and the cloud
    [x0].  The dpids are hexadecimal: [00:a0] for [a0], [00:d0] and [00:d1]
    for the gateways, [00:e0] for the switch of the server and [00:f0]
    for that of the cloud. *)

Module Campus.

Definition paths (src dst : string) : result (list string) :=
  if decide (src = "s0") then Ok ["s0"; "a0"; dst]
  else if decide (src = "g0" ∨ src = "g1") then Ok [src; "a0"; dst]
  else Raise NoPath.

Definition topology : NetworkxSdnTopology.t := {|
  NetworkxSdnTopology.get_switches := ["a0"; "g1"; "g0"];
  NetworkxSdnTopology.get_hosts := ["h1"; "h2"];
  NetworkxSdnTopology.get_servers := ["s0"];
  NetworkxSdnTopology.get_clouds := ["x0"];
  NetworkxSdnTopology.get_links :=
    [("s0", "a0", ∅); ("a0", "g0", {[ "bw" := 100 ]}); ("a0", "g1", ∅);
     ("g0", "x0", {[ "latency" := 50 ]}); ("g1", "x0", ∅);
     ("h1", "a0", ∅); ("h2", "a0", ∅)];
  NetworkxSdnTopology.is_cloud_gateway := λ n, bool_decide (n = "g0" ∨ n = "g1");
  NetworkxSdnTopology.get_path := λ src dst _, paths src dst;
  NetworkxSdnTopology.number_of_edges := 7
|}.

(** One rule for every element of the path but its two ends. *)
Definition rules_of_path (path : list string)
    (add_matches : option (gmap string match_value)) (priority : Z)
    : result (list FlowRule) :=
  Ok ((λ dpid, {| fr_dpid := dpid; fr_priority := priority;
                  fr_matches := default ∅ add_matches;
                  fr_actions := [Output 1] |})
        <$> tail (removelast path)).

(** The view of a controller that has found [n_hosts] hosts, [n_links]
    links and [n_switches] switches. *)
Definition view (n_hosts n_links n_switches : nat) : SdnTopology.t := {|
  SdnTopology.get_hosts := replicate n_hosts "host";
  SdnTopology.get_switches := replicate n_switches "switch";
  SdnTopology.number_of_edges := n_links;
  SdnTopology.get_path := λ src dst _, Ok [src; "of:a0"; dst];
  SdnTopology.merge_paths := λ p1 p2, (p1 ++ tail p2)%list;
  SdnTopology.build_matches := λ m, m;
  SdnTopology.build_flow_rules_from_path := rules_of_path
|}.

Definition config (comparison : option string) (ntrees : Z) (with_cloud : bool)
    : Config := {|
  comparison := comparison;
  ntrees := ntrees;
  with_cloud := with_cloud;
  with_ride_c := true;
  with_ride_d := true;
  topology_adapter_type := "onos";
  error_rate := 0;
  mcast_pool := [("224.0.1.100", 5000)];
  topo := topology;
  ALL_PAIRS := false;
  DISTANCE_METRIC := "latency";
  SEISMIC_EVENT_DELAY := 60;
  TIME_BETWEEN_SEISMIC_EVENTS := 10;
  EXPERIMENT_DURATION := 300;
  IPERF_BASE_PORT := 5000;
  PROBE_BASE_SRC_PORT := 9900;
  ECHO_SERVER_PORT := 9999;
  STATIC_PATH_FLOW_RULE_PRIORITY := 65000;
  get_mac_for_switch := λ n _ _, "00:" +:+ str_replace "g" "d" n;
  get_ip_mac_for_host := λ n, ("10.0.0." +:+ n, "aa:" +:+ n);
  mininet_auto_ip_mac := λ k, ("10.9.9." +:+ pretty k, "bb:" +:+ pretty k)
|}.

(** The controller has found everything from the [k]-th adapter on;
    the [j]-th batch installation fails when [fails j]. *)
Definition surroundings (k : nat) (complete : SdnTopology.t) (fails : nat -> bool)
    : Outside := {|
  lag := λ n, Z.of_nat (n mod 2);
  controller_view := λ i, if (i <? k)%nat then view 0 0 0 else complete;
  install_result := λ j, negb (fails j);
  random_hosts := ["h2"]
|}.

Definition initial (out : Outside) : world := {|
  self_net := None; self_hosts := []; self_switches := [];
  self_cloud_gateways := []; self_cloud_switches := []; self_links := [];
  self_nat := None; self_server := None; self_cloud := None;
  self_server_switch := None; self_popens := []; self_client_iperfs := [];
  self_server_iperfs := []; self_topology_adapter := None;
  clock := 1000; trace := []; ticks := 0; n_adapters := 0; n_installs := 0;
  outside := out
|}.

(** One trial: the topology is set up, the publishers, the subscribers
    and the failed nodes are looked up in the emulation, the experiment
    is run. *)
Definition trial (cfg : Config) (fuel : nat) (pubs subs failed_nodes : list string)
    (failed_links : list (string * string)) : M run_result :=
  setup_topology cfg;;
  pubs ← _get_mininet_nodes pubs;
  subs ← _get_mininet_nodes subs;
  failed_nodes ← _get_mininet_nodes failed_nodes;
  run_experiment cfg fuel pubs subs failed_nodes failed_links.

(** The world once the topology of the campus is set up. *)
Definition ready (cfg : Config) (out : Outside) : world :=
  (setup_topology cfg (initial out)).2.

(** The nodes of the emulation of [w] with the given names. *)
Definition nodes (w : world) (names : list string) : list Node :=
  match self_net w with
  | Some net => omap (λ n, Mininet.nameToNode net !! n) names
  | None => []
  end.

(** The world once the topology of the campus is set up and an adapter is
    built. *)
Definition converged (cfg : Config) (out : Outside) : world :=
  (setup_topology_manager (ready cfg out)).2.

End Campus.

(** ** Vocabulary of the properties *)

(** The installation of a batch of flow rules, or the start of a process
    on a host. *)
Definition programs_or_launches (e : event) : bool :=
  match e with
  | EvInstallFlowRules _ _ | EvIperfClient _ _ | EvIperfServer _ | EvPopen _ _ => true
  | _ => false
  end.

Definition is_adapter_view (e : event) : bool :=
  match e with
  | EvBuildTopologyAdapter _ _ _ => true
  | _ => false
  end.

(** The event is part of the discovery of the hosts: a ping or the
    programming of a static ARP entry. *)
Definition is_discovery (e : event) : bool :=
  match e with
  | EvPing _ | EvStaticArp | EvSetARP _ _ _ => true
  | _ => false
  end.

(** The numbers of hosts, links and switches an adapter reports. *)
Definition view_counts (a : SdnTopology.t) : nat * nat * nat :=
  (length (SdnTopology.get_hosts a), SdnTopology.number_of_edges a,
   length (SdnTopology.get_switches a)).

(** What the [i]-th adapter built from the world [w] on will report. *)
Definition nth_view (w : world) (i : nat) : nat * nat * nat :=
  view_counts (controller_view (outside w) (n_adapters w + i)).

(** What one iteration of the loop of [run_experiment] does when the
    adapter it builds reports [counts]: the warnings about what is
    missing, a sleep of 2 seconds when nothing is missing and of 10
    seconds otherwise and, at every fifth try that found something
    missing, the discovery of the hosts once more. *)
Definition iteration_events (hosts : list Node) (expected : nat * nat * nat)
    (ntries : nat) (counts : nat * nat * nat) (discovery : list event) : list event :=
  let matched := bool_decide (counts = expected) in
  [EvBuildTopologyAdapter counts.1.1 counts.1.2 counts.2]
  ++ (if bool_decide (counts.1.1 = expected.1.1) then []
      else [EvLogWarning (MissingHosts counts.1.1 (length hosts))])
  ++ (if bool_decide (counts.1.2 = expected.1.2) then []
      else [EvLogWarning (MissingLinks counts.1.2 expected.1.2)])
  ++ (if bool_decide (counts.2 = expected.2) then []
      else [EvLogWarning (MissingSwitches counts.2 expected.2)])
  ++ [EvSleep (if matched then 2 else 10)]
  ++ (if (ntries mod 5 =? 0)%nat && negb matched
      then EvLogWarning PingingAgain :: discovery else []).

(** [evs] is what one complete call of [ping_hosts] does. *)
Definition discovery_events (cfg : Config) (hosts : list Node) (evs : list event) : Prop :=
  ∃ w w', ping_hosts cfg hosts w = (Ok tt, w') ∧ trace w' = trace w ++ evs.

(** The world [w'] is the world [w] after some more events, all of which
    satisfy [P]. *)
Definition appends (P : event -> Prop) (w w' : world) : Prop :=
  ∃ evs, trace w' = trace w ++ evs ∧ Forall P evs.

(** Nothing but the clock, the record of events, the processes and the
    adapter changed between [w] and [w']: the emulation and the nodes the
    experiment holds are the same. *)
Definition same_emulation (w w' : world) : Prop :=
  self_net w' = self_net w
  ∧ self_cloud_gateways w' = self_cloud_gateways w
  ∧ self_cloud_switches w' = self_cloud_switches w
  ∧ self_nat w' = self_nat w
  ∧ self_server w' = self_server w
  ∧ self_cloud w' = self_cloud w
  ∧ outside w' = outside w.

(** The clock did not go back between [w] and [w'], provided that no
    operation takes less than its nominal time. *)
Definition not_earlier (w w' : world) : Prop :=
  outside w' = outside w
  ∧ ((∀ k, 0 <= lag (outside w) k) -> clock w <= clock w').

(** The surroundings and the number of adapters built are the same in [w]
    and [w']. *)
Definition keeps_outside (w w' : world) : Prop :=
  outside w' = outside w ∧ n_adapters w' = n_adapters w.

(** A computation that does not contain the loop of [run_experiment], or
    contains it with enough fuel, never ends in [Timeout]. *)
Definition finishes {A} (m : M A) : Prop :=
  ∀ w w', m w ≠ (Timeout, w').

(** The hosts of the emulation but the NAT: the list [hosts] of
    [run_experiment]. *)
Definition emulated_hosts (w : world) : list Node :=
  match self_net w with
  | Some net => filter (λ h, Some h ≠ self_nat w) (Mininet.hosts net)
  | None => []
  end.

(** What the adapter must report for the loop of [run_experiment] to end:
    the hosts of the emulation but the NAT, the links of the topology
    model and the switches of the topology model, with one more link and
    one more switch for every server and for every cloud. *)
Definition expected_view (cfg : Config) (w : world) : nat * nat * nat :=
  (length (emulated_hosts w),
   (NetworkxSdnTopology.number_of_edges (topo cfg)
    + length (NetworkxSdnTopology.get_servers (topo cfg))
    + length (NetworkxSdnTopology.get_clouds (topo cfg)))%nat,
   (length (NetworkxSdnTopology.get_switches (topo cfg))
    + length (NetworkxSdnTopology.get_servers (topo cfg))
    + length (NetworkxSdnTopology.get_clouds (topo cfg)))%nat).

(** The experiment object holds one server when the topology has one, and
    a cloud exactly when the topology has one: what [setup_topology]
    leaves for a topology with one server and at most one cloud. *)
Definition server_and_cloud_set (cfg : Config) (w : world) : Prop :=
  (if self_server w is Some _ then 1 else 0)%nat
    = length (NetworkxSdnTopology.get_servers (topo cfg))
  ∧ (if self_cloud w is Some _ then 1 else 0)%nat
    = length (NetworkxSdnTopology.get_clouds (topo cfg)).

(** The event is neither the installation of flow rules, nor the start of
    a process, nor the construction of an adapter. *)
Definition quiet (e : event) : Prop :=
  programs_or_launches e = false ∧ is_adapter_view e = false.

(** If the event is the construction of an adapter, the adapter does not
    report [expected]. *)
Definition mismatching (expected : nat * nat * nat) (e : event) : Prop :=
  ∀ h l s, e = EvBuildTopologyAdapter h l s -> (h, l, s) ≠ expected.

Definition before_convergence (expected : nat * nat * nat) (e : event) : Prop :=
  programs_or_launches e = false ∧ mismatching expected e.

Definition anything (e : event) : Prop := True.

(** The entry of [data_path_changes] recorded at time [t] for the planned
    change [c]. *)
Definition recorded (c : planned_change) (t : Z) : string * status * Z :=
  (c.1.1.1, c.1.2, t).

(** From every world with a started emulation the computation returns a
    value, in a world with a started emulation. *)
Definition returns {A} (m : M A) : Prop :=
  ∀ w, is_Some (self_net w) -> ∃ a w', m w = (Ok a, w') ∧ is_Some (self_net w').

(** The static route of the unicast comparison for the subscriber [sub],
    in the words of the specification: the weighted path of the topology
    model from the original server to the subscriber, every name
    translated to the DPID of its node, after the DPID of the host of the
    server. *)
Definition static_route (cfg : Config) (w : world) (sub : Node) : result (list string) :=
  original_server_name ← getitem0 (NetworkxSdnTopology.get_servers (topo cfg));
  path ← NetworkxSdnTopology.get_path (topo cfg) original_server_name (node_name sub)
           (Some (DISTANCE_METRIC cfg));
  net ← attr (self_net w);
  nodes ← comprehension (λ n, Mininet.get n net) path;
  dpids ← comprehension (get_node_dpid cfg) nodes;
  server_dpid ← get_host_dpid cfg (self_server w);
  mret (server_dpid :: dpids).

(** The flow rules of that route, at the priority of the static paths. *)
Definition static_route_rules (cfg : Config) (w : world) (sub : Node)
    : result (list FlowRule) :=
  route ← static_route cfg w sub;
  adapter ← attr (self_topology_adapter w);
  SdnTopology.build_flow_rules_from_path adapter route None
    (STATIC_PATH_FLOW_RULE_PRIORITY cfg).

(** The installation of one batch and, when it failed, its error
    message. *)
Definition batch_events (rules : list FlowRule) (ok : bool) (m : log_message) : list event :=
  EvInstallFlowRules rules ok :: (if ok then [] else [EvLogError m]).

(** The emulation, the nodes and the adapter are the same in [w] and
    [w']. *)
Definition same_controller (w w' : world) : Prop :=
  same_emulation w w' ∧ self_topology_adapter w' = self_topology_adapter w.

(** The matches of the probes sent from the source port [p]. *)
Definition probe_matches (cfg : Config) (p : Z) : gmap string match_value :=
  {[ "udp_src" := MInt p; "udp_dst" := MInt (ECHO_SERVER_PORT cfg) ]}.

(** The matches [m] with the values of [udp_src] and [udp_dst]
    exchanged. *)
Definition swap_udp_ports (m : gmap string match_value) : gmap string match_value :=
  partial_alter (λ _, m !! "udp_dst") "udp_src"
    (partial_alter (λ _, m !! "udp_src") "udp_dst" m).

(** The path of the probes of the gateway [gw], in the words of the
    specification: the path from the server to the gateway merged with
    the path from the gateway to the cloud. *)
Definition probe_route (cfg : Config) (w : world) (gw : Node) : result (list string) :=
  gw_dpid ← get_switch_dpid cfg gw;
  adapter ← attr (self_topology_adapter w);
  server_dpid ← get_host_dpid cfg (self_server w);
  edge_gw_route ← SdnTopology.get_path adapter server_dpid gw_dpid
                    (Some (DISTANCE_METRIC cfg));
  cloud_dpid ← get_host_dpid cfg (self_cloud w);
  gw_cloud_route ← SdnTopology.get_path adapter gw_dpid cloud_dpid
                     (Some (DISTANCE_METRIC cfg));
  mret (SdnTopology.merge_paths adapter edge_gw_route gw_cloud_route).

(** The rules of a path with given matches, at the priority of the
    static paths. *)
Definition path_rules (cfg : Config) (w : world) (path : list string)
    (matches : gmap string match_value) : result (list FlowRule) :=
  adapter ← attr (self_topology_adapter w);
  SdnTopology.build_flow_rules_from_path adapter path (Some matches)
    (STATIC_PATH_FLOW_RULE_PRIORITY cfg).

(** The forward rules of the probes of a gateway and its port, and their
    reverse rules: the rules of the reversed path with the ports
    exchanged. *)
Definition probe_forward_rules (cfg : Config) (w : world) (gw_port : Node * Z)
    : result (list FlowRule) :=
  route ← probe_route cfg w gw_port.1;
  path_rules cfg w route (probe_matches cfg gw_port.2).

Definition probe_reverse_rules (cfg : Config) (w : world) (gw_port : Node * Z)
    : result (list FlowRule) :=
  route ← probe_route cfg w gw_port.1;
  path_rules cfg w (reverse route) (swap_udp_ports (probe_matches cfg gw_port.2)).

Definition probe_rules (cfg : Config) (w : world) (gw_port : Node * Z)
    : result (list FlowRule) :=
  forward ← probe_forward_rules cfg w gw_port;
  backward ← probe_reverse_rules cfg w gw_port;
  mret (forward ++ backward).

(** The cloud gateways with the source ports of their probes:
    [zip(self.cloud_gateways, src_ports)] with
    [src_ports = range(PROBE_BASE_SRC_PORT, PROBE_BASE_SRC_PORT + len(self.cloud_gateways))]. *)
Definition gateway_ports (cfg : Config) (w : world) : list (Node * Z) :=
  zip (self_cloud_gateways w)
    (seqZ (PROBE_BASE_SRC_PORT cfg) (Z.of_nat (length (self_cloud_gateways w)))).

(** The installation of a batch of flow rules. *)
Definition installs_rules (e : event) : bool :=
  match e with
  | EvInstallFlowRules _ _ => true
  | _ => false
  end.

(** The start of a process of the seismic test on a host; the traffic
    generators are not among them. *)
Definition starts_application (e : event) : bool :=
  match e with
  | EvPopen _ _ => true
  | _ => false
  end.

(** Neither a route is installed nor a process of the seismic test is
    started. *)
Definition before_setup (e : event) : Prop :=
  installs_rules e = false ∧ starts_application e = false.

(** The experiment has no data-path link: no cloud gateway, or no cloud
    switch to pair the gateways with. *)
Definition no_data_path_link (w : world) : Prop :=
  self_cloud_gateways w = [] ∨ self_cloud_switches w = [].

(** What the process started by the event runs. *)
Definition role_of (e : event) : option role :=
  match e with
  | EvPopen _ r => Some r
  | _ => None
  end.

(** The installation of a batch that the controller refused. *)
Definition failed_installation (e : event) : bool :=
  match e with
  | EvInstallFlowRules _ ok => negb ok
  | _ => false
  end.

(** The rules named by the message that follows a failed installation. *)
Definition problem_rules (m : log_message) : option (list FlowRule) :=
  match m with
  | ProblemInstallingSubscriber _ rules
  | ProblemInstallingProbes _ rules
  | ProblemInstallingGateway _ _ rules => Some rules
  | _ => None
  end.

(** The event as it is recorded when every installation succeeds: an
    installation is successful, and there is no message about a failed
    one. *)
Definition had_it_succeeded (e : event) : option event :=
  match e with
  | EvInstallFlowRules rules _ => Some (EvInstallFlowRules rules true)
  | EvLogError m => if problem_rules m is Some _ then None else Some e
  | _ => Some e
  end.

Definition skeleton (evs : list event) : list event := omap had_it_succeeded evs.

(** The world [w] with a controller that accepts every installation, and
    without the failures recorded so far. *)
Definition forget (w : world) : world :=
  {| self_net := self_net w;
     self_hosts := self_hosts w;
     self_switches := self_switches w;
     self_cloud_gateways := self_cloud_gateways w;
     self_cloud_switches := self_cloud_switches w;
     self_links := self_links w;
     self_nat := self_nat w;
     self_server := self_server w;
     self_cloud := self_cloud w;
     self_server_switch := self_server_switch w;
     self_popens := self_popens w;
     self_client_iperfs := self_client_iperfs w;
     self_server_iperfs := self_server_iperfs w;
     self_topology_adapter := self_topology_adapter w;
     clock := clock w;
     trace := skeleton (trace w);
     ticks := ticks w;
     n_adapters := n_adapters w;
     n_installs := n_installs w;
     outside := {| lag := lag (outside w);
                   controller_view := controller_view (outside w);
                   install_result := λ _, true;
                   random_hosts := random_hosts (outside w) |} |}.

(** Every failed installation among the events is followed at once by
    the error message that names its rules. *)
Definition failures_logged (evs : list event) : Prop :=
  ∀ (i : nat) rules,
    evs !! i = Some (EvInstallFlowRules rules false) ->
    ∃ m, evs !! S i = Some (EvLogError m) ∧ problem_rules m = Some rules.

Definition logs_failures (w w' : world) : Prop :=
  ∃ evs, trace w' = trace w ++ evs ∧ failures_logged evs.

(** The computation does the same, and gives the same result, whether
    the installations fail or not. *)
Definition indifferent {A} (m : M A) : Prop :=
  ∀ w r w', m w = (r, w') -> m (forget w) = (r, forget w').

(** The string has no dot. *)
Fixpoint dot_free (s : string) : Prop :=
  match s with
  | EmptyString => True
  | String c s' => c ≠ "."%char ∧ dot_free s'
  end.

(** The relation [R] holds between the world before and the world after
    the computation, whatever its outcome. *)
Definition respects (R : relation world) {A} (m : M A) : Prop :=
  ∀ w r w', m w = (r, w') -> R w w'.

(** ** Vocabulary of the properties of [setup_topology] *)

(** The emulation of the experiment; the empty one before it is built. *)
Definition emulation (w : world) : Mininet.t := default Mininet.empty (self_net w).

Definition host_names (w : world) : list string :=
  node_name <$> Mininet.hosts (emulation w).

Definition switch_names (w : world) : list string :=
  node_name <$> Mininet.switches (emulation w).

Definition controller_names (w : world) : list string :=
  node_name <$> Mininet.controllers (emulation w).

(** The names of the two ends of a link. *)
Definition link_ends (l : Link) : string * string :=
  (node_name (link_node1 l), node_name (link_node2 l)).

(** The names of the nodes of an emulation: those of its hosts, of its
    switches and of its controllers. *)
Definition net_names (net : Mininet.t) : list string :=
  (node_name <$> Mininet.hosts net) ++ (node_name <$> Mininet.switches net)
  ++ (node_name <$> Mininet.controllers net).

(** The registry of an emulation binds every name to a node of that
    name, and binds exactly the names of its hosts, of its switches and
    of its controllers. *)
Definition net_registry_ok (net : Mininet.t) : Prop :=
  (∀ n x, Mininet.nameToNode net !! n = Some x -> node_name x = n)
  ∧ (∀ n, is_Some (Mininet.nameToNode net !! n) <-> n ∈ net_names net).

Definition registry_ok (w : world) : Prop := net_registry_ok (emulation w).

(** The names [setup_topology] gives to the switches and to the hosts of
    the emulation, in the order in which it adds them, before the NAT. *)
Definition emulated_switch_names (cfg : Config) : list string :=
  NetworkxSdnTopology.get_switches (topo cfg)
  ++ NetworkxSdnTopology.get_servers (topo cfg)
  ++ (if with_cloud cfg then NetworkxSdnTopology.get_clouds (topo cfg) else []).

Definition emulated_host_names (cfg : Config) : list string :=
  NetworkxSdnTopology.get_hosts (topo cfg)
  ++ ((λ s, "h" +:+ s) <$> NetworkxSdnTopology.get_servers (topo cfg))
  ++ (NetworkxSdnTopology.get_clouds (topo cfg)
        ≫= λ c, if with_cloud cfg then ["h" +:+ c] else [c; c]).

(** The names bound when [setup_topology] comes to the links: those of
    the hosts, of the switches and of the controller [c0]. *)
Definition emulated_names (cfg : Config) : list string :=
  emulated_host_names cfg ++ emulated_switch_names cfg ++ ["c0"].

(** The switches that [setup_topology] asks for, in order, each with the
    dpid it gives: those of the topology model, one per server and, with
    [with_cloud], one per cloud. *)
Definition requested_switches (cfg : Config) : list (string * string) :=
  ((λ s, (s, get_mac_for_switch cfg s false false))
     <$> NetworkxSdnTopology.get_switches (topo cfg))
  ++ ((λ s, (s, get_mac_for_switch cfg (str_replace "s" "e" s) true false))
        <$> NetworkxSdnTopology.get_servers (topo cfg))
  ++ (if with_cloud cfg
      then (λ c, (c, get_mac_for_switch cfg (str_replace "x" "f" c) false true))
             <$> NetworkxSdnTopology.get_clouds (topo cfg)
      else []).

(** The exception with which the constructor of a switch refuses a
    dpid. *)
Definition refused (switch : string * string) : option exn :=
  match Mininet.defaultDpid switch.1 switch.2 with
  | Raise e => Some e
  | _ => None
  end.

(** The exception for the first switch whose dpid is refused. *)
Definition first_refused_dpid (cfg : Config) : option exn :=
  head (omap refused (requested_switches cfg)).

(** The names of what the experiment holds and of what the emulation is
    made of. *)
Record inventory : Type := {
  inv_switches : list string;        (* self.switches *)
  inv_cloud_gateways : list string;  (* self.cloud_gateways *)
  inv_hosts : list string;           (* self.hosts *)
  inv_cloud_switches : list string;  (* self.cloud_switches *)
  inv_links : list (string * string);      (* self.links *)
  inv_net_switches : list string;    (* self.net.switches *)
  inv_net_hosts : list string;       (* self.net.hosts *)
  inv_net_links : list (string * string);  (* self.net.links *)
  inv_net_controllers : list string  (* self.net.controllers *)
}.

Definition inventory_of (w : world) : inventory := {|
  inv_switches := node_name <$> self_switches w;
  inv_cloud_gateways := node_name <$> self_cloud_gateways w;
  inv_hosts := node_name <$> self_hosts w;
  inv_cloud_switches := node_name <$> self_cloud_switches w;
  inv_links := link_ends <$> self_links w;
  inv_net_switches := switch_names w;
  inv_net_hosts := host_names w;
  inv_net_links := link_ends <$> Mininet.links (emulation w);
  inv_net_controllers := controller_names w
|}.

Definition inventory_app (a b : inventory) : inventory := {|
  inv_switches := inv_switches a ++ inv_switches b;
  inv_cloud_gateways := inv_cloud_gateways a ++ inv_cloud_gateways b;
  inv_hosts := inv_hosts a ++ inv_hosts b;
  inv_cloud_switches := inv_cloud_switches a ++ inv_cloud_switches b;
  inv_links := inv_links a ++ inv_links b;
  inv_net_switches := inv_net_switches a ++ inv_net_switches b;
  inv_net_hosts := inv_net_hosts a ++ inv_net_hosts b;
  inv_net_links := inv_net_links a ++ inv_net_links b;
  inv_net_controllers := inv_net_controllers a ++ inv_net_controllers b
|}.

Definition inventory_empty : inventory := {|
  inv_switches := []; inv_cloud_gateways := []; inv_hosts := [];
  inv_cloud_switches := []; inv_links := []; inv_net_switches := [];
  inv_net_hosts := []; inv_net_links := []; inv_net_controllers := []
|}.

(** What the body of each loop of [setup_topology] adds for one element
    of the topology model. *)
Definition switch_inventory (cfg : Config) (switch : string) : inventory := {|
  inv_switches := [switch];
  inv_cloud_gateways :=
    if NetworkxSdnTopology.is_cloud_gateway (topo cfg) switch then [switch] else [];
  inv_hosts := []; inv_cloud_switches := []; inv_links := [];
  inv_net_switches := [switch]; inv_net_hosts := []; inv_net_links := [];
  inv_net_controllers := []
|}.

Definition host_inventory (host : string) : inventory := {|
  inv_switches := []; inv_cloud_gateways := []; inv_hosts := [host];
  inv_cloud_switches := []; inv_links := [];
  inv_net_switches := []; inv_net_hosts := [host]; inv_net_links := [];
  inv_net_controllers := []
|}.

Definition server_inventory (server : string) : inventory := {|
  inv_switches := []; inv_cloud_gateways := []; inv_hosts := [];
  inv_cloud_switches := []; inv_links := [];
  inv_net_switches := [server]; inv_net_hosts := ["h" +:+ server];
  inv_net_links := [(server, "h" +:+ server)];
  inv_net_controllers := []
|}.

Definition cloud_inventory (cfg : Config) (cloud : string) : inventory :=
  if with_cloud cfg then
    {| inv_switches := []; inv_cloud_gateways := []; inv_hosts := [];
       inv_cloud_switches := [cloud]; inv_links := [];
       inv_net_switches := [cloud]; inv_net_hosts := ["h" +:+ cloud];
       inv_net_links := [(cloud, "h" +:+ cloud)];
       inv_net_controllers := [] |}
  else
    {| inv_switches := []; inv_cloud_gateways := []; inv_hosts := [];
       inv_cloud_switches := []; inv_links := [];
       inv_net_switches := []; inv_net_hosts := [cloud; cloud];
       inv_net_links := []; inv_net_controllers := [] |}.

Definition link_inventory (link : string * string * gmap string Z) : inventory := {|
  inv_switches := []; inv_cloud_gateways := []; inv_hosts := [];
  inv_cloud_switches := []; inv_links := [(link.1.1, link.1.2)];
  inv_net_switches := []; inv_net_hosts := [];
  inv_net_links := [(link.1.1, link.1.2)];
  inv_net_controllers := []
|}.

(** The inventories of the elements of [l], one after the other. *)
Definition inventories {X} (f : X -> inventory) (l : list X) : inventory :=
  foldr (λ x acc, inventory_app (f x) acc) inventory_empty l.

(** The first end of a link of the topology model that is none of the
    names [names], the links taken in order and the first end of a link
    before its second. *)
Definition unknown_end (names : list string)
    (link : string * string * gmap string Z) : option string :=
  if decide (link.1.1 ∈ names) then
    if decide (link.1.2 ∈ names) then None else Some link.1.2
  else Some link.1.1.

Definition first_unknown_end (cfg : Config) : option string :=
  head (omap (unknown_end (emulated_names cfg))
          (NetworkxSdnTopology.get_links (topo cfg))).

(** The experiment holds the same server, or the same cloud. *)
Definition same_server (w w' : world) : Prop := self_server w' = self_server w.

Definition same_cloud (w w' : world) : Prop := self_cloud w' = self_cloud w.

(** The bodies of the loops of [setup_topology] over the switches, the
    servers and the clouds (lines 227-232 and 239-271), as the definition
    has them. *)
Definition add_switch (cfg : Config) (switch : string) : M unit :=
  let mac := get_mac_for_switch cfg switch false false in
  s ← try_net (Mininet.addSwitch switch mac);
  modify (λ w, set_self_switches (self_switches w ++ [s]) w);;
  if NetworkxSdnTopology.is_cloud_gateway (topo cfg) switch
  then modify (λ w, set_self_cloud_gateways (self_cloud_gateways w ++ [s]) w)
  else mret tt.

Definition add_host (cfg : Config) (host : string) : M unit :=
  let '(_ip, _mac) := get_ip_mac_for_host cfg host in
  h ← on_net (Mininet.addHost host _ip _mac Host);
  modify (λ w, set_self_hosts (self_hosts w ++ [h]) w).

Definition add_server (cfg : Config) (server : string) : M unit :=
  let server_switch_name := str_replace "s" "e" server in
  let server_switch_dpid := get_mac_for_switch cfg server_switch_name true false in
  server_switch ← try_net (Mininet.addSwitch server server_switch_dpid);
  modify (set_self_server_switch (Some server_switch));;
  let host := "h" +:+ server in
  let '(_ip, _mac) := get_ip_mac_for_host cfg host in
  s ← on_net (Mininet.addHost host _ip _mac Host);
  modify (set_self_server (Some s));;
  on_net (Mininet.addLink server_switch s None);;
  mret tt.

Definition add_cloud (cfg : Config) (cloud : string) : M unit :=
  if with_cloud cfg then
    let cloud_switch_name := str_replace "x" "f" cloud in
    let cloud_switch_dpid := get_mac_for_switch cfg cloud_switch_name false true in
    cloud_switch ← try_net (Mininet.addSwitch cloud cloud_switch_dpid);
    modify (λ w, set_self_cloud_switches (self_cloud_switches w ++ [cloud_switch]) w);;
    let host := "h" +:+ cloud in
    let '(_ip, _mac) := get_ip_mac_for_host cfg host in
    c ← on_net (Mininet.addHost host _ip _mac Host);
    modify (set_self_cloud (Some c));;
    on_net (Mininet.addLink cloud_switch c None);;
    mret tt
  else
    on_net (λ net, let '(_ip, _mac) := mininet_auto_ip_mac cfg (Mininet.next_id net) in
                   Mininet.addHost cloud _ip _mac Host net);;
    c ← on_net (λ net, let '(_ip, _mac) := mininet_auto_ip_mac cfg (Mininet.next_id net) in
                       Mininet.addHost cloud _ip _mac Host net);
    modify (set_self_cloud (Some c)).

(** The body of the loop of [setup_topology] over the links (lines
    272-288), as the definition has it. *)
Definition add_link (cfg : Config) (link : string * string * gmap string Z) : M unit :=
  let from_link := link.1.1 in
  let to_link := link.1.2 in
  let attributes := link.2 in
  let _bw := default 10 (attributes !! "bw") in
  let _delay := default 10 (attributes !! "latency") in
  let _jitter := 1 in
  let _loss := error_rate cfg in
  net ← the_net;
  n1 ← lift (Mininet.get from_link net);
  n2 ← lift (Mininet.get to_link net);
  l ← on_net (Mininet.addLink n1 n2
                (Some {| tc_bw := _bw; tc_delay_ms := _delay;
                         tc_jitter_ms := _jitter; tc_loss := _loss |}));
  modify (λ w, set_self_links (self_links w ++ [l]) w).

(** What the loops of [setup_topology] over the switches, the hosts, the
    servers and the clouds add. *)
Definition nodes_inventory (cfg : Config) : inventory :=
  inventory_app (inventories (switch_inventory cfg)
                   (NetworkxSdnTopology.get_switches (topo cfg)))
    (inventory_app (inventories host_inventory
                      (NetworkxSdnTopology.get_hosts (topo cfg)))
       (inventory_app (inventories server_inventory
                         (NetworkxSdnTopology.get_servers (topo cfg)))
          (inventories (cloud_inventory cfg)
             (NetworkxSdnTopology.get_clouds (topo cfg))))).

(** The end of [setup_topology] (lines 290-306): the NAT is added and
    linked to the server. *)
Definition add_nat (cfg : Config) : M unit :=
  server ← gets self_server;
  nat ← on_net (λ net, let '(_ip, _mac) := mininet_auto_ip_mac cfg (Mininet.next_id net) in
                       Mininet.addHost "nat0" _ip _mac NAT net);
  match server with
  | Some s => on_net (Mininet.addLink nat s None);; mret tt
  | None => mret tt
  end;;
  modify (set_self_nat (Some nat));;
  (* sorted(self.server.intfNames())[-1] *)
  lift (attr server);;
  mret tt.

(** What the end of [setup_topology] adds when the server is [s]. *)
Definition nat_inventory (s : Node) : inventory := {|
  inv_switches := []; inv_cloud_gateways := []; inv_hosts := [];
  inv_cloud_switches := []; inv_links := [];
  inv_net_switches := []; inv_net_hosts := ["nat0"];
  inv_net_links := [("nat0", node_name s)];
  inv_net_controllers := []
|}.

(** What the beginning of [setup_topology] makes (lines 209-221): a new
    emulation with the controller [c0]. *)
Definition new_emulation (w : world) : world :=
  set_self_net (Some (Mininet.addController "c0" Mininet.empty).2) w.

(** [setup_topology], loop by loop. *)
Definition setup_topology_loops (cfg : Config) : M unit :=
  for_each (NetworkxSdnTopology.get_switches (topo cfg)) (add_switch cfg);;
  for_each (NetworkxSdnTopology.get_hosts (topo cfg)) (add_host cfg);;
  for_each (NetworkxSdnTopology.get_servers (topo cfg)) (add_server cfg);;
  for_each (NetworkxSdnTopology.get_clouds (topo cfg)) (add_cloud cfg);;
  for_each (NetworkxSdnTopology.get_links (topo cfg)) (add_link cfg);;
  add_nat cfg.

(** The world that [setup_topology] leaves when it returns from [w]. *)
Definition setup_topology_built (cfg : Config) (w w' : world) : Prop :=
  ∃ s,
    self_server w' = Some s
    ∧ inventory_of w'
      = inventory_app
          (inventory_app
             (inventory_app (inventory_of (new_emulation w)) (nodes_inventory cfg))
             (inventories link_inventory (NetworkxSdnTopology.get_links (topo cfg))))
          (nat_inventory s)
    ∧ registry_ok w'
    ∧ (node_name <$> self_nat w') = Some "nat0"
    ∧ (node_class_of <$> self_nat w') = Some NAT
    ∧ (node_name <$> self_server w')
      = from_option (λ s, Some ("h" +:+ s)) (node_name <$> self_server w)
          (last (NetworkxSdnTopology.get_servers (topo cfg)))
    ∧ (node_name <$> self_cloud w')
      = from_option (λ c, Some (if with_cloud cfg then "h" +:+ c else c))
          (node_name <$> self_cloud w)
          (last (NetworkxSdnTopology.get_clouds (topo cfg))).

(** The hosts of the emulation that have no interface. *)
Definition hosts_without_interface (net : Mininet.t) : list Node :=
  filter (λ h, Mininet.intfs h net = []) (Mininet.hosts net).

(** Every node that the emulation knows by a name or by a link was made
    before the next one will be: its identity is below [next_id]. *)
Definition net_fresh (net : Mininet.t) : Prop :=
  (∀ n x, Mininet.nameToNode net !! n = Some x ->
          (node_id x < Mininet.next_id net)%nat)
  ∧ (∀ l, l ∈ Mininet.links net ->
          (node_id (link_node1 l) < Mininet.next_id net)%nat
          ∧ (node_id (link_node2 l) < Mininet.next_id net)%nat).

Definition fresh (w : world) : Prop := net_fresh (emulation w).

(** The server of the experiment is a node of its emulation. *)
Definition server_fresh (w : world) : Prop :=
  ∃ s, self_server w = Some s ∧ (node_id s < Mininet.next_id (emulation w))%nat.

(** The host [d] of the emulation is bound to no name, is no end of a
    link and is not the server. *)
Definition unlinked (d : Node) (w : world) : Prop :=
  d ∈ Mininet.hosts (emulation w)
  ∧ (∀ n x, Mininet.nameToNode (emulation w) !! n = Some x -> x ≠ d)
  ∧ (∀ l, l ∈ Mininet.links (emulation w) -> link_node1 l ≠ d ∧ link_node2 l ≠ d)
  ∧ self_server w ≠ Some d
  ∧ (node_id d < Mininet.next_id (emulation w))%nat.


(** ** Vocabulary of the exact records of events *)

(** From the world [w] the computation [m] ends with the result [r], after
    exactly the events [evs], in a world related to [w] by [R]. *)
Definition performs (R : relation world) {A} (m : M A) (w : world)
    (r : result A) (evs : list event) : Prop :=
  ∃ w', m w = (r, w') ∧ trace w' = trace w ++ evs ∧ R w w'.

(** ** Variants of the small campus *)

(** The configuration [cfg] for another topology model. *)
Definition on_topology (t : NetworkxSdnTopology.t) (cfg : Config) : Config := {|
  comparison := comparison cfg;
  ntrees := ntrees cfg;
  with_cloud := with_cloud cfg;
  with_ride_c := with_ride_c cfg;
  with_ride_d := with_ride_d cfg;
  topology_adapter_type := topology_adapter_type cfg;
  error_rate := error_rate cfg;
  mcast_pool := mcast_pool cfg;
  topo := t;
  ALL_PAIRS := ALL_PAIRS cfg;
  DISTANCE_METRIC := DISTANCE_METRIC cfg;
  SEISMIC_EVENT_DELAY := SEISMIC_EVENT_DELAY cfg;
  TIME_BETWEEN_SEISMIC_EVENTS := TIME_BETWEEN_SEISMIC_EVENTS cfg;
  EXPERIMENT_DURATION := EXPERIMENT_DURATION cfg;
  IPERF_BASE_PORT := IPERF_BASE_PORT cfg;
  PROBE_BASE_SRC_PORT := PROBE_BASE_SRC_PORT cfg;
  ECHO_SERVER_PORT := ECHO_SERVER_PORT cfg;
  STATIC_PATH_FLOW_RULE_PRIORITY := STATIC_PATH_FLOW_RULE_PRIORITY cfg;
  get_mac_for_switch := get_mac_for_switch cfg;
  get_ip_mac_for_host := get_ip_mac_for_host cfg;
  mininet_auto_ip_mac := mininet_auto_ip_mac cfg
|}.

(** The campus without its cloud: the building switch, the two gateways,
    the two hosts and the server. *)
Definition campus_without_cloud : NetworkxSdnTopology.t := {|
  NetworkxSdnTopology.get_switches := ["a0"; "g1"; "g0"];
  NetworkxSdnTopology.get_hosts := ["h1"; "h2"];
  NetworkxSdnTopology.get_servers := ["s0"];
  NetworkxSdnTopology.get_clouds := [];
  NetworkxSdnTopology.get_links :=
    [("s0", "a0", ∅); ("a0", "g0", {[ "bw" := 100 ]}); ("a0", "g1", ∅);
     ("h1", "a0", ∅); ("h2", "a0", ∅)];
  NetworkxSdnTopology.is_cloud_gateway := λ n, bool_decide (n = "g0" ∨ n = "g1");
  NetworkxSdnTopology.get_path := λ src dst _, Campus.paths src dst;
  NetworkxSdnTopology.number_of_edges := 5
|}.

(** The campus whose switches [g0] and [g1] are no cloud gateways. *)
Definition campus_without_gateways : NetworkxSdnTopology.t := {|
  NetworkxSdnTopology.get_switches := ["a0"; "g1"; "g0"];
  NetworkxSdnTopology.get_hosts := ["h1"; "h2"];
  NetworkxSdnTopology.get_servers := ["s0"];
  NetworkxSdnTopology.get_clouds := ["x0"];
  NetworkxSdnTopology.get_links :=
    [("s0", "a0", ∅); ("a0", "g0", {[ "bw" := 100 ]}); ("a0", "g1", ∅);
     ("g0", "x0", {[ "latency" := 50 ]}); ("g1", "x0", ∅);
     ("h1", "a0", ∅); ("h2", "a0", ∅)];
  NetworkxSdnTopology.is_cloud_gateway := λ _, false;
  NetworkxSdnTopology.get_path := λ src dst _, Campus.paths src dst;
  NetworkxSdnTopology.number_of_edges := 7
|}.

(** ** Vocabulary of the failure model *)

(** What one planned change of a data path does: the wait, then the new
    status of the link. *)
Definition change_events (c : planned_change) : list event :=
  [EvSleep c.2; EvConfigLinkStatus c.1.1.1 c.1.1.2 c.1.2].

(** The earthquake: the failed links are taken down, in order, then the
    failed nodes are stopped, in order. *)
Definition quake_events (failed_links : list (string * string))
    (failed_nodes : list Node) : list event :=
  ((λ link : string * string, EvConfigLinkStatus link.1 link.2 down) <$> failed_links)
  ++ (EvStop <$> failed_nodes).

(** ** Vocabulary of the processes of the seismic test *)

(** The processes, the emulation and the nodes the experiment holds are
    the same in [w] and [w']. *)
Definition keeps_processes (w w' : world) : Prop :=
  self_popens w' = self_popens w ∧ same_emulation w w'.

(** The process of the client [c] of the seismic test. *)
Definition client_process (sensors subscribers : list Node) (c : Node) : Node * role :=
  (c, Client (bool_decide (c ∈ sensors)) (bool_decide (c ∈ subscribers))).

(** ** Vocabulary of the static routes from the cloud gateways *)

(** The static route from the gateway [gw] to the subscriber [sub]: the
    path of the topology model from the gateway to the subscriber, not
    weighted, every name translated to the DPID of its node, after the
    DPID of the first cloud switch. *)
Definition gateway_route (cfg : Config) (w : world) (sub gw : Node) : result (list string) :=
  path ← NetworkxSdnTopology.get_path (topo cfg) (node_name gw) (node_name sub) None;
  net ← attr (self_net w);
  nodes ← comprehension (λ n, Mininet.get n net) path;
  dpids ← comprehension (get_node_dpid cfg) nodes;
  cloud_switch ← getitem0 (self_cloud_switches w);
  cloud_switch_dpid ← get_node_dpid cfg cloud_switch;
  mret (cloud_switch_dpid :: dpids).

(** The matches of the routes to the subscriber [sub]: its address as the
    destination and the address of the cloud as the source. *)
Definition gateway_matches (w : world) (sub : Node) : result (gmap string match_value) :=
  adapter ← attr (self_topology_adapter w);
  c ← attr (self_cloud w);
  mret (SdnTopology.build_matches adapter
          {[ "ipv4_dst" := MStr (node_IP sub); "ipv4_src" := MStr (node_IP c) ]}).

(** The rules of the route from a gateway to a subscriber, with given
    matches and with the matches of the subscriber. *)
Definition gateway_rules (cfg : Config) (sub : Node) (matches : gmap string match_value)
    (w : world) (gw : Node) : result (list FlowRule) :=
  route ← gateway_route cfg w sub gw;
  path_rules cfg w route matches.

Definition gateway_route_rules (cfg : Config) (w : world) (sub_gw : Node * Node)
    : result (list FlowRule) :=
  matches ← gateway_matches w sub_gw.1;
  gateway_rules cfg sub_gw.1 matches w sub_gw.2.

(** The subscribers paired with the cloud gateways, in the order in which
    [setup_seismic_test] walks them. *)
Definition subscriber_gateways (w : world) (subscribers : list Node) : list (Node * Node) :=
  subscribers ≫= λ sub, (λ gw, (sub, gw)) <$> self_cloud_gateways w.

(** The body of the loop of [cloud_gateway_routes] over the subscribers
    (lines 811-826), as the definition has it. *)
Definition subscriber_gateway_routes (cfg : Config) (sub : Node) : M unit :=
  let sub_ip := node_IP sub in
  adapter ← the_adapter;
  cloud ← gets self_cloud;
  c ← lift (attr cloud);
  let matches :=
    SdnTopology.build_matches adapter
      {[ "ipv4_dst" := MStr sub_ip; "ipv4_src" := MStr (node_IP c) ]} in
  cloud_gateways ← gets self_cloud_gateways;
  for_each cloud_gateways (install_gateway_route cfg sub matches).

(** The events of the installation of the batches [batches] for the
    elements [l], the first of them being the [n]-th installation. *)
Definition installation_events {X} (out : Outside) (n : nat)
    (msg : X -> list FlowRule -> log_message) (l : list X) (batches : list (list FlowRule))
    : list event :=
  concat (imap (λ i xr, batch_events xr.2 (install_result out (n + i)) (msg xr.1 xr.2))
            (zip l batches)).

(** ** [teardown_experiment] (lines 928-1086)

    The end of a run is modelled apart: it talks to the processes, to the
    shell and to the REST API of the controller, which the rest of the
    experiment does not, and it handles [OSError].  The attributes of the
    experiment object are those of [world]. *)

Module Teardown.

Inductive exn : Type := OSError | IOError | AttributeError | IndexError | TypeError.

#[global] Instance exn_eq_dec : EqDecision exn.
Proof. solve_decision. Defined.

(** [Timeout] is the outcome of a loop whose fuel ran out. *)
Inductive outcome (A : Type) : Type :=
  | Ok (a : A)
  | Raise (e : exn)
  | Timeout.
Arguments Ok {A} a.
Arguments Raise {A} e.
Arguments Timeout {A}.

(** What a call to the surroundings gives. *)
Inductive reply (A : Type) : Type :=
  | Returns (a : A)
  | Raises (e : exn).
Arguments Returns {A} a.
Arguments Raises {A} e.

Definition outcome_of {A} (r : reply A) : outcome A :=
  match r with
  | Returns a => Ok a
  | Raises e => Raise e
  end.

(** The [Popen] objects the experiment holds: those of [self.popens], of
    [self.client_iperfs] and of [self.server_iperfs]. *)
Inductive process : Type :=
  | Scale (host : Node) (r : role)
  | IperfClient (port : Z)
  | IperfServer (port : Z).

(** The shell commands of [config.py] and the one of the file. *)
Inductive command : Type :=
  | CLEANUP_SCALE_CLIENTS
  | MININET_CLEAN            (* 'sudo mn -c > /dev/null 2>&1' *)
  | CONTROLLER_RESET_CMD
  | CONTROLLER_SERVICE_RESTART_CMD
  | RESET_OVS
  | RUN_OVS.

Inductive message : Type :=
  | ProcessNeverQuit
  | NowExited (code : Z)
  | ClientNeverQuit
  | ClientNetworkUnreachable
  | ClientExited (code : Z)
  | ServerExited (code : Z)
  | CloudExited (code : Z)
  | StoppingMininetFailed (e : exn)
  | SwitchesLeft (switches : list string)
  | NoTopologyAdapter.

(** What the teardown does to the processes, to the shell, to the
    emulation and to the controller.  Messages of the levels debug and
    info are left out. *)
Inductive event : Type :=
  | EvSleep (secs : Z)
  | EvPoll (p : process)
  | EvKill (p : process)
  | EvWait (p : process)
  | EvStart (c : command)
  | EvWaitFor (c : command)
  | EvCLI
  | EvNetStop
  | EvGetHosts
  | EvGetSwitches
  | EvRemoveAllFlowRules
  | EvRemoveAllGroups
  | EvGetGroups
  | EvLogError (m : message)
  | EvLogWarning (m : message).

(** The answers of the surroundings: what the [k]-th [poll], [kill] and
    [wait] give, whether stopping the emulation fails, what the [k]-th
    query of the hosts and of the switches of the controller gives, and
    the groups left at the [k]-th query. *)
Record Surroundings : Type := {
  poll_answer : nat -> option Z;
  kill_answer : nat -> reply unit;
  wait_answer : nat -> Z;
  net_stop_answer : reply unit;
  get_hosts_answer : nat -> reply (list string);
  get_switches_answer : nat -> reply (list string);
  get_groups_answer : nat -> list string
}.

(** The constants of [config.py] and of the platform, and the argument
    [show_cli] of the constructor. *)
Record Constants : Type := {
  show_cli : bool;
  TESTING : bool;
  SLEEP_TIME_BETWEEN_RUNS : Z;
  ENETUNREACH : Z
}.

Record state : Type := {
  self : world;
  log : list event;
  polls : nat;
  kills : nat;
  waits : nat;
  host_queries : nat;
  switch_queries : nat;
  group_queries : nat
}.

Definition T (A : Type) : Type := state -> outcome A * state.

#[global] Instance T_ret : MRet T := λ A a s, (Ok a, s).

#[global] Instance T_bind : MBind T := λ A B f m s,
  match m s with
  | (Ok a, s') => f a s'
  | (Raise e, s') => (Raise e, s')
  | (Timeout, s') => (Timeout, s')
  end.

Definition raise {A} (e : exn) : T A := λ s, (Raise e, s).

Definition timeout {A} : T A := λ s, (Timeout, s).

Definition gets {A} (f : state -> A) : T A := λ s, (Ok (f s), s).

(** [try: body except kind as e: handler e]. *)
Definition try_except {A} (body : T A) (kind : exn) (handler : exn -> T A) : T A := λ s,
  match body s with
  | (Raise e, s') => if decide (e = kind) then handler e s' else (Raise e, s')
  | other => other
  end.

Definition emit (e : event) : T unit := λ s,
  (Ok tt, {| self := self s; log := log s ++ [e]; polls := polls s; kills := kills s;
             waits := waits s; host_queries := host_queries s;
             switch_queries := switch_queries s; group_queries := group_queries s |}).

(** An assignment to attributes of the experiment object. *)
Definition assign (f : world -> world) : T unit := λ s,
  (Ok tt, {| self := f (self s); log := log s; polls := polls s; kills := kills s;
             waits := waits s; host_queries := host_queries s;
             switch_queries := switch_queries s; group_queries := group_queries s |}).

(** Reading an attribute of an object that may be [None]. *)
Definition attr {A} (o : option A) : T A :=
  match o with
  | Some a => mret a
  | None => raise AttributeError
  end.

(** [l[i]]. *)
Definition getitem {A} (l : list A) (i : nat) : T A :=
  match l !! i with
  | Some a => mret a
  | None => raise IndexError
  end.

(** [time.sleep(secs)]: refuses a negative duration. *)
Definition sleep (secs : Z) : T unit :=
  if secs <? 0 then raise IOError else emit (EvSleep secs).

Fixpoint for_each {A} (l : list A) (body : A -> T unit) : T unit :=
  match l with
  | [] => mret tt
  | x :: l' => body x;; for_each l' body
  end.

Section Teardown.

Context (cfg : Config) (k : Constants) (out : Surroundings).

(** [proc.poll()], [proc.kill()] and [proc.wait()]. *)
Definition poll (p : process) : T (option Z) := λ s,
  (Ok (poll_answer out (polls s)),
   {| self := self s; log := log s ++ [EvPoll p]; polls := S (polls s); kills := kills s;
      waits := waits s; host_queries := host_queries s;
      switch_queries := switch_queries s; group_queries := group_queries s |}).

Definition kill (p : process) : T unit := λ s,
  (outcome_of (kill_answer out (kills s)),
   {| self := self s; log := log s ++ [EvKill p]; polls := polls s; kills := S (kills s);
      waits := waits s; host_queries := host_queries s;
      switch_queries := switch_queries s; group_queries := group_queries s |}).

Definition wait (p : process) : T Z := λ s,
  (Ok (wait_answer out (waits s)),
   {| self := self s; log := log s ++ [EvWait p]; polls := polls s; kills := kills s;
      waits := S (waits s); host_queries := host_queries s;
      switch_queries := switch_queries s; group_queries := group_queries s |}).

(** [self.topology_adapter.rest_api.get_hosts()] and [get_switches()]. *)
Definition rest_get_hosts : T (list string) := λ s,
  (outcome_of (get_hosts_answer out (host_queries s)),
   {| self := self s; log := log s ++ [EvGetHosts]; polls := polls s; kills := kills s;
      waits := waits s; host_queries := S (host_queries s);
      switch_queries := switch_queries s; group_queries := group_queries s |}).

Definition rest_get_switches : T (list string) := λ s,
  (outcome_of (get_switches_answer out (switch_queries s)),
   {| self := self s; log := log s ++ [EvGetSwitches]; polls := polls s; kills := kills s;
      waits := waits s; host_queries := host_queries s;
      switch_queries := S (switch_queries s); group_queries := group_queries s |}).

(** [self.topology_adapter.get_groups()]. *)
Definition get_groups : T (list string) := λ s,
  (Ok (get_groups_answer out (group_queries s)),
   {| self := self s; log := log s ++ [EvGetGroups]; polls := polls s; kills := kills s;
      waits := waits s; host_queries := host_queries s;
      switch_queries := switch_queries s; group_queries := S (group_queries s) |}).

(** [self.net.stop()]. *)
Definition net_stop : T unit := λ s,
  (outcome_of (net_stop_answer out),
   {| self := self s; log := log s ++ [EvNetStop]; polls := polls s; kills := kills s;
      waits := waits s; host_queries := host_queries s;
      switch_queries := switch_queries s; group_queries := group_queries s |}).

(** [p = Popen(c, shell=True); p.wait()]. *)
Definition run_command (c : command) : T unit :=
  emit (EvStart c);; emit (EvWaitFor c).

(** The nested function [wait_then_kill] (lines 935-947), with its
    default arguments [timeout = 1] and [wait_time = 2].

    [wait_loop] is the [for] loop: its result is the last value of [ret]
    and whether the loop was left by [break]. *)
Fixpoint wait_loop (proc : process) (timeout : Z) (range : list Z) (ret : option Z)
    : T (option Z * bool) :=
  match range with
  | [] => mret (ret, false)
  | _ :: range' =>
      ret ← poll proc;
      if ret is Some _ then mret (ret, true)
      else sleep timeout;; wait_loop proc timeout range' ret
  end.

Definition wait_then_kill (proc : process) : T (option Z) :=
  let timeout := 1 in
  let wait_time := 2 in
  let ret := None in
  '(ret, left_by_break) ← wait_loop proc timeout (py_range (wait_time / timeout)) ret;
  if left_by_break : bool then mret ret
  else
    (* the [else] of the [for]: the loop was not left by [break] *)
    emit (EvLogError ProcessNeverQuit);;
    kill proc;;
    ret ← wait proc;
    emit (EvLogError (NowExited ret));;
    mret (Some ret).

(** Lines 949-962: the clients are inspected first. *)
Definition inspect_client (p : Node * role) : T unit :=
  ret ← wait_then_kill (Scale p.1 p.2);
  match ret with
  | None => emit (EvLogError ClientNeverQuit)
  | Some ret =>
      if decide (ret ≠ 0) then
        if decide (ret = ENETUNREACH k) then emit (EvLogError ClientNetworkUnreachable)
        else
          (* p.returncode, which [poll] or [wait] has set to what it returned *)
          emit (EvLogError (ClientExited ret))
      else mret tt
  end.

(** [log.error(fmt % ret)] when [ret != 0], for a format with [%d]:
    [None] differs from 0 and is no number. *)
Definition report_exit (ret : option Z) (m : Z -> message) : T unit :=
  match ret with
  | None => raise TypeError
  | Some ret => if decide (ret ≠ 0) then emit (EvLogError (m ret)) else mret tt
  end.

(** Lines 964-971: the server, then the cloud. *)
Definition inspect_servers : T unit :=
  popens ← gets (λ s, self_popens (self s));
  p ← getitem popens 0;
  ret ← wait_then_kill (Scale p.1 p.2);
  report_exit ret ServerExited;;
  if with_cloud cfg then
    popens ← gets (λ s, self_popens (self s));
    p ← getitem popens 1;
    ret ← wait_then_kill (Scale p.1 p.2);
    report_exit ret CloudExited
  else mret tt.

(** Lines 973-985: the traffic generators. *)
Definition clean_up_traffic_generators : T unit :=
  client_iperfs ← gets (λ s, self_client_iperfs (self s));
  for_each client_iperfs (λ p, wait (IperfClient p);; mret tt);;
  server_iperfs ← gets (λ s, self_server_iperfs (self s));
  for_each server_iperfs (λ p,
    try_except (wait_then_kill (IperfServer p);; mret tt) OSError (λ _, mret tt));;
  assign (set_self_popens []);;
  assign (set_self_server_iperfs []);;
  assign (set_self_client_iperfs []).

(** Lines 998-1009: the emulation is stopped and cleaned. *)
Definition stop_mininet : T unit :=
  (if show_cli k then
     (* CLI(self.net) *)
     emit EvCLI
   else mret tt);;
  try_except
    (net ← gets (λ s, self_net (self s));
     attr net;;
     net_stop)
    OSError (λ e, emit (EvLogError (StoppingMininetFailed e)));;
  emit (EvStart MININET_CLEAN);;
  sleep (if negb (TESTING k) then 10 else 2);;
  emit (EvWaitFor MININET_CLEAN).

(** Lines 1030-1045: the loop that waits for ONOS to restart.  [fuel]
    bounds the number of iterations the model follows; the loop of the
    source has no bound.

    The [try] block is given in two parts, before and after the
    assignment [onos_running = True]: an [IOError] raised in the first
    part leaves [onos_running] as it was, one raised in the second leaves
    it [True]. *)
Fixpoint await_onos (fuel : nat) (onos_running : bool) : T unit :=
  if negb onos_running then
    match fuel with
    | O => timeout
    | S fuel' =>
        ret ← try_except
                (sleep 10;;
                 adapter ← gets (λ s, self_topology_adapter (self s));
                 attr adapter;;
                 ret ← rest_get_hosts;
                 mret (Some ret))
                IOError (λ _, mret None);
        onos_running ←
          match ret with
          | Some [] =>
              try_except
                (adapter ← gets (λ s, self_topology_adapter (self s));
                 attr adapter;;
                 uncleared_switches ← rest_get_switches;
                 if decide (uncleared_switches ≠ [])
                 then emit (EvLogError (SwitchesLeft uncleared_switches))
                 else mret tt)
                IOError (λ _, mret tt);;
              mret true
          | _ => mret onos_running
          end;
        await_onos fuel' onos_running
    end
  else mret tt.

(** Lines 1054-1060: the loop that removes the groups. *)
Fixpoint remove_groups (fuel : nat) (ngroups : nat) : T unit :=
  if (0 <? ngroups)%nat then
    match fuel with
    | O => timeout
    | S fuel' =>
        emit EvRemoveAllGroups;;
        sleep 1;;
        leftover_groups ← get_groups;
        remove_groups fuel' (length leftover_groups)
    end
  else mret tt.

(** Lines 1011-1062: the controller is reset. *)
Definition reset_controller (fuel : nat) : T unit :=
  if decide (topology_adapter_type cfg = "onos") then
    run_command CONTROLLER_RESET_CMD;;
    run_command CONTROLLER_SERVICE_RESTART_CMD;;
    let onos_running := false in
    run_command RESET_OVS;;
    run_command RUN_OVS;;
    await_onos fuel onos_running
  else
    adapter ← gets (λ s, self_topology_adapter (self s));
    if adapter is Some _ then
      emit EvRemoveAllFlowRules;;
      let ngroups := 1%nat in
      remove_groups fuel ngroups
    else emit (EvLogWarning NoTopologyAdapter).

(** Lines 1064-1077: the collections are reset ([self.controller] is an
    attribute that nothing reads). *)
Definition reset_collections : T unit :=
  assign (set_self_hosts []);;
  assign (set_self_switches []);;
  assign (set_self_cloud_gateways []);;
  assign (set_self_cloud_switches []);;
  assign (set_self_links []);;
  assign (set_self_net None);;
  assign (set_self_nat None);;
  assign (set_self_server_switch None);;
  assign (set_self_popens []);;
  assign (set_self_client_iperfs []);;
  assign (set_self_server_iperfs []).

Definition teardown_experiment (fuel : nat) : T unit :=
  sleep 20;;
  let client_popen_start_idx := if negb (with_cloud cfg) then 1%nat else 2%nat in
  popens ← gets (λ s, self_popens (self s));
  for_each (drop client_popen_start_idx popens) inspect_client;;
  inspect_servers;;
  clean_up_traffic_generators;;
  run_command CLEANUP_SCALE_CLIENTS;;
  stop_mininet;;
  reset_controller fuel;;
  reset_collections;;
  sleep (SLEEP_TIME_BETWEEN_RUNS k).

End Teardown.

(** Surroundings for running the model: every second process is found
    running at both polls, a killed process exits with the code -9 and
    another with 0 or 1, the controller answers at the third query of its
    hosts, and the groups are gone at the second query. *)
Definition sample_surroundings : Surroundings := {|
  poll_answer := λ n, if (n mod 4 <? 2)%nat then None else Some (Z.of_nat (n mod 3) - 1);
  kill_answer := λ _, Returns tt;
  wait_answer := λ _, -9;
  net_stop_answer := Raises OSError;
  get_hosts_answer := λ n, match n with
                           | O => Raises IOError
                           | 1%nat => Returns ["00:00:00:00:00:01/None"]
                           | _ => Returns []
                           end;
  get_switches_answer := λ _, Returns ["of:0000000000000001"];
  get_groups_answer := λ n, if (n <? 1)%nat then ["group"] else []
|}.

Definition sample_constants : Constants :=
  {| show_cli := false; TESTING := true; SLEEP_TIME_BETWEEN_RUNS := 5; ENETUNREACH := 101 |}.

(** The state in which the teardown starts: the experiment as the run
    left it, and nothing asked from the surroundings yet. *)
Definition start (w : world) : state :=
  {| self := w; log := []; polls := 0; kills := 0; waits := 0; host_queries := 0;
     switch_queries := 0; group_queries := 0 |}.

End Teardown.

(** ** Vocabulary of the properties of the teardown *)

(** The state [s'] is the state [s] after some more events, all of which
    satisfy [P]; the server, the cloud and the adapter of the experiment
    are the same. *)
Definition teardown_logs (P : Teardown.event -> Prop) (s s' : Teardown.state) : Prop :=
  ∃ evs, Teardown.log s' = Teardown.log s ++ evs ∧ Forall P evs.

(** A relation between the state before and the state after, kept by a
    computation of the teardown. *)
Definition teardown_respects (R : relation Teardown.state) {A} (m : Teardown.T A) : Prop :=
  ∀ s r s', m s = (r, s') -> R s s'.

(** The experiment holds the same server, cloud and adapter. *)
Definition keeps_servers (s s' : Teardown.state) : Prop :=
  self_server (Teardown.self s') = self_server (Teardown.self s)
  ∧ self_cloud (Teardown.self s') = self_cloud (Teardown.self s)
  ∧ self_topology_adapter (Teardown.self s')
    = self_topology_adapter (Teardown.self s).

(** The attributes of the experiment are the same. *)
Definition same_self (s s' : Teardown.state) : Prop :=
  Teardown.self s' = Teardown.self s.

(** The collections of the experiment are those of the constructor. *)
Definition collections_reset (w : world) : Prop :=
  self_hosts w = [] ∧ self_switches w = [] ∧ self_cloud_gateways w = []
  ∧ self_cloud_switches w = [] ∧ self_links w = [] ∧ self_net w = None
  ∧ self_nat w = None ∧ self_server_switch w = None ∧ self_popens w = []
  ∧ self_client_iperfs w = [] ∧ self_server_iperfs w = [].

(** ** [build_default_results_file_name] (lines 172-189) *)

(** [s.replace(old, new)]: the occurrences of [old] in [s] are replaced
    from left to right, an occurrence starting where the one before it
    ends at the earliest.  [skip] is the number of characters of [s] that
    belong to the occurrence just replaced. *)
Fixpoint replace_from (old new : string) (skip : nat) (s : string) : string :=
  match s with
  | EmptyString => EmptyString
  | String c s' =>
      match skip with
      | S n => replace_from old new n s'
      | O =>
          if String.prefix old s
          then new +:+ replace_from old new (String.length old - 1) s'
          else String c (replace_from old new 0 s')
      end
  end.

(** With an empty [old], [new] is put before every character and at the
    end. *)
Fixpoint str_intersperse (new : string) (s : string) : string :=
  match s with
  | EmptyString => new
  | String c s' => new +:+ String c (str_intersperse new s')
  end.

Definition str_replace_all (old new s : string) : string :=
  if decide (old = "") then str_intersperse new s else replace_from old new 0 s.

(** The number of occurrences that [replace_from] replaces. *)
Fixpoint replaced_from (old : string) (skip : nat) (s : string) : nat :=
  match s with
  | EmptyString => 0
  | String c s' =>
      match skip with
      | S n => replaced_from old n s'
      | O =>
          if String.prefix old s
          then S (replaced_from old (String.length old - 1) s')
          else replaced_from old 0 s'
      end
  end.

(** ['%s' % v] for a string or [None]. *)
Definition format_s (v : option string) : string := default "None" v.

(** The argument [args]: an [argparse.Namespace] with its two attributes,
    or a plain dict. *)
Inductive results_args : Type :=
  | Namespace (tree_choosing_heuristic comparison : option string)
  | Dict (entries : gmap string (option string)).

Definition choosing_heuristic (DEFAULT_TREE_CHOOSING_HEURISTIC : string)
    (args : results_args) : option string :=
  match args with
  | Namespace tree_choosing_heuristic comparison =>
      if comparison is None then tree_choosing_heuristic else comparison
  | Dict entries =>
      (* args.get('comparison', None) *)
      if default None (entries !! "comparison") is None
      then default (Some DEFAULT_TREE_CHOOSING_HEURISTIC)
             (entries !! "tree_choosing_heuristic")
      else default None (entries !! "comparison")   (* args['comparison'] *)
  end.

(** [super_name] is what the method of the superclass returns. *)
Definition build_default_results_file_name (DEFAULT_TREE_CHOOSING_HEURISTIC : string)
    (super_name : string) (args : results_args) : string :=
  let output_filename := super_name in
  let choosing_heuristic := choosing_heuristic DEFAULT_TREE_CHOOSING_HEURISTIC args in
  let replacement := "_" +:+ format_s choosing_heuristic +:+ ".json" in
  str_replace_all ".json" replacement output_filename.

(** * Properties *)

(** ** List comprehensions *)

Lemma comprehension_ok {A B} (f : A -> result B) (g : A -> B) (l : list A) :
  (∀ x, x ∈ l -> f x = Ok (g x)) -> comprehension f l = Ok (g <$> l).
Proof.
  induction l as [|x l IH]; intros Hf; [done|].
  cbn. rewrite (Hf x) by left. rewrite IH; [done|].
  intros y Hy. apply Hf. by right.
Qed.

Lemma comprehension_raise {A B} (f : A -> result B) (l1 l2 : list A) x ys e :
  comprehension f l1 = Ok ys -> f x = Raise e ->
  comprehension f (l1 ++ x :: l2) = Raise e.
Proof.
  revert ys. induction l1 as [|y l1 IH]; intros ys Hok Hx; cbn.
  - by rewrite Hx.
  - cbn in Hok. destruct (f y); [|done..].
    destruct (comprehension f l1) eqn:E; [|done..].
    by rewrite (IH _ eq_refl Hx).
Qed.

Lemma comprehension_length {A B} (f : A -> result B) (l : list A) ys :
  comprehension f l = Ok ys -> length ys = length l.
Proof.
  revert ys. induction l as [|x l IH]; intros ys; cbn.
  - by intros [= <-].
  - destruct (f x); [|done..]. destruct (comprehension f l); [|done..].
    intros [= <-]. cbn. f_equal. by apply IH.
Qed.

(** ** Printing of IPv4 addresses *)

Module IPv4Facts.
Import IPv4.

Lemma octet_str_inj (a b : Z) :
  0 <= a -> 0 <= b -> octet_str a = octet_str b -> a = b.
Proof.
  unfold octet_str. intros Ha Hb E.
  assert (N.to_uint (Z.to_N a) = N.to_uint (Z.to_N b)) as E'.
  { apply (f_equal NilEmpty.uint_of_string) in E.
    rewrite !NilEmpty.usu in E. congruence. }
  apply DecimalN.Unsigned.to_uint_inj in E'. lia.
Qed.

Lemma string_of_uint_dot_free (d : Decimal.uint) :
  dot_free (NilEmpty.string_of_uint d).
Proof. induction d; cbn; (split; [discriminate|done]) || done. Qed.

Lemma octet_str_dot_free z : dot_free (octet_str z).
Proof. apply string_of_uint_dot_free. Qed.

(** Two dotted strings with dot-free heads are equal only when the heads
    and the tails are. *)
Lemma dotted_inj (x x' r r' : string) :
  dot_free x -> dot_free x' ->
  x +:+ "." +:+ r = x' +:+ "." +:+ r' -> x = x' ∧ r = r'.
Proof.
  revert x'. induction x as [|c x IH]; intros [|c' x'] Hx Hx' E; simpl in *.
  - by simplify_eq.
  - simplify_eq. by destruct Hx' as [[] _].
  - simplify_eq. by destruct Hx as [[] _].
  - injection E as -> E. destruct Hx as [_ Hx], Hx' as [_ Hx'].
    destruct (IH x' Hx Hx' E) as [-> ->]. done.
Qed.

Lemma str_inj (a b : Z) :
  0 <= a <= ALL_ONES -> 0 <= b <= ALL_ONES ->
  str {| ip_int := a |} = str {| ip_int := b |} -> a = b.
Proof.
  unfold ALL_ONES, str, octets. cbn [ip_int]. intros Ha Hb E.
  apply dotted_inj in E as [E1 E]; [|apply octet_str_dot_free..].
  apply dotted_inj in E as [E2 E]; [|apply octet_str_dot_free..].
  apply dotted_inj in E as [E3 E4]; [|apply octet_str_dot_free..].
  apply octet_str_inj in E1; [|apply Z.div_pos; lia..].
  apply octet_str_inj in E2; [|apply Z.mod_pos_bound; lia..].
  apply octet_str_inj in E3; [|apply Z.mod_pos_bound; lia..].
  apply octet_str_inj in E4; [|apply Z.mod_pos_bound; lia..].
  change (2 ^ 24) with 16777216 in *. change (2 ^ 16) with 65536 in *.
  change (2 ^ 8) with 256 in *. change (2 ^ 32) with 4294967296 in *.
  Z.div_mod_to_equations. lia.
Qed.

Lemma add_ok (base i : Z) :
  0 <= base + i <= ALL_ONES ->
  add {| ip_int := base |} i = Ok {| ip_int := base + i |}.
Proof.
  intros H. unfold add, of_int. cbn [ip_int].
  destruct (Z.ltb_spec (base + i) 0), (Z.ltb_spec ALL_ONES (base + i)); (done || lia).
Qed.

Lemma add_overflow (base i : Z) :
  ALL_ONES < base + i -> add {| ip_int := base |} i = Raise AddressValueError.
Proof.
  intros H. unfold add, of_int. cbn [ip_int].
  destruct (Z.ltb_spec (base + i) 0), (Z.ltb_spec ALL_ONES (base + i)); (done || lia).
Qed.

End IPv4Facts.

(** ** The multicast address pool *)

Lemma mcast_address_pool_ok (base port ntrees : Z) :
  0 <= base <= IPv4.ALL_ONES -> base + ntrees <= 2 ^ 32 ->
  mcast_address_pool base port ntrees
  = Ok ((λ i, (IPv4.str {| IPv4.ip_int := base + i |}, port + i)) <$> py_range ntrees).
Proof.
  intros Hbase Hn. unfold mcast_address_pool, IPv4.of_int.
  destruct (Z.ltb_spec base 0), (Z.ltb_spec IPv4.ALL_ONES base); try lia. cbn [orb].
  apply comprehension_ok. intros i Hi.
  apply elem_of_seqZ in Hi. unfold IPv4.ALL_ONES in *.
  rewrite IPv4Facts.add_ok; [done|]. unfold IPv4.ALL_ONES. lia.
Qed.

Lemma mcast_address_pool_overflow (base port ntrees : Z) :
  0 <= base <= IPv4.ALL_ONES -> 2 ^ 32 < base + ntrees ->
  mcast_address_pool base port ntrees = Raise AddressValueError.
Proof.
  intros Hbase Hn. unfold mcast_address_pool, IPv4.of_int.
  destruct (Z.ltb_spec base 0), (Z.ltb_spec IPv4.ALL_ONES base); try lia. cbn [orb].
  unfold IPv4.ALL_ONES in *. unfold py_range.
  set (k := 2 ^ 32 - base).
  replace ntrees with (k + (ntrees - k)) by lia.
  rewrite seqZ_app by lia. rewrite (seqZ_cons (0 + k)) by lia.
  eapply comprehension_raise.
  - apply comprehension_ok with
      (g := λ i, (IPv4.str {| IPv4.ip_int := base + i |}, port + i)).
    intros i Hi. apply elem_of_seqZ in Hi.
    rewrite IPv4Facts.add_ok; [done|]. unfold IPv4.ALL_ONES. lia.
  - rewrite IPv4Facts.add_overflow; [done|]. unfold IPv4.ALL_ONES. lia.
Qed.




Example mcast_address_pool_3 :
  mcast_address_pool 3758096740 5000 3
  = Ok [("224.0.1.100", 5000); ("224.0.1.101", 5001); ("224.0.1.102", 5002)].
Proof. vm_compute. reflexivity. Qed.

(** ** Reasoning in the monad *)

Lemma bind_unfold {A B} (m : M A) (f : A -> M B) (w : world) :
  (m ≫= f) w = match m w with
               | (Ok a, w') => f a w'
               | (Raise e, w') => (Raise e, w')
               | (Timeout, w') => (Timeout, w')
               end.
Proof. reflexivity. Qed.

Lemma bind_inv {A B} (m : M A) (f : A -> M B) (w : world) r w' :
  (m ≫= f) w = (r, w') ->
  (∃ a w1, m w = (Ok a, w1) ∧ f a w1 = (r, w'))
  ∨ (∃ e, m w = (Raise e, w') ∧ r = Raise e)
  ∨ (m w = (Timeout, w') ∧ r = Timeout).
Proof.
  rewrite bind_unfold. destruct (m w) as [[a|e|] w1]; intros H.
  - left. eauto.
  - right. left. inversion H. eauto.
  - right. right. inversion H. eauto.
Qed.

Lemma bind_ok_inv {A B} (m : M A) (f : A -> M B) (w : world) b w' :
  (m ≫= f) w = (Ok b, w') ->
  ∃ a w1, m w = (Ok a, w1) ∧ f a w1 = (Ok b, w').
Proof.
  intros H. apply bind_inv in H as [H|[[e [_ H]]|[_ H]]]; [done|discriminate..].
Qed.

(** A relation between the world before and the world after, kept by
    every step of a computation. *)
Section Respects.

Context (R : relation world) `{!PreOrder R}.

Lemma respects_ret {A} (a : A) : respects R (mret a).
Proof. intros w r w' [= _ <-]. reflexivity. Qed.

Lemma respects_raise {A} e : respects R (@raise A e).
Proof. intros w r w' [= _ <-]. reflexivity. Qed.

Lemma respects_timeout {A} : respects R (@timeout A).
Proof. intros w r w' [= _ <-]. reflexivity. Qed.

Lemma respects_lift {A} (x : result A) : respects R (lift x).
Proof. intros w r w' [= _ <-]. reflexivity. Qed.

Lemma respects_gets {A} (f : world -> A) : respects R (gets f).
Proof. intros w r w' [= _ <-]. reflexivity. Qed.

Lemma respects_read {A} (f : world -> result A) : respects R (λ w, (f w, w)).
Proof. intros w r w' [= _ <-]. reflexivity. Qed.

Lemma respects_modify (f : world -> world) :
  (∀ w, R w (f w)) -> respects R (modify f).
Proof. intros Hf w r w' [= _ <-]. apply Hf. Qed.

Lemma respects_bind {A B} (m : M A) (f : A -> M B) :
  respects R m -> (∀ a, respects R (f a)) -> respects R (m ≫= f).
Proof.
  intros Hm Hf w r w' H.
  apply bind_inv in H as [(a & w1 & H1 & H2)|[(e & H1 & _)|[H1 _]]].
  - transitivity w1; [apply (Hm _ _ _ H1)|apply (Hf _ _ _ _ H2)].
  - apply (Hm _ _ _ H1).
  - apply (Hm _ _ _ H1).
Qed.

Lemma respects_try_except {A} (body : M A) (handler : exn -> M A) :
  respects R body -> (∀ e, respects R (handler e)) -> respects R (try_except body handler).
Proof.
  intros Hb Hh w r w' H. unfold try_except in H.
  destruct (body w) as [[a|e|] w1] eqn:E.
  - inversion H; subst. apply (Hb _ _ _ E).
  - transitivity w1; [apply (Hb _ _ _ E)|apply (Hh _ _ _ _ H)].
  - inversion H; subst. apply (Hb _ _ _ E).
Qed.

Lemma respects_for_each {A} (l : list A) (body : A -> M unit) :
  (∀ x, respects R (body x)) -> respects R (for_each l body).
Proof.
  intros Hb. induction l as [|x l IH]; cbn [for_each].
  - apply respects_ret.
  - apply respects_bind; auto.
Qed.

Lemma respects_comprehensionM {A B} (f : A -> M B) (l : list A) :
  (∀ x, respects R (f x)) -> respects R (comprehensionM f l).
Proof.
  intros Hf. induction l as [|x l IH]; cbn [comprehensionM].
  - apply respects_ret.
  - apply respects_bind; [auto|]. intros y.
    apply respects_bind; [auto|]. intros ys. apply respects_ret.
Qed.

End Respects.

(** One step of a proof that a computation respects a relation: the
    structure of the computation is followed down to the calls of
    [modify], which are left to [prim]. *)
Ltac respects_step prim :=
  lazymatch goal with
  | |- PreOrder _ => apply _
  | |- respects _ (mret _) => apply respects_ret
  | |- respects _ (raise _) => apply respects_raise
  | |- respects _ timeout => apply respects_timeout
  | |- respects _ (lift _) => apply respects_lift
  | |- respects _ (gets _) => apply respects_gets
  | |- respects _ (λ w, (_, w)) => apply respects_read
  | |- respects _ (modify _) => apply respects_modify; intros []; prim
  | |- respects _ (_ ≫= _) => apply respects_bind; [..|intros ?]
  | |- respects _ (try_except _ _) => apply respects_try_except; [..|intros ?]
  | |- respects _ (for_each _ _) => apply respects_for_each; [..|intros ?]
  | |- respects _ (comprehensionM _ _) => apply respects_comprehensionM; [..|intros ?]
  | |- respects _ (if ?b then _ else _) => destruct b
  | |- respects _ (match ?x with _ => _ end) => destruct x
  | |- respects _ (let '(_, _) := ?x in _) => destruct x
  | |- respects _ _ =>
      progress unfold emit, effect, time_time, time_sleep, the_net, on_net, try_net,
        the_adapter, _get_mininet_nodes, setup_topology_manager,
        install_flow_rules, popen, configLinkStatus
  end.

Ltac respects_auto prim := repeat respects_step prim.

(** ** The relations kept by the steps of the experiment *)

#[global] Instance appends_preorder (P : event -> Prop) : PreOrder (appends P).
Proof.
  split.
  - intros w. exists []. by rewrite app_nil_r.
  - intros w1 w2 w3 (e1 & H1 & F1) (e2 & H2 & F2). exists (e1 ++ e2). split.
    + by rewrite H2, H1, app_assoc.
    + by apply Forall_app.
Qed.

#[global] Instance same_emulation_preorder : PreOrder same_emulation.
Proof.
  split.
  - intros w. by repeat split.
  - intros w1 w2 w3 H1 H2. unfold same_emulation in *.
    destruct_and!. repeat split; congruence.
Qed.

#[global] Instance not_earlier_preorder : PreOrder not_earlier.
Proof.
  split.
  - intros w. split; [done|]. intros _. reflexivity.
  - intros w1 w2 w3 [O1 C1] [O2 C2]. split; [congruence|].
    intros Hlag. rewrite O1 in C2. specialize (C1 Hlag). specialize (C2 Hlag). lia.
Qed.

Ltac appends_prim :=
  first
    [ exists []; split; [by rewrite app_nil_r|by constructor]
    | eexists [_]; split; [reflexivity|]; by repeat constructor ].

Ltac same_emulation_prim := by repeat split.

Ltac not_earlier_prim :=
  split; [done|]; cbn; intros Hlag;
  first [ reflexivity | lia
        | match goal with |- _ <= _ + lag ?o ?k => specialize (Hlag k); lia end ].

Lemma ping_hosts_appends cfg hosts (P : event -> Prop) :
  (∀ e, is_discovery e = true -> P e) ->
  respects (appends P) (ping_hosts cfg hosts).
Proof.
  intros HP. unfold ping_hosts.
  respects_auto ltac:(cbn; first [appends_prim
    | eexists [_]; split; [reflexivity|]; repeat constructor; by apply HP]).
Qed.

#[global] Instance keeps_outside_preorder : PreOrder keeps_outside.
Proof.
  split.
  - by intros w.
  - intros w1 w2 w3 [? ?] [? ?]. split; congruence.
Qed.

(** ** Computations that finish *)

Section Finishes.

Lemma finishes_ret {A} (a : A) : finishes (mret a).
Proof. intros w w'. discriminate. Qed.

Lemma finishes_raise {A} e : finishes (@raise A e).
Proof. intros w w'. discriminate. Qed.

Lemma finishes_gets {A} (f : world -> A) : finishes (gets f).
Proof. intros w w'. discriminate. Qed.

Lemma finishes_modify (f : world -> world) : finishes (modify f).
Proof. intros w w'. discriminate. Qed.

Lemma finishes_lift {A} (x : result A) : x ≠ Timeout -> finishes (lift x).
Proof. intros Hx w w' [= ? _]. done. Qed.

Lemma finishes_bind {A B} (m : M A) (f : A -> M B) :
  finishes m -> (∀ a, finishes (f a)) -> finishes (m ≫= f).
Proof.
  intros Hm Hf w w' H.
  apply bind_inv in H as [(a & w1 & H1 & H2)|[(e & H1 & ?)|[H1 _]]].
  - by apply Hf in H2.
  - done.
  - by apply Hm in H1.
Qed.

Lemma finishes_try_except {A} (body : M A) (handler : exn -> M A) :
  finishes body -> (∀ e, finishes (handler e)) -> finishes (try_except body handler).
Proof.
  intros Hb Hh w w' H. unfold try_except in H.
  destruct (body w) as [[a|e|] w1] eqn:E.
  - done.
  - by apply Hh in H.
  - by apply Hb in E.
Qed.

Lemma finishes_for_each {A} (l : list A) (body : A -> M unit) :
  (∀ x, finishes (body x)) -> finishes (for_each l body).
Proof.
  intros Hb. induction l as [|x l IH]; cbn [for_each].
  - apply finishes_ret.
  - apply finishes_bind; auto.
Qed.

Lemma comprehension_finishes {A B} (f : A -> result B) (l : list A) :
  (∀ x, f x ≠ Timeout) -> comprehension f l ≠ Timeout.
Proof.
  intros Hf. induction l as [|x l IH]; cbn; [done|].
  specialize (Hf x). destruct (f x); [|done..].
  by destruct (comprehension f l).
Qed.

Lemma attr_finishes {A} (o : option A) : attr o ≠ Timeout.
Proof. by destruct o. Qed.

Lemma getitem0_finishes {A} (l : list A) : getitem0 l ≠ Timeout.
Proof. by destruct l. Qed.

Lemma Mininet_get_finishes n net : Mininet.get n net ≠ Timeout.
Proof. unfold Mininet.get. by destruct (_ !! _). Qed.

Lemma Mininet_IP_finishes n net : Mininet.IP n net ≠ Timeout.
Proof. unfold Mininet.IP. by destruct (Mininet.intfs n net). Qed.

Lemma Mininet_IPs_finishes net l :
  comprehension (λ host, Mininet.IP host net) l ≠ Timeout.
Proof. apply comprehension_finishes. intros x. apply Mininet_IP_finishes. Qed.

Lemma get_host_dpid_finishes cfg h : get_host_dpid cfg h ≠ Timeout.
Proof. unfold get_host_dpid. repeat case_decide; by destruct h. Qed.

Lemma get_switch_dpid_finishes cfg s : get_switch_dpid cfg s ≠ Timeout.
Proof. unfold get_switch_dpid. by repeat case_decide. Qed.

Lemma get_node_dpid_finishes cfg n : get_node_dpid cfg n ≠ Timeout.
Proof.
  unfold get_node_dpid. destruct (node_class_of n);
    auto using get_switch_dpid_finishes, get_host_dpid_finishes.
Qed.

End Finishes.

Ltac finishes_step :=
  lazymatch goal with
  | |- finishes (mret _) => apply finishes_ret
  | |- finishes (raise _) => apply finishes_raise
  | |- finishes (gets _) => apply finishes_gets
  | |- finishes (modify _) => apply finishes_modify
  | |- finishes (lift _) =>
      apply finishes_lift;
      auto using attr_finishes, getitem0_finishes, Mininet_get_finishes,
        Mininet_IP_finishes, Mininet_IPs_finishes,
        get_host_dpid_finishes, get_switch_dpid_finishes, get_node_dpid_finishes,
        comprehension_finishes
  | |- finishes (_ ≫= _) => apply finishes_bind; [|intros ?]
  | |- finishes (try_except _ _) => apply finishes_try_except; [|intros ?]
  | |- finishes (for_each _ _) => apply finishes_for_each; intros ?
  | |- finishes (if ?b then _ else _) => destruct b
  | |- finishes (match ?x with _ => _ end) => destruct x
  | |- finishes (let '(_, _) := ?x in _) => destruct x
  | |- finishes _ =>
      progress unfold emit, effect, time_time, time_sleep, the_net, on_net,
        the_adapter, _get_mininet_nodes, setup_topology_manager,
        install_flow_rules, popen, configLinkStatus
  end.

Ltac finishes_auto := repeat finishes_step.

Lemma ping_hosts_finishes cfg hosts : finishes (ping_hosts cfg hosts).
Proof. unfold ping_hosts. finishes_auto. Qed.

Lemma ping_hosts_keeps cfg hosts : respects keeps_outside (ping_hosts cfg hosts).
Proof. unfold ping_hosts. respects_auto ltac:(by split). Qed.

(** ** The loop that waits for the adapter *)

Ltac world_cbv_in H :=
  cbv beta iota zeta delta
    [mbind M_bind mret M_ret raise timeout lift gets modify attr getitem0
     emit effect time_time time_sleep the_net on_net the_adapter
     setup_topology_manager install_flow_rules popen configLinkStatus
     negb andb orb Z.ltb Z.compare
     self_net self_hosts self_switches self_cloud_gateways self_cloud_switches
     self_links self_nat self_server self_cloud self_server_switch self_popens
     self_client_iperfs self_server_iperfs self_topology_adapter clock trace
     ticks n_adapters n_installs outside
     set_self_net set_self_hosts set_self_switches set_self_cloud_gateways
     set_self_cloud_switches set_self_links set_self_nat set_self_server
     set_self_cloud set_self_server_switch set_self_popens
     set_self_client_iperfs set_self_server_iperfs set_self_topology_adapter
     set_clock set_trace set_ticks set_n_adapters set_n_installs] in H.

Lemma await_convergence_done cfg fuel hosts eh el es ntries w :
  await_convergence cfg fuel hosts eh el es eh el es ntries w = (Ok tt, w).
Proof. destruct fuel; cbn; by rewrite !Nat.eqb_refl. Qed.

Lemma await_convergence_condition (nh nl ns eh el es : nat) :
  (nh, nl, ns) ≠ (eh, el, es) ->
  negb (nh =? eh)%nat || negb (nl =? el)%nat || negb (ns =? es)%nat = true.
Proof.
  intros Hne.
  destruct (Nat.eqb_spec nh eh), (Nat.eqb_spec nl el), (Nat.eqb_spec ns es);
    cbn; try done.
  destruct Hne. congruence.
Qed.

(** One iteration of the loop that does not raise. *)
Lemma await_convergence_iteration cfg fuel hosts eh el es nh nl ns ntries w r w' :
  (nh, nl, ns) ≠ (eh, el, es) ->
  (∀ e, r ≠ Raise e) ->
  await_convergence cfg (S fuel) hosts eh el es nh nl ns ntries w = (r, w') ->
  ∃ d w1,
    trace w1 = trace w ++ iteration_events hosts (eh, el, es) ntries (nth_view w 0) d
    ∧ (if (ntries mod 5 =? 0)%nat && negb (bool_decide (nth_view w 0 = (eh, el, es)))
       then discovery_events cfg hosts d else d = [])
    ∧ n_adapters w1 = S (n_adapters w)
    ∧ outside w1 = outside w
    ∧ await_convergence cfg fuel hosts eh el es
        (nth_view w 0).1.1 (nth_view w 0).1.2 (nth_view w 0).2 (ntries + 1) w1 = (r, w').
Proof.
  intros Hne Hr H. cbn [await_convergence] in H.
  rewrite (await_convergence_condition _ _ _ _ _ _ Hne) in H. clear Hne.
  unfold nth_view, view_counts, iteration_events. rewrite Nat.add_0_r.
  destruct w as [net hs sws gws css lks nat srv cld ssw pops cips sips ad clk tr tk na ni out].
  cbn [outside n_adapters trace fst snd].
  set (a := controller_view out na) in *.
  assert (bool_decide ((length (SdnTopology.get_hosts a), SdnTopology.number_of_edges a,
             length (SdnTopology.get_switches a)) = (eh, el, es))
          = bool_decide (length (SdnTopology.get_hosts a) = eh)
            && bool_decide (SdnTopology.number_of_edges a = el)
            && bool_decide (length (SdnTopology.get_switches a) = es)) as ->.
  { repeat case_bool_decide; simplify_eq; done. }
  world_cbv_in H. fold a in H.
  destruct (Nat.eqb_spec (length (SdnTopology.get_hosts a)) eh) as [Eh|Eh],
           (Nat.eqb_spec el (SdnTopology.number_of_edges a)) as [El|El],
           (Nat.eqb_spec es (length (SdnTopology.get_switches a))) as [Es|Es];
    rewrite ?(bool_decide_eq_true_2 _ Eh), ?(bool_decide_eq_false_2 _ Eh),
      ?(bool_decide_eq_true_2 _ (eq_sym El)), ?(bool_decide_eq_true_2 _ (eq_sym Es)).
  all: try rewrite (bool_decide_eq_false_2 (SdnTopology.number_of_edges a = el)) by congruence.
  all: try rewrite (bool_decide_eq_false_2 (length (SdnTopology.get_switches a) = es)) by congruence.
  all: cbn [andb negb app].
  all: rewrite ?andb_false_r, ?andb_true_r in *.
  all: destruct (ntries mod 5 =? 0)%nat; world_cbv_in H.
  all: try (eexists [], _; split_and!; [| | | |exact H];
            [cbn; by rewrite <- ?app_assoc|done..]).
  all: match type of H with
       | context [ping_hosts ?c ?h ?w2] =>
           destruct (ping_hosts c h w2) as [[[]|e|] w3] eqn:Hp;
             [|inversion H; subst; by destruct (Hr e)
              |by destruct (ping_hosts_finishes c h _ _ Hp)];
           destruct (ping_hosts_appends c h (λ _, True) (λ _ _, I) _ _ _ Hp)
             as (d & Hd & _);
           destruct (ping_hosts_keeps c h _ _ _ Hp) as [Ho Hn];
           exists d, w3; cbn in Hd, Ho, Hn; split_and!;
             [rewrite Hd; by rewrite <- ?app_assoc
             |by eexists _, _
             |done|done|exact H]
       end.
Qed.

Lemma nth_view_shift (w w1 : world) (i : nat) :
  n_adapters w1 = S (n_adapters w) -> outside w1 = outside w ->
  nth_view w1 i = nth_view w (S i).
Proof.
  intros Hn Ho. unfold nth_view. rewrite Hn, Ho. do 2 f_equal. lia.
Qed.

(** The loop, iteration by iteration.  [ds] holds, for every iteration
    that was run, the events of the discovery it ran (none, but at every
    fifth try). *)
Lemma await_convergence_iterations cfg hosts eh el es fuel :
  ∀ nh nl ns ntries w r w',
  (∀ e, r ≠ Raise e) ->
  await_convergence cfg fuel hosts eh el es nh nl ns ntries w = (r, w') ->
  ∃ ds : list (list event),
    trace w' = trace w ++ concat (imap (λ i d,
                 iteration_events hosts (eh, el, es) (ntries + i) (nth_view w i) d) ds)
    ∧ (∀ i d, ds !! i = Some d ->
         if ((ntries + i) mod 5 =? 0)%nat
            && negb (bool_decide (nth_view w i = (eh, el, es)))
         then discovery_events cfg hosts d else d = [])
    ∧ (∀ i, (S i < length ds)%nat -> nth_view w i ≠ (eh, el, es))
    ∧ (length ds <= fuel)%nat
    ∧ n_adapters w' = (n_adapters w + length ds)%nat
    ∧ outside w' = outside w
    ∧ (r = Ok tt ->
         match ds with
         | [] => (nh, nl, ns) = (eh, el, es)
         | _ => (nh, nl, ns) ≠ (eh, el, es)
                ∧ nth_view w (pred (length ds)) = (eh, el, es)
         end)
    ∧ (r = Timeout ->
         length ds = fuel ∧ (nh, nl, ns) ≠ (eh, el, es)
         ∧ ∀ i, (i < length ds)%nat -> nth_view w i ≠ (eh, el, es)).
Proof.
  induction fuel as [|fuel IH]; intros nh nl ns ntries w r w' Hr H.
  - destruct (decide ((nh, nl, ns) = (eh, el, es))) as [E|Hne].
    + injection E as -> -> ->. rewrite await_convergence_done in H.
      injection H as <- <-. exists []. cbn. rewrite app_nil_r, Nat.add_0_r.
      split_and!; try done; try (intros; lia); try (by intros ? ? [=]). all: try (intros; discriminate).
    + cbn in H. rewrite (await_convergence_condition _ _ _ _ _ _ Hne) in H.
      injection H as <- <-. exists []. cbn. rewrite app_nil_r, Nat.add_0_r.
      split_and!; try done; try (intros; lia); try (by intros ? ? [=]).
      intros _. split_and!; try done. intros; lia.
  - destruct (decide ((nh, nl, ns) = (eh, el, es))) as [E|Hne].
    + injection E as -> -> ->. rewrite await_convergence_done in H.
      injection H as <- <-. exists []. cbn. rewrite app_nil_r, Nat.add_0_r.
      split_and!; try done; try (intros; lia); try (by intros ? ? [=]). all: try (intros; discriminate).
    + apply await_convergence_iteration in H
        as (d & w1 & Htr & Hd & Hn & Ho & H); [|done..].
      apply IH in H as (ds & Htr' & Hds & Hmis & Hlen & Hn' & Ho' & Hok & Hto); [|done].
      exists (d :: ds). rewrite imap_cons. cbn [concat length].
      split_and!.
      * rewrite Htr', Htr, Nat.add_0_r, <- app_assoc. do 3 f_equal.
        apply imap_ext. intros i x _. unfold compose.
        rewrite (nth_view_shift w w1) by done.
        by replace (ntries + 1 + i)%nat with (ntries + S i)%nat by lia.
      * intros [|i] x Hx; cbn in Hx.
        -- injection Hx as <-. by rewrite Nat.add_0_r.
        -- specialize (Hds i x Hx). rewrite (nth_view_shift w w1) in Hds by done.
           by replace (ntries + S i)%nat with (ntries + 1 + i)%nat by lia.
      * intros [|i] Hi.
        -- destruct r as [[]|e|]; [|by destruct (Hr e)|].
           ++ specialize (Hok eq_refl). destruct ds as [|d' ds]; [cbn in Hi; lia|].
              destruct Hok as [Hne' _]. intros E. apply Hne'.
              by rewrite E.
           ++ destruct (Hto eq_refl) as (_ & Hne' & _). intros E. apply Hne'.
              by rewrite E.
        -- rewrite <- (nth_view_shift w w1) by done. apply Hmis. lia.
      * lia.
      * rewrite Hn', Hn. lia.
      * congruence.
      * intros ->. split; [done|]. specialize (Hok eq_refl).
        destruct ds as [|d' ds].
        -- cbn. rewrite <- Hok. by destruct (nth_view w 0) as [[a b] c].
        -- destruct Hok as [_ Hok]. cbn [length pred] in *.
           by rewrite (nth_view_shift w w1) in Hok by done.
      * intros ->. destruct (Hto eq_refl) as (Hl & Hne' & Hall).
        split_and!; [lia|done|]. intros [|i] Hi.
        -- intros E. apply Hne'. by rewrite E.
        -- rewrite <- (nth_view_shift w w1) by done. apply Hall. lia.
Qed.

(** C7: the loop that waits for the adapter, as [run_experiment] calls it,
    runs one iteration after the other, [ds] holding for each the events
    of the discovery it ran; the record of the loop is that of its
    iterations, in order, and nothing else.  Every iteration builds one
    adapter and then sleeps 2 seconds when the three counts matched and
    10 seconds when one did not.  The loop runs no iteration when nothing
    is expected, and at least one otherwise; it ends with the first
    iteration whose counts match, so that the iterations before the last
    are the unsuccessful ones; when the fuel of the model runs out, every
    iteration run was unsuccessful.  The discovery of the hosts is run
    again in the iterations whose number is a multiple of 5 and that were
    unsuccessful, and in no other. *)
Theorem convergence_backoff cfg fuel hosts eh el es w r w' :
  (∀ e, r ≠ Raise e) ->
  await_convergence cfg fuel hosts eh el es 0 0 0 1 w = (r, w') ->
  ∃ ds : list (list event),
    trace w' = trace w ++ concat (imap (λ i d,
                 iteration_events hosts (eh, el, es) (S i) (nth_view w i) d) ds)
    ∧ n_adapters w' = (n_adapters w + length ds)%nat
    ∧ (length ds <= fuel)%nat
    ∧ (r = Ok tt -> (ds = [] <-> (eh, el, es) = (0, 0, 0)%nat))
    ∧ (r = Timeout -> length ds = fuel ∧ (eh, el, es) ≠ (0, 0, 0)%nat)
    ∧ ∀ i d, ds !! i = Some d ->
        (nth_view w i = (eh, el, es) <-> r = Ok tt ∧ S i = length ds)
        ∧ (if (S i mod 5 =? 0)%nat && negb (bool_decide (nth_view w i = (eh, el, es)))
           then discovery_events cfg hosts d else d = []).
Proof.
  intros Hr H.
  apply await_convergence_iterations in H
    as (ds & Htr & Hds & Hmis & Hlen & Hn & _ & Hok & Hto); [|done].
  exists ds. split; [exact Htr|]. split; [exact Hn|]. split; [exact Hlen|].
  split; [|split].
  - intros ->. specialize (Hok eq_refl). destruct ds as [|d0 ds].
    + split; [by intros _|done].
    + destruct Hok as [Hne _]. split; [done|]. intros E. by rewrite E in Hne.
  - intros ->. destruct (Hto eq_refl) as (Hl & Hne & _). split; [done|].
    intros E. by rewrite E in Hne.
  - intros i d Hi. split; [|exact (Hds i d Hi)].
    apply lookup_lt_Some in Hi.
    destruct (decide (S i = length ds)) as [Hlast|Hnot].
    + destruct r as [[]|e|]; [|by destruct (Hr e)|].
      * specialize (Hok eq_refl). destruct ds as [|d0 ds]; [cbn in Hi; lia|].
        destruct Hok as [_ Hok]. rewrite <- Hlast in Hok. cbn in Hok. done.
      * destruct (Hto eq_refl) as (_ & _ & Hall). specialize (Hall i Hi).
        split; [done|]. by intros [? _].
    + split; [|by intros [_ ?]]. intros E. destruct (Hmis i); [lia|done].
Qed.

Lemma convergence_backoff_witness :
  let cfg := Campus.config None 1 true in
  let w := Campus.ready cfg (Campus.surroundings 6 (Campus.view 4 9 5) (λ _, false)) in
  let hosts := emulated_hosts w in
  let w' := (await_convergence cfg 10 hosts 4 9 5 0 0 0 1 w).2 in
  ∃ ds : list (list event),
    trace w' = trace w ++ concat (imap (λ i d,
                 iteration_events hosts (4, 9, 5)%nat (S i) (nth_view w i) d) ds)
    ∧ n_adapters w' = (n_adapters w + length ds)%nat
    ∧ (length ds <= 10)%nat
    ∧ (Ok tt = Ok tt -> (ds = [] <-> (4, 9, 5)%nat = (0, 0, 0)%nat))
    ∧ (Ok tt = Timeout -> length ds = 10%nat ∧ (4, 9, 5)%nat ≠ (0, 0, 0)%nat)
    ∧ ∀ i d, ds !! i = Some d ->
        (nth_view w i = (4, 9, 5)%nat <-> Ok tt = Ok tt ∧ S i = length ds)
        ∧ (if (S i mod 5 =? 0)%nat && negb (bool_decide (nth_view w i = (4, 9, 5)%nat))
           then discovery_events cfg hosts d else d = []).
Proof.
  intros cfg w hosts w'.
  apply (convergence_backoff cfg 10 hosts 4 9 5 w (Ok tt)).
  - intros e. discriminate.
  - vm_compute. reflexivity.
Defined.

(** In the campus, with a controller that has found everything from its
    seventh adapter on, the loop runs seven iterations: six sleeps of 10
    seconds and one of 2 seconds, and one more discovery of the hosts, in
    the fifth iteration. *)
Example convergence_backoff_campus :
  let cfg := Campus.config None 1 true in
  let w := Campus.ready cfg (Campus.surroundings 6 (Campus.view 4 9 5) (λ _, false)) in
  let run := await_convergence cfg 10 (emulated_hosts w) 4 9 5 0 0 0 1 w in
  let evs := drop (length (trace w)) (trace run.2) in
  run.1 = Ok tt
  ∧ n_adapters run.2 = (n_adapters w + 7)%nat
  ∧ omap (λ e, match e with
               | EvSleep secs => Some (inl secs)
               | EvLogWarning PingingAgain => Some (inr tt)
               | _ => None
               end) evs
    = [inl 10; inl 10; inl 10; inl 10; inl 10; inr tt; inl 10; inl 2].
Proof. split_and!; vm_compute; reflexivity. Qed.

(** ** Nothing is programmed before the adapter agrees *)

Lemma discovery_quiet e : is_discovery e = true -> quiet e.
Proof. by destruct e. Qed.

Lemma start_network_appends cfg : respects (appends quiet) (start_network cfg).
Proof.
  unfold start_network.
  respects_auto ltac:(cbn; appends_prim).
  apply ping_hosts_appends, discovery_quiet.
Qed.

Lemma ping_hosts_same_emulation cfg hosts : respects same_emulation (ping_hosts cfg hosts).
Proof. unfold ping_hosts. respects_auto same_emulation_prim. Qed.

Lemma start_network_same_emulation cfg : respects same_emulation (start_network cfg).
Proof.
  unfold start_network. respects_auto same_emulation_prim.
  apply ping_hosts_same_emulation.
Qed.

Lemma start_network_keeps cfg : respects keeps_outside (start_network cfg).
Proof.
  unfold start_network. respects_auto ltac:(by split).
  apply ping_hosts_keeps.
Qed.

Lemma start_network_finishes cfg : finishes (start_network cfg).
Proof.
  unfold start_network. finishes_auto. apply ping_hosts_finishes.
Qed.

Lemma gets_inv {A} (f : world -> A) w a w' :
  gets f w = (Ok a, w') -> a = f w ∧ w' = w.
Proof. unfold gets. by intros [= <- <-]. Qed.

Lemma lift_inv {A} (x : result A) w a w' :
  lift x w = (Ok a, w') -> x = Ok a ∧ w' = w.
Proof. unfold lift. by intros [= -> <-]. Qed.

Lemma the_net_inv w net w' :
  the_net w = (Ok net, w') -> self_net w = Some net ∧ w' = w.
Proof.
  unfold the_net. intros H. apply bind_ok_inv in H as (o & w1 & H1 & H).
  apply gets_inv in H1 as [-> ->]. apply lift_inv in H as [H ->].
  destruct (self_net w); cbn in H; by simplify_eq.
Qed.

Lemma effect_same_emulation e : respects same_emulation (effect e).
Proof. respects_auto same_emulation_prim. Qed.

Lemma time_sleep_same_emulation secs : respects same_emulation (time_sleep secs).
Proof. respects_auto same_emulation_prim. Qed.

(** A start of the network that returns: the NAT and the server have an
    interface, as has every host of the emulation. *)
Lemma start_network_inv cfg w hosts w1 :
  start_network cfg w = (Ok hosts, w1) ->
  ∃ net n s,
    self_net w = Some net ∧ self_nat w = Some n ∧ self_server w = Some s
    ∧ Mininet.intfs n net ≠ [] ∧ Mininet.intfs s net ≠ []
    ∧ is_ok (comprehension (λ host, Mininet.IP host net) (Mininet.hosts net)) = true
    ∧ hosts = emulated_hosts w.
Proof.
  unfold start_network. intros H.
  apply bind_ok_inv in H as (net & w2 & H1 & H). apply the_net_inv in H1 as [Hnet ->].
  apply bind_ok_inv in H as ([] & w3 & H1 & H). apply effect_same_emulation in H1 as S1.
  apply bind_ok_inv in H as ([] & w4 & H2 & H). apply time_sleep_same_emulation in H2 as S2.
  apply bind_ok_inv in H as (nat & w5 & H3 & H). apply gets_inv in H3 as [-> ->].
  apply bind_ok_inv in H as (n & w6 & H3 & H). apply lift_inv in H3 as [Hn ->].
  apply bind_ok_inv in H as (ip & w7 & H3 & H). apply lift_inv in H3 as [Hip ->].
  apply bind_ok_inv in H as (server & w8 & H3 & H). apply gets_inv in H3 as [-> ->].
  apply bind_ok_inv in H as (s & w9 & H3 & H). apply lift_inv in H3 as [Hs ->].
  apply bind_ok_inv in H as ([] & w10 & H3 & H).
  apply bind_ok_inv in H as ([] & w11 & H4 & H).
  apply bind_ok_inv in H as ([] & w12 & H5 & H).
  apply bind_ok_inv in H as (ips & w13 & H6 & H). apply lift_inv in H6 as [Hips ->].
  apply bind_ok_inv in H as ([] & w14 & H7 & H).
  apply bind_ok_inv in H as ([] & w15 & H8 & H).
  injection H as <- _.
  assert (same_emulation w w4) as S4 by (by etransitivity).
  destruct S4 as (_ & _ & _ & Enat & Esrv & _).
  rewrite Enat in Hn. rewrite Esrv in Hs.
  destruct (self_nat w) as [n'|] eqn:En; [|done]. injection Hn as ->.
  destruct (self_server w) as [s'|] eqn:Es; [|done]. injection Hs as ->.
  exists net, n, s. split_and!; try done.
  - unfold Mininet.IP in Hip. by destruct (Mininet.intfs n net).
  - destruct (Mininet.intfs s net); [discriminate H3|done].
  - by rewrite Hips.
  - unfold emulated_hosts. by rewrite Hnet, En, Enat.
Qed.

Lemma start_network_hosts cfg w hosts w1 :
  start_network cfg w = (Ok hosts, w1) ->
  hosts = emulated_hosts w ∧ is_Some (self_server w).
Proof.
  intros H. apply start_network_inv in H as (net & n & s & _ & _ & Es & _ & _ & _ & E).
  split; [done|]. by rewrite Es.
Qed.

Lemma discovery_before_convergence expected e :
  is_discovery e = true -> before_convergence expected e.
Proof. destruct e; try done. all: by split. Qed.

Lemma discovery_events_discovery cfg hosts d :
  discovery_events cfg hosts d -> Forall (λ e, is_discovery e = true) d.
Proof.
  intros (w & w' & H & Htr).
  destruct (ping_hosts_appends cfg hosts (λ e, is_discovery e = true) (λ _ H, H) _ _ _ H)
    as (evs & Htr' & F).
  rewrite Htr in Htr'. by apply app_inv_head in Htr' as ->.
Qed.

Lemma iteration_events_before hosts expected ntries counts d :
  counts ≠ expected ->
  Forall (λ e, is_discovery e = true) d ->
  Forall (before_convergence expected) (iteration_events hosts expected ntries counts d).
Proof.
  intros Hne Hd. unfold iteration_events.
  repeat first [apply Forall_app_2 | apply Forall_cons_2 | apply Forall_nil_2].
  all: repeat case_match;
    repeat first [apply Forall_cons_2 | apply Forall_nil_2].
  all: try (split; [done|]; intros ? ? ? [=]; done).
  all: try (split; [done|]; intros h l s [= <- <- <-]; by destruct counts as [[? ?] ?]).
  all: eapply Forall_impl; [exact Hd|]; intros; by apply discovery_before_convergence.
Qed.

Lemma iteration_events_matched hosts expected ntries :
  iteration_events hosts expected ntries expected []
  = [EvBuildTopologyAdapter expected.1.1 expected.1.2 expected.2; EvSleep 2].
Proof.
  unfold iteration_events. rewrite !bool_decide_eq_true_2 by done.
  by rewrite andb_false_r.
Qed.

Lemma await_convergence_ok_trace cfg fuel hosts eh el es w w' :
  (0, 0, 0)%nat ≠ (eh, el, es) ->
  await_convergence cfg fuel hosts eh el es 0 0 0 1 w = (Ok tt, w') ->
  ∃ earlier,
    trace w' = trace w ++ earlier ++ [EvBuildTopologyAdapter eh el es; EvSleep 2]
    ∧ Forall (before_convergence (eh, el, es)) earlier.
Proof.
  intros Hne H.
  apply await_convergence_iterations in H
    as (ds & Htr & Hds & Hmis & _ & _ & _ & Hok & _); [|done].
  specialize (Hok eq_refl).
  induction ds as [|d0 ds _] using rev_ind; [done|].
  destruct (ds ++ [d0]) eqn:E; [by destruct ds|]. rewrite <- E in *. clear E.
  destruct Hok as [_ Hlast]. rewrite length_app in Hlast, Hmis. cbn in Hlast, Hmis.
  replace (pred (length ds + 1)) with (length ds) in Hlast by lia.
  assert (d0 = []) as ->.
  { specialize (Hds (length ds) d0). rewrite lookup_app_r, Nat.sub_diag in Hds by lia.
    specialize (Hds eq_refl). rewrite Hlast in Hds.
    rewrite bool_decide_eq_true_2, andb_false_r in Hds by done. done. }
  rewrite imap_app, concat_app in Htr. cbn [imap concat] in Htr.
  rewrite Nat.add_0_r, Hlast, iteration_events_matched, app_nil_r in Htr.
  eexists. split; [exact Htr|].
  apply Forall_concat. apply Forall_lookup. intros i evs Hi.
  rewrite list_lookup_imap in Hi.
  destruct (ds !! i) as [d|] eqn:Hd; [|done]. injection Hi as <-.
  pose proof (lookup_lt_Some _ _ _ Hd) as Hlt.
  apply iteration_events_before.
  - apply Hmis. lia.
  - specialize (Hds i d). rewrite lookup_app_l in Hds by done. specialize (Hds Hd).
    destruct (_ && _); [by apply discovery_events_discovery in Hds|by subst].
Qed.

Lemma await_convergence_appends cfg hosts eh el es (P : event -> Prop) fuel :
  (∀ e, programs_or_launches e = false -> P e) ->
  ∀ nh nl ns ntries,
  respects (appends P) (await_convergence cfg fuel hosts eh el es nh nl ns ntries).
Proof.
  intros HP. induction fuel as [|fuel IH]; intros nh nl ns ntries; cbn [await_convergence].
  - respects_auto ltac:(cbn; appends_prim).
  - respects_auto ltac:(cbn; first [appends_prim
      | eexists [_]; split; [reflexivity|]; repeat constructor; by apply HP]).
    + apply ping_hosts_appends. intros e He. apply HP. by destruct e.
    + apply IH.
Qed.

Lemma apply_data_path_changes_appends changes flinks fnodes :
  ∀ i out quake,
  respects (appends anything)
    (apply_data_path_changes i changes flinks fnodes out quake).
Proof.
  induction changes as [|[[[gw cs] st] delay] rest IH]; intros i out quake;
    cbn [apply_data_path_changes].
  - respects_auto ltac:(cbn; appends_prim).
  - respects_auto ltac:(cbn; appends_prim). all: apply IH.
Qed.

Lemma failure_model_appends cfg pubs subs fnodes flinks :
  respects (appends anything) (failure_model cfg pubs subs fnodes flinks).
Proof.
  unfold failure_model. respects_auto ltac:(cbn; appends_prim).
  all: try apply apply_data_path_changes_appends.
Qed.

Lemma setup_traffic_generators_appends cfg :
  respects (appends anything) (setup_traffic_generators cfg).
Proof. unfold setup_traffic_generators. respects_auto ltac:(cbn; appends_prim). Qed.

Lemma setup_seismic_test_appends cfg sensors subs server :
  respects (appends anything) (setup_seismic_test cfg sensors subs server).
Proof.
  unfold setup_seismic_test, comparison_routes, ride_c_probe_routes,
    cloud_gateway_routes, launch_clients, install_unicast_route,
    install_probe_routes, install_gateway_route.
  respects_auto ltac:(cbn; appends_prim).
Qed.

Lemma await_convergence_unbounded cfg fuel hosts eh el es w r w' :
  (0, 0, 0)%nat ≠ (eh, el, es) ->
  (∀ i, (i < fuel)%nat -> nth_view w i ≠ (eh, el, es)) ->
  await_convergence cfg fuel hosts eh el es 0 0 0 1 w = (r, w') ->
  r ≠ Ok tt.
Proof.
  intros Hne Hall H ->.
  apply await_convergence_iterations in H
    as (ds & _ & _ & _ & Hlen & _ & _ & Hok & _); [|done].
  specialize (Hok eq_refl). destruct ds as [|d ds]; [done|].
  destruct Hok as [_ Hok]. apply (Hall (pred (length (d :: ds)))); [cbn in *; lia|done].
Qed.

Lemma wait_for_adapter_spec cfg fuel hosts w r w' :
  is_Some (self_server w) ->
  wait_for_adapter cfg fuel hosts w = (r, w') ->
  let expected :=
    (length hosts,
     (NetworkxSdnTopology.number_of_edges (topo cfg)
      + 1 + (if self_cloud w is Some _ then 1 else 0))%nat,
     (length (NetworkxSdnTopology.get_switches (topo cfg))
      + 1 + (if self_cloud w is Some _ then 1 else 0))%nat) in
  appends (λ e, programs_or_launches e = false) w w'
  ∧ (r = Ok tt ->
       ∃ earlier,
         trace w' = trace w ++ earlier
                      ++ [EvBuildTopologyAdapter expected.1.1 expected.1.2 expected.2;
                          EvSleep 2]
         ∧ Forall (before_convergence expected) earlier)
  ∧ ((∀ i, (i < fuel)%nat -> nth_view w i ≠ expected) -> r ≠ Ok tt).
Proof.
  intros [srv Hsrv] H expected. unfold wait_for_adapter in H.
  rewrite bind_unfold in H. cbn [gets] in H. rewrite bind_unfold in H. cbn [gets] in H.
  rewrite Hsrv in H. fold expected in H.
  assert ((0, 0, 0)%nat ≠ expected) as Hne.
  { unfold expected. intros [= _ E _]. lia. }
  split_and!.
  - by apply (await_convergence_appends cfg hosts _ _ _ _ fuel (λ _ H, H)) in H.
  - intros ->. by apply await_convergence_ok_trace in H.
  - intros Hall. by eapply await_convergence_unbounded.
Qed.

Lemma quiet_before expected e : quiet e -> before_convergence expected e.
Proof. intros [? ?]. split; [done|]. intros h l s ->. done. Qed.

Lemma rest_appends cfg pubs subs :
  respects (appends anything)
    (setup_traffic_generators cfg;;
     server ← gets self_server; setup_seismic_test cfg pubs subs server).
Proof.
  apply respects_bind; [apply _|apply setup_traffic_generators_appends|intros _].
  apply respects_bind; [apply _|apply respects_gets; apply _|intros server].
  apply setup_seismic_test_appends.
Qed.

Lemma not_ok_inv {A B} (m : M A) w (r : result B) w' :
  (∃ e, m w = (Raise e, w') ∧ r = Raise e) ∨ (m w = (Timeout, w') ∧ r = Timeout) ->
  ∃ r0, m w = (r0, w') ∧ (∀ a, r0 ≠ Ok a) ∧ (∀ b, r ≠ Ok b).
Proof.
  intros [(e & H & ->)|[H ->]]; eexists; (split; [exact H|]); by split.
Qed.

Lemma configure_experiment_phases cfg fuel pubs subs w r w' :
  server_and_cloud_set cfg w ->
  configure_experiment cfg fuel pubs subs w = (r, w') ->
  let expected := expected_view cfg w in
  ∃ before after,
    trace w' = trace w ++ before ++ after
    ∧ Forall (λ e, programs_or_launches e = false) before
    ∧ ((∃ earlier,
          before = earlier ++ [EvBuildTopologyAdapter expected.1.1 expected.1.2 expected.2;
                               EvSleep 2]
          ∧ Forall (mismatching expected) earlier)
       ∨ (after = [] ∧ r ≠ Ok tt))
    ∧ ((∀ i, (i < fuel)%nat -> nth_view w i ≠ expected) -> after = [] ∧ r ≠ Ok tt).
Proof.
  intros [Hs Hc] H expected. unfold configure_experiment in H.
  apply bind_inv in H as [(hosts & w1 & H1 & H)|H].
  - destruct (start_network_appends cfg _ _ _ H1) as (evs0 & Htr0 & F0).
    destruct (start_network_same_emulation cfg _ _ _ H1)
      as (_ & _ & _ & _ & SEsrv & SEcld & _).
    destruct (start_network_keeps cfg _ _ _ H1) as [Ko Kn].
    apply start_network_hosts in H1 as [-> [srv Hsrv]].
    assert (∀ i, nth_view w1 i = nth_view w i) as Hview.
    { intros i. unfold nth_view. by rewrite Ko, Kn. }
    assert (is_Some (self_server w1)) as Hsrv1 by (by rewrite SEsrv, Hsrv).
    assert ((length (emulated_hosts w),
             (NetworkxSdnTopology.number_of_edges (topo cfg) + 1
              + (if self_cloud w1 is Some _ then 1 else 0))%nat,
             (length (NetworkxSdnTopology.get_switches (topo cfg)) + 1
              + (if self_cloud w1 is Some _ then 1 else 0))%nat) = expected) as E.
    { unfold expected, expected_view. rewrite <- Hs, <- Hc, SEcld, Hsrv. done. }
    apply bind_inv in H as [(u & w2 & H2 & H)|H].
    + destruct u.
      destruct (wait_for_adapter_spec cfg fuel _ _ _ _ Hsrv1 H2) as (_ & Hok & Hunb).
      rewrite E in Hok, Hunb.
      destruct (Hok eq_refl) as (earlier & Htr1 & F1).
      destruct (rest_appends cfg pubs subs _ _ _ H) as (after & Htr2 & _).
      exists (evs0 ++ earlier
              ++ [EvBuildTopologyAdapter expected.1.1 expected.1.2 expected.2; EvSleep 2]),
        after.
      split_and!.
      * rewrite Htr2, Htr1, Htr0. by rewrite <- !app_assoc.
      * repeat apply Forall_app_2.
        -- eapply Forall_impl; [exact F0|]. by intros e [? ?].
        -- eapply Forall_impl; [exact F1|]. by intros e [? ?].
        -- by repeat constructor.
      * left. exists (evs0 ++ earlier). split; [by rewrite <- !app_assoc|].
        apply Forall_app_2.
        -- eapply Forall_impl; [exact F0|]. intros e Hq.
           by apply (quiet_before expected).
        -- eapply Forall_impl; [exact F1|]. by intros e [? ?].
      * intros Hall. destruct Hunb; [|done]. intros i Hi. rewrite Hview. by apply Hall.
    + apply not_ok_inv in H as (r0 & H2 & Hr0 & Hr).
      destruct (wait_for_adapter_spec cfg fuel _ _ _ _ Hsrv1 H2) as ((evs1 & Htr1 & F1) & _).
      exists (evs0 ++ evs1), []. split_and!.
      * rewrite Htr1, Htr0. by rewrite app_nil_r, <- !app_assoc.
      * apply Forall_app_2; [|done]. eapply Forall_impl; [exact F0|]. by intros e [? ?].
      * right. split; [done|]. apply Hr.
      * intros _. split; [done|]. apply Hr.
  - apply not_ok_inv in H as (r0 & H1 & Hr0 & Hr).
    destruct (start_network_appends cfg _ _ _ H1) as (evs0 & Htr0 & F0).
    exists evs0, []. split_and!.
    + by rewrite app_nil_r.
    + eapply Forall_impl; [exact F0|]. by intros e [? ?].
    + right. split; [done|]. apply Hr.
    + intros _. split; [done|]. apply Hr.
Qed.

(** C2: in every run, whatever its outcome, the events of
    [run_experiment] are some events [before], among which no flow rule
    is installed and no process is started, followed by the events
    [after] of the forwarding programming and of the launch of the
    applications; when there are events [after], [before] ends with the
    construction of an adapter that reports as many hosts as the
    emulation has but the NAT, as many links as the topology model has
    edges plus one per server and per cloud, and as many switches as the
    topology model has plus one per server and per cloud, and with the
    2-second sleep that follows it, and every adapter built earlier
    reported something else; and as long as the adapters disagree (for
    [fuel] iterations, [fuel] being arbitrary) the loop does not end:
    nothing is programmed or launched and the run does not return. *)
Theorem no_programming_before_convergence cfg fuel pubs subs fnodes flinks w r w' :
  server_and_cloud_set cfg w ->
  run_experiment cfg fuel pubs subs fnodes flinks w = (r, w') ->
  let expected := expected_view cfg w in
  ∃ before after,
    trace w' = trace w ++ before ++ after
    ∧ Forall (λ e, programs_or_launches e = false) before
    ∧ (after = []
       ∨ ∃ earlier,
           before = earlier ++ [EvBuildTopologyAdapter expected.1.1 expected.1.2 expected.2;
                                EvSleep 2]
           ∧ Forall (mismatching expected) earlier)
    ∧ ((∀ i, (i < fuel)%nat -> nth_view w i ≠ expected) ->
       after = [] ∧ ∀ res, r ≠ Ok res).
Proof.
  intros Hsc H expected. unfold run_experiment in H.
  apply bind_inv in H as [([] & w1 & H1 & H)|H].
  - destruct (configure_experiment_phases _ _ _ _ _ _ _ Hsc H1)
      as (before & after & Htr & F & [Hm|[_ Hno]] & Hunb); [|done].
    destruct (failure_model_appends cfg pubs subs fnodes flinks _ _ _ H)
      as (more & Htr' & _).
    exists before, (after ++ more). split_and!.
    + rewrite Htr', Htr. by rewrite <- !app_assoc.
    + done.
    + by right.
    + intros Hall. by destruct (Hunb Hall).
  - apply not_ok_inv in H as (r0 & H1 & Hr0 & Hr).
    destruct (configure_experiment_phases _ _ _ _ _ _ _ Hsc H1)
      as (before & after & Htr & F & Hm & Hunb).
    exists before, after. split_and!; [done..| |].
    + destruct Hm as [Hm|[-> _]]; [by right|by left].
    + intros Hall. destruct (Hunb Hall) as [-> _]. split; [done|]. apply Hr.
Qed.

Lemma no_programming_before_convergence_witness :
  let cfg := Campus.config None 1 true in
  let w := Campus.ready cfg (Campus.surroundings 6 (Campus.view 4 9 5) (λ _, false)) in
  let run := run_experiment cfg 10 (Campus.nodes w ["h1"]) (Campus.nodes w ["h2"])
               (Campus.nodes w ["a0"]) [("h1", "a0")] w in
  let expected := expected_view cfg w in
  ∃ before after,
    trace run.2 = trace w ++ before ++ after
    ∧ Forall (λ e, programs_or_launches e = false) before
    ∧ (after = []
       ∨ ∃ earlier,
           before = earlier ++ [EvBuildTopologyAdapter expected.1.1 expected.1.2 expected.2;
                                EvSleep 2]
           ∧ Forall (mismatching expected) earlier)
    ∧ ((∀ i, (i < 10)%nat -> nth_view w i ≠ expected) ->
       after = [] ∧ ∀ res, run.1 ≠ Ok res).
Proof.
  intros cfg w run expected.
  apply (no_programming_before_convergence cfg 10 (Campus.nodes w ["h1"])
           (Campus.nodes w ["h2"]) (Campus.nodes w ["a0"]) [("h1", "a0")] w).
  - split; vm_compute; reflexivity.
  - apply surjective_pairing.
Defined.

(** ** Sorting the data-path links *)

Lemma ascii_compare_lt_trans (a b c : ascii) :
  Ascii.compare a b = Lt -> Ascii.compare b c = Lt -> Ascii.compare a c = Lt.
Proof.
  unfold Ascii.compare. rewrite !N.compare_lt_iff. lia.
Qed.

Lemma string_compare_refl (s : string) : String.compare s s = Eq.
Proof.
  induction s as [|c s IH]; cbn; [done|].
  unfold Ascii.compare. by rewrite N.compare_refl.
Qed.

Lemma string_compare_lt_trans (a b c : string) :
  String.compare a b = Lt -> String.compare b c = Lt -> String.compare a c = Lt.
Proof.
  revert b c. induction a as [|x a IH]; intros [|y b] [|z c]; cbn; try done.
  destruct (Ascii.compare x y) eqn:Exy; try done;
    destruct (Ascii.compare y z) eqn:Eyz; try done; intros Hab Hbc.
  - apply Ascii.compare_eq_iff in Exy as ->. rewrite Eyz. eauto.
  - apply Ascii.compare_eq_iff in Exy as ->. by rewrite Eyz.
  - apply Ascii.compare_eq_iff in Eyz as <-. by rewrite Exy.
  - by rewrite (ascii_compare_lt_trans _ _ _ Exy Eyz).
Qed.

Lemma string_leb_trans (a b c : string) :
  String.leb a b = true -> String.leb b c = true -> String.leb a c = true.
Proof.
  unfold String.leb.
  destruct (String.compare a b) eqn:Eab; [| |done];
    destruct (String.compare b c) eqn:Ebc; try done; intros _ _.
  - apply String.compare_eq_iff in Eab as ->. by rewrite Ebc.
  - apply String.compare_eq_iff in Eab as ->. by rewrite Ebc.
  - apply String.compare_eq_iff in Ebc as <-. by rewrite Eab.
  - by rewrite (string_compare_lt_trans _ _ _ Eab Ebc).
Qed.

#[global] Instance tuple_le_total : Total tuple_le.
Proof.
  intros [a1 a2] [b1 b2]. unfold tuple_le, tuple_leb. cbn.
  rewrite (String.compare_antisym a1 b1).
  destruct (String.compare b1 a1) eqn:E; cbn; auto.
  apply String.leb_total.
Qed.

#[global] Instance tuple_le_trans : Transitive tuple_le.
Proof.
  intros [a1 a2] [b1 b2] [c1 c2]. unfold tuple_le, tuple_leb. cbn.
  destruct (String.compare a1 b1) eqn:Eab; [| |done];
    destruct (String.compare b1 c1) eqn:Ebc; try done.
  - apply String.compare_eq_iff in Eab as ->. rewrite Ebc. apply string_leb_trans.
  - apply String.compare_eq_iff in Eab as ->. by rewrite Ebc.
  - apply String.compare_eq_iff in Ebc as <-. by rewrite Eab.
  - by rewrite (string_compare_lt_trans _ _ _ Eab Ebc).
Qed.

#[global] Instance tuple_le_antisym : AntiSymm (=) tuple_le.
Proof.
  intros [a1 a2] [b1 b2]. unfold tuple_le, tuple_leb. cbn.
  rewrite (String.compare_antisym a1 b1).
  destruct (String.compare b1 a1) eqn:E; cbn; try done.
  apply String.compare_eq_iff in E as ->. intros H1 H2.
  by rewrite (String.leb_antisym _ _ H1 H2).
Qed.

Lemma sorted_Sorted l : Sorted tuple_le (sorted l).
Proof. apply Sorted_merge_sort, _. Qed.

Lemma sorted_Permutation l : sorted l ≡ₚ l.
Proof. apply merge_sort_Permutation. Qed.

(** The ascending rearrangement of a list of tuples is unique: another
    sorting algorithm gives the same list. *)
Lemma sorted_unique l l' : Sorted tuple_le l' -> l' ≡ₚ l -> l' = sorted l.
Proof.
  intros HS HP. apply (Sorted_unique tuple_le); [done|apply sorted_Sorted|].
  by rewrite HP, sorted_Permutation.
Qed.

(** ** The schedule of the data-path failures *)

Lemma effect_not_earlier e : respects not_earlier (effect e).
Proof. respects_auto not_earlier_prim. Qed.

Lemma time_sleep_not_earlier secs : respects not_earlier (time_sleep secs).
Proof.
  unfold time_sleep. destruct (Z.ltb_spec secs 0).
  - apply respects_raise, _.
  - apply respects_bind; [apply _| |intros _; apply effect_not_earlier].
    apply respects_modify. intros []. split; [done|]. cbn. lia.
Qed.

Lemma configLinkStatus_not_earlier a b s : respects not_earlier (configLinkStatus a b s).
Proof. respects_auto not_earlier_prim. Qed.

Lemma time_time_inv w t w' : time_time w = (Ok t, w') -> t = clock w ∧ w' = w.
Proof. apply gets_inv. Qed.

Lemma quake_not_earlier (i : Z) (quake : option Z) flinks fnodes :
  respects not_earlier
    (if decide (i = 1)
     then now ← time_time;
          for_each flinks (λ link : string * string, configLinkStatus link.1 link.2 down);;
          for_each fnodes (λ node, effect (EvStop node));;
          mret (Some now)
     else mret quake).
Proof. respects_auto not_earlier_prim. Qed.

Lemma apply_data_path_changes_spec flinks fnodes changes :
  ∀ i out quake w res w',
  (∀ k, 0 <= lag (outside w) k) ->
  apply_data_path_changes i changes flinks fnodes out quake w = (Ok res, w') ->
  ∃ ts,
    res.1 = out ++ zip_with recorded changes ts
    ∧ length ts = length changes
    ∧ StronglySorted Z.le ts
    ∧ Forall (λ t, clock w <= t) ts
    ∧ not_earlier w w'.
Proof.
  induction changes as [|[[[gw cs] st] delay] rest IH]; intros i out quake w res w' Hlag H.
  - injection H as <- <-. exists []. cbn. rewrite app_nil_r.
    split_and!; try done; constructor.
  - cbn [apply_data_path_changes] in H.
    apply bind_ok_inv in H as ([] & w1 & H1 & H).
    apply time_sleep_not_earlier in H1 as NE1.
    apply bind_ok_inv in H as (t & w1' & Ht & H).
    apply time_time_inv in Ht as [-> ->].
    apply bind_ok_inv in H as ([] & w2 & H2 & H).
    apply configLinkStatus_not_earlier in H2 as NE2.
    apply bind_ok_inv in H as (q & w3 & H3 & H).
    apply quake_not_earlier in H3 as NE3.
    assert (not_earlier w w3) as NE by (do 2 (etransitivity; [eassumption|]); done).
    destruct NE as [Ho Hc]. specialize (Hc Hlag).
    destruct NE1 as [Ho1 Hc1]. specialize (Hc1 Hlag).
    assert (not_earlier w1 w3) as [Ho13 Hc13] by (etransitivity; eassumption).
    rewrite Ho1 in Hc13. specialize (Hc13 Hlag).
    apply IH in H as (ts & Hres & Hlen & Hsorted & Hall & NE4); [|by rewrite Ho].
    exists (clock w1 :: ts). split_and!.
    + rewrite Hres. by rewrite <- app_assoc.
    + cbn. by rewrite Hlen.
    + constructor; [done|]. eapply Forall_impl; [exact Hall|]. cbn. intros. lia.
    + constructor; [done|]. eapply Forall_impl; [exact Hall|]. cbn. intros. lia.
    + etransitivity; [|exact NE4]. by split.
Qed.

Lemma plan_same_emulation cfg w w1 :
  same_emulation w w1 -> plan_data_path_changes cfg w1 = plan_data_path_changes cfg w.
Proof.
  intros (_ & Hgw & Hcs & _). unfold plan_data_path_changes, data_path_links.
  by rewrite Hgw, Hcs.
Qed.

Lemma failure_model_spec cfg pubs subs fnodes flinks w res w' :
  (∀ k, 0 <= lag (outside w) k) ->
  failure_model cfg pubs subs fnodes flinks w = (Ok res, w') ->
  ∃ planned ts,
    plan_data_path_changes cfg w = Ok planned
    ∧ data_path_changes res = zip_with recorded planned ts
    ∧ length ts = length planned
    ∧ StronglySorted Z.le ts.
Proof.
  intros Hlag H. unfold failure_model in H.
  apply bind_ok_inv in H as (t0 & w0 & Ht & H). apply time_time_inv in Ht as [-> ->].
  apply bind_ok_inv in H as ([] & w1 & H1 & H).
  pose proof (time_sleep_same_emulation _ _ _ _ H1) as SE.
  apply bind_ok_inv in H as (planned & w1' & Hp & H).
  injection Hp as Hp <-. rewrite (plan_same_emulation cfg w w1 SE) in Hp.
  apply bind_ok_inv in H as (applied & w2 & H2 & H).
  apply apply_data_path_changes_spec in H2 as (ts & Hres & Hlen & Hsorted & _);
    [|by destruct SE as (_ & _ & _ & _ & _ & _ & ->)].
  apply bind_ok_inv in H as (now & w2' & _ & H).
  apply bind_ok_inv in H as ([] & w3 & _ & H).
  injection H as <- <-. cbn [data_path_changes].
  exists planned, ts. by split_and!.
Qed.

Lemma await_convergence_same_emulation cfg hosts eh el es fuel :
  ∀ nh nl ns ntries,
  respects same_emulation (await_convergence cfg fuel hosts eh el es nh nl ns ntries).
Proof.
  induction fuel as [|fuel IH]; intros nh nl ns ntries; cbn [await_convergence].
  - respects_auto same_emulation_prim.
  - respects_auto same_emulation_prim.
    + apply ping_hosts_same_emulation.
    + apply IH.
Qed.

Lemma configure_experiment_same_emulation cfg fuel pubs subs :
  respects same_emulation (configure_experiment cfg fuel pubs subs).
Proof.
  unfold configure_experiment, wait_for_adapter, setup_traffic_generators,
    setup_seismic_test, comparison_routes, ride_c_probe_routes,
    cloud_gateway_routes, launch_clients, install_unicast_route,
    install_probe_routes, install_gateway_route.
  respects_auto same_emulation_prim.
  - apply start_network_same_emulation.
  - apply await_convergence_same_emulation.
Qed.

Lemma zip_with_recorded_projections planned ts :
  length ts = length planned ->
  length (zip_with recorded planned ts) = length planned
  ∧ (λ c : string * status * Z, (c.1.1, c.1.2)) <$> zip_with recorded planned ts
    = (λ p : planned_change, (p.1.1.1, p.1.2)) <$> planned
  ∧ (λ c : string * status * Z, c.2) <$> zip_with recorded planned ts = ts.
Proof.
  revert ts. induction planned as [|p planned IH]; intros [|t ts] Hlen; try done.
  cbn in Hlen. destruct (IH ts) as (H1 & H2 & H3); [lia|].
  cbn. by rewrite H1, H2, H3.
Qed.

Lemma plan_data_path_changes_sorted cfg w links :
  data_path_links w = Ok links -> links ≠ [] ->
  ∃ dp0 rest,
    sorted links = dp0 :: rest
    ∧ plan_data_path_changes cfg w
      = Ok ((dp0.1, dp0.2, down, 0)
            :: ((λ dp, (dp.1, dp.2, down, TIME_BETWEEN_SEISMIC_EVENTS cfg)) <$> rest)
            ++ [(dp0.1, dp0.2, up, TIME_BETWEEN_SEISMIC_EVENTS cfg)]).
Proof.
  intros Hl Hne. unfold plan_data_path_changes. rewrite Hl. cbn.
  destruct (sorted links) as [|dp0 rest] eqn:E.
  - destruct Hne. apply Permutation_nil_r. rewrite <- E. symmetry. apply sorted_Permutation.
  - exists dp0, rest. done.
Qed.


Lemma returns_ret {A} (a : A) : returns (mret a).
Proof. intros w Hw. by exists a, w. Qed.

Lemma returns_gets {A} (f : world -> A) : returns (gets f).
Proof. intros w Hw. by exists (f w), w. Qed.

Lemma returns_bind {A B} (m : M A) (f : A -> M B) :
  returns m -> (∀ a, returns (f a)) -> returns (m ≫= f).
Proof.
  intros Hm Hf w Hw. destruct (Hm w Hw) as (a & w1 & H1 & Hw1).
  destruct (Hf a w1 Hw1) as (b & w2 & H2 & Hw2).
  exists b, w2. by rewrite bind_unfold, H1.
Qed.

Lemma returns_for_each {A} (l : list A) (body : A -> M unit) :
  (∀ x, returns (body x)) -> returns (for_each l body).
Proof.
  intros Hb. induction l as [|x l IH]; cbn [for_each].
  - apply returns_ret.
  - apply returns_bind; auto.
Qed.

Lemma returns_effect e : returns (effect e).
Proof. intros [] Hw. by eexists tt, _. Qed.

Lemma returns_time_sleep secs : 0 <= secs -> returns (time_sleep secs).
Proof.
  intros Hs. unfold time_sleep. destruct (Z.ltb_spec secs 0); [lia|].
  apply returns_bind; [|intros _; apply returns_effect].
  intros [] Hw. by eexists tt, _.
Qed.

Lemma returns_configLinkStatus a b s : returns (configLinkStatus a b s).
Proof.
  unfold configLinkStatus. apply returns_bind; [|intros _; apply returns_effect].
  intros w [net Hw]. exists net, w. unfold the_net. rewrite bind_unfold. cbn.
  rewrite Hw. by split.
Qed.

Lemma returns_apply_data_path_changes flinks fnodes changes :
  Forall (λ c : planned_change, 0 <= c.2) changes ->
  ∀ i out quake, returns (apply_data_path_changes i changes flinks fnodes out quake).
Proof.
  induction 1 as [|[[[gw cs] st] delay] rest Hd _ IH]; intros i out quake;
    cbn [apply_data_path_changes].
  - apply returns_ret.
  - cbn in Hd.
    apply returns_bind; [by apply returns_time_sleep|intros _].
    apply returns_bind; [apply returns_gets|intros t].
    apply returns_bind; [apply returns_configLinkStatus|intros _].
    apply returns_bind; [|intros q; apply IH].
    case_decide; [|apply returns_ret].
    apply returns_bind; [apply returns_gets|intros now].
    apply returns_bind;
      [apply returns_for_each; intros; apply returns_configLinkStatus|intros _].
    apply returns_bind;
      [apply returns_for_each; intros; apply returns_effect|intros _].
    apply returns_ret.
Qed.

Lemma failure_model_returns cfg pubs subs fnodes flinks w links :
  data_path_links w = Ok links -> links ≠ [] ->
  is_Some (self_net w) ->
  0 <= SEISMIC_EVENT_DELAY cfg -> 0 <= TIME_BETWEEN_SEISMIC_EVENTS cfg ->
  ∃ res w', failure_model cfg pubs subs fnodes flinks w = (Ok res, w').
Proof.
  intros Hl Hne Hnet Hdelay HT.
  destruct (plan_data_path_changes_sorted cfg w links Hl Hne) as (dp0 & rest & _ & Hp).
  unfold failure_model. rewrite bind_unfold. cbn [time_time gets].
  rewrite bind_unfold.
  destruct (returns_time_sleep _ Hdelay w Hnet) as ([] & w1 & H1 & Hw1). rewrite H1.
  rewrite bind_unfold.
  rewrite (plan_same_emulation cfg w w1 (time_sleep_same_emulation _ _ _ _ H1)), Hp.
  rewrite bind_unfold.
  match goal with |- context [apply_data_path_changes ?i ?cs ?l ?n ?o ?q w1] =>
    assert (Forall (λ p : planned_change, 0 <= p.2) cs) as Hc
  end.
  { constructor; [done|]. apply Forall_app_2; [|by constructor].
    apply Forall_fmap, Forall_true. done. }
  destruct (returns_apply_data_path_changes flinks fnodes _ Hc 0 [] None w1 Hw1)
    as (applied & w2 & H2 & Hw2).
  rewrite H2.
  rewrite bind_unfold. cbn [time_time gets]. rewrite bind_unfold.
  set (remaining := _ + _ - _).
  destruct (Z.ltb_spec 0 remaining).
  - destruct (returns_time_sleep remaining ltac:(lia) w2 Hw2) as ([] & w3 & H3 & _).
    rewrite H3. by eexists _, _.
  - by eexists _, _.
Qed.

(** C1: for every non-empty collection of data-path links, the planned
    change list is built from [dp], the (gateway name, cloud-switch name)
    pairs sorted ascending, and is [(dp[0], down, 0)], then
    [(dp[i], down, T)] for [i = 1..n-1], then [(dp[0], up, T)], with
    [T = TIME_BETWEEN_SEISMIC_EVENTS]; the [data_path_changes] of the
    result of a run has one entry per planned change, its
    (gateway, status) projection is the planned schedule in order, and
    its timestamps never decrease (the operations taking no less than
    their nominal time); and with such links, delays that are not
    negative and a started emulation, the failure model does return a
    result. *)
Theorem data_path_schedule cfg :
  (∀ w links,
     data_path_links w = Ok links -> links ≠ [] ->
     ∃ dp0 rest,
       dp0 :: rest = sorted links
       ∧ Sorted tuple_le (dp0 :: rest)
       ∧ dp0 :: rest ≡ₚ links
       ∧ plan_data_path_changes cfg w
         = Ok ([(dp0.1, dp0.2, down, 0)]
               ++ ((λ dp, (dp.1, dp.2, down, TIME_BETWEEN_SEISMIC_EVENTS cfg)) <$> rest)
               ++ [(dp0.1, dp0.2, up, TIME_BETWEEN_SEISMIC_EVENTS cfg)]))
  ∧ (∀ fuel pubs subs fnodes flinks w res w',
       (∀ k, 0 <= lag (outside w) k) ->
       run_experiment cfg fuel pubs subs fnodes flinks w = (Ok res, w') ->
       ∃ planned,
         plan_data_path_changes cfg w = Ok planned
         ∧ length (data_path_changes res) = length planned
         ∧ (λ c : string * status * Z, (c.1.1, c.1.2)) <$> data_path_changes res
           = (λ p : planned_change, (p.1.1.1, p.1.2)) <$> planned
         ∧ StronglySorted Z.le ((λ c : string * status * Z, c.2) <$> data_path_changes res))
  ∧ (∀ pubs subs fnodes flinks w links,
       data_path_links w = Ok links -> links ≠ [] ->
       is_Some (self_net w) ->
       0 <= SEISMIC_EVENT_DELAY cfg -> 0 <= TIME_BETWEEN_SEISMIC_EVENTS cfg ->
       ∃ res w', failure_model cfg pubs subs fnodes flinks w = (Ok res, w')).
Proof.
  split_and!.
  - intros w links Hl Hne.
    destruct (plan_data_path_changes_sorted cfg w links Hl Hne) as (dp0 & rest & E & Hp).
    exists dp0, rest. rewrite <- E. split_and!; [done| | |done].
    + apply sorted_Sorted.
    + apply sorted_Permutation.
  - intros fuel pubs subs fnodes flinks w res w' Hlag H. unfold run_experiment in H.
    apply bind_ok_inv in H as ([] & w1 & H1 & H).
    apply configure_experiment_same_emulation in H1 as SE.
    apply failure_model_spec in H as (planned & ts & Hp & Hres & Hlen & Hsorted);
      [|by destruct SE as (_ & _ & _ & _ & _ & _ & ->)].
    rewrite (plan_same_emulation cfg w w1 SE) in Hp.
    destruct (zip_with_recorded_projections planned ts Hlen) as (L & P & T).
    exists planned. rewrite Hres, L, P, T. done.
  - intros pubs subs fnodes flinks w links. apply failure_model_returns.
Qed.

Lemma data_path_schedule_witness :
  let cfg := Campus.config None 1 true in
  let w := Campus.ready cfg (Campus.surroundings 6 (Campus.view 4 9 5) (λ _, false)) in
  let run := run_experiment cfg 10 (Campus.nodes w ["h1"]) (Campus.nodes w ["h2"])
               (Campus.nodes w ["a0"]) [("h1", "a0")] w in
  let res := match run.1 with
             | Ok res => res
             | _ => {| quake_start_time := None; data_path_changes := [];
                       publishers := ∅; subscribers := ∅ |}
             end in
  (∃ dp0 rest,
     dp0 :: rest = sorted [("g1", "x0"); ("g0", "x0")]
     ∧ Sorted tuple_le (dp0 :: rest)
     ∧ dp0 :: rest ≡ₚ [("g1", "x0"); ("g0", "x0")]
     ∧ plan_data_path_changes cfg w
       = Ok ([(dp0.1, dp0.2, down, 0)]
             ++ ((λ dp, (dp.1, dp.2, down, TIME_BETWEEN_SEISMIC_EVENTS cfg)) <$> rest)
             ++ [(dp0.1, dp0.2, up, TIME_BETWEEN_SEISMIC_EVENTS cfg)]))
  ∧ (∃ planned,
       plan_data_path_changes cfg w = Ok planned
       ∧ length (data_path_changes res) = length planned
       ∧ (λ c : string * status * Z, (c.1.1, c.1.2)) <$> data_path_changes res
         = (λ p : planned_change, (p.1.1.1, p.1.2)) <$> planned
       ∧ StronglySorted Z.le ((λ c : string * status * Z, c.2) <$> data_path_changes res))
  ∧ (∃ res w', failure_model cfg (Campus.nodes w ["h1"]) (Campus.nodes w ["h2"])
                 (Campus.nodes w ["a0"]) [("h1", "a0")] w = (Ok res, w')).
Proof.
  intros cfg w run res.
  destruct (data_path_schedule cfg) as (Hplan & Hrun & Hreturns).
  split_and!.
  - apply (Hplan w [("g1", "x0"); ("g0", "x0")]); [vm_compute; reflexivity|done].
  - apply (Hrun 10%nat (Campus.nodes w ["h1"]) (Campus.nodes w ["h2"])
             (Campus.nodes w ["a0"]) [("h1", "a0")] w res run.2).
    + intros k. replace (outside w) with
        (Campus.surroundings 6 (Campus.view 4 9 5) (λ _, false))
        by (vm_compute; reflexivity).
      cbn. lia.
    + vm_compute. reflexivity.
  - apply (Hreturns (Campus.nodes w ["h1"]) (Campus.nodes w ["h2"])
             (Campus.nodes w ["a0"]) [("h1", "a0")] w [("g1", "x0"); ("g0", "x0")]).
    + vm_compute. reflexivity.
    + done.
    + vm_compute. by eexists.
    + vm_compute. discriminate.
    + vm_compute. discriminate.
Defined.

(** ** The batches of flow rules *)

Lemma the_adapter_inv w a w' :
  the_adapter w = (Ok a, w') -> self_topology_adapter w = Some a ∧ w' = w.
Proof.
  unfold the_adapter. intros H. apply bind_ok_inv in H as (o & w1 & H1 & H).
  apply gets_inv in H1 as [-> ->]. apply lift_inv in H as [H ->].
  destruct (self_topology_adapter w); cbn in H; by simplify_eq.
Qed.

Lemma get_mininet_nodes_inv names w nodes w' :
  _get_mininet_nodes names w = (Ok nodes, w') ->
  ∃ net, self_net w = Some net
         ∧ comprehension (λ n, Mininet.get n net) names = Ok nodes ∧ w' = w.
Proof.
  unfold _get_mininet_nodes. intros H. apply bind_ok_inv in H as (net & w1 & H1 & H).
  apply the_net_inv in H1 as [H1 ->]. apply lift_inv in H as [H ->]. eauto.
Qed.

Lemma mret_inv {A} (a b : A) w w' :
  (mret a : M A) w = (Ok b, w') -> b = a ∧ w' = w.
Proof. by intros [= <- <-]. Qed.

Lemma try_except_reraise_inv {A} (body : M A) (before : exn -> M unit) w a w' :
  try_except body (λ e, before e;; raise e) w = (Ok a, w') -> body w = (Ok a, w').
Proof.
  unfold try_except. destruct (body w) as [[x|e|] w1]; [done| |done].
  rewrite bind_unfold. by destruct (before e w1) as [[[]|?|] ?].
Qed.

(** A batch installation and the message that follows its failure. *)
Lemma install_and_log_inv rules (m : log_message) w w' :
  (ok ← install_flow_rules rules;
   if negb ok then emit (EvLogError m) else mret tt) w = (Ok tt, w') ->
  trace w' = trace w ++ batch_events rules (install_result (outside w) (n_installs w)) m
  ∧ n_installs w' = S (n_installs w)
  ∧ same_controller w w'.
Proof.
  destruct w as [net hs sws gws css lks nat srv cld ssw pops cips sips ad clk tr tk na ni out].
  unfold batch_events. cbn [trace outside n_installs]. intros H.
  cbv beta iota zeta delta
    [mbind M_bind mret M_ret gets modify emit effect install_flow_rules negb
     self_net self_hosts self_switches self_cloud_gateways self_cloud_switches
     self_links self_nat self_server self_cloud self_server_switch self_popens
     self_client_iperfs self_server_iperfs self_topology_adapter clock trace
     ticks n_adapters n_installs outside
     set_clock set_trace set_ticks set_n_installs] in H.
  destruct (install_result out ni); injection H as <-; cbn.
  - by repeat split.
  - rewrite <- app_assoc. by repeat split.
Qed.

Lemma static_route_rules_same cfg w w1 sub :
  same_controller w w1 -> static_route_rules cfg w1 sub = static_route_rules cfg w sub.
Proof.
  intros [(Hnet & _ & _ & _ & Hsrv & _) Had].
  unfold static_route_rules, static_route. by rewrite Hnet, Hsrv, Had.
Qed.

#[global] Instance same_controller_preorder : PreOrder same_controller.
Proof.
  split.
  - intros w. split; reflexivity.
  - intros w1 w2 w3 [S1 A1] [S2 A2]. split; [by etransitivity|congruence].
Qed.

Section BatchLoop.

Context {X : Type} (body : X -> M unit).
Context (spec : world -> X -> result (list FlowRule)).
Context (msg : X -> list FlowRule -> log_message).

Hypothesis spec_same : ∀ w w1 x, same_controller w w1 -> spec w1 x = spec w x.

Hypothesis body_spec : ∀ x w w1,
  body x w = (Ok tt, w1) ->
  ∃ rules,
    spec w x = Ok rules
    ∧ trace w1 = trace w ++ batch_events rules
                   (install_result (outside w) (n_installs w)) (msg x rules)
    ∧ n_installs w1 = S (n_installs w)
    ∧ same_controller w w1.

Lemma batch_loop (l : list X) :
  ∀ w w',
  for_each l body w = (Ok tt, w') ->
  ∃ batches : list (list FlowRule),
    Forall2 (λ x rules, spec w x = Ok rules) l batches
    ∧ trace w' = trace w ++ concat (imap (λ i xr,
        batch_events xr.2 (install_result (outside w) (n_installs w + i))
          (msg xr.1 xr.2)) (zip l batches))
    ∧ n_installs w' = (n_installs w + length l)%nat
    ∧ same_controller w w'.
Proof.
  induction l as [|x l IH]; intros w w' H.
  - apply mret_inv in H as [_ ->]. exists []. cbn. rewrite app_nil_r, Nat.add_0_r.
    by split_and!.
  - cbn [for_each] in H. apply bind_ok_inv in H as ([] & w1 & H1 & H).
    apply body_spec in H1 as (rules & Hspec & Htr1 & Hn1 & SC1).
    apply IH in H as (batches & Hall & Htr & Hn & SC).
    exists (rules :: batches). split_and!.
    + constructor; [done|]. eapply Forall2_impl; [exact Hall|].
      intros y r Hy. by rewrite <- (spec_same w w1).
    + rewrite Htr, Htr1. cbn [zip zip_with imap concat]. rewrite <- app_assoc.
      rewrite Nat.add_0_r. do 3 f_equal. apply imap_ext. intros i xr _.
      unfold compose. destruct SC1 as [(_ & _ & _ & _ & _ & _ & ->) _].
      rewrite Hn1. do 2 f_equal. lia.
    + rewrite Hn, Hn1. cbn. lia.
    + by etransitivity.
Qed.

Hypothesis body_complete : ∀ x w rules,
  spec w x = Ok rules -> ∃ w1, body x w = (Ok tt, w1).

Lemma batch_loop_returns (l : list X) :
  ∀ w, Forall (λ x, is_ok (spec w x) = true) l -> ∃ w', for_each l body w = (Ok tt, w').
Proof.
  induction l as [|x l IH]; intros w Hall.
  - by exists w.
  - apply Forall_cons in Hall as [Hx Hall].
    destruct (spec w x) as [rules| |] eqn:E; try done.
    destruct (body_complete x w rules E) as (w1 & H1).
    destruct (body_spec _ _ _ H1) as (_ & _ & _ & _ & SC).
    destruct (IH w1) as (w' & H).
    { eapply Forall_impl; [exact Hall|]. intros y Hy. by rewrite (spec_same w w1). }
    exists w'. cbn [for_each]. by rewrite bind_unfold, H1.
Qed.

End BatchLoop.

Lemma install_unicast_route_spec cfg sub w w1 :
  install_unicast_route cfg sub w = (Ok tt, w1) ->
  ∃ rules,
    static_route_rules cfg w sub = Ok rules
    ∧ trace w1 = trace w ++ batch_events rules
                   (install_result (outside w) (n_installs w))
                   (ProblemInstallingSubscriber sub rules)
    ∧ n_installs w1 = S (n_installs w)
    ∧ same_controller w w1.
Proof.
  unfold install_unicast_route. intros H1. apply try_except_reraise_inv in H1.
  do 8 (apply bind_ok_inv in H1 as (? & ? & ? & H1)).
  repeat match goal with
         | H : gets _ _ = (Ok _, _) |- _ => apply gets_inv in H as [-> ->]
         | H : lift _ _ = (Ok _, _) |- _ => apply lift_inv in H as [? ->]
         | H : the_adapter _ = _ |- _ => apply the_adapter_inv in H as [? ->]
         | H : _get_mininet_nodes _ _ = _ |- _ =>
             apply get_mininet_nodes_inv in H as (? & ? & ? & ->)
         end.
  apply install_and_log_inv in H1 as (Htr & Hn & SC).
  eexists. split_and!; [|exact Htr|exact Hn|exact SC].
  unfold static_route_rules, static_route.
  repeat match goal with H : _ = Ok _ |- _ => rewrite H; clear H; cbn end.
  repeat match goal with H : _ = Some _ |- _ => rewrite H; clear H; cbn end.
  repeat match goal with H : _ = Ok _ |- _ => rewrite H; clear H; cbn end.
  done.
Qed.

Lemma install_and_log_returns rules (m : log_message) w :
  ∃ w', (ok ← install_flow_rules rules;
         if negb ok then emit (EvLogError m) else mret tt) w = (Ok tt, w').
Proof.
  rewrite bind_unfold. unfold install_flow_rules. rewrite !bind_unfold. cbn [gets modify].
  unfold effect. rewrite !bind_unfold. cbn [modify mret M_ret].
  destruct (install_result _ _); cbn; by eexists.
Qed.

Lemma result_bind_inv {A B} (r : result A) (f : A -> result B) b :
  r ≫= f = Ok b -> ∃ a, r = Ok a ∧ f a = Ok b.
Proof. destruct r as [a| |]; [|done..]. intros H. by exists a. Qed.

Lemma attr_inv {A} (o : option A) a : attr o = Ok a -> o = Some a.
Proof. destruct o; cbn; congruence. Qed.

Lemma install_unicast_route_complete cfg sub w rules :
  static_route_rules cfg w sub = Ok rules -> ∃ w1, install_unicast_route cfg sub w = (Ok tt, w1).
Proof.
  unfold static_route_rules, static_route. intros H.
  apply result_bind_inv in H as (route & H & Hrules).
  do 6 (apply result_bind_inv in H as (? & ? & H)).
  injection H as <-.
  apply result_bind_inv in Hrules as (adapter & Had & Hrules).
  apply attr_inv in Had.
  match goal with H : attr _ = Ok _ |- _ => apply attr_inv in H end.
  unfold install_unicast_route, try_except, _get_mininet_nodes, the_net, the_adapter.
  repeat first
    [ rewrite bind_unfold
    | progress unfold lift, gets, attr
    | match goal with H : _ = Ok _ |- _ => rewrite H end
    | match goal with H : _ = Some _ |- _ => rewrite H end
    | progress cbv beta iota ].
  destruct (install_and_log_returns rules (ProblemInstallingSubscriber sub rules) w)
    as (w1 & E).
  rewrite bind_unfold in E. exists w1. by rewrite E.
Qed.

(** C3: when the unicast comparison arm is active, the flow rules
    installed for every subscriber are those of its static route: the
    weighted path of the topology model from the original server to the
    subscriber, every name translated to its DPID, after the DPID of the
    host of the server; they are built at the priority of the static
    paths and installed as one batch per subscriber, in the order of the
    subscribers; and when that route and its rules exist for every
    subscriber, the routes are installed. *)
Theorem unicast_static_routes cfg subs w :
  comparison cfg = Some "unicast" ∨ ntrees cfg = 0 ->
  (∀ w',
     comparison_routes cfg subs w = (Ok tt, w') ->
     ∃ batches : list (list FlowRule),
       Forall2 (λ sub rules, static_route_rules cfg w sub = Ok rules) subs batches
       ∧ trace w' = trace w ++ concat (imap (λ i sr,
           batch_events sr.2 (install_result (outside w) (n_installs w + i))
             (ProblemInstallingSubscriber sr.1 sr.2)) (zip subs batches)))
  ∧ (Forall (λ sub, is_ok (static_route_rules cfg w sub) = true) subs ->
     ∃ w', comparison_routes cfg subs w = (Ok tt, w')).
Proof.
  intros Hu.
  assert (use_unicast cfg = true) as Hu'.
  { unfold use_unicast. destruct Hu as [Hu|Hu].
    - by rewrite (bool_decide_eq_true_2 _ Hu).
    - by rewrite (bool_decide_eq_true_2 (ntrees cfg = 0) Hu), orb_true_r. }
  unfold comparison_routes. rewrite Hu'. split.
  - intros w' H.
    eapply (batch_loop (install_unicast_route cfg) (static_route_rules cfg)
              ProblemInstallingSubscriber) in H
      as (batches & Hall & Htr & _); [by exists batches| |].
    + intros. by apply static_route_rules_same.
    + intros. by apply install_unicast_route_spec.
  - apply (batch_loop_returns (install_unicast_route cfg) (static_route_rules cfg)
             ProblemInstallingSubscriber).
    + intros. by apply static_route_rules_same.
    + intros. by apply install_unicast_route_spec.
    + intros. by eapply install_unicast_route_complete.
Qed.

Lemma unicast_static_routes_witness :
  let cfg := Campus.config (Some "unicast") 1 true in
  let w := Campus.converged cfg
             (Campus.surroundings 0 (Campus.view 4 9 5) (λ j, bool_decide (j = 1%nat))) in
  let subs := Campus.nodes w ["h1"; "h2"] in
  (∀ w',
     comparison_routes cfg subs w = (Ok tt, w') ->
     ∃ batches : list (list FlowRule),
       Forall2 (λ sub rules, static_route_rules cfg w sub = Ok rules) subs batches
       ∧ trace w' = trace w ++ concat (imap (λ i sr,
           batch_events sr.2 (install_result (outside w) (n_installs w + i))
             (ProblemInstallingSubscriber sr.1 sr.2)) (zip subs batches)))
  ∧ ∃ w', comparison_routes cfg subs w = (Ok tt, w').
Proof.
  intros cfg w subs.
  destruct (unicast_static_routes cfg subs w) as [Hroutes Hreturns].
  - left. vm_compute. reflexivity.
  - split; [exact Hroutes|]. apply Hreturns.
    apply Forall_fold_right. vm_compute. repeat split.
Defined.

Example unicast_static_routes_campus :
  let cfg := Campus.config (Some "unicast") 1 true in
  let w := Campus.converged cfg
             (Campus.surroundings 0 (Campus.view 4 9 5) (λ j, bool_decide (j = 1%nat))) in
  map (static_route cfg w) (Campus.nodes w ["h1"; "h2"])
  = [Ok ["AA:HS0/None"; "of:00000000000000e0"; "of:00000000000000a0"; "AA:H1/None"];
     Ok ["AA:HS0/None"; "of:00000000000000e0"; "of:00000000000000a0"; "AA:H2/None"]].
Proof. vm_compute. reflexivity. Qed.

(** ** The routes of the probes *)

Lemma swap_udp_ports_probe (a b : match_value) :
  swap_udp_ports {[ "udp_src" := a; "udp_dst" := b ]}
  = {[ "udp_dst" := a; "udp_src" := b ]}.
Proof.
  apply map_eq. intros k. unfold swap_udp_ports.
  destruct (decide (k = "udp_src")) as [->|Hs].
  - rewrite lookup_partial_alter_eq. by simplify_map_eq.
  - rewrite lookup_partial_alter_ne by done.
    destruct (decide (k = "udp_dst")) as [->|Hd].
    + rewrite lookup_partial_alter_eq. by simplify_map_eq.
    + rewrite lookup_partial_alter_ne by done. by simplify_map_eq.
Qed.

Lemma probe_rules_same cfg w w1 gp :
  same_controller w w1 -> probe_rules cfg w1 gp = probe_rules cfg w gp.
Proof.
  intros [(_ & _ & _ & _ & Hsrv & Hcld & _) Had].
  unfold probe_rules, probe_forward_rules, probe_reverse_rules, probe_route, path_rules.
  by rewrite Hsrv, Hcld, Had.
Qed.

Lemma install_probe_routes_spec cfg gp w w1 :
  install_probe_routes cfg gp w = (Ok tt, w1) ->
  ∃ rules,
    probe_rules cfg w gp = Ok rules
    ∧ trace w1 = trace w ++ batch_events rules
                   (install_result (outside w) (n_installs w))
                   (ProblemInstallingProbes gp.1 rules)
    ∧ n_installs w1 = S (n_installs w)
    ∧ same_controller w w1.
Proof.
  unfold install_probe_routes. intros H1.
  do 10 (apply bind_ok_inv in H1 as (? & ? & ? & H1)).
  repeat match goal with
         | H : gets _ _ = (Ok _, _) |- _ => apply gets_inv in H as [-> ->]
         | H : lift _ _ = (Ok _, _) |- _ => apply lift_inv in H as [? ->]
         | H : the_adapter _ = _ |- _ => apply the_adapter_inv in H as [? ->]
         end.
  apply install_and_log_inv in H1 as (Htr & Hn & SC).
  eexists. split_and!; [|exact Htr|exact Hn|exact SC].
  unfold probe_rules, probe_forward_rules, probe_reverse_rules, probe_route, path_rules,
    probe_matches.
  rewrite swap_udp_ports_probe.
  repeat match goal with H : _ = Ok _ |- _ => rewrite H; clear H; cbn end.
  repeat match goal with H : _ = Some _ |- _ => rewrite H; clear H; cbn end.
  repeat match goal with H : _ = Ok _ |- _ => rewrite H; clear H; cbn end.
  done.
Qed.

Lemma install_probe_routes_complete cfg gp w rules :
  probe_rules cfg w gp = Ok rules -> ∃ w1, install_probe_routes cfg gp w = (Ok tt, w1).
Proof.
  unfold probe_rules, probe_forward_rules, probe_reverse_rules, probe_route, path_rules,
    probe_matches.
  rewrite swap_udp_ports_probe. intros H.
  apply result_bind_inv in H as (forward & H & Hb).
  apply result_bind_inv in H as (route & H & Hf).
  apply result_bind_inv in H as (gw_dpid & Hgw & H).
  apply result_bind_inv in H as (adapter & Had & H).
  apply result_bind_inv in H as (server_dpid & Hsrv & H).
  apply result_bind_inv in H as (edge_gw_route & Hedge & H).
  apply result_bind_inv in H as (cloud_dpid & Hcld & H).
  apply result_bind_inv in H as (gw_cloud_route & Hcloud & H).
  injection H as <-.
  apply result_bind_inv in Hb as (backward & Hb & Hr).
  injection Hr as <-.
  rewrite Hgw, Had, Hsrv in Hb. cbn in Hb. rewrite Hedge, Hcld in Hb. cbn in Hb.
  rewrite Hcloud in Hb. cbn in Hb. rewrite Had in Hf. cbn in Hf.
  apply attr_inv in Had.
  unfold install_probe_routes, the_adapter.
  repeat first
    [ rewrite bind_unfold
    | progress unfold lift, gets, attr
    | match goal with H : _ = Ok _ |- _ => rewrite H end
    | match goal with H : _ = Some _ |- _ => rewrite H end
    | progress cbv beta iota zeta ].
  destruct (install_and_log_returns (forward ++ backward)
              (ProblemInstallingProbes gp.1 (forward ++ backward)) w) as (w1 & E).
  rewrite bind_unfold in E. exists w1. by rewrite E.
Qed.

Lemma probe_rules_inv cfg w gp rules :
  probe_rules cfg w gp = Ok rules ->
  ∃ route forward backward,
    probe_route cfg w gp.1 = Ok route
    ∧ path_rules cfg w route (probe_matches cfg gp.2) = Ok forward
    ∧ path_rules cfg w (reverse route) (swap_udp_ports (probe_matches cfg gp.2))
      = Ok backward
    ∧ rules = forward ++ backward.
Proof.
  unfold probe_rules, probe_forward_rules, probe_reverse_rules. intros H.
  apply result_bind_inv in H as (forward & H & Hb).
  apply result_bind_inv in H as (route & Hroute & Hf).
  apply result_bind_inv in Hb as (backward & Hb & Hr).
  injection Hr as <-. rewrite Hroute in Hb. cbn in Hb.
  by exists route, forward, backward.
Qed.

Lemma gateway_ports_lookup cfg w (i : nat) gw :
  self_cloud_gateways w !! i = Some gw ->
  gateway_ports cfg w !! i = Some (gw, PROBE_BASE_SRC_PORT cfg + Z.of_nat i).
Proof.
  intros H. unfold gateway_ports. rewrite lookup_zip_with, H. cbn.
  apply lookup_lt_Some in H.
  rewrite (proj2 (lookup_seqZ _ _ _ (PROBE_BASE_SRC_PORT cfg + Z.of_nat i)));
    [done|lia].
Qed.

Lemma gateway_ports_length cfg w :
  length (gateway_ports cfg w) = length (self_cloud_gateways w).
Proof.
  unfold gateway_ports. rewrite length_zip_with, length_seqZ. lia.
Qed.

Lemma ride_c_probe_routes_spec cfg server w w' :
  ride_c_probe_routes cfg server w = (Ok tt, w') ->
  ∃ batches : list (list FlowRule),
    Forall2 (λ gp rules, probe_rules cfg w gp = Ok rules) (gateway_ports cfg w) batches
    ∧ trace w' = trace w ++ concat (imap (λ i gr,
        batch_events gr.2 (install_result (outside w) (n_installs w + i))
          (ProblemInstallingProbes gr.1.1 gr.2)) (zip (gateway_ports cfg w) batches))
    ∧ same_controller w w'.
Proof.
  unfold ride_c_probe_routes. intros H.
  do 5 (apply bind_ok_inv in H as (? & ? & ? & H)).
  repeat match goal with
         | H : gets _ _ = (Ok _, _) |- _ => apply gets_inv in H as [-> ->]
         | H : lift _ _ = (Ok _, _) |- _ => apply lift_inv in H as [? ->]
         end.
  eapply (batch_loop (install_probe_routes cfg) (probe_rules cfg)
            (λ gp rules, ProblemInstallingProbes gp.1 rules)) in H
    as (batches & Hall & Htr & _ & SC); [by exists batches| |].
  - intros. by apply probe_rules_same.
  - intros. by apply install_probe_routes_spec.
Qed.

Lemma ride_c_probe_routes_returns cfg server w :
  is_ok (get_host_dpid cfg server) = true ->
  is_ok (get_host_dpid cfg (self_cloud w)) = true ->
  Forall (λ gp, is_ok (probe_rules cfg w gp) = true) (gateway_ports cfg w) ->
  ∃ w', ride_c_probe_routes cfg server w = (Ok tt, w').
Proof.
  intros Hsrv Hcld Hall.
  assert (is_ok (comprehension
            (λ gw_port : Node * Z,
               gw_dpid ← get_switch_dpid cfg gw_port.1;
               cloud_dpid ← get_host_dpid cfg (self_cloud w);
               mret (node_name gw_port.1, gw_dpid, cloud_dpid, gw_port.2))
            (gateway_ports cfg w)) = true) as Hargs.
  { induction Hall as [|gp l Hgp Hall IH]; [done|]. cbn.
    destruct (probe_rules cfg w gp) as [rules| |] eqn:E; [|done..].
    apply probe_rules_inv in E as (route & _ & _ & E & _).
    unfold probe_route in E. apply result_bind_inv in E as (gd & -> & _).
    destruct (get_host_dpid cfg (self_cloud w)); [|done..].
    cbn. by destruct (comprehension _ l). }
  unfold ride_c_probe_routes.
  rewrite bind_unfold. cbn [gets]. rewrite bind_unfold. cbn [gets].
  fold (gateway_ports cfg w).
  rewrite bind_unfold. unfold lift at 1.
  destruct (comprehension _ (gateway_ports cfg w)); [|done..].
  rewrite bind_unfold. unfold lift at 1.
  destruct (get_host_dpid cfg server); [|done..].
  rewrite bind_unfold. unfold lift at 1.
  destruct (get_host_dpid cfg (self_cloud w)); [|done..].
  apply (batch_loop_returns (install_probe_routes cfg) (probe_rules cfg)
           (λ gp rules, ProblemInstallingProbes gp.1 rules)); [| | |done].
  - intros. by apply probe_rules_same.
  - intros. by apply install_probe_routes_spec.
  - intros. by eapply install_probe_routes_complete.
Qed.

Lemma comparison_routes_same_controller cfg subs :
  respects same_controller (comparison_routes cfg subs).
Proof.
  unfold comparison_routes, install_unicast_route.
  respects_auto ltac:(by repeat split).
Qed.

Lemma comparison_routes_appends cfg subs :
  respects (appends anything) (comparison_routes cfg subs).
Proof.
  unfold comparison_routes, install_unicast_route.
  respects_auto ltac:(cbn; appends_prim).
Qed.

(** C4: when RideC is enabled, the set-up of the test installs, for
    every cloud gateway and in the order of the gateways, one batch with
    the rules of its probes.  The [i]-th gateway has the source port
    [PROBE_BASE_SRC_PORT + i].  The batch of a gateway with the port [p]
    is made of the forward rules, built from the path from the server to
    the gateway merged with the path from the gateway to the cloud, with
    the matches [udp_src = p, udp_dst = ECHO_SERVER_PORT], followed by the
    reverse rules, built from the reversed path with the two ports
    exchanged: [udp_src = ECHO_SERVER_PORT, udp_dst = p]. *)
Theorem probe_routes_symmetric cfg sensors subs server w w' :
  with_ride_c cfg = true ->
  setup_seismic_test cfg sensors subs server w = (Ok tt, w') ->
  (∀ (i : nat) gw,
     self_cloud_gateways w !! i = Some gw ->
     gateway_ports cfg w !! i = Some (gw, PROBE_BASE_SRC_PORT cfg + Z.of_nat i))
  ∧ (∀ p,
       probe_matches cfg p
       = {[ "udp_src" := MInt p; "udp_dst" := MInt (ECHO_SERVER_PORT cfg) ]}
       ∧ swap_udp_ports (probe_matches cfg p)
         = {[ "udp_src" := MInt (ECHO_SERVER_PORT cfg); "udp_dst" := MInt p ]})
  ∧ ∃ (n : nat) (before after : list event) (batches : list (list FlowRule)),
      Forall2 (λ gp rules,
         ∃ route forward backward,
           probe_route cfg w gp.1 = Ok route
           ∧ path_rules cfg w route (probe_matches cfg gp.2) = Ok forward
           ∧ path_rules cfg w (reverse route) (swap_udp_ports (probe_matches cfg gp.2))
             = Ok backward
           ∧ rules = forward ++ backward)
        (gateway_ports cfg w) batches
      ∧ trace w' = trace w ++ before
          ++ concat (imap (λ i gr,
               batch_events gr.2 (install_result (outside w) (n + i))
                 (ProblemInstallingProbes gr.1.1 gr.2))
               (zip (gateway_ports cfg w) batches))
          ++ after.
Proof.
  intros Hc H. split_and!.
  - apply gateway_ports_lookup.
  - intros p. split; [done|]. unfold probe_matches. rewrite swap_udp_ports_probe.
    by apply insert_insert_ne.
  - unfold setup_seismic_test in H. rewrite Hc in H.
    apply bind_ok_inv in H as (srv & w0 & H0 & H). apply lift_inv in H0 as [_ ->].
    apply bind_ok_inv in H as ([] & w0 & H0 & H).
    assert (w0 = w) as ->.
    { destruct (decide _); [done|]. by apply mret_inv in H0 as [_ ->]. }
    apply bind_ok_inv in H as ([] & w1 & H1 & H).
    apply bind_ok_inv in H as ([] & w2 & H2 & H).
    apply bind_ok_inv in H as ([] & w3 & H3 & H).
    pose proof (comparison_routes_same_controller _ _ _ _ _ H1) as SC1.
    pose proof (comparison_routes_appends _ _ _ _ _ H1) as (before & Hb & _).
    assert (w2 = w1) as ->.
    { destruct (with_ride_d cfg); [|by apply mret_inv in H2 as [_ ->]].
      do 2 (apply bind_ok_inv in H2 as (? & ? & ? & H2)).
      apply mret_inv in H2 as [_ ->].
      match goal with H : lift _ _ = _ |- _ => apply lift_inv in H as [_ ->] end.
      by match goal with H : gets _ _ = _ |- _ => apply gets_inv in H as [_ ->] end. }
    apply ride_c_probe_routes_spec in H3 as (batches & Hall & Htr & _).
    assert (appends anything w3 w') as (after & Ha & _).
    { revert H. match goal with |- ?m w3 = _ -> _ =>
        assert (respects (appends anything) m) as Hr end; [|apply Hr].
      unfold cloud_gateway_routes, launch_clients, install_gateway_route.
      respects_auto ltac:(cbn; appends_prim). }
    assert (gateway_ports cfg w1 = gateway_ports cfg w) as Hg.
    { unfold gateway_ports. destruct SC1 as [(_ & -> & _) _]. done. }
    rewrite Hg in Hall, Htr.
    exists (n_installs w1), before, after, batches. split.
    + eapply Forall2_impl; [exact Hall|]. intros gp rules Hgp. cbv beta in Hgp.
      rewrite (probe_rules_same cfg w w1) in Hgp by done.
      by apply probe_rules_inv.
    + destruct SC1 as [(_ & _ & _ & _ & _ & _ & Hout) _].
      rewrite Ha, Htr, Hb, Hout. by rewrite <- !app_assoc.
Qed.

Lemma probe_routes_symmetric_witness :
  let cfg := Campus.config None 1 true in
  let w := Campus.converged cfg
             (Campus.surroundings 0 (Campus.view 4 9 5) (λ j, bool_decide (j = 1%nat))) in
  let w' := (setup_seismic_test cfg (Campus.nodes w ["h1"]) (Campus.nodes w ["h2"])
               (self_server w) w).2 in
  (∀ (i : nat) gw,
     self_cloud_gateways w !! i = Some gw ->
     gateway_ports cfg w !! i = Some (gw, PROBE_BASE_SRC_PORT cfg + Z.of_nat i))
  ∧ (∀ p,
       probe_matches cfg p
       = {[ "udp_src" := MInt p; "udp_dst" := MInt (ECHO_SERVER_PORT cfg) ]}
       ∧ swap_udp_ports (probe_matches cfg p)
         = {[ "udp_src" := MInt (ECHO_SERVER_PORT cfg); "udp_dst" := MInt p ]})
  ∧ ∃ (n : nat) (before after : list event) (batches : list (list FlowRule)),
      Forall2 (λ gp rules,
         ∃ route forward backward,
           probe_route cfg w gp.1 = Ok route
           ∧ path_rules cfg w route (probe_matches cfg gp.2) = Ok forward
           ∧ path_rules cfg w (reverse route) (swap_udp_ports (probe_matches cfg gp.2))
             = Ok backward
           ∧ rules = forward ++ backward)
        (gateway_ports cfg w) batches
      ∧ trace w' = trace w ++ before
          ++ concat (imap (λ i gr,
               batch_events gr.2 (install_result (outside w) (n + i))
                 (ProblemInstallingProbes gr.1.1 gr.2))
               (zip (gateway_ports cfg w) batches))
          ++ after.
Proof.
  intros cfg w w'.
  apply (probe_routes_symmetric cfg (Campus.nodes w ["h1"]) (Campus.nodes w ["h2"])
           (self_server w) w w').
  - reflexivity.
  - vm_compute. reflexivity.
Defined.

Example probe_routes_campus :
  let cfg := Campus.config None 1 true in
  let w := Campus.converged cfg
             (Campus.surroundings 0 (Campus.view 4 9 5) (λ _, false)) in
  gateway_ports cfg w = zip (Campus.nodes w ["g1"; "g0"]) [9900; 9901]
  ∧ map (λ gp, probe_route cfg w gp.1) (gateway_ports cfg w)
    = [Ok ["AA:HS0/None"; "of:a0"; "of:00000000000000d1"; "of:a0"; "AA:HX0/None"];
       Ok ["AA:HS0/None"; "of:a0"; "of:00000000000000d0"; "of:a0"; "AA:HX0/None"]]
  ∧ map (λ gp, is_ok (probe_rules cfg w gp)) (gateway_ports cfg w) = [true; true].
Proof. vm_compute. repeat split. Qed.

(** ** The oracle comparison *)

Lemma respects_appends_impl {A} (P Q : event -> Prop) (m : M A) :
  (∀ e, P e -> Q e) -> respects (appends P) m -> respects (appends Q) m.
Proof.
  intros HPQ Hm w r w' H. destruct (Hm _ _ _ H) as (evs & Htr & F).
  exists evs. split; [done|]. by eapply Forall_impl.
Qed.

(** A computation whose last step never returns does not return, and
    respects what its steps respect. *)
Lemma bind_never_ok {A B} (R : relation world) `{!PreOrder R} (m : M A) (f : A -> M B) :
  respects R m ->
  (∀ a w r w', f a w = (r, w') -> (∀ b, r ≠ Ok b) ∧ R w w') ->
  ∀ w r w', (m ≫= f) w = (r, w') -> (∀ b, r ≠ Ok b) ∧ R w w'.
Proof.
  intros Hm Hf w r w' H.
  apply bind_inv in H as [(a & w1 & H1 & H2)|[(e & H1 & ->)|[H1 ->]]].
  - destruct (Hf _ _ _ _ H2) as [Hr HR]. split; [done|].
    transitivity w1; [by eapply Hm|done].
  - split; [done|]. by eapply Hm.
  - split; [done|]. by eapply Hm.
Qed.

Lemma use_unicast_oracle cfg :
  comparison cfg = Some "oracle" -> ntrees cfg ≠ 0 -> use_unicast cfg = false.
Proof.
  intros Hc Hn. unfold use_unicast. rewrite Hc.
  by rewrite bool_decide_eq_false_2, (bool_decide_eq_false_2 (ntrees cfg = 0)).
Qed.

Lemma setup_seismic_test_oracle cfg sensors subs server w :
  comparison cfg = Some "oracle" -> ntrees cfg ≠ 0 ->
  setup_seismic_test cfg sensors subs server w
  = (match server with
     | None => Raise AttributeError
     | Some srv => if decide (node_IP srv = "127.0.0.1") then Raise AssertionError
                   else Raise NotImplementedError
     end, w).
Proof.
  intros Hc Hn. unfold setup_seismic_test, comparison_routes.
  rewrite (use_unicast_oracle cfg Hc Hn), Hc.
  destruct server as [srv|]; [|done].
  rewrite bind_unfold. cbn [lift attr]. rewrite bind_unfold.
  by destruct (decide (node_IP srv = "127.0.0.1")).
Qed.

Lemma wait_for_adapter_before_setup cfg fuel hosts :
  respects (appends before_setup) (wait_for_adapter cfg fuel hosts).
Proof.
  unfold wait_for_adapter.
  apply respects_bind; [apply _|apply respects_gets; apply _|intros server].
  apply respects_bind; [apply _|apply respects_gets; apply _|intros cloud].
  apply await_convergence_appends. intros e He. by destruct e.
Qed.

Lemma setup_traffic_generators_before_setup cfg :
  respects (appends before_setup) (setup_traffic_generators cfg).
Proof. unfold setup_traffic_generators. respects_auto ltac:(cbn; appends_prim). Qed.

Lemma configure_experiment_oracle cfg fuel pubs subs w r w' :
  comparison cfg = Some "oracle" -> ntrees cfg ≠ 0 ->
  configure_experiment cfg fuel pubs subs w = (r, w') ->
  (∀ res, r ≠ Ok res) ∧ appends before_setup w w'.
Proof.
  intros Hc Hn. unfold configure_experiment. revert w r w'.
  apply bind_never_ok; [apply _| |intros hosts].
  { eapply respects_appends_impl; [|apply start_network_appends].
    intros e [He _]. by destruct e. }
  apply bind_never_ok; [apply _|apply wait_for_adapter_before_setup|intros _].
  apply bind_never_ok; [apply _|apply setup_traffic_generators_before_setup|intros _].
  apply bind_never_ok; [apply _|apply respects_gets; apply _|intros server].
  intros w r w'. rewrite setup_seismic_test_oracle by done. intros [= <- <-].
  split; [|reflexivity]. intros res. destruct server as [srv|]; [|done].
  by destruct (decide _).
Qed.

(** C9, as stated, fails: with the comparison [oracle] and [ntrees = 0]
    the set-up of the test takes the unicast arm; it installs the static
    routes of the subscribers, starts the processes and returns. *)
Lemma oracle_falls_through :
  let cfg := Campus.config (Some "oracle") 0 true in
  let w := Campus.converged cfg (Campus.surroundings 0 (Campus.view 4 9 5) (λ _, false)) in
  let run := setup_seismic_test cfg (Campus.nodes w ["h1"]) (Campus.nodes w ["h2"])
               (self_server w) w in
  comparison cfg = Some "oracle"
  ∧ run.1 = Ok tt
  ∧ run.1 ≠ Raise NotImplementedError
  ∧ use_unicast cfg = true
  ∧ length (filter (λ e, installs_rules e = true) (trace run.2)) = 5%nat
  ∧ length (filter (λ e, starts_application e = true) (trace run.2)) = 4%nat.
Proof. vm_compute. by repeat split. Qed.

(** C9 (amended): when the comparison is [oracle] and [ntrees] is not 0,
    the set-up of the test, given a server whose address is not
    127.0.0.1, raises [NotImplementedError] and leaves everything as it
    was: no route is installed and no process of the test is started;
    and a run never returns a result, installs no route and starts no
    process of the test (its traffic generators may have been started).
    The constructor raises [AssertionError] for every comparison string
    other than [oracle] and [unicast], and accepts these two and [None]:
    with them it builds the experiment whenever the constructor of the
    superclass returns and the address pool exists. *)
Theorem oracle_not_implemented cfg :
  comparison cfg = Some "oracle" ->
  ntrees cfg ≠ 0 ->
  (∀ sensors subs srv w,
     node_IP srv ≠ "127.0.0.1" ->
     setup_seismic_test cfg sensors subs (Some srv) w = (Raise NotImplementedError, w))
  ∧ (∀ fuel pubs subs fnodes flinks w r w',
       run_experiment cfg fuel pubs subs fnodes flinks w = (r, w') ->
       (∀ res, r ≠ Ok res)
       ∧ ∃ evs, trace w' = trace w ++ evs
                ∧ Forall (λ e, installs_rules e = false ∧ starts_application e = false) evs)
  ∧ (∀ c algorithm n super base port,
       c ≠ "oracle" -> c ≠ "unicast" ->
       __init__ (Some c) algorithm n super base port = Raise AssertionError)
  ∧ (∀ c algorithm n base port,
       c = "oracle" ∨ c = "unicast" ->
       __init__ (Some c) algorithm n (Ok tt) base port
       = pool ← mcast_address_pool base port n;
         mret {| exp_comparison := Some c;
                 exp_tree_construction_algorithm := [c];
                 exp_mcast_address_pool := pool |})
  ∧ (∀ algorithm n base port,
       __init__ None algorithm n (Ok tt) base port
       = pool ← mcast_address_pool base port n;
         mret {| exp_comparison := None;
                 exp_tree_construction_algorithm := algorithm;
                 exp_mcast_address_pool := pool |}).
Proof.
  intros Hc Hn. split_and!.
  - intros sensors subs srv w Hip. rewrite setup_seismic_test_oracle by done.
    by destruct (decide _).
  - intros fuel pubs subs fnodes flinks w r w' H. unfold run_experiment in H.
    apply bind_inv in H as [([] & w1 & H1 & _)|[(e & H1 & ->)|[H1 ->]]].
    + destruct (configure_experiment_oracle _ _ _ _ _ _ _ Hc Hn H1) as [Hr _].
      by destruct (Hr tt).
    + destruct (configure_experiment_oracle _ _ _ _ _ _ _ Hc Hn H1) as [_ Ha].
      split; [done|exact Ha].
    + destruct (configure_experiment_oracle _ _ _ _ _ _ _ Hc Hn H1) as [_ Ha].
      split; [done|exact Ha].
  - intros c algorithm n super base port Ho Hu. unfold __init__.
    rewrite bool_decide_eq_false_2; [done|].
    intros Hin. apply elem_of_cons in Hin as [->|Hin]; [done|].
    apply elem_of_cons in Hin as [->|Hin]; [done|]. by apply elem_of_nil in Hin.
  - intros c algorithm n base port Hin. unfold __init__.
    rewrite bool_decide_eq_true_2; [done|].
    destruct Hin as [-> | ->]; [left|right; left].
  - done.
Qed.

Lemma oracle_not_implemented_witness :
  let cfg := Campus.config (Some "oracle") 1 true in
  (∀ sensors subs srv w,
     node_IP srv ≠ "127.0.0.1" ->
     setup_seismic_test cfg sensors subs (Some srv) w = (Raise NotImplementedError, w))
  ∧ (∀ fuel pubs subs fnodes flinks w r w',
       run_experiment cfg fuel pubs subs fnodes flinks w = (r, w') ->
       (∀ res, r ≠ Ok res)
       ∧ ∃ evs, trace w' = trace w ++ evs
                ∧ Forall (λ e, installs_rules e = false ∧ starts_application e = false) evs)
  ∧ (∀ c algorithm n super base port,
       c ≠ "oracle" -> c ≠ "unicast" ->
       __init__ (Some c) algorithm n super base port = Raise AssertionError)
  ∧ (∀ c algorithm n base port,
       c = "oracle" ∨ c = "unicast" ->
       __init__ (Some c) algorithm n (Ok tt) base port
       = pool ← mcast_address_pool base port n;
         mret {| exp_comparison := Some c;
                 exp_tree_construction_algorithm := [c];
                 exp_mcast_address_pool := pool |})
  ∧ (∀ algorithm n base port,
       __init__ None algorithm n (Ok tt) base port
       = pool ← mcast_address_pool base port n;
         mret {| exp_comparison := None;
                 exp_tree_construction_algorithm := algorithm;
                 exp_mcast_address_pool := pool |}).
Proof.
  intros cfg. apply (oracle_not_implemented cfg).
  - reflexivity.
  - vm_compute. discriminate.
Defined.

Example oracle_campus :
  let cfg := Campus.config (Some "oracle") 1 true in
  let run := Campus.trial cfg 10 ["h1"] ["h2"] [] []
               (Campus.initial (Campus.surroundings 2 (Campus.view 4 9 5) (λ _, false))) in
  run.1 = Raise NotImplementedError
  ∧ filter (λ e, programs_or_launches e = true) (trace run.2)
    = match Campus.nodes run.2 ["h2"] with
      | [h2] => [EvIperfClient h2 5000; EvIperfServer 5000]
      | _ => []
      end.
Proof. vm_compute. by split. Qed.

(** ** Experiments without data-path links *)

Lemma plan_data_path_changes_no_link cfg w :
  no_data_path_link w -> plan_data_path_changes cfg w = Raise IndexError.
Proof.
  unfold no_data_path_link, plan_data_path_changes, data_path_links.
  destruct (self_cloud_gateways w) as [|gw gws]; [intros _; by vm_compute|].
  intros [?| ->]; [done|]. by cbn.
Qed.

Lemma no_data_path_link_same w w1 :
  same_emulation w w1 -> no_data_path_link w -> no_data_path_link w1.
Proof. intros (_ & Hgw & Hcs & _). unfold no_data_path_link. by rewrite Hgw, Hcs. Qed.

Lemma failure_model_no_link cfg pubs subs fnodes flinks w :
  no_data_path_link w ->
  0 <= SEISMIC_EVENT_DELAY cfg ->
  ∃ w', failure_model cfg pubs subs fnodes flinks w = (Raise IndexError, w')
        ∧ trace w' = trace w ++ [EvSleep (SEISMIC_EVENT_DELAY cfg)].
Proof.
  intros Hno Hd. unfold failure_model.
  rewrite bind_unfold. cbn [time_time gets]. rewrite bind_unfold.
  destruct (time_sleep (SEISMIC_EVENT_DELAY cfg) w) as [r w1] eqn:E.
  pose proof (time_sleep_same_emulation _ _ _ _ E) as SE.
  unfold time_sleep in E. rewrite (proj2 (Z.ltb_ge _ _) Hd) in E.
  rewrite bind_unfold in E. cbn [modify effect] in E. injection E as <- <-.
  rewrite bind_unfold. rewrite (plan_same_emulation cfg w _ SE).
  rewrite plan_data_path_changes_no_link by done.
  eexists. split; [reflexivity|]. by destruct w.
Qed.

Lemma failure_model_never_returns cfg pubs subs fnodes flinks w r w' :
  no_data_path_link w ->
  failure_model cfg pubs subs fnodes flinks w = (r, w') -> ∀ res, r ≠ Ok res.
Proof.
  intros Hno H res ->. unfold failure_model in H.
  apply bind_ok_inv in H as (t0 & w0 & Ht & H). apply time_time_inv in Ht as [-> ->].
  apply bind_ok_inv in H as ([] & w1 & H1 & H).
  pose proof (time_sleep_same_emulation _ _ _ _ H1) as SE.
  apply bind_ok_inv in H as (planned & w1' & Hp & _).
  injection Hp as Hp _. rewrite (plan_same_emulation cfg w w1 SE) in Hp.
  by rewrite plan_data_path_changes_no_link in Hp.
Qed.

(** ** Installations that fail *)

#[global] Instance logs_failures_preorder : PreOrder logs_failures.
Proof.
  split.
  - intros w. exists []. split; [by rewrite app_nil_r|]. by intros i rules.
  - intros w1 w2 w3 (e1 & H1 & F1) (e2 & H2 & F2). exists (e1 ++ e2). split.
    + by rewrite H2, H1, app_assoc.
    + intros i rules Hi. destruct (decide (i < length e1)%nat) as [Hlt|Hge].
      * rewrite lookup_app_l in Hi by done.
        destruct (F1 i rules Hi) as (m & Hm & Hr). exists m. split; [|done].
        by apply lookup_app_l_Some.
      * rewrite lookup_app_r in Hi by lia.
        destruct (F2 _ rules Hi) as (m & Hm & Hr). exists m. split; [|done].
        rewrite lookup_app_r by lia. by replace (S i - length e1)%nat
          with (S (i - length e1)) by lia.
Qed.

Lemma install_and_log_logs rules (m : log_message) :
  problem_rules m = Some rules ->
  respects logs_failures
    (ok ← install_flow_rules rules; if negb ok then emit (EvLogError m) else mret tt).
Proof.
  intros Hm w r w' H.
  destruct (install_and_log_returns rules m w) as (w1 & E).
  rewrite E in H. injection H as <- <-.
  apply install_and_log_inv in E as (Htr & _).
  eexists. split; [exact Htr|]. unfold batch_events.
  destruct (install_result _ _).
  - by intros [|[|i]] rules'.
  - intros [|[|i]] rules' Hi; [|done..]. injection Hi as <-. by exists m.
Qed.

Ltac logs_prim :=
  cbn;
  first
    [ exists []; split; [by rewrite app_nil_r|by intros ? ?]
    | eexists [_]; split; [reflexivity|by intros [|[|?]] ?] ].

Ltac logs_step :=
  lazymatch goal with
  | |- respects _ (install_flow_rules _ ≫= _) => by apply install_and_log_logs
  | _ => respects_step logs_prim
  end.

Lemma ping_hosts_logs cfg hosts : respects logs_failures (ping_hosts cfg hosts).
Proof. unfold ping_hosts. repeat logs_step. Qed.

Lemma await_convergence_logs cfg hosts eh el es fuel :
  ∀ nh nl ns ntries,
  respects logs_failures (await_convergence cfg fuel hosts eh el es nh nl ns ntries).
Proof.
  induction fuel as [|fuel IH]; intros nh nl ns ntries; cbn [await_convergence].
  - repeat logs_step.
  - repeat logs_step.
    + apply ping_hosts_logs.
    + apply IH.
Qed.

Lemma apply_data_path_changes_logs changes flinks fnodes :
  ∀ i out quake,
  respects logs_failures (apply_data_path_changes i changes flinks fnodes out quake).
Proof.
  induction changes as [|[[[gw cs] st] delay] rest IH]; intros i out quake;
    cbn [apply_data_path_changes].
  - repeat logs_step.
  - repeat logs_step. all: apply IH.
Qed.

Lemma run_experiment_logs cfg fuel pubs subs fnodes flinks :
  respects logs_failures (run_experiment cfg fuel pubs subs fnodes flinks).
Proof.
  unfold run_experiment, configure_experiment, failure_model, start_network,
    wait_for_adapter, setup_traffic_generators,
    setup_seismic_test, comparison_routes, ride_c_probe_routes,
    cloud_gateway_routes, launch_clients, install_unicast_route,
    install_probe_routes, install_gateway_route.
  repeat logs_step.
  - apply ping_hosts_logs.
  - apply await_convergence_logs.
  - apply apply_data_path_changes_logs.
Qed.

Section Indifferent.

Lemma indifferent_ret {A} (a : A) : indifferent (mret a).
Proof. by intros w r w' [= <- <-]. Qed.

Lemma indifferent_raise {A} e : indifferent (@raise A e).
Proof. by intros w r w' [= <- <-]. Qed.

Lemma indifferent_timeout {A} : indifferent (@timeout A).
Proof. by intros w r w' [= <- <-]. Qed.

Lemma indifferent_lift {A} (x : result A) : indifferent (lift x).
Proof. by intros w r w' [= <- <-]. Qed.

Lemma indifferent_read {A} (f : world -> result A) :
  (∀ w, f (forget w) = f w) -> indifferent (λ w, (f w, w)).
Proof. intros Hf w r w' [= <- <-]. by rewrite Hf. Qed.

Lemma indifferent_gets {A} (f : world -> A) :
  (∀ w, f (forget w) = f w) -> indifferent (gets f).
Proof. intros Hf w r w' [= <- <-]. unfold gets. by rewrite Hf. Qed.

Lemma indifferent_modify (g : world -> world) :
  (∀ w, g (forget w) = forget (g w)) -> indifferent (modify g).
Proof. intros Hg w r w' [= <- <-]. unfold modify. by rewrite Hg. Qed.

Lemma indifferent_bind {A B} (m : M A) (f : A -> M B) :
  indifferent m -> (∀ a, indifferent (f a)) -> indifferent (m ≫= f).
Proof.
  intros Hm Hf w r w' H. rewrite bind_unfold.
  apply bind_inv in H as [(a & w1 & H1 & H2)|[(e & H1 & ->)|[H1 ->]]].
  - rewrite (Hm _ _ _ H1). by apply Hf.
  - by rewrite (Hm _ _ _ H1).
  - by rewrite (Hm _ _ _ H1).
Qed.

Lemma indifferent_try_except {A} (body : M A) (handler : exn -> M A) :
  indifferent body -> (∀ e, indifferent (handler e)) ->
  indifferent (try_except body handler).
Proof.
  intros Hb Hh w r w' H. unfold try_except in *.
  destruct (body w) as [[a|e|] w1] eqn:E; rewrite (Hb _ _ _ E).
  - by injection H as <- <-.
  - by apply Hh.
  - by injection H as <- <-.
Qed.

Lemma indifferent_for_each {A} (l : list A) (body : A -> M unit) :
  (∀ x, indifferent (body x)) -> indifferent (for_each l body).
Proof.
  intros Hb. induction l as [|x l IH]; cbn [for_each].
  - apply indifferent_ret.
  - apply indifferent_bind; auto.
Qed.

(** The installation of a batch and the message about its failure: with
    a controller that accepts the batch the same happens, but for the
    message. *)
Lemma install_and_log_indifferent rules (m : log_message) :
  problem_rules m = Some rules ->
  indifferent
    (ok ← install_flow_rules rules; if negb ok then emit (EvLogError m) else mret tt).
Proof.
  intros Hm w r w' H.
  destruct w as [net hs sws gws css lks nat srv cld ssw pops cips sips ad clk tr tk na ni
                 [lg cv ir rh]].
  revert H.
  cbv beta iota zeta delta
    [mbind M_bind mret M_ret gets modify emit effect install_flow_rules negb forget
     self_net self_hosts self_switches self_cloud_gateways self_cloud_switches
     self_links self_nat self_server self_cloud self_server_switch self_popens
     self_client_iperfs self_server_iperfs self_topology_adapter clock trace
     ticks n_adapters n_installs outside lag controller_view install_result random_hosts
     set_clock set_trace set_ticks set_n_installs].
  destruct (ir ni); intros [= <- <-]; unfold skeleton.
  - by rewrite omap_app.
  - rewrite !omap_app. cbn. rewrite Hm. by rewrite app_nil_r.
Qed.

End Indifferent.

Ltac indifferent_prim :=
  unfold forget, skeleton; cbn; rewrite ?omap_app; reflexivity.

Ltac indifferent_step :=
  lazymatch goal with
  | |- indifferent (install_flow_rules _ ≫= _) => by apply install_and_log_indifferent
  | |- indifferent (mret _) => apply indifferent_ret
  | |- indifferent (raise _) => apply indifferent_raise
  | |- indifferent timeout => apply indifferent_timeout
  | |- indifferent (lift _) => apply indifferent_lift
  | |- indifferent (gets _) => apply indifferent_gets; by intros []
  | |- indifferent (λ w, (_, w)) => apply indifferent_read; by intros []
  | |- indifferent (modify _) => apply indifferent_modify; intros []; indifferent_prim
  | |- indifferent (_ ≫= _) => apply indifferent_bind; [|intros ?]
  | |- indifferent (try_except _ _) => apply indifferent_try_except; [|intros ?]
  | |- indifferent (for_each _ _) => apply indifferent_for_each; intros ?
  | |- indifferent (if ?b then _ else _) => destruct b
  | |- indifferent (match ?x with _ => _ end) => destruct x
  | |- indifferent (let '(_, _) := ?x in _) => destruct x
  | |- indifferent _ =>
      progress unfold emit, effect, time_time, time_sleep, the_net, on_net,
        the_adapter, _get_mininet_nodes, setup_topology_manager,
        popen, configLinkStatus
  end.

Lemma ping_hosts_indifferent cfg hosts : indifferent (ping_hosts cfg hosts).
Proof. unfold ping_hosts. repeat indifferent_step. Qed.

Lemma await_convergence_indifferent cfg hosts eh el es fuel :
  ∀ nh nl ns ntries,
  indifferent (await_convergence cfg fuel hosts eh el es nh nl ns ntries).
Proof.
  induction fuel as [|fuel IH]; intros nh nl ns ntries; cbn [await_convergence].
  - repeat indifferent_step.
  - repeat indifferent_step.
    + apply ping_hosts_indifferent.
    + apply IH.
Qed.

Lemma apply_data_path_changes_indifferent changes flinks fnodes :
  ∀ i out quake,
  indifferent (apply_data_path_changes i changes flinks fnodes out quake).
Proof.
  induction changes as [|[[[gw cs] st] delay] rest IH]; intros i out quake;
    cbn [apply_data_path_changes].
  - repeat indifferent_step.
  - repeat indifferent_step. all: apply IH.
Qed.

Lemma run_experiment_indifferent cfg fuel pubs subs fnodes flinks :
  indifferent (run_experiment cfg fuel pubs subs fnodes flinks).
Proof.
  unfold run_experiment, configure_experiment, failure_model, start_network,
    wait_for_adapter, setup_traffic_generators,
    setup_seismic_test, comparison_routes, ride_c_probe_routes,
    cloud_gateway_routes, launch_clients, install_unicast_route,
    install_probe_routes, install_gateway_route.
  repeat indifferent_step.
  - apply ping_hosts_indifferent.
  - apply await_convergence_indifferent.
  - apply apply_data_path_changes_indifferent.
Qed.

(** C6: whatever the controller answers to the installations of a run
    (the static routes of the subscribers, the routes of the probes, the
    routes from the cloud gateways to the subscribers), the run does what
    it does when every installation succeeds and ends the same way, with
    the same result or the same exception: a failed installation changes
    nothing but the record, where it is followed at once by the error
    message that names its rules. *)
Theorem failed_install_never_aborts cfg fuel pubs subs fnodes flinks w r w' :
  run_experiment cfg fuel pubs subs fnodes flinks w = (r, w') ->
  run_experiment cfg fuel pubs subs fnodes flinks (forget w) = (r, forget w')
  ∧ ∃ evs, trace w' = trace w ++ evs
           ∧ ∀ (i : nat) rules,
               evs !! i = Some (EvInstallFlowRules rules false) ->
               ∃ m, evs !! S i = Some (EvLogError m) ∧ problem_rules m = Some rules.
Proof.
  intros H. split.
  - by apply run_experiment_indifferent.
  - by apply run_experiment_logs in H.
Qed.

Lemma failed_install_never_aborts_witness :
  let cfg := Campus.config (Some "unicast") 1 true in
  let w := Campus.ready cfg (Campus.surroundings 2 (Campus.view 4 9 5) (λ _, true)) in
  let pubs := Campus.nodes w ["h1"] in
  let subs := Campus.nodes w ["h2"] in
  let run := run_experiment cfg 10 pubs subs [] [("h1", "a0")] w in
  run_experiment cfg 10 pubs subs [] [("h1", "a0")] (forget w) = (run.1, forget run.2)
  ∧ ∃ evs, trace run.2 = trace w ++ evs
           ∧ ∀ (i : nat) rules,
               evs !! i = Some (EvInstallFlowRules rules false) ->
               ∃ m, evs !! S i = Some (EvLogError m) ∧ problem_rules m = Some rules.
Proof.
  intros cfg w pubs subs run.
  apply (failed_install_never_aborts cfg 10 pubs subs [] [("h1", "a0")] w).
  apply surjective_pairing.
Defined.

(** In the campus, with a controller that refuses every installation,
    the five batches fail, five messages are written and the run returns
    its result. *)
Example failed_installs_campus :
  let cfg := Campus.config (Some "unicast") 1 true in
  let w := Campus.ready cfg (Campus.surroundings 2 (Campus.view 4 9 5) (λ _, true)) in
  let run := run_experiment cfg 10 (Campus.nodes w ["h1"]) (Campus.nodes w ["h2"])
               [] [("h1", "a0")] w in
  is_ok run.1 = true
  ∧ length (filter (λ e, installs_rules e = true) (trace run.2)) = 5%nat
  ∧ length (filter (λ e, failed_installation e = true) (trace run.2)) = 5%nat
  ∧ length (filter (λ e, ¬ is_Some (had_it_succeeded e)) (trace run.2)) = 5%nat
  ∧ length (filter (λ e, starts_application e = true) (trace run.2)) = 4%nat.
Proof. split_and!; vm_compute; reflexivity. Qed.

(** ** The cloud of an experiment without cloud switch *)

(** C8 does not hold of the code: in the campus, whose topology has the
    cloud [x0], [setup_topology] with [with_cloud] false adds two hosts
    named [x0] to the emulation, the second of which is the cloud of the
    experiment.  It adds no cloud switch; the only links of [x0] are those
    of the topology model. *)
Theorem setup_topology_duplicate_cloud_host :
  let cfg := Campus.config None 1 false in
  let run := setup_topology cfg
               (Campus.initial (Campus.surroundings 0 (Campus.view 5 9 5) (λ _, false))) in
  let net := default Mininet.empty (self_net run.2) in
  run.1 = Ok tt
  ∧ NetworkxSdnTopology.get_clouds (topo cfg) = ["x0"]
  ∧ (node_id <$> filter (λ h, node_name h = "x0") (Mininet.hosts net)) = [8; 9]%nat
  ∧ (node_id <$> self_cloud run.2) = Some 9%nat
  ∧ self_cloud_switches run.2 = []
  ∧ filter (λ s, node_name s = "x0") (Mininet.switches net) = []
  ∧ ((λ l, (node_name (link_node1 l), node_name (link_node2 l)))
       <$> filter (λ l, node_name (link_node1 l) = "x0" ∨ node_name (link_node2 l) = "x0")
             (Mininet.links net))
    = [("g0", "x0"); ("g1", "x0")].
Proof. split_and!; vm_compute; reflexivity. Qed.

(** ** Building the emulation *)

Lemma modify_inv (g : world -> world) w u w' : modify g w = (Ok u, w') -> w' = g w.
Proof. by intros [= <-]. Qed.

Lemma on_net_inv {A} (f : Mininet.t -> A * Mininet.t) w a w' :
  on_net f w = (Ok a, w') ->
  ∃ net, self_net w = Some net ∧ a = (f net).1 ∧ w' = set_self_net (Some (f net).2) w.
Proof.
  unfold on_net. intros H. apply bind_ok_inv in H as (net & w1 & H1 & H).
  apply the_net_inv in H1 as [Hnet ->]. exists net. destruct (f net) as [b net'].
  apply bind_ok_inv in H as ([] & w2 & H2 & H). apply modify_inv in H2 as ->.
  apply mret_inv in H as [-> ->]. done.
Qed.

Lemma on_net_ok {A} (f : Mininet.t -> A * Mininet.t) w net :
  self_net w = Some net ->
  on_net f w = (Ok (f net).1, set_self_net (Some (f net).2) w).
Proof.
  intros Hnet. unfold on_net, the_net. rewrite !bind_unfold. cbn [gets].
  rewrite Hnet. cbn [lift attr]. by destruct (f net).
Qed.

Lemma try_net_inv {A} (f : Mininet.t -> result (A * Mininet.t)) w a w' :
  try_net f w = (Ok a, w') ->
  ∃ net net', self_net w = Some net ∧ f net = Ok (a, net')
              ∧ w' = set_self_net (Some net') w.
Proof.
  unfold try_net. intros H. apply bind_ok_inv in H as (net & w1 & H1 & H).
  apply the_net_inv in H1 as [Hnet ->].
  apply bind_ok_inv in H as ([b net'] & w2 & H2 & H). apply lift_inv in H2 as [Hf ->].
  apply bind_ok_inv in H as ([] & w3 & H3 & H). apply modify_inv in H3 as ->.
  apply mret_inv in H as [-> ->]. by exists net, net'.
Qed.

Lemma try_net_unfold {A} (f : Mininet.t -> result (A * Mininet.t)) w net :
  self_net w = Some net ->
  try_net f w = match f net with
                | Ok r => (Ok r.1, set_self_net (Some r.2) w)
                | Raise e => (Raise e, w)
                | Timeout => (Timeout, w)
                end.
Proof.
  intros Hnet. unfold try_net, the_net. rewrite !bind_unfold. cbn [gets]. rewrite Hnet.
  cbn [lift attr]. rewrite bind_unfold. cbn [lift]. by destruct (f net) as [[a net']| |].
Qed.

Lemma defaultDpid_finishes name dpid : Mininet.defaultDpid name dpid ≠ Timeout.
Proof. unfold Mininet.defaultDpid. by repeat case_match. Qed.

(** The dpids of the switches: the colons go, zeros come in front; what
    is no hexadecimal number, or too long, is refused; without a dpid the
    number in the name of the switch is taken. *)
Example defaultDpid_examples :
  Mininet.defaultDpid "a0" "00:a0" = Ok "00000000000000a0"
  ∧ Mininet.defaultDpid "a0" "00:00:00:00:00:00:0A:0b" = Ok "0000000000000A0b"
  ∧ Mininet.defaultDpid "g1" "00:g1" = Raise ValueError
  ∧ Mininet.defaultDpid "a0" "01:00:00:00:00:00:00:0a:0b" = Raise AssertionError
  ∧ Mininet.defaultDpid "a0" "-1" = Raise AssertionError
  ∧ Mininet.defaultDpid "s23" "" = Ok "0000000000000017"
  ∧ Mininet.defaultDpid "core" "" = Raise Exception.
Proof. split_and!; vm_compute; reflexivity. Qed.

(** [setup_topology] is the new emulation, then the loops. *)
Lemma setup_topology_unfold cfg w :
  setup_topology cfg w = setup_topology_loops cfg (new_emulation w).
Proof.
  unfold setup_topology. rewrite bind_unfold. cbn [modify].
  rewrite bind_unfold. erewrite on_net_ok; [|by destruct w].
  unfold new_emulation. by destruct w.
Qed.

Lemma inventory_app_empty_r a : inventory_app a inventory_empty = a.
Proof. destruct a. unfold inventory_app. cbn. by rewrite !app_nil_r. Qed.

Lemma inventory_app_assoc a b c :
  inventory_app a (inventory_app b c) = inventory_app (inventory_app a b) c.
Proof. unfold inventory_app. cbn. by rewrite !app_assoc. Qed.

(** A loop whose body adds [f x] to the inventory adds the inventories of
    its elements, in order. *)
Lemma for_each_inventory {X} (f : X -> inventory) (body : X -> M unit) :
  (∀ x w w', registry_ok w -> body x w = (Ok tt, w') ->
             inventory_of w' = inventory_app (inventory_of w) (f x) ∧ registry_ok w') ->
  ∀ l w w', registry_ok w -> for_each l body w = (Ok tt, w') ->
    inventory_of w' = inventory_app (inventory_of w) (inventories f l) ∧ registry_ok w'.
Proof.
  intros Hbody. induction l as [|x l IH]; intros w w' Hw H.
  - apply mret_inv in H as [_ ->]. by rewrite inventory_app_empty_r.
  - cbn [for_each] in H. apply bind_ok_inv in H as ([] & w1 & H1 & H).
    destruct (Hbody _ _ _ Hw H1) as [E1 Hw1].
    destruct (IH _ _ Hw1 H) as [E Hw'].
    split; [|done]. rewrite E, E1. cbn. by rewrite inventory_app_assoc.
Qed.

(** A property that the body of a loop keeps is kept by the loop. *)
Lemma for_each_invariant {X} (I : world -> Prop) (body : X -> M unit) :
  (∀ x w w', I w -> body x w = (Ok tt, w') -> I w') ->
  ∀ l w w', I w -> for_each l body w = (Ok tt, w') -> I w'.
Proof.
  intros Hbody. induction l as [|x l IH]; intros w w' Hw H.
  - by apply mret_inv in H as [_ ->].
  - cbn [for_each] in H. apply bind_ok_inv in H as ([] & w1 & H1 & H). eauto.
Qed.

(** The registry after one more host, switch, controller or link. *)
Lemma net_registry_ok_addHost name ip mac cls net :
  net_registry_ok net -> net_registry_ok (Mininet.addHost name ip mac cls net).2.
Proof.
  intros [Hname Hdom]. split; cbn.
  - intros n x Hx. apply lookup_insert_Some in Hx as [[<- <-]|[_ Hx]]; [done|eauto].
  - intros n. unfold net_names. cbn. rewrite fmap_app, !elem_of_app. cbn.
    rewrite list_elem_of_singleton.
    destruct (decide (name = n)) as [<-|Hne].
    + rewrite lookup_insert_eq. split; [intros _; by left; right|by eexists].
    + rewrite lookup_insert_ne by done. rewrite Hdom. unfold net_names.
      rewrite !elem_of_app. intuition congruence.
Qed.

Lemma net_registry_ok_addSwitch name dpid net s net' :
  Mininet.addSwitch name dpid net = Ok (s, net') ->
  net_registry_ok net -> net_registry_ok net'.
Proof.
  unfold Mininet.addSwitch. destruct (Mininet.defaultDpid name dpid) as [d| |]; [|done..].
  intros [= <- <-] [Hname Hdom]. split; cbn.
  - intros n x Hx. apply lookup_insert_Some in Hx as [[<- <-]|[_ Hx]]; [done|eauto].
  - intros n. unfold net_names. cbn. rewrite fmap_app, !elem_of_app. cbn.
    rewrite list_elem_of_singleton.
    destruct (decide (name = n)) as [<-|Hne].
    + rewrite lookup_insert_eq. split; [intros _; by right; left; right|by eexists].
    + rewrite lookup_insert_ne by done. rewrite Hdom. unfold net_names.
      rewrite !elem_of_app. intuition congruence.
Qed.

Lemma net_registry_ok_addController name net :
  net_registry_ok net -> net_registry_ok (Mininet.addController name net).2.
Proof.
  intros [Hname Hdom]. split; cbn.
  - intros n x Hx. apply lookup_insert_Some in Hx as [[<- <-]|[_ Hx]]; [done|eauto].
  - intros n. unfold net_names. cbn. rewrite fmap_app, !elem_of_app. cbn.
    rewrite list_elem_of_singleton.
    destruct (decide (name = n)) as [<-|Hne].
    + rewrite lookup_insert_eq. split; [intros _; by right; right; right|by eexists].
    + rewrite lookup_insert_ne by done. rewrite Hdom. unfold net_names.
      rewrite !elem_of_app. intuition congruence.
Qed.

Lemma net_registry_ok_addLink n1 n2 tc net :
  net_registry_ok net -> net_registry_ok (Mininet.addLink n1 n2 tc net).2.
Proof. done. Qed.

Lemma net_registry_ok_empty : net_registry_ok Mininet.empty.
Proof.
  split; cbn.
  - intros n x Hx. by rewrite lookup_empty in Hx.
  - intros n. rewrite lookup_empty. split; [by intros [? ?]|].
    unfold net_names. cbn. intros H. by apply elem_of_nil in H.
Qed.

Lemma new_emulation_registry w : registry_ok (new_emulation w).
Proof.
  unfold registry_ok, emulation, new_emulation. destruct w. cbn -[Mininet.addController].
  apply net_registry_ok_addController, net_registry_ok_empty.
Qed.

Lemma new_emulation_inventory w :
  switch_names (new_emulation w) = []
  ∧ host_names (new_emulation w) = []
  ∧ controller_names (new_emulation w) = ["c0"]
  ∧ Mininet.links (emulation (new_emulation w)) = []
  ∧ self_server (new_emulation w) = self_server w
  ∧ self_cloud (new_emulation w) = self_cloud w
  ∧ is_Some (self_net (new_emulation w)).
Proof. destruct w. by split_and!. Qed.

Ltac invert_body H :=
  repeat (apply bind_ok_inv in H as (? & ? & ? & H));
  repeat match goal with
         | H : on_net _ _ = (Ok _, _) |- _ => apply on_net_inv in H as (? & ? & ? & ?)
         | H : try_net _ _ = (Ok _, _) |- _ => apply try_net_inv in H as (? & ? & ? & ? & ?)
         | H : modify _ _ = (Ok _, _) |- _ => apply modify_inv in H
         | H : mret _ _ = (Ok _, _) |- _ => apply mret_inv in H as [? ?]
         | H : gets _ _ = (Ok _, _) |- _ => apply gets_inv in H as [? ?]
         | H : lift _ _ = (Ok _, _) |- _ => apply lift_inv in H as [? ?]
         | H : the_net _ = (Ok _, _) |- _ => apply the_net_inv in H as [? ?]
         end.

(** The worlds of the hypotheses are computed, the emulation apart. *)
Ltac simplify_worlds w :=
  subst; destruct w; unfold registry_ok, emulation in *;
  repeat (progress (cbn -[Mininet.addHost Mininet.addSwitch Mininet.addLink] in *;
                    simplify_eq)).

Ltac registry_step :=
  repeat first [ apply net_registry_ok_addLink | apply net_registry_ok_addHost
               | eapply net_registry_ok_addSwitch; [eassumption|] ];
  assumption.

Ltac inventory_step :=
  unfold inventory_of, inventory_app, host_names, switch_names, controller_names, emulation;
  cbn; rewrite ?fmap_app, ?app_nil_r, <- ?app_assoc; reflexivity.

Lemma addSwitch_inventory name dpid net s net' :
  Mininet.addSwitch name dpid net = Ok (s, net') ->
  node_name s = name
  ∧ Mininet.hosts net' = Mininet.hosts net
  ∧ Mininet.switches net' = Mininet.switches net ++ [s]
  ∧ Mininet.controllers net' = Mininet.controllers net
  ∧ Mininet.links net' = Mininet.links net.
Proof.
  unfold Mininet.addSwitch. destruct (Mininet.defaultDpid name dpid) as [d| |]; [|done..].
  by intros [= <- <-].
Qed.

Lemma switch_step cfg (switch : string) w w' :
  registry_ok w ->
  add_switch cfg switch w = (Ok tt, w') ->
  inventory_of w' = inventory_app (inventory_of w) (switch_inventory cfg switch)
  ∧ registry_ok w'.
Proof.
  intros Hw H. unfold add_switch in H. cbv zeta in H. unfold switch_inventory.
  destruct (NetworkxSdnTopology.is_cloud_gateway (topo cfg) switch); invert_body H.
  all: match goal with H : Mininet.addSwitch _ _ _ = Ok _ |- _ =>
         pose proof (addSwitch_inventory _ _ _ _ _ H) as (En & Eh & Es & Ec & El);
         pose proof (net_registry_ok_addSwitch _ _ _ _ _ H) as Hreg end.
  all: simplify_worlds w.
  all: split; [|by apply Hreg].
  all: unfold inventory_of, inventory_app, host_names, switch_names, controller_names,
         emulation; cbn; rewrite Eh, Es, Ec, El, ?fmap_app, ?app_nil_r; cbn; done.
Qed.

Lemma host_step cfg (host : string) w w' :
  registry_ok w ->
  add_host cfg host w = (Ok tt, w') ->
  inventory_of w' = inventory_app (inventory_of w) (host_inventory host)
  ∧ registry_ok w'.
Proof.
  intros Hw H. unfold add_host in H.
  destruct (get_ip_mac_for_host cfg host) as [ip mac].
  invert_body H. simplify_worlds w. split; [inventory_step|registry_step].
Qed.

Lemma server_step cfg (server : string) w w' :
  registry_ok w ->
  add_server cfg server w = (Ok tt, w') ->
  inventory_of w' = inventory_app (inventory_of w) (server_inventory server)
  ∧ registry_ok w'.
Proof.
  intros Hw H. unfold add_server in H. cbv zeta in H.
  destruct (get_ip_mac_for_host cfg ("h" +:+ server)) as [ip mac].
  invert_body H.
  match goal with H : Mininet.addSwitch _ _ _ = Ok _ |- _ =>
    pose proof (addSwitch_inventory _ _ _ _ _ H) as (En & Eh & Es & Ec & El);
    pose proof (net_registry_ok_addSwitch _ _ _ _ _ H) as Hreg end.
  simplify_worlds w. split.
  - unfold inventory_of, inventory_app, host_names, switch_names, controller_names,
      emulation, link_ends; cbn. rewrite Eh, Es, Ec, El, ?fmap_app, ?app_nil_r. cbn. done.
  - apply net_registry_ok_addLink, net_registry_ok_addHost. by apply Hreg.
Qed.

Lemma server_step_server cfg (server : string) w w' :
  add_server cfg server w = (Ok tt, w') ->
  (node_name <$> self_server w') = Some ("h" +:+ server).
Proof.
  intros H. unfold add_server in H. cbv zeta in H.
  destruct (get_ip_mac_for_host cfg ("h" +:+ server)) as [ip mac].
  invert_body H. by simplify_worlds w.
Qed.

Lemma cloud_step cfg (cloud : string) w w' :
  registry_ok w ->
  add_cloud cfg cloud w = (Ok tt, w') ->
  inventory_of w' = inventory_app (inventory_of w) (cloud_inventory cfg cloud)
  ∧ registry_ok w'.
Proof.
  intros Hw H. unfold add_cloud in H. unfold cloud_inventory. destruct (with_cloud cfg).
  - cbv zeta in H. destruct (get_ip_mac_for_host cfg ("h" +:+ cloud)) as [ip mac].
    invert_body H.
    match goal with H : Mininet.addSwitch _ _ _ = Ok _ |- _ =>
      pose proof (addSwitch_inventory _ _ _ _ _ H) as (En & Eh & Es & Ec & El);
      pose proof (net_registry_ok_addSwitch _ _ _ _ _ H) as Hreg end.
    simplify_worlds w. split.
    + unfold inventory_of, inventory_app, host_names, switch_names, controller_names,
        emulation, link_ends; cbn. rewrite Eh, Es, Ec, El, ?fmap_app, ?app_nil_r. cbn. done.
    + apply net_registry_ok_addLink, net_registry_ok_addHost. by apply Hreg.
  - invert_body H. simplify_worlds w.
    repeat match goal with
           | |- context [mininet_auto_ip_mac cfg ?k] =>
               destruct (mininet_auto_ip_mac cfg k)
           end.
    split; [inventory_step|registry_step].
Qed.

Lemma cloud_step_cloud cfg (cloud : string) w w' :
  add_cloud cfg cloud w = (Ok tt, w') ->
  (node_name <$> self_cloud w')
  = Some (if with_cloud cfg then "h" +:+ cloud else cloud).
Proof.
  intros H. unfold add_cloud in H. destruct (with_cloud cfg).
  - cbv zeta in H. destruct (get_ip_mac_for_host cfg ("h" +:+ cloud)) as [ip mac].
    invert_body H. by simplify_worlds w.
  - invert_body H. simplify_worlds w.
    repeat match goal with
           | |- context [mininet_auto_ip_mac cfg ?k] =>
               destruct (mininet_auto_ip_mac cfg k)
           end.
    done.
Qed.

Lemma get_ok name net n :
  net_registry_ok net -> Mininet.get name net = Ok n -> node_name n = name.
Proof.
  intros [Hname _]. unfold Mininet.get.
  destruct (Mininet.nameToNode net !! name) as [x|] eqn:E; [|done].
  intros [= <-]. by apply Hname.
Qed.

Lemma get_known name net :
  net_registry_ok net -> name ∈ net_names net -> ∃ n, Mininet.get name net = Ok n.
Proof.
  intros [_ Hdom] Hin. apply Hdom in Hin as [n Hn]. exists n.
  unfold Mininet.get. by rewrite Hn.
Qed.

Lemma get_unknown name net :
  net_registry_ok net -> name ∉ net_names net ->
  Mininet.get name net = Raise (KeyError name).
Proof.
  intros [_ Hdom] Hin. unfold Mininet.get.
  destruct (Mininet.nameToNode net !! name) as [x|] eqn:E; [|done].
  destruct Hin. apply Hdom. by eexists.
Qed.

Lemma link_step cfg link w w' :
  registry_ok w ->
  add_link cfg link w = (Ok tt, w') ->
  inventory_of w' = inventory_app (inventory_of w) (link_inventory link)
  ∧ registry_ok w'.
Proof.
  intros Hw H. unfold add_link in H. cbv zeta in H. invert_body H.
  match goal with H : self_net w = Some ?n |- _ =>
    assert (net_registry_ok n) as Hn
      by (unfold registry_ok, emulation in Hw; by rewrite H in Hw) end.
  repeat match goal with H : Mininet.get _ _ = Ok _ |- _ =>
    apply (get_ok _ _ _ Hn) in H end.
  match goal with
  | H1 : node_name _ = link.1.1, H2 : node_name _ = link.1.2 |- _ =>
      rename H1 into E1; rename H2 into E2
  end.
  simplify_worlds w. split; [|registry_step].
  unfold link_inventory, inventory_of, inventory_app, host_names, switch_names,
    controller_names, emulation, link_ends.
  cbn. rewrite ?fmap_app, ?app_nil_r. cbn. by rewrite E1, E2.
Qed.

(** What the body does for a link depends on its ends only. *)
Lemma add_link_result cfg link w net :
  self_net w = Some net -> net_registry_ok net ->
  match unknown_end (net_names net) link with
  | Some n => add_link cfg link w = (Raise (KeyError n), w)
  | None => ∃ w', add_link cfg link w = (Ok tt, w') ∧ is_Some (self_net w')
  end.
Proof.
  intros Hnet Hn. unfold unknown_end, add_link, the_net. cbv zeta.
  rewrite bind_unfold, bind_unfold. cbn [gets]. rewrite Hnet. cbn [lift attr].
  destruct (decide (link.1.1 ∈ _)) as [H1|H1].
  - destruct (get_known _ _ Hn H1) as (n1 & E1).
    rewrite bind_unfold, E1. cbn [lift].
    destruct (decide (link.1.2 ∈ _)) as [H2|H2].
    + destruct (get_known _ _ Hn H2) as (n2 & E2).
      rewrite bind_unfold, E2. cbn [lift].
      rewrite bind_unfold, (on_net_ok _ _ _ Hnet).
      eexists. split; [reflexivity|]. by destruct w.
    + by rewrite bind_unfold, (get_unknown _ _ Hn H2).
  - by rewrite bind_unfold, (get_unknown _ _ Hn H1).
Qed.

#[global] Instance same_server_preorder : PreOrder same_server.
Proof. split; [by intros w|]. intros w1 w2 w3 H1 H2. unfold same_server in *. congruence. Qed.

#[global] Instance same_cloud_preorder : PreOrder same_cloud.
Proof. split; [by intros w|]. intros w1 w2 w3 H1 H2. unfold same_cloud in *. congruence. Qed.

Lemma returns_on_net {A} (f : Mininet.t -> A * Mininet.t) : returns (on_net f).
Proof.
  intros w [net Hnet]. rewrite (on_net_ok _ _ _ Hnet). eexists _, _. split; [done|].
  by destruct w.
Qed.

Lemma returns_modify (g : world -> world) :
  (∀ w, is_Some (self_net w) -> is_Some (self_net (g w))) -> returns (modify g).
Proof. intros Hg w Hw. exists tt, (g w). split; [done|by apply Hg]. Qed.

Ltac returns_step :=
  lazymatch goal with
  | |- returns (mret _) => apply returns_ret
  | |- returns (on_net _) => apply returns_on_net
  | |- returns (modify _) => apply returns_modify; by intros []
  | |- returns (_ ≫= _) => apply returns_bind; [|intros ?]
  | |- returns (for_each _ _) => apply returns_for_each; intros ?
  | |- returns (if ?b then _ else _) => destruct b
  | |- returns (let '(_, _) := ?x in _) => destruct x
  end.

(** The body of the loop over the switches raises what the constructor of
    the switch raises. *)
Lemma add_switch_outcome cfg switch w :
  is_Some (self_net w) ->
  match refused (switch, get_mac_for_switch cfg switch false false) with
  | Some e => add_switch cfg switch w = (Raise e, w)
  | None => ∃ w', add_switch cfg switch w = (Ok tt, w') ∧ is_Some (self_net w')
  end.
Proof.
  intros [net Hnet]. unfold refused, add_switch. cbv zeta. cbn [fst snd].
  rewrite bind_unfold, (try_net_unfold _ _ _ Hnet). unfold Mininet.addSwitch.
  pose proof (defaultDpid_finishes switch (get_mac_for_switch cfg switch false false)) as Hf.
  destruct (Mininet.defaultDpid _ _) as [d|e|]; [|done..].
  cbn [fst snd]. rewrite bind_unfold. cbn [modify].
  destruct (NetworkxSdnTopology.is_cloud_gateway (topo cfg) switch);
    (eexists; split; [reflexivity|by destruct w]).
Qed.

Lemma add_host_outcome cfg host w :
  is_Some (self_net w) ->
  ∃ w', add_host cfg host w = (Ok tt, w') ∧ is_Some (self_net w').
Proof.
  intros Hnet.
  assert (returns (add_host cfg host)) as R.
  { unfold add_host. repeat returns_step. }
  destruct (R w Hnet) as ([] & w' & E & Hnet'). by exists w'.
Qed.

Lemma add_server_outcome cfg server w :
  is_Some (self_net w) ->
  match refused (server, get_mac_for_switch cfg (str_replace "s" "e" server) true false) with
  | Some e => add_server cfg server w = (Raise e, w)
  | None => ∃ w', add_server cfg server w = (Ok tt, w') ∧ is_Some (self_net w')
  end.
Proof.
  intros [net Hnet]. unfold refused, add_server. cbv zeta. cbn [fst snd].
  rewrite bind_unfold, (try_net_unfold _ _ _ Hnet). unfold Mininet.addSwitch.
  pose proof (defaultDpid_finishes server
                (get_mac_for_switch cfg (str_replace "s" "e" server) true false)) as Hf.
  destruct (Mininet.defaultDpid _ _) as [d|e|]; [|done..].
  cbn [fst snd]. rewrite bind_unfold. cbn [modify].
  match goal with |- ∃ w', ?m ?w1 = _ ∧ _ =>
    assert (returns m) as R by (repeat returns_step);
    destruct (R w1 ltac:(by destruct w)) as ([] & w' & E & Hnet')
  end.
  by exists w'.
Qed.

Lemma add_cloud_outcome cfg cloud w :
  is_Some (self_net w) ->
  match (if with_cloud cfg
         then refused (cloud, get_mac_for_switch cfg (str_replace "x" "f" cloud) false true)
         else None) with
  | Some e => add_cloud cfg cloud w = (Raise e, w)
  | None => ∃ w', add_cloud cfg cloud w = (Ok tt, w') ∧ is_Some (self_net w')
  end.
Proof.
  intros [net Hnet]. unfold refused, add_cloud. destruct (with_cloud cfg).
  - cbv zeta. cbn [fst snd].
    rewrite bind_unfold, (try_net_unfold _ _ _ Hnet). unfold Mininet.addSwitch.
    pose proof (defaultDpid_finishes cloud
                  (get_mac_for_switch cfg (str_replace "x" "f" cloud) false true)) as Hf.
    destruct (Mininet.defaultDpid _ _) as [d|e|]; [|done..].
    cbn [fst snd]. rewrite bind_unfold. cbn [modify].
    match goal with |- ∃ w', ?m ?w1 = _ ∧ _ =>
      assert (returns m) as R by (repeat returns_step);
      destruct (R w1 ltac:(by destruct w)) as ([] & w' & E & Hnet')
    end.
    by exists w'.
  - match goal with |- ∃ w', ?m w = _ ∧ _ =>
      assert (returns m) as R by (repeat returns_step);
      destruct (R w ltac:(by eexists)) as ([] & w' & E & Hnet')
    end.
    by exists w'.
Qed.

(** A loop stops at the first element for which its body raises;
    otherwise it adds the inventories of its elements. *)
Lemma for_each_outcome {X} (fails : X -> option exn) (f : X -> inventory)
    (body : X -> M unit) :
  (∀ x w, is_Some (self_net w) ->
     match fails x with
     | Some e => body x w = (Raise e, w)
     | None => ∃ w', body x w = (Ok tt, w') ∧ is_Some (self_net w')
     end) ->
  (∀ x w w', registry_ok w -> body x w = (Ok tt, w') ->
             inventory_of w' = inventory_app (inventory_of w) (f x) ∧ registry_ok w') ->
  ∀ l w, is_Some (self_net w) -> registry_ok w ->
    match head (omap fails l) with
    | Some e => ∃ w', for_each l body w = (Raise e, w')
    | None =>
        ∃ w', for_each l body w = (Ok tt, w')
              ∧ is_Some (self_net w') ∧ registry_ok w'
              ∧ inventory_of w' = inventory_app (inventory_of w) (inventories f l)
    end.
Proof.
  intros Hout Hstep. induction l as [|x l IH]; intros w Hnet Hw.
  - cbn. exists w. split_and!; try done. by rewrite inventory_app_empty_r.
  - cbn [omap list_omap for_each]. specialize (Hout x w Hnet).
    destruct (fails x) as [e|].
    + cbn [head]. exists w. by rewrite bind_unfold, Hout.
    + destruct Hout as (w1 & E1 & Hnet1).
      destruct (Hstep _ _ _ Hw E1) as [I1 Hw1].
      specialize (IH w1 Hnet1 Hw1). destruct (head _) as [e|].
      * destruct IH as (w' & E). exists w'. by rewrite bind_unfold, E1.
      * destruct IH as (w' & E & Hnet' & Hw' & I). exists w'.
        rewrite bind_unfold, E1. split_and!; try done.
        rewrite I, I1. cbn. by rewrite inventory_app_assoc.
Qed.

Lemma inventories_app {X} (f : X -> inventory) l :
  inv_switches (inventories f l) = l ≫= (λ x, inv_switches (f x))
  ∧ inv_cloud_gateways (inventories f l) = l ≫= (λ x, inv_cloud_gateways (f x))
  ∧ inv_hosts (inventories f l) = l ≫= (λ x, inv_hosts (f x))
  ∧ inv_cloud_switches (inventories f l) = l ≫= (λ x, inv_cloud_switches (f x))
  ∧ inv_links (inventories f l) = l ≫= (λ x, inv_links (f x))
  ∧ inv_net_switches (inventories f l) = l ≫= (λ x, inv_net_switches (f x))
  ∧ inv_net_hosts (inventories f l) = l ≫= (λ x, inv_net_hosts (f x))
  ∧ inv_net_links (inventories f l) = l ≫= (λ x, inv_net_links (f x))
  ∧ inv_net_controllers (inventories f l) = l ≫= (λ x, inv_net_controllers (f x)).
Proof.
  induction l as [|x l IH]; [done|]. destruct IH as (?&?&?&?&?&?&?&?&?).
  cbn. split_and!; by f_equal.
Qed.

Lemma bind_singleton {A} (l : list A) : l ≫= (λ x, [x]) = l.
Proof. induction l; cbn; by f_equal. Qed.

Lemma bind_singleton_fmap {A B} (f : A -> B) (l : list A) : l ≫= (λ x, [f x]) = f <$> l.
Proof. induction l; cbn; by f_equal. Qed.

Lemma bind_nil_r {A B} (l : list A) : l ≫= (λ _, @nil B) = [].
Proof. by induction l. Qed.

Lemma last_server_step {X} (body : X -> M unit) (get : world -> option Node)
    (name : X -> string) :
  (∀ x w w', body x w = (Ok tt, w') -> (node_name <$> get w') = Some (name x)) ->
  ∀ l w w', for_each l body w = (Ok tt, w') ->
    (node_name <$> get w')
    = from_option (λ x, Some (name x)) (node_name <$> get w) (last l).
Proof.
  intros Hstep. induction l as [|x l IH]; intros w w' H.
  - by apply mret_inv in H as [_ ->].
  - cbn [for_each] in H. apply bind_ok_inv in H as ([] & w1 & H1 & H).
    rewrite (IH _ _ H), (Hstep _ _ _ H1), last_cons. by destruct (last l).
Qed.

Lemma head_app_cases {A} (l1 l2 : list A) :
  head (l1 ++ l2) = match head l1 with Some x => Some x | None => head l2 end.
Proof. by destruct l1. Qed.

Lemma omap_fmap_compose {A B C} (g : B -> option C) (f : A -> B) (l : list A) :
  omap g (f <$> l) = omap (λ x, g (f x)) l.
Proof. induction l as [|x l IH]; [done|]. cbn. by rewrite IH. Qed.

Lemma omap_none {A B} (l : list A) : omap (λ _, @None B) l = [].
Proof. by induction l. Qed.

(** The first refusal, loop by loop. *)
Lemma first_refused_dpid_cases cfg :
  first_refused_dpid cfg
  = match head (omap (λ s, refused (s, get_mac_for_switch cfg s false false))
                  (NetworkxSdnTopology.get_switches (topo cfg))) with
    | Some e => Some e
    | None =>
        match head (omap (λ s, refused (s, get_mac_for_switch cfg (str_replace "s" "e" s)
                                             true false))
                      (NetworkxSdnTopology.get_servers (topo cfg))) with
        | Some e => Some e
        | None =>
            head (omap (λ c, if with_cloud cfg
                             then refused (c, get_mac_for_switch cfg (str_replace "x" "f" c)
                                                false true)
                             else None)
                    (NetworkxSdnTopology.get_clouds (topo cfg)))
        end
    end.
Proof.
  unfold first_refused_dpid, requested_switches.
  rewrite !omap_app, !head_app_cases, !omap_fmap_compose.
  destruct (with_cloud cfg).
  - by rewrite omap_fmap_compose.
  - by rewrite omap_none.
Qed.

Lemma add_switch_same cfg x :
  respects same_server (add_switch cfg x) ∧ respects same_cloud (add_switch cfg x).
Proof. split; unfold add_switch; respects_auto ltac:(by red). Qed.

Lemma add_host_same cfg x :
  respects same_server (add_host cfg x) ∧ respects same_cloud (add_host cfg x).
Proof. split; unfold add_host; respects_auto ltac:(by red). Qed.

Lemma add_server_same_cloud cfg x : respects same_cloud (add_server cfg x).
Proof. unfold add_server; respects_auto ltac:(by red). Qed.

Lemma add_cloud_same_server cfg x : respects same_server (add_cloud cfg x).
Proof. unfold add_cloud; respects_auto ltac:(by red). Qed.

(** The loops over the switches, the hosts, the servers and the clouds
    stop at the first dpid that is refused, and otherwise run to their
    end. *)
Lemma setup_topology_nodes cfg w :
  match first_refused_dpid cfg with
  | Some e => ∃ w', setup_topology cfg w = (Raise e, w')
  | None =>
      ∃ w4,
        setup_topology cfg w
        = (for_each (NetworkxSdnTopology.get_links (topo cfg)) (add_link cfg);;
           add_nat cfg) w4
        ∧ is_Some (self_net w4)
        ∧ registry_ok w4
        ∧ inventory_of w4
          = inventory_app (inventory_of (new_emulation w)) (nodes_inventory cfg)
        ∧ (node_name <$> self_server w4)
          = from_option (λ s, Some ("h" +:+ s)) (node_name <$> self_server w)
              (last (NetworkxSdnTopology.get_servers (topo cfg)))
        ∧ (node_name <$> self_cloud w4)
          = from_option (λ c, Some (if with_cloud cfg then "h" +:+ c else c))
              (node_name <$> self_cloud w)
              (last (NetworkxSdnTopology.get_clouds (topo cfg)))
  end.
Proof.
  rewrite setup_topology_unfold, first_refused_dpid_cases. unfold setup_topology_loops.
  set (w0 := new_emulation w).
  destruct (new_emulation_inventory w) as (_ & _ & _ & _ & S0 & C0 & N0).
  pose proof (new_emulation_registry w) as R0. fold w0 in S0, C0, N0, R0.
  (* the switches *)
  rewrite bind_unfold.
  pose proof (for_each_outcome _ (switch_inventory cfg) (add_switch cfg)
                (add_switch_outcome cfg) (switch_step cfg)
                (NetworkxSdnTopology.get_switches (topo cfg)) w0 N0 R0) as H1.
  destruct (head _) as [e|].
  { destruct H1 as (w' & ->). by exists w'. }
  destruct H1 as (w1 & E1 & N1 & R1 & I1). rewrite E1.
  assert (same_server w0 w1 ∧ same_cloud w0 w1) as [S1 C1].
  { split; (eapply (respects_for_each _ _ (add_switch cfg)); [|exact E1]);
      intros ?; apply add_switch_same. }
  (* the hosts *)
  rewrite bind_unfold.
  pose proof (for_each_outcome (λ _, None) host_inventory (add_host cfg)
                (add_host_outcome cfg) (host_step cfg)
                (NetworkxSdnTopology.get_hosts (topo cfg)) w1 N1 R1) as H2.
  rewrite omap_none in H2. cbn [head] in H2.
  destruct H2 as (w2 & E2 & N2 & R2 & I2). rewrite E2.
  assert (same_server w1 w2 ∧ same_cloud w1 w2) as [S2 C2].
  { split; (eapply (respects_for_each _ _ (add_host cfg)); [|exact E2]);
      intros ?; apply add_host_same. }
  (* the servers *)
  rewrite bind_unfold.
  pose proof (for_each_outcome _ server_inventory (add_server cfg)
                (add_server_outcome cfg) (server_step cfg)
                (NetworkxSdnTopology.get_servers (topo cfg)) w2 N2 R2) as H3.
  destruct (head _) as [e|].
  { destruct H3 as (w' & ->). by exists w'. }
  destruct H3 as (w3 & E3 & N3 & R3 & I3). rewrite E3.
  assert (same_cloud w2 w3) as C3.
  { eapply (respects_for_each _ _ (add_server cfg)); [|exact E3].
    intros ?; apply add_server_same_cloud. }
  pose proof (last_server_step (add_server cfg) self_server (λ s, "h" +:+ s)
                (server_step_server cfg) _ w2 w3 E3) as S3.
  (* the clouds *)
  rewrite bind_unfold.
  pose proof (for_each_outcome _ (cloud_inventory cfg) (add_cloud cfg)
                (add_cloud_outcome cfg) (cloud_step cfg)
                (NetworkxSdnTopology.get_clouds (topo cfg)) w3 N3 R3) as H4.
  destruct (head _) as [e|].
  { destruct H4 as (w' & ->). by exists w'. }
  destruct H4 as (w4 & E4 & N4 & R4 & I4). rewrite E4.
  assert (same_server w3 w4) as S4.
  { eapply (respects_for_each _ _ (add_cloud cfg)); [|exact E4].
    intros ?; apply add_cloud_same_server. }
  pose proof (last_server_step (add_cloud cfg) self_cloud
                (λ c, if with_cloud cfg then "h" +:+ c else c)
                (cloud_step_cloud cfg) _ w3 w4 E4) as C4.
  exists w4. split_and!; [done|done|done| | |].
  - rewrite I4, I3, I2, I1. unfold nodes_inventory.
    by rewrite !inventory_app_assoc.
  - rewrite S4, S3, S2, S1, S0. done.
  - rewrite C4, C3, C2, C1, C0. done.
Qed.

Lemma inventory_names w w' delta :
  inventory_of w' = inventory_app (inventory_of w) delta ->
  host_names w' = host_names w ++ inv_net_hosts delta
  ∧ switch_names w' = switch_names w ++ inv_net_switches delta
  ∧ controller_names w' = controller_names w ++ inv_net_controllers delta.
Proof. intros E. by injection E. Qed.

Lemma net_names_emulation w :
  net_names (emulation w) = host_names w ++ switch_names w ++ controller_names w.
Proof. done. Qed.

Lemma add_link_same_server cfg link : respects same_server (add_link cfg link).
Proof. unfold add_link. respects_auto ltac:(by red). Qed.

Lemma add_link_same_cloud cfg link : respects same_cloud (add_link cfg link).
Proof. unfold add_link. respects_auto ltac:(by red). Qed.

(** The loop over the links stops at the first end that is no name of
    the emulation. *)
Lemma links_loop_result cfg (names : list string) :
  ∀ links w,
  is_Some (self_net w) -> registry_ok w ->
  net_names (emulation w) = names ->
  match head (omap (unknown_end names) links) with
  | Some n => ∃ w', for_each links (add_link cfg) w = (Raise (KeyError n), w')
  | None =>
      ∃ w', for_each links (add_link cfg) w = (Ok tt, w')
            ∧ is_Some (self_net w') ∧ registry_ok w'
            ∧ inventory_of w' = inventory_app (inventory_of w) (inventories link_inventory links)
            ∧ same_server w w' ∧ same_cloud w w'
  end.
Proof.
  induction links as [|link links IH]; intros w Hnet Hw Hn.
  - cbn. exists w. split_and!; try done. by rewrite inventory_app_empty_r.
  - destruct Hnet as [net Hnet].
    assert (emulation w = net) as En by (unfold emulation; by rewrite Hnet).
    assert (net_registry_ok net) as Hreg by (by rewrite <- En).
    pose proof (add_link_result cfg link w net Hnet Hreg) as Hr.
    rewrite <- En, Hn in Hr. cbn [omap list_omap for_each]. revert Hr.
    destruct (unknown_end names link) as [n|]; intros Hr; cbv beta iota in Hr.
    + cbn [head]. exists w. by rewrite bind_unfold, Hr.
    + destruct Hr as (w1 & E1 & Hnet1).
      destruct (link_step cfg link w w1 Hw E1) as [I1 Hw1].
      destruct (inventory_names _ _ _ I1) as (Hh1 & Hs1 & Hc1). cbn in Hh1, Hs1, Hc1.
      rewrite app_nil_r in Hh1, Hs1, Hc1.
      pose proof (add_link_same_server cfg link _ _ _ E1) as S1.
      pose proof (add_link_same_cloud cfg link _ _ _ E1) as C1.
      assert (net_names (emulation w1) = names) as Hn1.
      { rewrite net_names_emulation, Hh1, Hs1, Hc1, <- net_names_emulation. done. }
      specialize (IH w1 Hnet1 Hw1 Hn1).
      destruct (head _) as [n|].
      * destruct IH as (w' & E). exists w'. by rewrite bind_unfold, E1.
      * destruct IH as (w' & E & Hnet' & Hw' & I & S & C). exists w'.
        rewrite bind_unfold, E1. split_and!; try done.
        -- rewrite I, I1. cbn. by rewrite inventory_app_assoc.
        -- by etransitivity.
        -- by etransitivity.
Qed.

Lemma add_nat_result cfg w :
  is_Some (self_net w) -> registry_ok w ->
  match self_server w with
  | Some s =>
      ∃ w', add_nat cfg w = (Ok tt, w')
            ∧ inventory_of w' = inventory_app (inventory_of w) (nat_inventory s)
            ∧ registry_ok w'
            ∧ (node_name <$> self_nat w') = Some "nat0"
            ∧ (node_class_of <$> self_nat w') = Some NAT
            ∧ same_server w w' ∧ same_cloud w w'
  | None => ∃ w', add_nat cfg w = (Raise AttributeError, w')
  end.
Proof.
  intros [net Hnet] Hw. unfold add_nat. rewrite bind_unfold. cbn [gets].
  rewrite bind_unfold, (on_net_ok _ _ _ Hnet).
  destruct (self_server w) as [s|] eqn:Es.
  - rewrite bind_unfold, bind_unfold.
    erewrite on_net_ok; [|by destruct w].
    eexists. split; [reflexivity|].
    unfold nat_inventory. simplify_worlds w.
    destruct (mininet_auto_ip_mac cfg _) as [ip mac].
    split_and!; [inventory_step|registry_step|done..].
  - eexists. reflexivity.
Qed.

Lemma bind_filter {A} (P : A -> bool) (l : list A) :
  l ≫= (λ x, if P x then [x] else []) = filter (λ x, P x = true) l.
Proof.
  induction l as [|x l IH]; [done|]. rewrite bind_cons, IH.
  destruct (P x) eqn:E.
  - by rewrite filter_cons_True.
  - rewrite filter_cons_False; [done|]. by rewrite E.
Qed.

(** The components of the inventory of the nodes. *)
Lemma nodes_inventory_components cfg :
  inv_switches (nodes_inventory cfg) = NetworkxSdnTopology.get_switches (topo cfg)
  ∧ inv_cloud_gateways (nodes_inventory cfg)
    = filter (λ s, NetworkxSdnTopology.is_cloud_gateway (topo cfg) s = true)
        (NetworkxSdnTopology.get_switches (topo cfg))
  ∧ inv_hosts (nodes_inventory cfg) = NetworkxSdnTopology.get_hosts (topo cfg)
  ∧ inv_cloud_switches (nodes_inventory cfg)
    = (if with_cloud cfg then NetworkxSdnTopology.get_clouds (topo cfg) else [])
  ∧ inv_links (nodes_inventory cfg) = []
  ∧ inv_net_switches (nodes_inventory cfg) = emulated_switch_names cfg
  ∧ inv_net_hosts (nodes_inventory cfg) = emulated_host_names cfg
  ∧ inv_net_links (nodes_inventory cfg)
    = ((λ s, (s, "h" +:+ s)) <$> NetworkxSdnTopology.get_servers (topo cfg))
      ++ (if with_cloud cfg
          then (λ c, (c, "h" +:+ c)) <$> NetworkxSdnTopology.get_clouds (topo cfg)
          else [])
  ∧ inv_net_controllers (nodes_inventory cfg) = [].
Proof.
  unfold nodes_inventory, emulated_switch_names, emulated_host_names.
  destruct (inventories_app (switch_inventory cfg)
              (NetworkxSdnTopology.get_switches (topo cfg))) as (A1&A2&A3&A4&A5&A6&A7&A8&A9).
  destruct (inventories_app host_inventory
              (NetworkxSdnTopology.get_hosts (topo cfg))) as (B1&B2&B3&B4&B5&B6&B7&B8&B9).
  destruct (inventories_app server_inventory
              (NetworkxSdnTopology.get_servers (topo cfg))) as (C1&C2&C3&C4&C5&C6&C7&C8&C9).
  destruct (inventories_app (cloud_inventory cfg)
              (NetworkxSdnTopology.get_clouds (topo cfg))) as (D1&D2&D3&D4&D5&D6&D7&D8&D9).
  cbn [inventory_app inv_switches inv_cloud_gateways inv_hosts inv_cloud_switches
       inv_links inv_net_switches inv_net_hosts inv_net_links inv_net_controllers].
  rewrite A1, A2, A3, A4, A5, A6, A7, A8, A9, B1, B2, B3, B4, B5, B6, B7, B8, B9,
    C1, C2, C3, C4, C5, C6, C7, C8, C9, D1, D2, D3, D4, D5, D6, D7, D8, D9.
  unfold cloud_inventory. cbn [switch_inventory host_inventory server_inventory
       inv_switches inv_cloud_gateways inv_hosts inv_cloud_switches
       inv_links inv_net_switches inv_net_hosts inv_net_links inv_net_controllers].
  rewrite ?bind_nil_r, ?bind_singleton, ?app_nil_r, ?app_nil_l.
  rewrite (bind_singleton_fmap (λ s, "h" +:+ s)),
    (bind_singleton_fmap (λ s, (s, "h" +:+ s))).
  rewrite bind_filter.
  destruct (with_cloud cfg);
    cbn [inv_switches inv_cloud_gateways inv_hosts inv_cloud_switches
         inv_links inv_net_switches inv_net_hosts inv_net_links inv_net_controllers];
    rewrite ?bind_nil_r, ?bind_singleton, ?app_nil_r, ?app_nil_l;
    rewrite ?(bind_singleton_fmap (λ c, (c, "h" +:+ c))); done.
Qed.

(** A precise account of the outcome of [setup_topology]. *)
Lemma setup_topology_cases cfg w :
  match first_refused_dpid cfg with
  | Some e => ∃ w', setup_topology cfg w = (Raise e, w')
  | None =>
      match first_unknown_end cfg with
      | Some n => ∃ w', setup_topology cfg w = (Raise (KeyError n), w')
      | None =>
          match last (NetworkxSdnTopology.get_servers (topo cfg)), self_server w with
          | None, None => ∃ w', setup_topology cfg w = (Raise AttributeError, w')
          | _, _ =>
              ∃ w', setup_topology cfg w = (Ok tt, w') ∧ setup_topology_built cfg w w'
          end
      end
  end.
Proof.
  pose proof (setup_topology_nodes cfg w) as HN.
  destruct (first_refused_dpid cfg) as [e|]; [done|].
  destruct HN as (w4 & E & N4 & R4 & I4 & S4 & C4).
  rewrite E. clear E.
  destruct (inventory_names _ _ _ I4) as (Hh & Hs & Hc).
  destruct (nodes_inventory_components cfg) as (_&_&_&_&_& Ks & Kh &_& Kc).
  destruct (new_emulation_inventory w) as (Zs & Zh & Zc & _).
  assert (net_names (emulation w4) = emulated_names cfg) as Hn.
  { rewrite net_names_emulation, Hh, Hs, Hc, Kh, Ks, Kc, Zs, Zh, Zc. done. }
  pose proof (links_loop_result cfg _ (NetworkxSdnTopology.get_links (topo cfg))
                w4 N4 R4 Hn) as HL.
  unfold first_unknown_end. destruct (head _) as [n|].
  - destruct HL as (w5 & E5). exists w5. by rewrite bind_unfold, E5.
  - destruct HL as (w5 & E5 & N5 & R5 & I5 & S5 & C5).
    rewrite bind_unfold, E5.
    pose proof (add_nat_result cfg w5 N5 R5) as HN.
    assert ((node_name <$> self_server w5)
            = from_option (λ s, Some ("h" +:+ s)) (node_name <$> self_server w)
                (last (NetworkxSdnTopology.get_servers (topo cfg)))) as S5'.
    { by rewrite S5. }
    destruct (self_server w5) as [s|] eqn:Es5.
    + destruct HN as (w' & E' & I' & R' & Hnat & Hcls & S' & C').
      assert (∃ w'0, add_nat cfg w5 = (Ok tt, w'0) ∧ setup_topology_built cfg w w'0) as G.
      { exists w'. split; [done|]. exists s. split_and!; try done.
        - by rewrite S', Es5.
        - by rewrite I', I5, I4.
        - by rewrite S', Es5.
        - by rewrite C', C5. }
      destruct (last (NetworkxSdnTopology.get_servers (topo cfg))); [done|].
      destruct (self_server w) as [s0|]; [done|]. done.
    + destruct HN as (w' & E').
      destruct (last (NetworkxSdnTopology.get_servers (topo cfg))); [done|].
      destruct (self_server w) as [s0|]; [done|]. by exists w'.
Qed.

Lemma setup_topology_ok_inv cfg w w' :
  setup_topology cfg w = (Ok tt, w') ->
  first_refused_dpid cfg = None ∧ first_unknown_end cfg = None
  ∧ setup_topology_built cfg w w'.
Proof.
  intros H. pose proof (setup_topology_cases cfg w) as HC.
  destruct (first_refused_dpid cfg) as [e|].
  { destruct HC as (w1 & E). rewrite E in H. discriminate. }
  destruct (first_unknown_end cfg) as [n|].
  { destruct HC as (w1 & E). rewrite E in H. discriminate. }
  destruct (last _) as [s|], (self_server w) as [s0|].
  4: { destruct HC as (w1 & E). rewrite E in H. discriminate. }
  all: destruct HC as (w1 & E & HC); rewrite E in H; injection H as <-; done.
Qed.

Lemma links_inventory_components (links : list (string * string * gmap string Z)) :
  inv_switches (inventories link_inventory links) = []
  ∧ inv_cloud_gateways (inventories link_inventory links) = []
  ∧ inv_hosts (inventories link_inventory links) = []
  ∧ inv_cloud_switches (inventories link_inventory links) = []
  ∧ inv_links (inventories link_inventory links) = (λ l, (l.1.1, l.1.2)) <$> links
  ∧ inv_net_switches (inventories link_inventory links) = []
  ∧ inv_net_hosts (inventories link_inventory links) = []
  ∧ inv_net_links (inventories link_inventory links) = (λ l, (l.1.1, l.1.2)) <$> links
  ∧ inv_net_controllers (inventories link_inventory links) = [].
Proof.
  destruct (inventories_app link_inventory links) as (A1&A2&A3&A4&A5&A6&A7&A8&A9).
  rewrite A1, A2, A3, A4, A5, A6, A7, A8, A9. cbn.
  rewrite ?bind_nil_r.
  by rewrite (bind_singleton_fmap (λ l : string * string * gmap string Z, (l.1.1, l.1.2))).
Qed.

(** The names of the emulation that [setup_topology] builds. *)
Lemma setup_topology_names cfg w w' :
  setup_topology cfg w = (Ok tt, w') ->
  switch_names w' = emulated_switch_names cfg
  ∧ host_names w' = emulated_host_names cfg ++ ["nat0"]
  ∧ controller_names w' = ["c0"]
  ∧ registry_ok w'.
Proof.
  intros H. apply setup_topology_ok_inv in H as (_ & _ & s & Hs & I & R & _).
  destruct (nodes_inventory_components cfg) as (_&_&_&_&_& Ks & Kh & _ & Kc).
  destruct (links_inventory_components (NetworkxSdnTopology.get_links (topo cfg)))
    as (_&_&_&_&_& Ls & Lh & _ & Lc).
  destruct (new_emulation_inventory w) as (Zs & Zh & Zc & _).
  pose proof (f_equal inv_net_switches I) as Is.
  pose proof (f_equal inv_net_hosts I) as Ih.
  pose proof (f_equal inv_net_controllers I) as Ic.
  cbn [inventory_app inventory_of inv_net_switches inv_net_hosts inv_net_controllers]
    in Is, Ih, Ic.
  rewrite Ks, Ls, Zs in Is. rewrite Kh, Lh, Zh in Ih. rewrite Kc, Lc, Zc in Ic.
  cbn [fmap list_fmap nat_inventory inv_net_switches inv_net_hosts inv_net_controllers app]
    in Is, Ih, Ic.
  rewrite !app_nil_r in Is. rewrite !app_nil_r in Ih.
  done.
Qed.


(** On the campus the topology is set up.  A dpid that is no hexadecimal
    number is refused with [ValueError], one of more than sixteen digits
    with [AssertionError]; a link to a node that the topology does not
    have is refused with [KeyError], but for the controller [c0]. *)
Example setup_topology_outcomes :
  let cfg := Campus.config None 1 true in
  let w := Campus.initial (Campus.surroundings 0 (Campus.view 4 9 5) (λ _, false)) in
  let with_dpids f := {|
    comparison := None; ntrees := 1; with_cloud := true; with_ride_c := true;
    with_ride_d := true; topology_adapter_type := "onos"; error_rate := 0;
    mcast_pool := mcast_pool cfg; topo := topo cfg; ALL_PAIRS := false;
    DISTANCE_METRIC := "latency"; SEISMIC_EVENT_DELAY := 60;
    TIME_BETWEEN_SEISMIC_EVENTS := 10; EXPERIMENT_DURATION := 300;
    IPERF_BASE_PORT := 5000; PROBE_BASE_SRC_PORT := 9900; ECHO_SERVER_PORT := 9999;
    STATIC_PATH_FLOW_RULE_PRIORITY := 65000;
    get_mac_for_switch := f;
    get_ip_mac_for_host := get_ip_mac_for_host cfg;
    mininet_auto_ip_mac := mininet_auto_ip_mac cfg |} in
  let with_link l :=
    on_topology {|
      NetworkxSdnTopology.get_switches := ["a0"];
      NetworkxSdnTopology.get_hosts := ["h1"];
      NetworkxSdnTopology.get_servers := ["s0"];
      NetworkxSdnTopology.get_clouds := [];
      NetworkxSdnTopology.get_links := [("s0", "a0", ∅); l];
      NetworkxSdnTopology.is_cloud_gateway := λ _, false;
      NetworkxSdnTopology.get_path := λ src dst _, Campus.paths src dst;
      NetworkxSdnTopology.number_of_edges := 2 |} cfg in
  (setup_topology cfg w).1 = Ok tt
  ∧ (setup_topology (with_dpids (λ n _ _, "00:" +:+ n)) w).1 = Raise ValueError
  ∧ (setup_topology (with_dpids (λ n _ _, "00:00:00:00:00:00:00:00:" +:+ n)) w).1
    = Raise AssertionError
  ∧ (setup_topology (with_link ("h1", "b7", ∅)) w).1 = Raise (KeyError "b7")
  ∧ (setup_topology (with_link ("h1", "c0", ∅)) w).1 = Ok tt.
Proof. split_and!; vm_compute; reflexivity. Qed.

(** X2: the emulation that [setup_topology] builds, whatever the experiment
    held before: its controller is [c0]; its switches are those of the
    topology model, then one per server and, with [with_cloud], one per
    cloud, under the names of the servers and of the clouds; its hosts are
    those of the topology model, then the host [h<server>] of every server,
    then for every cloud the host [h<cloud>] or, without [with_cloud], two
    hosts named as the cloud, then the NAT; its links are those of the
    servers to their switches, of the clouds to theirs, of the topology
    model, and of the NAT to the server; and the registry binds exactly
    the names of these hosts, switches and controller, each to a node of
    that name. *)
Theorem setup_topology_emulation cfg w w' :
  setup_topology cfg w = (Ok tt, w') ->
  controller_names w' = ["c0"]
  ∧ switch_names w' = emulated_switch_names cfg
  ∧ host_names w' = emulated_host_names cfg ++ ["nat0"]
  ∧ (∃ s, self_server w' = Some s
          ∧ link_ends <$> Mininet.links (emulation w')
            = ((λ s, (s, "h" +:+ s)) <$> NetworkxSdnTopology.get_servers (topo cfg))
              ++ (if with_cloud cfg
                  then (λ c, (c, "h" +:+ c)) <$> NetworkxSdnTopology.get_clouds (topo cfg)
                  else [])
              ++ ((λ l, (l.1.1, l.1.2)) <$> NetworkxSdnTopology.get_links (topo cfg))
              ++ [("nat0", node_name s)])
  ∧ registry_ok w'.
Proof.
  intros H. destruct (setup_topology_names _ _ _ H) as (Is & Ih & Ic & R).
  apply setup_topology_ok_inv in H as (_ & _ & s & Hs & I & _).
  destruct (nodes_inventory_components cfg) as (_&_&_&_&_&_&_& Kl & _).
  destruct (links_inventory_components (NetworkxSdnTopology.get_links (topo cfg)))
    as (_&_&_&_&_&_&_& Ll & _).
  destruct (new_emulation_inventory w) as (_ & _ & _ & Zl & _).
  pose proof (f_equal inv_net_links I) as Il.
  cbn [inventory_app inventory_of inv_net_links] in Il.
  rewrite Kl, Ll, Zl in Il.
  cbn [fmap list_fmap nat_inventory inv_net_links app] in Il.
  split; [exact Ic|]. split; [exact Is|]. split; [exact Ih|]. split; [|exact R].
  exists s. split; [done|]. rewrite Il. by rewrite <- !app_assoc.
Qed.

Lemma setup_topology_emulation_witness :
  let cfg := Campus.config None 1 false in
  let out := Campus.surroundings 0 (Campus.view 5 9 5) (λ _, false) in
  let w' := Campus.ready cfg out in
  controller_names w' = ["c0"]
  ∧ switch_names w' = emulated_switch_names cfg
  ∧ host_names w' = emulated_host_names cfg ++ ["nat0"]
  ∧ (∃ s, self_server w' = Some s
          ∧ link_ends <$> Mininet.links (emulation w')
            = ((λ s, (s, "h" +:+ s)) <$> NetworkxSdnTopology.get_servers (topo cfg))
              ++ (if with_cloud cfg
                  then (λ c, (c, "h" +:+ c)) <$> NetworkxSdnTopology.get_clouds (topo cfg)
                  else [])
              ++ ((λ l, (l.1.1, l.1.2)) <$> NetworkxSdnTopology.get_links (topo cfg))
              ++ [("nat0", node_name s)])
  ∧ registry_ok w'.
Proof.
  intros cfg out w'.
  apply (setup_topology_emulation cfg (Campus.initial out) w').
  vm_compute. reflexivity.
Defined.

(** X3: [setup_topology] appends to what the experiment holds: the switches,
    the cloud gateways among them, the hosts, the cloud switches and the
    links of the topology model come after those of an earlier run that
    was not cleared. *)
Theorem setup_topology_collections cfg w w' :
  setup_topology cfg w = (Ok tt, w') ->
  node_name <$> self_switches w'
  = (node_name <$> self_switches w) ++ NetworkxSdnTopology.get_switches (topo cfg)
  ∧ node_name <$> self_cloud_gateways w'
    = (node_name <$> self_cloud_gateways w)
      ++ filter (λ s, NetworkxSdnTopology.is_cloud_gateway (topo cfg) s = true)
           (NetworkxSdnTopology.get_switches (topo cfg))
  ∧ node_name <$> self_hosts w'
    = (node_name <$> self_hosts w) ++ NetworkxSdnTopology.get_hosts (topo cfg)
  ∧ node_name <$> self_cloud_switches w'
    = (node_name <$> self_cloud_switches w)
      ++ (if with_cloud cfg then NetworkxSdnTopology.get_clouds (topo cfg) else [])
  ∧ link_ends <$> self_links w'
    = (link_ends <$> self_links w)
      ++ ((λ l, (l.1.1, l.1.2)) <$> NetworkxSdnTopology.get_links (topo cfg)).
Proof.
  intros H. apply setup_topology_ok_inv in H as (_ & _ & s & Hs & I & R & _).
  destruct (nodes_inventory_components cfg) as (K1&K2&K3&K4&K5&_).
  destruct (links_inventory_components (NetworkxSdnTopology.get_links (topo cfg)))
    as (L1&L2&L3&L4&L5&_).
  pose proof (f_equal inv_switches I) as I1.
  pose proof (f_equal inv_cloud_gateways I) as I2.
  pose proof (f_equal inv_hosts I) as I3.
  pose proof (f_equal inv_cloud_switches I) as I4.
  pose proof (f_equal inv_links I) as I5.
  cbn [inventory_app inventory_of inv_switches inv_cloud_gateways inv_hosts
       inv_cloud_switches inv_links] in I1, I2, I3, I4, I5.
  rewrite K1, L1 in I1. rewrite K2, L2 in I2. rewrite K3, L3 in I3.
  rewrite K4, L4 in I4. rewrite K5, L5 in I5.
  cbn [nat_inventory inv_switches inv_cloud_gateways inv_hosts
       inv_cloud_switches inv_links] in I1, I2, I3, I4, I5.
  rewrite !app_nil_r in I1. rewrite !app_nil_r in I2. rewrite !app_nil_r in I3.
  rewrite !app_nil_r in I4. rewrite ?app_nil_r in I5.
  rewrite I1, I2, I3, I4, I5. by destruct w.
Qed.

Lemma setup_topology_collections_witness :
  let cfg := Campus.config None 1 true in
  let out := Campus.surroundings 0 (Campus.view 4 9 5) (λ _, false) in
  let w := Campus.ready cfg out in
  let w' := (setup_topology cfg w).2 in
  node_name <$> self_switches w'
  = (node_name <$> self_switches w) ++ NetworkxSdnTopology.get_switches (topo cfg)
  ∧ node_name <$> self_cloud_gateways w'
    = (node_name <$> self_cloud_gateways w)
      ++ filter (λ s, NetworkxSdnTopology.is_cloud_gateway (topo cfg) s = true)
           (NetworkxSdnTopology.get_switches (topo cfg))
  ∧ node_name <$> self_hosts w'
    = (node_name <$> self_hosts w) ++ NetworkxSdnTopology.get_hosts (topo cfg)
  ∧ node_name <$> self_cloud_switches w'
    = (node_name <$> self_cloud_switches w)
      ++ (if with_cloud cfg then NetworkxSdnTopology.get_clouds (topo cfg) else [])
  ∧ link_ends <$> self_links w'
    = (link_ends <$> self_links w)
      ++ ((λ l, (l.1.1, l.1.2)) <$> NetworkxSdnTopology.get_links (topo cfg)).
Proof.
  intros cfg out w w'.
  apply (setup_topology_collections cfg w w').
  vm_compute. reflexivity.
Defined.

Lemma comprehension_get net names :
  net_registry_ok net ->
  match head (filter (λ n, n ∉ net_names net) names) with
  | Some n => comprehension (λ n, Mininet.get n net) names = Raise (KeyError n)
  | None => ∃ nodes, comprehension (λ n, Mininet.get n net) names = Ok nodes
                     ∧ node_name <$> nodes = names
  end.
Proof.
  intros Hn. induction names as [|name names IH]; [by exists []|].
  cbn [comprehension].
  destruct (decide (name ∈ net_names net)) as [Hin|Hin].
  - rewrite filter_cons_False by tauto.
    destruct (get_known _ _ Hn Hin) as (x & Hx). rewrite Hx.
    apply (get_ok _ _ _ Hn) in Hx.
    destruct (head _) as [n|].
    + by rewrite IH.
    + destruct IH as (nodes & -> & IH). exists (x :: nodes). split; [done|].
      cbn. by rewrite Hx, IH.
  - rewrite filter_cons_True by done. cbn [head].
    by rewrite (get_unknown _ _ Hn Hin).
Qed.

Lemma setup_topology_net cfg w0 w :
  setup_topology cfg w0 = (Ok tt, w) -> ∃ net, self_net w = Some net.
Proof.
  intros H. apply setup_topology_names in H as (_ & Hh & _).
  unfold host_names, emulation in Hh. destruct (self_net w) as [net|]; [by eexists|].
  cbn in Hh. by destruct (emulated_host_names cfg).
Qed.

(** X5: once [setup_topology] has returned, [_get_mininet_nodes] finds every
    name of the emulation (a host, a switch, a server or its host, a
    cloud or its host, the NAT, the controller [c0]): it returns one node
    per name, each of the name asked for and in the order asked, and
    leaves the experiment as it is.  With a name that the emulation does
    not have it raises [KeyError] for the first such name. *)
Theorem get_mininet_nodes_after_setup cfg w0 w names :
  setup_topology cfg w0 = (Ok tt, w) ->
  match head (filter (λ n, n ∉ emulated_host_names cfg
                               ++ "nat0" :: "c0" :: emulated_switch_names cfg)
                names) with
  | Some n => _get_mininet_nodes names w = (Raise (KeyError n), w)
  | None => ∃ nodes, _get_mininet_nodes names w = (Ok nodes, w)
                     ∧ node_name <$> nodes = names
  end.
Proof.
  intros H. destruct (setup_topology_net _ _ _ H) as [net Hnet].
  apply setup_topology_names in H as (Hsw & Hh & Hc & R).
  assert (emulation w = net) as En by (unfold emulation; by rewrite Hnet).
  unfold registry_ok in R. rewrite En in R.
  pose proof (comprehension_get net names R) as HC.
  assert (net_names net = (emulated_host_names cfg ++ ["nat0"])
                            ++ emulated_switch_names cfg ++ ["c0"]) as Hnn.
  { by rewrite <- En, net_names_emulation, Hsw, Hh, Hc. }
  rewrite Hnn in HC.
  erewrite (list_filter_iff _ (λ n, n ∉ (emulated_host_names cfg ++ ["nat0"])
                                       ++ emulated_switch_names cfg ++ ["c0"])).
  2: { intros n. repeat (rewrite elem_of_app || rewrite elem_of_cons
                          || rewrite elem_of_nil). tauto. }
  unfold _get_mininet_nodes, the_net. rewrite !bind_unfold. cbn [gets]. rewrite Hnet.
  cbn [attr lift].
  destruct (head _) as [n|].
  - by rewrite HC.
  - destruct HC as (nodes & -> & HC). by exists nodes.
Qed.

Lemma get_mininet_nodes_after_setup_witness :
  let cfg := Campus.config None 1 true in
  let out := Campus.surroundings 0 (Campus.view 4 9 5) (λ _, false) in
  let w := Campus.ready cfg out in
  let names := ["h1"; "a0"; "hs0"; "x0"; "nat0"; "c0"] in
  ∃ nodes, _get_mininet_nodes names w = (Ok nodes, w) ∧ node_name <$> nodes = names.
Proof.
  intros cfg out w names.
  apply (get_mininet_nodes_after_setup cfg (Campus.initial out) w names).
  vm_compute. reflexivity.
Defined.

(** *** The interfaces of the hosts *)

(** [setup_topology] that returns has gone through its loops. *)
Lemma setup_topology_stages cfg w w' :
  setup_topology cfg w = (Ok tt, w') ->
  ∃ w1 w2 w3 w4 w5,
    for_each (NetworkxSdnTopology.get_switches (topo cfg)) (add_switch cfg)
      (new_emulation w) = (Ok tt, w1)
    ∧ for_each (NetworkxSdnTopology.get_hosts (topo cfg)) (add_host cfg) w1 = (Ok tt, w2)
    ∧ for_each (NetworkxSdnTopology.get_servers (topo cfg)) (add_server cfg) w2
      = (Ok tt, w3)
    ∧ for_each (NetworkxSdnTopology.get_clouds (topo cfg)) (add_cloud cfg) w3 = (Ok tt, w4)
    ∧ for_each (NetworkxSdnTopology.get_links (topo cfg)) (add_link cfg) w4 = (Ok tt, w5)
    ∧ add_nat cfg w5 = (Ok tt, w').
Proof.
  rewrite setup_topology_unfold. unfold setup_topology_loops. intros H.
  apply bind_ok_inv in H as ([] & w1 & H1 & H).
  apply bind_ok_inv in H as ([] & w2 & H2 & H).
  apply bind_ok_inv in H as ([] & w3 & H3 & H).
  apply bind_ok_inv in H as ([] & w4 & H4 & H).
  apply bind_ok_inv in H as ([] & w5 & H5 & H).
  by exists w1, w2, w3, w4, w5.
Qed.

Lemma intfs_addLink_l n1 n2 tc net :
  Mininet.intfs n1 (Mininet.addLink n1 n2 tc net).2 ≠ [].
Proof.
  unfold Mininet.intfs. cbn. rewrite filter_app, filter_cons_True by (by left).
  by destruct (filter _ (Mininet.links net)).
Qed.

Lemma intfs_addLink_r n1 n2 tc net :
  Mininet.intfs n2 (Mininet.addLink n1 n2 tc net).2 ≠ [].
Proof.
  unfold Mininet.intfs. cbn. rewrite filter_app, filter_cons_True by (by right).
  by destruct (filter _ (Mininet.links net)).
Qed.

Ltac invert_all :=
  repeat match goal with
         | H : (_ ≫= _) _ = (Ok _, _) |- _ => invert_body H
         end.

(** The NAT is linked to the server: both have an interface. *)
Lemma add_nat_interfaces cfg w w' :
  add_nat cfg w = (Ok tt, w') ->
  ∃ net nat s,
    self_net w' = Some net ∧ self_nat w' = Some nat ∧ self_server w' = Some s
    ∧ Mininet.intfs nat net ≠ [] ∧ Mininet.intfs s net ≠ [].
Proof.
  intros H. unfold add_nat in H.
  apply bind_ok_inv in H as (server & w1 & H1 & H). apply gets_inv in H1 as [-> ->].
  destruct (self_server w) as [s|] eqn:Es.
  2: { invert_body H. discriminate. }
  invert_body H. invert_all. simplify_worlds w.
  eexists _, _, _. split_and!; try reflexivity.
  - apply intfs_addLink_l.
  - apply intfs_addLink_r.
Qed.

Lemma setup_topology_interfaces cfg w w' :
  setup_topology cfg w = (Ok tt, w') ->
  ∃ net nat s,
    self_net w' = Some net ∧ self_nat w' = Some nat ∧ self_server w' = Some s
    ∧ Mininet.intfs nat net ≠ [] ∧ Mininet.intfs s net ≠ [].
Proof.
  intros H. apply setup_topology_stages in H as (w1 & w2 & w3 & w4 & w5 & _ & _ & _ & _ & _ & H).
  by eapply add_nat_interfaces.
Qed.

(** The nodes that the emulation knows were made before the next one. *)
Lemma net_fresh_addHost name ip mac cls net :
  net_fresh net -> net_fresh (Mininet.addHost name ip mac cls net).2.
Proof.
  intros [Hreg Hlinks]. split; cbn.
  - intros n x Hx. apply lookup_insert_Some in Hx as [[<- <-]|[_ Hx]]; cbn; [lia|].
    specialize (Hreg _ _ Hx). lia.
  - intros l Hl. specialize (Hlinks l Hl). lia.
Qed.

Lemma net_fresh_addController name net :
  net_fresh net -> net_fresh (Mininet.addController name net).2.
Proof.
  intros [Hreg Hlinks]. split; cbn.
  - intros n x Hx. apply lookup_insert_Some in Hx as [[<- <-]|[_ Hx]]; cbn; [lia|].
    specialize (Hreg _ _ Hx). lia.
  - intros l Hl. specialize (Hlinks l Hl). lia.
Qed.

Lemma net_fresh_addSwitch name dpid net s net' :
  Mininet.addSwitch name dpid net = Ok (s, net') ->
  net_fresh net ->
  net_fresh net' ∧ node_id s = Mininet.next_id net
  ∧ Mininet.next_id net' = S (Mininet.next_id net).
Proof.
  unfold Mininet.addSwitch. destruct (Mininet.defaultDpid name dpid) as [d| |]; [|done..].
  intros [= <- <-] [Hreg Hlinks]. split; [|done]. split; cbn.
  - intros n x Hx. apply lookup_insert_Some in Hx as [[<- <-]|[_ Hx]]; cbn; [lia|].
    specialize (Hreg _ _ Hx). lia.
  - intros l Hl. specialize (Hlinks l Hl). lia.
Qed.

Lemma net_fresh_addLink n1 n2 tc net :
  (node_id n1 < Mininet.next_id net)%nat -> (node_id n2 < Mininet.next_id net)%nat ->
  net_fresh net -> net_fresh (Mininet.addLink n1 n2 tc net).2.
Proof.
  intros H1 H2 [Hreg Hlinks]. split; cbn; [done|].
  intros l Hl. apply elem_of_app in Hl as [Hl|Hl]; [by apply Hlinks|].
  apply list_elem_of_singleton in Hl as ->. done.
Qed.

Lemma net_fresh_empty : net_fresh Mininet.empty.
Proof.
  split; cbn.
  - intros n x Hx. by rewrite lookup_empty in Hx.
  - intros l Hl. by apply elem_of_nil in Hl.
Qed.

Lemma new_emulation_fresh w : fresh (new_emulation w).
Proof.
  unfold fresh, emulation, new_emulation. destruct w. cbn -[Mininet.addController].
  apply net_fresh_addController, net_fresh_empty.
Qed.

Lemma add_switch_fresh cfg switch w w' :
  fresh w -> add_switch cfg switch w = (Ok tt, w') -> fresh w'.
Proof.
  intros Hw H. unfold add_switch in H. cbv zeta in H.
  destruct (NetworkxSdnTopology.is_cloud_gateway (topo cfg) switch); invert_body H.
  all: match goal with H : Mininet.addSwitch _ _ _ = Ok _ |- _ =>
         pose proof (net_fresh_addSwitch _ _ _ _ _ H) as Hf end.
  all: unfold fresh in *; simplify_worlds w; by apply Hf.
Qed.

Lemma add_host_fresh cfg host w w' :
  fresh w -> add_host cfg host w = (Ok tt, w') -> fresh w'.
Proof.
  intros Hw H. unfold add_host in H.
  destruct (get_ip_mac_for_host cfg host) as [ip mac].
  invert_body H. unfold fresh in *. simplify_worlds w. by apply net_fresh_addHost.
Qed.

Lemma add_server_fresh cfg server w w' :
  fresh w -> add_server cfg server w = (Ok tt, w') -> fresh w' ∧ server_fresh w'.
Proof.
  intros Hw H. unfold add_server in H. cbv zeta in H.
  destruct (get_ip_mac_for_host cfg ("h" +:+ server)) as [ip mac].
  invert_body H.
  match goal with H : Mininet.addSwitch _ _ _ = Ok _ |- _ =>
    pose proof (net_fresh_addSwitch _ _ _ _ _ H) as Hf end.
  unfold fresh, server_fresh in *. simplify_worlds w.
  destruct (Hf Hw) as (Hf' & Hid & Hnext). split.
  - apply net_fresh_addLink; cbn; [lia|lia|]. by apply net_fresh_addHost.
  - eexists. split; [reflexivity|]. cbn. lia.
Qed.

(** A property that the body of a loop brings about holds after a loop
    that ran at least once. *)
Lemma for_each_establishes {X} (I P : world -> Prop) (body : X -> M unit) :
  (∀ x w w', I w -> body x w = (Ok tt, w') -> I w' ∧ P w') ->
  ∀ l w w', l ≠ [] -> I w -> for_each l body w = (Ok tt, w') -> I w' ∧ P w'.
Proof.
  intros Hbody. induction l as [|x l IH]; intros w w' Hl Hw H; [done|].
  cbn [for_each] in H. apply bind_ok_inv in H as ([] & w1 & H1 & H).
  destruct (Hbody _ _ _ Hw H1) as [Hw1 Hp1].
  destruct l as [|y l].
  - by apply mret_inv in H as [_ ->].
  - by apply (IH w1 w').
Qed.

(** Without [with_cloud], the first of the two hosts that the loop over
    the clouds makes for a cloud is bound to no name and is no end of a
    link. *)
Lemma add_cloud_unlinked cfg cloud w w' :
  with_cloud cfg = false ->
  fresh w -> server_fresh w ->
  add_cloud cfg cloud w = (Ok tt, w') ->
  ∃ d, node_name d = cloud ∧ unlinked d w'.
Proof.
  intros Hwc Hw (s & Hs & Hid) H. unfold add_cloud in H. rewrite Hwc in H.
  invert_body H. unfold fresh, unlinked in *. simplify_worlds w.
  destruct Hw as [Hreg Hlinks].
  repeat match goal with
         | |- context [mininet_auto_ip_mac cfg ?k] =>
             destruct (mininet_auto_ip_mac cfg k)
         end.
  cbn. eexists. split; [|split_and!].
  2: { apply elem_of_app. left. apply elem_of_app. right. by apply list_elem_of_singleton. }
  - done.
  - intros n x Hx. apply lookup_insert_Some in Hx as [[<- <-]|[Hne Hx]].
    + intros [=]. lia.
    + rewrite lookup_insert_ne in Hx by done. specialize (Hreg _ _ Hx).
      intros ->. cbn in Hreg. lia.
  - intros l Hl. specialize (Hlinks l Hl). split; intros E; rewrite E in Hlinks; cbn in Hlinks; lia.
  - intros [= ->]. cbn in Hid. lia.
  - cbn. lia.
Qed.

Lemma add_cloud_keeps_unlinked cfg cloud d w w' :
  with_cloud cfg = false ->
  unlinked d w -> add_cloud cfg cloud w = (Ok tt, w') -> unlinked d w'.
Proof.
  intros Hwc (Hin & Hreg & Hlinks & Hsrv & Hid) H. unfold add_cloud in H. rewrite Hwc in H.
  invert_body H. unfold unlinked in *. simplify_worlds w.
  repeat match goal with
         | |- context [mininet_auto_ip_mac cfg ?k] =>
             destruct (mininet_auto_ip_mac cfg k)
         end.
  cbn. split_and!.
  - apply elem_of_app. left. apply elem_of_app. by left.
  - intros n x Hx. apply lookup_insert_Some in Hx as [[<- <-]|[Hne Hx]].
    + intros <-. cbn in Hid. lia.
    + apply lookup_insert_Some in Hx as [[<- <-]|[Hne' Hx]].
      * intros <-. cbn in Hid. lia.
      * by eapply Hreg.
  - done.
  - done.
  - lia.
Qed.

Lemma add_link_keeps_unlinked cfg link d w w' :
  unlinked d w -> add_link cfg link w = (Ok tt, w') -> unlinked d w'.
Proof.
  intros (Hin & Hreg & Hlinks & Hsrv & Hid) H. unfold add_link in H. cbv zeta in H.
  invert_body H. unfold unlinked in *.
  repeat match goal with
         | H : Mininet.get ?n ?net = Ok ?x |- _ =>
             unfold Mininet.get in H;
             destruct (Mininet.nameToNode net !! n) eqn:?; [|discriminate H];
             injection H as ->
         end.
  simplify_worlds w. split_and!; try done.
  intros l Hl. apply elem_of_app in Hl as [Hl|Hl]; [by apply Hlinks|].
  apply list_elem_of_singleton in Hl as ->. cbn. split; by eapply Hreg.
Qed.

Lemma add_nat_keeps_unlinked cfg d w w' :
  unlinked d w -> add_nat cfg w = (Ok tt, w') ->
  d ∈ Mininet.hosts (emulation w')
  ∧ ∀ l, l ∈ Mininet.links (emulation w') -> link_node1 l ≠ d ∧ link_node2 l ≠ d.
Proof.
  intros (Hin & Hreg & Hlinks & Hsrv & Hid) H. unfold add_nat in H.
  apply bind_ok_inv in H as (server & w1 & H1 & H). apply gets_inv in H1 as [-> ->].
  destruct (self_server w) as [s|] eqn:Es.
  2: { invert_body H. discriminate. }
  invert_body H. invert_all. simplify_worlds w.
  destruct (mininet_auto_ip_mac cfg _) as [ip mac]. cbn. split.
  - apply elem_of_app. by left.
  - intros l Hl. apply elem_of_app in Hl as [Hl|Hl]; [by apply Hlinks|].
    apply list_elem_of_singleton in Hl as ->. cbn. split.
    + intros <-. cbn in Hid. lia.
    + intros ->. done.
Qed.

(** Without [with_cloud], [setup_topology] leaves a host without
    interface for the first cloud of the topology model. *)
Lemma setup_topology_unlinked cfg w w' cloud clouds :
  with_cloud cfg = false ->
  NetworkxSdnTopology.get_clouds (topo cfg) = cloud :: clouds ->
  NetworkxSdnTopology.get_servers (topo cfg) ≠ [] ->
  setup_topology cfg w = (Ok tt, w') ->
  ∃ d, node_name d = cloud ∧ d ∈ hosts_without_interface (emulation w').
Proof.
  intros Hwc Hcl Hsrv H.
  apply setup_topology_stages in H as (w1 & w2 & w3 & w4 & w5 & H1 & H2 & H3 & H4 & H5 & H6).
  pose proof (new_emulation_fresh w) as F0.
  pose proof (for_each_invariant fresh (add_switch cfg) (add_switch_fresh cfg) _ _ _ F0 H1)
    as F1.
  pose proof (for_each_invariant fresh (add_host cfg) (add_host_fresh cfg) _ _ _ F1 H2)
    as F2.
  destruct (for_each_establishes fresh server_fresh (add_server cfg)
              (add_server_fresh cfg) _ _ _ Hsrv F2 H3) as [F3 S3].
  rewrite Hcl in H4. cbn [for_each] in H4.
  apply bind_ok_inv in H4 as ([] & w3' & H4 & H4').
  destruct (add_cloud_unlinked cfg cloud _ _ Hwc F3 S3 H4) as (d & Hd & U).
  exists d. split; [done|].
  pose proof (for_each_invariant (unlinked d) (add_cloud cfg)
                (λ x w w', add_cloud_keeps_unlinked cfg x d w w' Hwc) _ _ _ U H4') as U4.
  pose proof (for_each_invariant (unlinked d) (add_link cfg)
                (λ x w w', add_link_keeps_unlinked cfg x d w w') _ _ _ U4 H5) as U5.
  destruct (add_nat_keeps_unlinked cfg d _ _ U5 H6) as [Hin Hlinks].
  unfold hosts_without_interface. apply list_elem_of_filter. split; [|done].
  unfold Mininet.intfs.
  destruct (filter _ _) as [|l ls] eqn:E; [done|].
  assert (l ∈ filter (λ l, link_node1 l = d ∨ link_node2 l = d)
                (Mininet.links (emulation w'))) as Hl by (rewrite E; by left).
  apply list_elem_of_filter in Hl as [Hl Hl']. destruct (Hlinks l Hl') as [N1 N2].
  by destruct Hl.
Qed.

(** ** Exact records of events *)

Section Performs.

Context (R : relation world) `{!PreOrder R}.

Lemma performs_ret {A} (a : A) w : performs R (mret a) w (Ok a) [].
Proof. exists w. by rewrite app_nil_r. Qed.

Lemma performs_raise {A} e w : performs R (@raise A e) w (Raise e) [].
Proof. exists w. by rewrite app_nil_r. Qed.

Lemma performs_lift {A} (x : result A) w : performs R (lift x) w x [].
Proof. exists w. by rewrite app_nil_r. Qed.

Lemma performs_gets {A} (f : world -> A) w : performs R (gets f) w (Ok (f w)) [].
Proof. exists w. by rewrite app_nil_r. Qed.

Lemma performs_bind {A B} (m : M A) (f : A -> M B) w a r e1 e2 :
  performs R m w (Ok a) e1 ->
  (∀ w1, R w w1 -> performs R (f a) w1 r e2) ->
  performs R (m ≫= f) w r (e1 ++ e2).
Proof.
  intros (w1 & H1 & T1 & R1) Hf. destruct (Hf w1 R1) as (w' & H2 & T2 & R2).
  exists w'. rewrite bind_unfold, H1. split_and!; [done| |by transitivity w1].
  by rewrite T2, T1, <- app_assoc.
Qed.

Lemma performs_bind_raise {A B} (m : M A) (f : A -> M B) w e evs :
  performs R m w (Raise e) evs -> performs R (m ≫= f) w (Raise e) evs.
Proof.
  intros (w' & H & T & R'). exists w'. by rewrite bind_unfold, H.
Qed.

Lemma performs_for_each {A} (l : list A) (body : A -> M unit)
    (f : A -> list event) w :
  (∀ x w1, R w w1 -> performs R (body x) w1 (Ok tt) (f x)) ->
  performs R (for_each l body) w (Ok tt) (l ≫= f).
Proof.
  revert w. induction l as [|x l IH]; intros w Hb; cbn [for_each].
  - apply performs_ret.
  - rewrite bind_cons. eapply performs_bind; [by apply Hb|].
    intros w1 R1. apply IH. intros y w2 R2. apply Hb. by transitivity w1.
Qed.

Lemma performs_eq {A} (m : M A) w r evs evs' :
  performs R m w r evs -> evs = evs' -> performs R m w r evs'.
Proof. by intros H <-. Qed.

End Performs.

Lemma performs_effect e w : performs same_emulation (effect e) w (Ok tt) [e].
Proof. eexists. split; [reflexivity|]. by destruct w. Qed.

Lemma performs_time_sleep secs w :
  0 <= secs -> performs same_emulation (time_sleep secs) w (Ok tt) [EvSleep secs].
Proof.
  intros Hs. unfold time_sleep. destruct (Z.ltb_spec secs 0); [lia|].
  eexists. split; [reflexivity|]. by destruct w.
Qed.

Lemma performs_the_net w net :
  self_net w = Some net -> performs same_emulation the_net w (Ok net) [].
Proof.
  intros H. exists w. unfold the_net. rewrite bind_unfold. cbn [gets]. rewrite H.
  split_and!; [done|by rewrite app_nil_r|done].
Qed.

Ltac performs_bind := eapply performs_bind; try apply _.

Ltac performs_eq := eapply performs_eq; try apply _.

Ltac performs_prim :=
  first [ apply performs_gets | apply performs_lift | apply performs_ret
        | apply performs_raise | apply performs_effect ]; try apply _.

(** A step that records nothing, before the rest. *)
Ltac performs_quiet tac :=
  match goal with
  | |- performs _ _ _ _ ?evs => rewrite <- (app_nil_l evs)
  end;
  performs_bind; [tac|].

Ltac performs_silent := performs_quiet performs_prim.

(** The world reached after one more step is related to the first world. *)
Ltac performs_next HR :=
  let w1 := fresh "w" in
  let R1 := fresh "R" in
  let H := fresh "HR" in
  intros w1 R1; pose proof (transitivity HR R1) as H; clear R1; clear HR; rename H into HR.


Lemma ping_loop_performs (hosts : list Node) w s :
  self_server w = Some s ->
  performs same_emulation
    (for_each hosts (λ h,
       server ← gets self_server;
       s ← lift (attr server);
       effect (EvPing [h; s]))) w (Ok tt) ((λ h, EvPing [h; s]) <$> hosts).
Proof.
  intros Hs.
  performs_eq; [|exact (bind_singleton_fmap (λ h, EvPing [h; s]) hosts)].
  apply performs_for_each; [apply _|]. intros h w1 (_&_&_&_&E1&_).
  performs_silent. intros w2 _. rewrite E1, Hs.
  performs_silent. intros w3 _. apply performs_effect.
Qed.

Lemma ping_hosts_no_cloud cfg hosts w s :
  ALL_PAIRS cfg = false -> self_server w = Some s -> self_cloud w = None ->
  performs same_emulation (ping_hosts cfg hosts) w
    (Raise (if decide (hosts = []) then ZeroDivisionError else AttributeError))
    ((λ h, EvPing [h; s]) <$> hosts).
Proof.
  intros Hall Hs Hc. unfold ping_hosts. rewrite Hall.
  destruct (decide (hosts = [])) as [E|E].
  - apply performs_bind_raise.
    performs_eq; [|apply app_nil_r].
    performs_bind; [by apply ping_loop_performs|].
    intros w1 _. performs_prim.
  - assert (same_emulation w w) as HR by reflexivity.
    performs_eq; [|apply app_nil_r].
    performs_bind; [|performs_next HR].
    + performs_eq; [|apply app_nil_r].
      performs_bind; [by apply ping_loop_performs|].
      intros w1 _. performs_prim.
    + performs_silent. pose proof HR as (_&_&_&_&->&_). rewrite Hs. performs_next HR.
      performs_silent. performs_next HR.
      performs_silent. pose proof HR as (_&_&_&_&_&->&_). rewrite Hc. performs_next HR.
      apply performs_bind_raise. performs_prim.
Qed.

(** Asking every host for its address raises [AttributeError] as soon as
    one of them has no interface. *)
Lemma hosts_IP_result net (hosts : list Node) :
  comprehension (λ host, Mininet.IP host net) hosts
  = if decide (filter (λ h, Mininet.intfs h net = []) hosts = [])
    then Ok (node_IP <$> hosts) else Raise AttributeError.
Proof.
  induction hosts as [|h hosts IH]; [done|]. cbn [comprehension]. unfold Mininet.IP at 1.
  destruct (Mininet.intfs h net) as [|l ls] eqn:E.
  - rewrite filter_cons_True by done. done.
  - rewrite filter_cons_False by (by rewrite E). rewrite IH.
    by destruct (decide (filter _ hosts = [])).
Qed.

(** The start of the network, up to the question to the hosts: the NAT
    and the server are linked to each other. *)
Lemma start_network_performs cfg w net nat s r evs :
  self_net w = Some net -> self_nat w = Some nat -> self_server w = Some s ->
  Mininet.intfs nat net ≠ [] -> Mininet.intfs s net ≠ [] ->
  (∀ w1, same_emulation w w1 ->
     performs same_emulation
       (lift (comprehension (λ host, Mininet.IP host net) (Mininet.hosts net));;
        ping_hosts cfg (emulated_hosts w)) w1 (Raise r) evs) ->
  performs same_emulation (start_network cfg) w (Raise r)
    ([EvNetStart; EvSleep 5; EvSetDefaultRoute]
       ++ ((λ ap, EvSetHostRoute ap.1) <$> mcast_pool cfg) ++ evs).
Proof.
  intros Hnet En Hs Hin His Hrest. unfold start_network.
  assert (same_emulation w w) as HR by reflexivity.
  performs_quiet ltac:(by apply performs_the_net). performs_next HR.
  change [EvNetStart; EvSleep 5; EvSetDefaultRoute]
    with ([EvNetStart] ++ [EvSleep 5] ++ [EvSetDefaultRoute]).
  rewrite <- !app_assoc.
  performs_bind; [performs_prim|]. performs_next HR.
  performs_bind; [by apply performs_time_sleep|]. performs_next HR.
  performs_silent. pose proof HR as (_&_&_&->&_). rewrite En. performs_next HR.
  performs_silent. performs_next HR.
  assert (Mininet.IP nat net = Ok (node_IP nat)) as ->.
  { unfold Mininet.IP. by destruct (Mininet.intfs nat net). }
  performs_silent. performs_next HR.
  performs_silent. pose proof HR as (_&_&_&_&->&_). rewrite Hs. performs_next HR.
  performs_silent. performs_next HR.
  destruct (Mininet.intfs s net) as [|l' ls'] eqn:El'; [done|].
  performs_silent. performs_next HR.
  performs_bind; [performs_prim|]. performs_next HR.
  performs_bind.
  { performs_eq; [|exact (bind_singleton_fmap (λ ap : string * Z, EvSetHostRoute ap.1) _)].
    apply performs_for_each; [apply _|]. intros ap wa _. apply performs_effect. }
  performs_next HR.
  replace (filter _ (Mininet.hosts net)) with (emulated_hosts w)
    by (unfold emulated_hosts; by rewrite Hnet, En).
  destruct (Hrest _ HR) as (w' & Hr & Ht & HR').
  exists w'. split_and!; [|done|done].
  rewrite bind_unfold in Hr. rewrite bind_unfold. cbn [lift] in Hr |- *.
  destruct (comprehension _ _) as [ips|e|].
  - by rewrite bind_unfold, Hr.
  - by injection Hr as -> ->.
  - discriminate Hr.
Qed.

(** A run stops at the start of the network when a host of the emulation
    has no interface. *)
Lemma run_stops_without_interface cfg fuel pubs subs fnodes flinks w net nat s :
  self_net w = Some net -> self_nat w = Some nat -> self_server w = Some s ->
  Mininet.intfs nat net ≠ [] -> Mininet.intfs s net ≠ [] ->
  hosts_without_interface net ≠ [] ->
  performs same_emulation (run_experiment cfg fuel pubs subs fnodes flinks) w
    (Raise AttributeError)
    ([EvNetStart; EvSleep 5; EvSetDefaultRoute]
       ++ ((λ ap, EvSetHostRoute ap.1) <$> mcast_pool cfg)).
Proof.
  intros Hnet En Hs Hin His Hno.
  unfold run_experiment, configure_experiment. do 2 apply performs_bind_raise.
  performs_eq.
  - eapply (start_network_performs cfg w net nat s AttributeError []); try done.
    intros w1 _. apply performs_bind_raise.
    rewrite hosts_IP_result. fold (hosts_without_interface net).
    destruct (decide (hosts_without_interface net = [])); [done|]. apply performs_lift. apply _.
  - by rewrite app_nil_r.
Qed.

(** X6: a run on a topology without a cloud, from an experiment that holds no
    cloud, fails before the wait for the controller unless [ALL_PAIRS]:
    the emulation is started and the routes of the server are set; when
    every host of the emulation has an interface, every host but the NAT
    is pinged with the server, and [AttributeError] is raised for the
    address of the cloud ([ZeroDivisionError] if there is no host to
    ping); when a host has no interface, [AttributeError] is raised for
    its address before any ping.  Nothing else is done: no ARP entry, no
    adapter, no flow rule, no process. *)
Theorem run_without_cloud_fails cfg fuel pubs subs fnodes flinks w0 w :
  ALL_PAIRS cfg = false ->
  NetworkxSdnTopology.get_clouds (topo cfg) = [] ->
  self_cloud w0 = None ->
  setup_topology cfg w0 = (Ok tt, w) ->
  ∃ s w',
    self_server w = Some s
    ∧ run_experiment cfg fuel pubs subs fnodes flinks w
      = (Raise (if decide (hosts_without_interface (emulation w) = []
                           ∧ emulated_hosts w = [])
                then ZeroDivisionError else AttributeError), w')
    ∧ trace w'
      = trace w ++ [EvNetStart; EvSleep 5; EvSetDefaultRoute]
          ++ ((λ ap, EvSetHostRoute ap.1) <$> mcast_pool cfg)
          ++ (if decide (hosts_without_interface (emulation w) = [])
              then (λ h, EvPing [h; s]) <$> emulated_hosts w else []).
Proof.
  intros Hall Hcl Hc0 H.
  destruct (setup_topology_interfaces _ _ _ H) as (net & nat & s & Hnet & En & Hs & Hin & His).
  apply setup_topology_ok_inv in H as (_ & _ & s' & _ & _ & _ & _ & _ & _ & Hc).
  rewrite Hcl, Hc0 in Hc. cbn in Hc.
  assert (self_cloud w = None) as Hcw by (by destruct (self_cloud w)).
  assert (emulation w = net) as Enet by (unfold emulation; by rewrite Hnet).
  rewrite Enet. exists s.
  destruct (decide (hosts_without_interface net = [])) as [Hall_intf|Hno].
  - enough (performs same_emulation (run_experiment cfg fuel pubs subs fnodes flinks) w
              (Raise (if decide (emulated_hosts w = []) then ZeroDivisionError
                      else AttributeError))
              ([EvNetStart; EvSleep 5; EvSetDefaultRoute]
                 ++ ((λ ap, EvSetHostRoute ap.1) <$> mcast_pool cfg)
                 ++ ((λ h, EvPing [h; s]) <$> emulated_hosts w)))
      as (w' & Hr & Ht & _).
    { exists w'. split; [done|]. split; [|done]. rewrite Hr. do 2 f_equal.
      destruct (decide (emulated_hosts w = [])).
      - by rewrite decide_True.
      - rewrite decide_False; [done|]. by intros [_ ?]. }
    unfold run_experiment, configure_experiment. do 2 apply performs_bind_raise.
    apply (start_network_performs cfg w net nat s); try done.
    intros w1 HR. rewrite hosts_IP_result. fold (hosts_without_interface net).
    rewrite decide_True by done.
    performs_silent. intros w2 HR2.
    pose proof (transitivity HR HR2) as (_&_&_&_&Es&Ec&_).
    apply ping_hosts_no_cloud; [done|by rewrite Es|by rewrite Ec].
  - destruct (run_stops_without_interface cfg fuel pubs subs fnodes flinks w net nat s
                Hnet En Hs Hin His Hno) as (w' & Hr & Ht & _).
    exists w'. split; [done|]. rewrite app_nil_r. split; [|done].
    rewrite Hr. do 2 f_equal. rewrite decide_False; [done|]. by intros [? _].
Qed.

Lemma run_without_cloud_fails_witness :
  let cfg := on_topology campus_without_cloud (Campus.config None 1 true) in
  let out := Campus.surroundings 0 (Campus.view 3 6 4) (λ _, false) in
  let w := (setup_topology cfg (Campus.initial out)).2 in
  ∃ s w',
    self_server w = Some s
    ∧ run_experiment cfg 10 (Campus.nodes w ["h1"]) (Campus.nodes w ["h2"]) [] [] w
      = (Raise (if decide (hosts_without_interface (emulation w) = []
                           ∧ emulated_hosts w = [])
                then ZeroDivisionError else AttributeError), w')
    ∧ trace w'
      = trace w ++ [EvNetStart; EvSleep 5; EvSetDefaultRoute]
          ++ ((λ ap, EvSetHostRoute ap.1) <$> mcast_pool cfg)
          ++ (if decide (hosts_without_interface (emulation w) = [])
              then (λ h, EvPing [h; s]) <$> emulated_hosts w else []).
Proof.
  intros cfg out w.
  apply (run_without_cloud_fails cfg 10 (Campus.nodes w ["h1"]) (Campus.nodes w ["h2"])
           [] [] (Campus.initial out) w).
  - reflexivity.
  - reflexivity.
  - reflexivity.
  - vm_compute. reflexivity.
Defined.

(** ** The cloud of an experiment without cloud switch, and the run *)

(** Without [with_cloud], the run that follows [setup_topology] on a
    topology with a cloud stops at the start of the network. *)
Lemma run_after_duplicate_cloud cfg fuel pubs subs fnodes flinks w0 w :
  with_cloud cfg = false ->
  NetworkxSdnTopology.get_clouds (topo cfg) ≠ [] ->
  NetworkxSdnTopology.get_servers (topo cfg) ≠ [] ->
  setup_topology cfg w0 = (Ok tt, w) ->
  performs same_emulation (run_experiment cfg fuel pubs subs fnodes flinks) w
    (Raise AttributeError)
    ([EvNetStart; EvSleep 5; EvSetDefaultRoute]
       ++ ((λ ap, EvSetHostRoute ap.1) <$> mcast_pool cfg)).
Proof.
  intros Hwc Hcl Hsrv H.
  destruct (setup_topology_interfaces _ _ _ H) as (net & nat & s & Hnet & En & Hs & Hin & His).
  destruct (NetworkxSdnTopology.get_clouds (topo cfg)) as [|cloud clouds] eqn:Ecl; [done|].
  destruct (setup_topology_unlinked cfg w0 w cloud clouds Hwc Ecl Hsrv H) as (d & _ & Hd).
  assert (emulation w = net) as Enet by (unfold emulation; by rewrite Hnet).
  rewrite Enet in Hd.
  apply (run_stops_without_interface cfg fuel pubs subs fnodes flinks w net nat s);
    try done.
  intros E. rewrite E in Hd. by apply elem_of_nil in Hd.
Qed.

(** X4: without [with_cloud], on a topology with a server and a cloud,
    [setup_topology] leaves a host without interface, the first of the
    two hosts that it names as the first cloud, and the run that follows
    stops when the network is started: once the routes of the server are
    set, every host is asked for its address and [AttributeError] is
    raised for a host without interface.  No host is pinged, no adapter
    is built and no process is started. *)
Theorem cloud_host_without_interface cfg fuel pubs subs fnodes flinks w0 w cloud clouds :
  with_cloud cfg = false ->
  NetworkxSdnTopology.get_clouds (topo cfg) = cloud :: clouds ->
  NetworkxSdnTopology.get_servers (topo cfg) ≠ [] ->
  setup_topology cfg w0 = (Ok tt, w) ->
  (∃ d, node_name d = cloud ∧ d ∈ hosts_without_interface (emulation w))
  ∧ ∃ w', run_experiment cfg fuel pubs subs fnodes flinks w = (Raise AttributeError, w')
          ∧ trace w'
            = trace w ++ [EvNetStart; EvSleep 5; EvSetDefaultRoute]
                ++ ((λ ap, EvSetHostRoute ap.1) <$> mcast_pool cfg).
Proof.
  intros Hwc Hcl Hsrv H. split.
  - by apply (setup_topology_unlinked cfg w0 w cloud clouds).
  - destruct (run_after_duplicate_cloud cfg fuel pubs subs fnodes flinks w0 w)
      as (w' & Hr & Ht & _); try done; [by rewrite Hcl|].
    by exists w'.
Qed.

Lemma cloud_host_without_interface_witness :
  let cfg := Campus.config None 1 false in
  let out := Campus.surroundings 2 (Campus.view 5 9 4) (λ _, false) in
  let w := Campus.ready cfg out in
  (∃ d, node_name d = "x0" ∧ d ∈ hosts_without_interface (emulation w))
  ∧ ∃ w', run_experiment cfg 10 (Campus.nodes w ["h1"]) (Campus.nodes w ["h2"])
            (Campus.nodes w ["a0"]) [("h1", "a0")] w = (Raise AttributeError, w')
          ∧ trace w'
            = trace w ++ [EvNetStart; EvSleep 5; EvSetDefaultRoute]
                ++ ((λ ap, EvSetHostRoute ap.1) <$> mcast_pool cfg).
Proof.
  intros cfg out w.
  apply (cloud_host_without_interface cfg 10 (Campus.nodes w ["h1"])
           (Campus.nodes w ["h2"]) (Campus.nodes w ["a0"]) [("h1", "a0")]
           (Campus.initial out) w "x0" []).
  - reflexivity.
  - reflexivity.
  - discriminate.
  - vm_compute. reflexivity.
Defined.

(** In the campus without [with_cloud], the host without interface is
    the first of the two hosts named [x0]; the cloud of the experiment,
    the second, has the two links of the topology model. *)
Example cloud_hosts_campus :
  let cfg := Campus.config None 1 false in
  let w := Campus.ready cfg (Campus.surroundings 0 (Campus.view 5 9 5) (λ _, false)) in
  let net := emulation w in
  (node_id <$> hosts_without_interface net) = [8%nat]
  ∧ (node_id <$> self_cloud w) = Some 9%nat
  ∧ ((λ c, length (Mininet.intfs c net)) <$> self_cloud w) = Some 2%nat.
Proof. split_and!; vm_compute; reflexivity. Qed.




(** In the campus whose switches are no cloud gateways, the set-up of the
    test returns and the four processes of the test are started before
    the [IndexError]. *)
Example index_error_after_launch :
  let cfg := on_topology campus_without_gateways (Campus.config None 1 true) in
  let out := Campus.surroundings 0 (Campus.view 4 9 5) (λ _, false) in
  let w := (setup_topology cfg (Campus.initial out)).2 in
  let run := run_experiment cfg 10 (Campus.nodes w ["h1"]) (Campus.nodes w ["h2"])
               [] [] w in
  self_cloud_gateways w = [] ∧ length (self_cloud_switches w) = 1%nat
  ∧ data_path_links w = Ok []
  ∧ run.1 = Raise IndexError
  ∧ (role_of <$> filter (λ e, starts_application e = true) (trace run.2))
    = [Some EdgeServer; Some CloudServer; Some (Client true false);
       Some (Client false true)]
  ∧ last (trace run.2) = Some (EvSleep 60).
Proof. split_and!; vm_compute; reflexivity. Qed.

(** ** The failure model: what is done, and when *)

Lemma performs_inv (R : relation world) {A} (m : M A) w r evs r0 w0 :
  performs R m w r evs -> m w = (r0, w0) ->
  r0 = r ∧ trace w0 = trace w ++ evs ∧ R w w0.
Proof. intros (w' & H & T & HR) H0. rewrite H in H0. by injection H0 as <- <-. Qed.

Lemma time_sleep_inv secs w w1 :
  time_sleep secs w = (Ok tt, w1) ->
  0 <= secs
  ∧ trace w1 = trace w ++ [EvSleep secs]
  ∧ clock w1 = clock w + secs + lag (outside w) (ticks w)
  ∧ same_emulation w w1.
Proof.
  unfold time_sleep. destruct (Z.ltb_spec secs 0); [done|].
  intros [= <-]. by destruct w.
Qed.

Lemma performs_configLinkStatus a b s w :
  is_Some (self_net w) ->
  performs same_emulation (configLinkStatus a b s) w (Ok tt) [EvConfigLinkStatus a b s].
Proof.
  intros [net Hnet]. unfold configLinkStatus. rewrite <- (app_nil_l [_]).
  performs_bind; [by apply performs_the_net|].
  intros w1 _. apply performs_effect.
Qed.

Lemma configLinkStatus_inv a b s w w1 :
  configLinkStatus a b s w = (Ok tt, w1) ->
  is_Some (self_net w)
  ∧ trace w1 = trace w ++ [EvConfigLinkStatus a b s]
  ∧ same_emulation w w1.
Proof.
  intros H. assert (is_Some (self_net w)) as Hnet.
  { unfold configLinkStatus in H. apply bind_ok_inv in H as (net & w0 & H & _).
    apply the_net_inv in H as [H _]. by eexists. }
  split; [done|].
  by destruct (performs_inv _ _ _ _ _ _ _ (performs_configLinkStatus a b s w Hnet) H)
    as (_ & ? & ?).
Qed.

Lemma performs_quake flinks (fnodes : list Node) w :
  is_Some (self_net w) ->
  performs same_emulation
    (for_each flinks (λ link : string * string, configLinkStatus link.1 link.2 down);;
     for_each fnodes (λ node, effect (EvStop node))) w (Ok tt)
    (quake_events flinks fnodes).
Proof.
  intros Hnet. unfold quake_events.
  performs_bind; [|intros w1 _].
  - performs_eq; [|exact (bind_singleton_fmap
      (λ link : string * string, EvConfigLinkStatus link.1 link.2 down) flinks)].
    apply performs_for_each; [apply _|]. intros link w1 (E & _).
    apply performs_configLinkStatus. by rewrite E.
  - performs_eq; [|exact (bind_singleton_fmap EvStop fnodes)].
    apply performs_for_each; [apply _|]. intros node w2 _. apply performs_effect.
Qed.

(** From the third change on, the changes are applied one after the
    other, and the time of the earthquake is kept; every change is
    recorded no earlier than its delay after the start. *)
Lemma apply_data_path_changes_later flinks fnodes changes :
  ∀ i out quake w res w',
  2 <= i ->
  apply_data_path_changes i changes flinks fnodes out quake w = (Ok res, w') ->
  trace w' = trace w ++ (changes ≫= change_events)
  ∧ res.2 = quake
  ∧ ∃ ts, res.1 = out ++ zip_with recorded changes ts
          ∧ length ts = length changes
          ∧ ((∀ k, 0 <= lag (outside w) k) ->
             Forall2 (λ c t, clock w + c.2 <= t) changes ts).
Proof.
  induction changes as [|[[[gw cs] st] delay] rest IH]; intros i out quake w res w' Hi H.
  - injection H as <- <-. rewrite !app_nil_r. split_and!; [done..|].
    exists []. by rewrite app_nil_r.
  - cbn [apply_data_path_changes] in H.
    apply bind_ok_inv in H as ([] & w1 & H1 & H).
    apply time_sleep_inv in H1 as (Hd & T1 & C1 & SE1).
    apply bind_ok_inv in H as (t & w1' & Ht & H). apply time_time_inv in Ht as [-> ->].
    apply bind_ok_inv in H as ([] & w2 & H2 & H).
    pose proof (configLinkStatus_not_earlier _ _ _ _ _ _ H2) as [O2 NE2].
    apply configLinkStatus_inv in H2 as (_ & T2 & _).
    destruct (decide (i = 1)) as [->|_]; [lia|].
    apply bind_ok_inv in H as (q & w3 & Hq & H). injection Hq as <- <-.
    apply IH in H as (T & -> & ts & Hres & Hlen & Hts); [|lia].
    destruct SE1 as (_&_&_&_&_&_&O1).
    split_and!; [|done|].
    + rewrite T, T2, T1, bind_cons. unfold change_events at 2. cbn.
      by rewrite <- !app_assoc.
    + exists (clock w1 :: ts). split_and!.
      * rewrite Hres. by rewrite <- app_assoc.
      * cbn. by rewrite Hlen.
      * intros Hlag. constructor.
        -- cbn. specialize (Hlag (ticks w)). lia.
        -- rewrite O2, O1 in Hts. specialize (Hts Hlag). rewrite O1 in NE2.
           specialize (NE2 Hlag). eapply Forall2_impl; [exact Hts|].
           intros c t Hc. cbn in Hc. specialize (Hlag (ticks w)). lia.
Qed.

(** The first two changes, the earthquake after the second, and the
    changes that follow. *)
Lemma apply_data_path_changes_quake flinks fnodes c0 c1 more w res w' :
  apply_data_path_changes 0 (c0 :: c1 :: more) flinks fnodes [] None w = (Ok res, w') ->
  trace w'
  = trace w ++ change_events c0 ++ change_events c1 ++ quake_events flinks fnodes
      ++ (more ≫= change_events)
  ∧ ∃ t0 t1 tq ts,
      res = (recorded c0 t0 :: recorded c1 t1 :: zip_with recorded more ts, Some tq)
      ∧ length ts = length more
      ∧ ((∀ k, 0 <= lag (outside w) k) ->
         clock w + c0.2 <= t0 ∧ t0 + c1.2 <= t1 ∧ t1 <= tq
         ∧ Forall2 (λ c t, tq + c.2 <= t) more ts).
Proof.
  destruct c0 as [[[gw0 cs0] st0] d0], c1 as [[[gw1 cs1] st1] d1]. intros H.
  cbn [apply_data_path_changes] in H.
  apply bind_ok_inv in H as ([] & w1 & H1 & H).
  apply time_sleep_inv in H1 as (_ & T1 & C1 & SE1).
  apply bind_ok_inv in H as (t & w1' & Ht & H). apply time_time_inv in Ht as [-> ->].
  apply bind_ok_inv in H as ([] & w2 & H2 & H).
  pose proof (configLinkStatus_not_earlier _ _ _ _ _ _ H2) as [O2 NE2].
  apply configLinkStatus_inv in H2 as (_ & T2 & _).
  destruct (decide (0 = 1)) as [?|_]; [lia|].
  apply bind_ok_inv in H as (q & w3 & Hq & H). injection Hq as <- <-.
  apply bind_ok_inv in H as ([] & w4 & H4 & H).
  apply time_sleep_inv in H4 as (_ & T4 & C4 & SE4).
  apply bind_ok_inv in H as (t & w4' & Ht & H). apply time_time_inv in Ht as [-> ->].
  apply bind_ok_inv in H as ([] & w5 & H5 & H).
  pose proof (configLinkStatus_not_earlier _ _ _ _ _ _ H5) as [O5 NE5].
  apply configLinkStatus_inv in H5 as (Hnet & T5 & (E5 & _)).
  change (0 + 1) with 1 in H.
  destruct (decide (1 = 1)) as [_|?]; [|lia].
  apply bind_ok_inv in H as (q & w6 & Hq & H).
  pose proof (quake_not_earlier 1 None flinks fnodes) as NE6.
  destruct (decide (1 = 1)) as [_|?]; [|lia].
  pose proof (NE6 _ _ _ Hq) as [O6 NE6'].
  apply bind_ok_inv in Hq as (now & w5' & Ht & Hq). apply time_time_inv in Ht as [-> ->].
  apply bind_ok_inv in Hq as ([] & wa & Ha & Hq).
  apply bind_ok_inv in Hq as ([] & wb & Hb & Hr). injection Hr as <- <-.
  assert ((for_each flinks (λ link : string * string, configLinkStatus link.1 link.2 down);;
           for_each fnodes (λ node, effect (EvStop node))) w5 = (Ok tt, wb)) as Hq
    by (by rewrite bind_unfold, Ha).
  assert (is_Some (self_net w5)) as Hnet5 by (by rewrite E5).
  destruct (performs_inv _ _ _ _ _ _ _ (performs_quake flinks fnodes w5 Hnet5) Hq)
    as (_ & T6 & _).
  apply apply_data_path_changes_later in H as (T & Hq2 & ts & Hres & Hlen & Hts); [|lia].
  destruct SE1 as (_&_&_&_&_&_&O1). destruct SE4 as (_&_&_&_&_&_&O4).
  split.
  { rewrite T, T6, T5, T4, T2, T1. unfold change_events. cbn. by rewrite <- !app_assoc. }
  exists (clock w1), (clock w4), (clock w5), ts. split_and!.
  - destruct res as [r1 r2]. cbn in Hres, Hq2. by rewrite Hres, Hq2.
  - done.
  - intros Hlag. cbn.
    assert (∀ k, 0 <= lag (outside w1) k) as L1 by (by rewrite O1).
    assert (∀ k, 0 <= lag (outside w2) k) as L2 by (by rewrite O2).
    assert (∀ k, 0 <= lag (outside w4) k) as L4 by (by rewrite O4).
    assert (∀ k, 0 <= lag (outside w5) k) as L5 by (by rewrite O5).
    assert (∀ k, 0 <= lag (outside wb) k) as L6 by (by rewrite O6).
    specialize (NE2 L1). specialize (NE5 L4). specialize (NE6' L5). specialize (Hts L6).
    pose proof (Hlag (ticks w)). pose proof (L2 (ticks w2)).
    split_and!; [lia..|].
    eapply Forall2_impl; [exact Hts|]. intros c t Hc. cbn in Hc. lia.
Qed.


(** A plan has at least two changes: the first is immediate, the others
    wait [TIME_BETWEEN_SEISMIC_EVENTS]. *)
Lemma plan_data_path_changes_inv cfg w planned :
  plan_data_path_changes cfg w = Ok planned ->
  ∃ c0 c1 more,
    planned = c0 :: c1 :: more
    ∧ c0.2 = 0
    ∧ Forall (λ c : planned_change, c.2 = TIME_BETWEEN_SEISMIC_EVENTS cfg) (c1 :: more).
Proof.
  unfold plan_data_path_changes. destruct (data_path_links w) as [links|e|]; [|done..].
  cbn. destruct (sorted links) as [|dp0 rest]; [done|]. cbn. intros [= <-].
  assert (Forall (λ c : planned_change, c.2 = TIME_BETWEEN_SEISMIC_EVENTS cfg)
            (((λ dpl : string * string,
                 (dpl.1, dpl.2, down, TIME_BETWEEN_SEISMIC_EVENTS cfg)) <$> rest)
             ++ [(dp0.1, dp0.2, up, TIME_BETWEEN_SEISMIC_EVENTS cfg)])) as F.
  { apply Forall_app_2; [|by repeat constructor]. by apply Forall_fmap, Forall_true. }
  destruct (_ ++ [_]) as [|c1 more] eqn:E; [by destruct rest|].
  by exists (dp0.1, dp0.2, down, 0), c1, more.
Qed.

(** The steps of the failure model of a run that returns. *)
Lemma failure_model_inv cfg pubs subs fnodes flinks w res w' :
  failure_model cfg pubs subs fnodes flinks w = (Ok res, w') ->
  ∃ w1 planned applied w2,
    time_sleep (SEISMIC_EVENT_DELAY cfg) w = (Ok tt, w1)
    ∧ plan_data_path_changes cfg w = Ok planned
    ∧ apply_data_path_changes 0 planned flinks fnodes [] None w1 = (Ok applied, w2)
    ∧ res = {| quake_start_time := applied.2; data_path_changes := applied.1;
               publishers := ip_name_dict pubs; subscribers := ip_name_dict subs |}
    ∧ (if 0 <? clock w + EXPERIMENT_DURATION cfg - clock w2
       then time_sleep (clock w + EXPERIMENT_DURATION cfg - clock w2) w2 = (Ok tt, w')
       else w' = w2).
Proof.
  intros H. unfold failure_model in H.
  apply bind_ok_inv in H as (t0 & w0 & Ht & H). apply time_time_inv in Ht as [-> ->].
  apply bind_ok_inv in H as ([] & w1 & H1 & H).
  pose proof (time_sleep_same_emulation _ _ _ _ H1) as SE.
  apply bind_ok_inv in H as (planned & w1' & Hp & H).
  injection Hp as Hp <-. rewrite (plan_same_emulation cfg w w1 SE) in Hp.
  apply bind_ok_inv in H as (applied & w2 & H2 & H).
  apply bind_ok_inv in H as (now & w2' & Ht & H). apply time_time_inv in Ht as [-> ->].
  apply bind_ok_inv in H as ([] & w3 & H3 & H). injection H as <- <-.
  exists w1, planned, applied, w2. split_and!; [done..|].
  destruct (0 <? _); [done|]. by injection H3.
Qed.

(** X7: in every run that returns, the failure model does this and nothing
    else: it waits [SEISMIC_EVENT_DELAY], applies the first two planned
    changes of the data paths (a wait, then the new status of the link),
    then applies the earthquake, once: the failed links are taken down,
    in order, and then the failed nodes are stopped, in order; then it
    applies the planned changes that are left, and sleeps for what is
    left of [EXPERIMENT_DURATION], if anything.  The result carries a
    time for the earthquake. *)
Theorem earthquake_after_second_change cfg pubs subs fnodes flinks w res w' :
  failure_model cfg pubs subs fnodes flinks w = (Ok res, w') ->
  ∃ c0 c1 more final,
    plan_data_path_changes cfg w = Ok (c0 :: c1 :: more)
    ∧ trace w'
      = trace w ++ [EvSleep (SEISMIC_EVENT_DELAY cfg)]
          ++ change_events c0 ++ change_events c1 ++ quake_events flinks fnodes
          ++ (more ≫= change_events) ++ final
    ∧ (final = [] ∨ ∃ remaining, 0 < remaining ∧ final = [EvSleep remaining])
    ∧ is_Some (quake_start_time res).
Proof.
  intros H. apply failure_model_inv in H as (w1 & planned & applied & w2 & H1 & Hp & H2 & -> & H3).
  destruct (plan_data_path_changes_inv _ _ _ Hp) as (c0 & c1 & more & -> & _).
  apply time_sleep_inv in H1 as (_ & T1 & _).
  apply apply_data_path_changes_quake in H2 as (T2 & t0 & t1 & tq & ts & -> & _).
  destruct (Z.ltb_spec 0 (clock w + EXPERIMENT_DURATION cfg - clock w2)) as [Hr|Hr].
  - apply time_sleep_inv in H3 as (_ & T3 & _).
    exists c0, c1, more, [EvSleep (clock w + EXPERIMENT_DURATION cfg - clock w2)].
    split_and!; [done| |right; by eexists|by eexists].
    rewrite T3, T2, T1. by rewrite <- !app_assoc.
  - subst w'. exists c0, c1, more, []. split_and!; [done| |by left|by eexists].
    rewrite T2, T1, app_nil_r. by rewrite <- !app_assoc.
Qed.

Lemma earthquake_after_second_change_witness :
  let cfg := Campus.config None 1 true in
  let w := Campus.ready cfg (Campus.surroundings 0 (Campus.view 4 9 5) (λ _, false)) in
  let run := failure_model cfg (Campus.nodes w ["h1"]) (Campus.nodes w ["h2"])
               (Campus.nodes w ["a0"]) [("h1", "a0")] w in
  let res := match run.1 with
             | Ok res => res
             | _ => {| quake_start_time := None; data_path_changes := [];
                       publishers := ∅; subscribers := ∅ |}
             end in
  ∃ c0 c1 more final,
    plan_data_path_changes cfg w = Ok (c0 :: c1 :: more)
    ∧ trace run.2
      = trace w ++ [EvSleep (SEISMIC_EVENT_DELAY cfg)]
          ++ change_events c0 ++ change_events c1
          ++ quake_events [("h1", "a0")] (Campus.nodes w ["a0"])
          ++ (more ≫= change_events) ++ final
    ∧ (final = [] ∨ ∃ remaining, 0 < remaining ∧ final = [EvSleep remaining])
    ∧ is_Some (quake_start_time res).
Proof.
  intros cfg w run res.
  apply (earthquake_after_second_change cfg (Campus.nodes w ["h1"]) (Campus.nodes w ["h2"])
           (Campus.nodes w ["a0"]) [("h1", "a0")] w res run.2).
  vm_compute. reflexivity.
Defined.

(** X8: when no operation takes less than its nominal time, the times of a
    run that returns are in this order: the first change of a data path
    is recorded no earlier than [SEISMIC_EVENT_DELAY] after the start of
    the failure model, the second no earlier than
    [TIME_BETWEEN_SEISMIC_EVENTS] after the first, the earthquake no
    earlier than the second change, and every later change no earlier than
    [TIME_BETWEEN_SEISMIC_EVENTS] after the earthquake. *)
Theorem earthquake_time cfg pubs subs fnodes flinks w res w' :
  (∀ k, 0 <= lag (outside w) k) ->
  failure_model cfg pubs subs fnodes flinks w = (Ok res, w') ->
  ∃ t0 t1 tq later,
    (data_path_changes res).*2 = t0 :: t1 :: later
    ∧ quake_start_time res = Some tq
    ∧ clock w + SEISMIC_EVENT_DELAY cfg <= t0
    ∧ t0 + TIME_BETWEEN_SEISMIC_EVENTS cfg <= t1
    ∧ t1 <= tq
    ∧ Forall (λ t, tq + TIME_BETWEEN_SEISMIC_EVENTS cfg <= t) later.
Proof.
  intros Hlag H.
  apply failure_model_inv in H as (w1 & planned & applied & w2 & H1 & Hp & H2 & -> & _).
  destruct (plan_data_path_changes_inv _ _ _ Hp) as (c0 & c1 & more & -> & D0 & Dm).
  apply Forall_cons in Dm as [D1 Dm].
  apply time_sleep_inv in H1 as (_ & _ & C1 & (_&_&_&_&_&_&O1)).
  apply apply_data_path_changes_quake in H2 as (_ & t0 & t1 & tq & ts & -> & Hlen & Ht).
  destruct Ht as (L0 & L1 & Lq & Lm); [by rewrite O1|].
  exists t0, t1, tq, ts. cbn. split_and!.
  - do 2 f_equal. revert ts Hlen Lm. clear. induction more as [|c more IH]; intros [|t ts] Hlen Lm;
      try done. cbn. f_equal. apply IH; [by injection Hlen|by inversion Lm].
  - done.
  - specialize (Hlag (ticks w)). lia.
  - lia.
  - done.
  - clear -Lm Dm. induction Lm as [|c t more ts Hc Lm IH]; [done|].
    apply Forall_cons in Dm as [Dc Dm]. constructor; [lia|by apply IH].
Qed.

Lemma earthquake_time_witness :
  let cfg := Campus.config None 1 true in
  let w := Campus.ready cfg (Campus.surroundings 0 (Campus.view 4 9 5) (λ _, false)) in
  let run := failure_model cfg (Campus.nodes w ["h1"]) (Campus.nodes w ["h2"])
               (Campus.nodes w ["a0"]) [("h1", "a0")] w in
  let res := match run.1 with
             | Ok res => res
             | _ => {| quake_start_time := None; data_path_changes := [];
                       publishers := ∅; subscribers := ∅ |}
             end in
  ∃ t0 t1 tq later,
    (data_path_changes res).*2 = t0 :: t1 :: later
    ∧ quake_start_time res = Some tq
    ∧ clock w + SEISMIC_EVENT_DELAY cfg <= t0
    ∧ t0 + TIME_BETWEEN_SEISMIC_EVENTS cfg <= t1
    ∧ t1 <= tq
    ∧ Forall (λ t, tq + TIME_BETWEEN_SEISMIC_EVENTS cfg <= t) later.
Proof.
  intros cfg w run res.
  apply (earthquake_time cfg (Campus.nodes w ["h1"]) (Campus.nodes w ["h2"])
           (Campus.nodes w ["a0"]) [("h1", "a0")] w res run.2).
  - intros k. replace (outside w) with
      (Campus.surroundings 0 (Campus.view 4 9 5) (λ _, false))
      by (vm_compute; reflexivity).
    cbn. lia.
  - vm_compute. reflexivity.
Defined.

(** X9: when no operation takes less than its nominal time, the failure model
    of a run that returns lasts [EXPERIMENT_DURATION] at least, however
    long the changes of the data paths and the earthquake took. *)
Theorem experiment_lasts_its_duration cfg pubs subs fnodes flinks w res w' :
  (∀ k, 0 <= lag (outside w) k) ->
  failure_model cfg pubs subs fnodes flinks w = (Ok res, w') ->
  clock w + EXPERIMENT_DURATION cfg <= clock w'.
Proof.
  intros Hlag H.
  apply failure_model_inv in H as (w1 & planned & applied & w2 & H1 & Hp & H2 & -> & H3).
  apply time_sleep_inv in H1 as (_ & _ & _ & (_&_&_&_&_&_&O1)).
  apply apply_data_path_changes_spec in H2 as (_ & _ & _ & _ & _ & O2 & _);
    [|by rewrite O1].
  destruct (Z.ltb_spec 0 (clock w + EXPERIMENT_DURATION cfg - clock w2)) as [Hr|Hr].
  - apply time_sleep_inv in H3 as (_ & _ & C3 & _).
    assert (0 <= lag (outside w2) (ticks w2)) by (rewrite O2, O1; apply Hlag). lia.
  - subst w'. lia.
Qed.

Lemma experiment_lasts_its_duration_witness :
  let cfg := Campus.config None 1 true in
  let w := Campus.ready cfg (Campus.surroundings 0 (Campus.view 4 9 5) (λ _, false)) in
  let run := failure_model cfg (Campus.nodes w ["h1"]) (Campus.nodes w ["h2"])
               (Campus.nodes w ["a0"]) [("h1", "a0")] w in
  clock w + EXPERIMENT_DURATION cfg <= clock run.2.
Proof.
  intros cfg w run.
  apply (experiment_lasts_its_duration cfg (Campus.nodes w ["h1"]) (Campus.nodes w ["h2"])
           (Campus.nodes w ["a0"]) [("h1", "a0")] w
           match run.1 with
           | Ok res => res
           | _ => {| quake_start_time := None; data_path_changes := [];
                     publishers := ∅; subscribers := ∅ |}
           end run.2).
  - intros k. replace (outside w) with
      (Campus.surroundings 0 (Campus.view 4 9 5) (λ _, false))
      by (vm_compute; reflexivity).
    cbn. lia.
  - vm_compute. reflexivity.
Defined.

(** ** The traffic generators *)

Lemma iperf_step cfg s (n : Z) (g : Node) w :
  self_server w = Some s ->
  ∃ w',
    (lift (attr (Some s));;
     effect (EvIperfClient g (IPERF_BASE_PORT cfg + n));;
     modify (λ w, set_self_client_iperfs
                    (self_client_iperfs w ++ [IPERF_BASE_PORT cfg + n]) w);;
     effect (EvIperfServer (IPERF_BASE_PORT cfg + n));;
     modify (λ w, set_self_server_iperfs
                    (self_server_iperfs w ++ [IPERF_BASE_PORT cfg + n]) w)) w
    = (Ok tt, w')
    ∧ trace w'
      = trace w ++ [EvIperfClient g (IPERF_BASE_PORT cfg + n);
                    EvIperfServer (IPERF_BASE_PORT cfg + n)]
    ∧ self_client_iperfs w' = self_client_iperfs w ++ [IPERF_BASE_PORT cfg + n]
    ∧ self_server_iperfs w' = self_server_iperfs w ++ [IPERF_BASE_PORT cfg + n]
    ∧ self_popens w' = self_popens w
    ∧ same_emulation w w'.
Proof.
  intros Hs. eexists. split; [reflexivity|]. destruct w. cbn.
  rewrite <- !app_assoc. by repeat split.
Qed.

Lemma iperf_loop cfg s (l : list (Z * Node)) w :
  self_server w = Some s ->
  ∃ w',
    for_each l (λ '(n, g),
      lift (attr (Some s));;
      effect (EvIperfClient g (IPERF_BASE_PORT cfg + n));;
      modify (λ w, set_self_client_iperfs
                     (self_client_iperfs w ++ [IPERF_BASE_PORT cfg + n]) w);;
      effect (EvIperfServer (IPERF_BASE_PORT cfg + n));;
      modify (λ w, set_self_server_iperfs
                     (self_server_iperfs w ++ [IPERF_BASE_PORT cfg + n]) w)) w
    = (Ok tt, w')
    ∧ trace w'
      = trace w ++ (l ≫= λ ng, [EvIperfClient ng.2 (IPERF_BASE_PORT cfg + ng.1);
                                EvIperfServer (IPERF_BASE_PORT cfg + ng.1)])
    ∧ self_client_iperfs w'
      = self_client_iperfs w ++ ((λ ng, IPERF_BASE_PORT cfg + ng.1) <$> l)
    ∧ self_server_iperfs w'
      = self_server_iperfs w ++ ((λ ng, IPERF_BASE_PORT cfg + ng.1) <$> l)
    ∧ self_popens w' = self_popens w
    ∧ same_emulation w w'.
Proof.
  revert w. induction l as [|[n g] l IH]; intros w Hs.
  - exists w. cbn. by rewrite !app_nil_r.
  - cbn [for_each]. rewrite bind_unfold.
    destruct (iperf_step cfg s n g w Hs) as (w1 & -> & T1 & C1 & S1 & P1 & SE1).
    destruct (IH w1) as (w' & -> & T & C & S & P & SE).
    { destruct SE1 as (_&_&_&_&->&_). done. }
    exists w'. split; [done|]. rewrite T, C, S, P, T1, C1, S1, P1, bind_cons.
    cbn. rewrite <- !app_assoc. split_and!; [done..|]. by transitivity w1.
Qed.

Lemma zip_seqZ_fst {A} (f : Z -> Z) (l : list A) :
  (λ ng : Z * A, f ng.1) <$> zip (seqZ 0 (Z.of_nat (length l))) l
  = f <$> seqZ 0 (Z.of_nat (length l)).
Proof.
  change (λ ng : Z * A, f ng.1) with (f ∘ (fst : Z * A -> Z)).
  rewrite list_fmap_compose. f_equal. apply fst_zip.
  by rewrite length_seqZ, Nat2Z.id.
Qed.

(** X10: [setup_traffic_generators], when the hosts drawn are nodes of the
    emulation: with a server, it returns after starting, for the [n]-th
    generator (from 0), an iperf client on the generator and then an
    iperf server, both on the port [IPERF_BASE_PORT + n]; the ports are
    appended in that order to [self.client_iperfs] and to
    [self.server_iperfs], no two generators share a port, and nothing
    else of the experiment changes.  Without a server it raises
    [AttributeError] before anything is started, unless no host was
    drawn. *)
Theorem traffic_generators_ports cfg w generators :
  _get_mininet_nodes (random_hosts (outside w)) w = (Ok generators, w) ->
  let ports := (λ n, IPERF_BASE_PORT cfg + n) <$> seqZ 0 (Z.of_nat (length generators)) in
  NoDup ports
  ∧ (is_Some (self_server w) ∨ generators = [] ->
     ∃ w',
       setup_traffic_generators cfg w = (Ok tt, w')
       ∧ trace w'
         = trace w ++ (zip generators ports
                         ≫= λ gp, [EvIperfClient gp.1 gp.2; EvIperfServer gp.2])
       ∧ self_client_iperfs w' = self_client_iperfs w ++ ports
       ∧ self_server_iperfs w' = self_server_iperfs w ++ ports
       ∧ self_popens w' = self_popens w
       ∧ same_emulation w w')
  ∧ (self_server w = None -> generators ≠ [] ->
     setup_traffic_generators cfg w = (Raise AttributeError, w)).
Proof.
  intros Hg ports. split_and!.
  - apply NoDup_fmap_2_strong; [|apply NoDup_seqZ]. intros ????; lia.
  - intros Hs. unfold setup_traffic_generators.
    rewrite bind_unfold. cbn [gets]. rewrite bind_unfold, Hg.
    rewrite bind_unfold. cbn [gets]. unfold enumerate.
    destruct Hs as [[s Hs]| ->].
    + rewrite Hs. destruct (iperf_loop cfg s (zip (seqZ 0 (Z.of_nat (length generators)))
                                                generators) w Hs)
        as (w' & E & T & C & S & P & SE).
      exists w'. split.
      { rewrite <- E. f_equal. }
      rewrite T, C, S, P, !zip_seqZ_fst. fold ports. split_and!; [|done..].
      f_equal. clear. unfold ports. generalize 0.
      induction generators as [|g gs IH]; intros z; [done|].
      cbn [length]. rewrite Nat2Z.inj_succ, seqZ_cons by lia.
      cbn. do 2 f_equal. replace (Z.pred (Z.succ (Z.of_nat (length gs))))
        with (Z.of_nat (length gs)) by lia. apply IH.
    + exists w. cbn. by rewrite !app_nil_r.
  - intros Hs Hne. unfold setup_traffic_generators.
    rewrite bind_unfold. cbn [gets]. rewrite bind_unfold, Hg.
    rewrite bind_unfold. cbn [gets]. rewrite Hs. destruct generators as [|g gs]; [done|].
    unfold enumerate. cbn [length]. rewrite Nat2Z.inj_succ, seqZ_cons by lia. done.
Qed.

Lemma traffic_generators_ports_witness :
  let cfg := Campus.config None 1 true in
  let out := {| lag := λ n, Z.of_nat (n mod 2);
                controller_view := λ _, Campus.view 4 9 5;
                install_result := λ _, true;
                random_hosts := ["h2"; "h1"] |} in
  let w := Campus.ready cfg out in
  let generators := Campus.nodes w ["h2"; "h1"] in
  let ports := (λ n, IPERF_BASE_PORT cfg + n) <$> seqZ 0 (Z.of_nat (length generators)) in
  NoDup ports
  ∧ (is_Some (self_server w) ∨ generators = [] ->
     ∃ w',
       setup_traffic_generators cfg w = (Ok tt, w')
       ∧ trace w'
         = trace w ++ (zip generators ports
                         ≫= λ gp, [EvIperfClient gp.1 gp.2; EvIperfServer gp.2])
       ∧ self_client_iperfs w' = self_client_iperfs w ++ ports
       ∧ self_server_iperfs w' = self_server_iperfs w ++ ports
       ∧ self_popens w' = self_popens w
       ∧ same_emulation w w')
  ∧ (self_server w = None -> generators ≠ [] ->
     setup_traffic_generators cfg w = (Raise AttributeError, w)).
Proof.
  intros cfg out w generators.
  apply (traffic_generators_ports cfg w generators).
  vm_compute. reflexivity.
Defined.

(** ** The processes of the seismic test *)

#[global] Instance keeps_processes_preorder : PreOrder keeps_processes.
Proof.
  split.
  - by intros w.
  - intros w1 w2 w3 [P1 E1] [P2 E2]. split; [by rewrite P2|by transitivity w2].
Qed.

Ltac keeps_processes_prim := by repeat split.

Lemma comparison_routes_keeps_processes cfg subs :
  respects keeps_processes (comparison_routes cfg subs).
Proof.
  unfold comparison_routes, install_unicast_route.
  respects_auto keeps_processes_prim.
Qed.

Lemma ride_c_probe_routes_keeps_processes cfg server :
  respects keeps_processes (ride_c_probe_routes cfg server).
Proof.
  unfold ride_c_probe_routes, install_probe_routes.
  respects_auto keeps_processes_prim.
Qed.

Lemma cloud_gateway_routes_keeps_processes cfg subs :
  respects keeps_processes (cloud_gateway_routes cfg subs).
Proof.
  unfold cloud_gateway_routes, install_gateway_route.
  respects_auto keeps_processes_prim.
Qed.

(** What the computation of [H] respects relates its two worlds. *)
Ltac by_respects R H :=
  match type of H with
  | ?m ?w = (?r, ?w') =>
      let Hm := fresh "Hm" in
      enough (respects R m) as Hm by exact (Hm _ _ _ H)
  end.

Lemma popen_inv host r w w' :
  popen host r w = (Ok tt, w') ->
  self_popens w' = self_popens w ++ [(host, r)]
  ∧ trace w' = trace w ++ [EvPopen host r]
  ∧ same_emulation w w'.
Proof. intros [= <-]. by destruct w. Qed.

Lemma launch_clients_spec sensors subscribers w :
  ∃ w',
    launch_clients sensors subscribers w = (Ok tt, w')
    ∧ self_popens w'
      = self_popens w
          ++ (client_process sensors subscribers <$> remove_dups (sensors ++ subscribers))
    ∧ trace w'
      = trace w
          ++ ((λ c, EvPopen c (client_process sensors subscribers c).2)
                <$> remove_dups (sensors ++ subscribers))
    ∧ same_emulation w w'.
Proof.
  unfold launch_clients. generalize (remove_dups (sensors ++ subscribers)). intros l.
  revert w. induction l as [|c l IH]; intros w.
  - exists w. cbn. by rewrite !app_nil_r.
  - cbn [for_each]. rewrite bind_unfold.
    destruct (popen c (Client (bool_decide (c ∈ sensors)) (bool_decide (c ∈ subscribers))) w)
      as [[[]|e|] w1] eqn:E; [|done..].
    apply popen_inv in E as (P1 & T1 & SE1).
    destruct (IH w1) as (w' & -> & P & T & SE). exists w'. split; [done|].
    rewrite P, T, P1, T1. cbn. rewrite <- !app_assoc. split_and!; [done..|].
    by transitivity w1.
Qed.

(** X11: the processes of a seismic test that returns: the experiment holds,
    after those it held, the process of the edge server on the server,
    then with [with_cloud] the process of the cloud server on the cloud,
    then one process per client: every sensor and every subscriber has
    exactly one, a node that is both has one that is both, and no other
    node has any. *)
Theorem seismic_test_processes cfg sensors subscribers server w w' :
  setup_seismic_test cfg sensors subscribers server w = (Ok tt, w') ->
  ∃ srv clients,
    server = Some srv
    ∧ self_popens w'
      = self_popens w ++ [(srv, EdgeServer)]
          ++ (if with_cloud cfg
              then (λ c, (c, CloudServer)) <$> option_list (self_cloud w)
              else [])
          ++ (client_process sensors subscribers <$> clients)
    ∧ (with_cloud cfg = true -> is_Some (self_cloud w))
    ∧ NoDup clients
    ∧ ∀ c, c ∈ clients <-> c ∈ sensors ∨ c ∈ subscribers.
Proof.
  intros H. unfold setup_seismic_test in H.
  apply bind_ok_inv in H as (srv & w0 & H0 & H). apply lift_inv in H0 as [H0 ->].
  destruct server as [srv'|]; [|done]. injection H0 as ->.
  exists srv, (remove_dups (sensors ++ subscribers)). split; [done|].
  apply bind_ok_inv in H as ([] & w1 & H1 & H).
  assert (w1 = w) as -> by (by destruct (decide _); injection H1).
  clear H1.
  apply bind_ok_inv in H as ([] & w1 & H1 & H).
  apply comparison_routes_keeps_processes in H1 as K1.
  apply bind_ok_inv in H as ([] & w2 & H2 & H).
  assert (keeps_processes w1 w2) as K2.
  { by_respects keeps_processes H2.
    destruct (with_ride_d cfg); respects_auto keeps_processes_prim. }
  apply bind_ok_inv in H as ([] & w3 & H3 & H).
  assert (keeps_processes w2 w3) as K3.
  { by_respects keeps_processes H3. destruct (with_ride_c cfg);
      [apply ride_c_probe_routes_keeps_processes|respects_auto keeps_processes_prim]. }
  apply bind_ok_inv in H as ([] & w4 & H4 & H).
  apply popen_inv in H4 as (P4 & _ & SE4).
  assert (keeps_processes w w3) as [P3 SE3] by (do 2 (etransitivity; [eassumption|]); done).
  apply bind_ok_inv in H as ([] & w5 & H5 & H).
  apply bind_ok_inv in H as ([] & w6 & H6 & H).
  apply cloud_gateway_routes_keeps_processes in H6 as [P6 _].
  destruct (launch_clients_spec sensors subscribers w6) as (w7 & E7 & P7 & _).
  rewrite E7 in H. injection H as <-.
  assert (self_cloud w4 = self_cloud w) as Ec.
  { destruct SE4 as (_&_&_&_&_&->&_). by destruct SE3 as (_&_&_&_&_&->&_). }
  assert (self_popens w5
          = self_popens w4 ++ (if with_cloud cfg
                               then (λ c, (c, CloudServer)) <$> option_list (self_cloud w)
                               else [])
          ∧ (with_cloud cfg = true -> is_Some (self_cloud w))) as [P5 Hc].
  { destruct (with_cloud cfg).
    - apply bind_ok_inv in H5 as ([] & w4' & Ha & H5).
      assert (keeps_processes w4 w4') as [Pa (_&_&_&_&_&Eca&_)].
      { by_respects keeps_processes Ha.
        destruct (with_ride_d cfg); respects_auto keeps_processes_prim. }
      apply bind_ok_inv in H5 as (cloud & w4'' & Hg & H5). apply gets_inv in Hg as [-> ->].
      apply bind_ok_inv in H5 as (c & w4'' & Hl & H5). apply lift_inv in Hl as [Hl ->].
      rewrite Eca, Ec in Hl. destruct (self_cloud w) as [c'|]; [|done].
      injection Hl as ->. apply popen_inv in H5 as (P5 & _).
      split; [by rewrite P5, Pa|by eexists].
    - injection H5 as <-. by rewrite app_nil_r. }
  split_and!.
  - rewrite P7, P6, P5, P4, P3. by rewrite <- !app_assoc.
  - done.
  - apply NoDup_remove_dups.
  - intros c. by rewrite elem_of_remove_dups, elem_of_app.
Qed.

Lemma seismic_test_processes_witness :
  let cfg := Campus.config None 1 true in
  let w := Campus.converged cfg
             (Campus.surroundings 0 (Campus.view 4 9 5) (λ _, false)) in
  let sensors := Campus.nodes w ["h1"; "h2"] in
  let subscribers := Campus.nodes w ["h2"] in
  let w' := (setup_seismic_test cfg sensors subscribers (self_server w) w).2 in
  ∃ srv clients,
    self_server w = Some srv
    ∧ self_popens w'
      = self_popens w ++ [(srv, EdgeServer)]
          ++ (if with_cloud cfg
              then (λ c, (c, CloudServer)) <$> option_list (self_cloud w)
              else [])
          ++ (client_process sensors subscribers <$> clients)
    ∧ (with_cloud cfg = true -> is_Some (self_cloud w))
    ∧ NoDup clients
    ∧ ∀ c, c ∈ clients <-> c ∈ sensors ∨ c ∈ subscribers.
Proof.
  intros cfg w sensors subscribers w'.
  apply (seismic_test_processes cfg sensors subscribers (self_server w) w w').
  vm_compute. reflexivity.
Defined.

(** ** The publishers and the subscribers of the result *)

Lemma ip_name_dict_snoc nodes p :
  ip_name_dict (nodes ++ [p]) = <[node_IP p := node_name p]> (ip_name_dict nodes).
Proof. unfold ip_name_dict. by rewrite foldl_app. Qed.

Lemma ip_name_dict_lookup (nodes : list Node) (ip : string) :
  ip_name_dict nodes !! ip = node_name <$> last (filter (λ p, node_IP p = ip) nodes).
Proof.
  induction nodes as [|p nodes IH] using rev_ind; [done|].
  rewrite ip_name_dict_snoc, filter_app.
  destruct (decide (node_IP p = ip)) as [<-|Hne].
  - rewrite lookup_insert_eq, filter_cons_True by done.
    by rewrite filter_nil, last_snoc.
  - rewrite lookup_insert_ne, filter_cons_False by done.
    by rewrite filter_nil, app_nil_r.
Qed.

Lemma ip_name_dict_complete (nodes : list Node) :
  NoDup (node_IP <$> nodes) ->
  size (ip_name_dict nodes) = length nodes
  ∧ ∀ p, p ∈ nodes -> ip_name_dict nodes !! node_IP p = Some (node_name p).
Proof.
  induction nodes as [|p nodes IH] using rev_ind.
  { intros _. split; [done|]. intros p Hp. by apply elem_of_nil in Hp. }
  rewrite fmap_app, ip_name_dict_snoc. intros Hnd.
  apply NoDup_app in Hnd as (Hnd & Hnin & _). destruct (IH Hnd) as [Hsize Hall].
  assert (ip_name_dict nodes !! node_IP p = None) as Hfresh.
  { rewrite ip_name_dict_lookup.
    destruct (filter _ nodes) as [|q l] eqn:E; [done|].
    assert (q ∈ filter (λ q, node_IP q = node_IP p) nodes) as Hq by (rewrite E; left).
    apply list_elem_of_filter in Hq as [Hq1 Hq2].
    destruct (Hnin (node_IP p)); [|by left].
    rewrite <- Hq1. by apply list_elem_of_fmap_2. }
  split.
  - rewrite map_size_insert_None by done. rewrite length_app, Hsize. cbn. lia.
  - intros q Hq. apply elem_of_app in Hq as [Hq|Hq].
    + rewrite lookup_insert_ne; [by apply Hall|]. intros E.
      apply (Hnin (node_IP q)); [by apply list_elem_of_fmap_2|]. rewrite <- E. by left.
    + apply list_elem_of_singleton in Hq as ->. by rewrite lookup_insert_eq.
Qed.

(** X12: the publishers and the subscribers in the result of a run that
    returns: an address is bound to the name of the last node of the list
    that has it, and an address of no node is not bound.  So when the
    addresses of the publishers are pairwise distinct every publisher is
    reported under its address, and of several publishers with one
    address only the last is; likewise for the subscribers. *)
Theorem result_reports_last_node_per_address cfg pubs subs fnodes flinks w res w' :
  failure_model cfg pubs subs fnodes flinks w = (Ok res, w') ->
  (∀ ip, publishers res !! ip
         = node_name <$> last (filter (λ p, node_IP p = ip) pubs))
  ∧ (∀ ip, subscribers res !! ip
           = node_name <$> last (filter (λ p, node_IP p = ip) subs))
  ∧ (NoDup (node_IP <$> pubs) ->
     size (publishers res) = length pubs
     ∧ ∀ p, p ∈ pubs -> publishers res !! node_IP p = Some (node_name p))
  ∧ (NoDup (node_IP <$> subs) ->
     size (subscribers res) = length subs
     ∧ ∀ p, p ∈ subs -> subscribers res !! node_IP p = Some (node_name p)).
Proof.
  intros H. apply failure_model_inv in H as (w1 & planned & applied & w2 & _ & _ & _ & -> & _).
  cbn [publishers subscribers]. split_and!.
  - apply ip_name_dict_lookup.
  - apply ip_name_dict_lookup.
  - apply ip_name_dict_complete.
  - apply ip_name_dict_complete.
Qed.

Lemma result_reports_last_node_per_address_witness :
  let cfg := Campus.config None 1 true in
  let w := Campus.ready cfg (Campus.surroundings 0 (Campus.view 4 9 5) (λ _, false)) in
  let pubs := Campus.nodes w ["h1"; "h2"; "h1"] in
  let subs := Campus.nodes w ["h2"] in
  let run := failure_model cfg pubs subs [] [] w in
  let res := match run.1 with
             | Ok res => res
             | _ => {| quake_start_time := None; data_path_changes := [];
                       publishers := ∅; subscribers := ∅ |}
             end in
  (∀ ip, publishers res !! ip
         = node_name <$> last (filter (λ p, node_IP p = ip) pubs))
  ∧ (∀ ip, subscribers res !! ip
           = node_name <$> last (filter (λ p, node_IP p = ip) subs))
  ∧ (NoDup (node_IP <$> pubs) ->
     size (publishers res) = length pubs
     ∧ ∀ p, p ∈ pubs -> publishers res !! node_IP p = Some (node_name p))
  ∧ (NoDup (node_IP <$> subs) ->
     size (subscribers res) = length subs
     ∧ ∀ p, p ∈ subs -> subscribers res !! node_IP p = Some (node_name p)).
Proof.
  intros cfg w pubs subs run res.
  apply (result_reports_last_node_per_address cfg pubs subs [] [] w res run.2).
  vm_compute. reflexivity.
Defined.

(** ** The static routes from the cloud gateways to the subscribers *)

Lemma gateway_rules_same cfg sub matches w w1 gw :
  same_controller w w1 -> gateway_rules cfg sub matches w1 gw = gateway_rules cfg sub matches w gw.
Proof.
  intros [(Hnet & _ & Hcs & _) Had].
  unfold gateway_rules, gateway_route, path_rules. by rewrite Hnet, Hcs, Had.
Qed.

Lemma gateway_route_rules_same cfg w w1 sg :
  same_controller w w1 -> gateway_route_rules cfg w1 sg = gateway_route_rules cfg w sg.
Proof.
  intros SC. unfold gateway_route_rules.
  assert (gateway_matches w1 sg.1 = gateway_matches w sg.1) as ->.
  { destruct SC as [(_ & _ & _ & _ & _ & Hc & _) Had].
    unfold gateway_matches. by rewrite Hc, Had. }
  destruct (gateway_matches w sg.1) as [matches|e|]; [|done..].
  apply (gateway_rules_same _ _ _ _ _ _ SC).
Qed.

Lemma install_gateway_route_spec cfg sub matches gw w w1 :
  install_gateway_route cfg sub matches gw w = (Ok tt, w1) ->
  ∃ rules,
    gateway_rules cfg sub matches w gw = Ok rules
    ∧ trace w1 = trace w ++ batch_events rules
                   (install_result (outside w) (n_installs w))
                   (ProblemInstallingGateway sub gw rules)
    ∧ n_installs w1 = S (n_installs w)
    ∧ same_controller w w1.
Proof.
  unfold install_gateway_route. intros H1.
  do 8 (apply bind_ok_inv in H1 as (? & ? & ? & H1)).
  repeat match goal with
         | H : gets _ _ = (Ok _, _) |- _ => apply gets_inv in H as [-> ->]
         | H : lift _ _ = (Ok _, _) |- _ => apply lift_inv in H as [? ->]
         | H : the_adapter _ = _ |- _ => apply the_adapter_inv in H as [? ->]
         | H : _get_mininet_nodes _ _ = _ |- _ =>
             apply get_mininet_nodes_inv in H as (? & ? & ? & ->)
         end.
  apply install_and_log_inv in H1 as (Htr & Hn & SC).
  eexists. split_and!; [|exact Htr|exact Hn|exact SC].
  unfold gateway_rules, gateway_route, path_rules.
  repeat match goal with H : _ = Ok _ |- _ => rewrite H; clear H; cbn end.
  repeat match goal with H : _ = Some _ |- _ => rewrite H; clear H; cbn end.
  repeat match goal with H : _ = Ok _ |- _ => rewrite H; clear H; cbn end.
  done.
Qed.

Lemma install_gateway_route_complete cfg sub matches gw w rules :
  gateway_rules cfg sub matches w gw = Ok rules ->
  ∃ w1, install_gateway_route cfg sub matches gw w = (Ok tt, w1).
Proof.
  unfold gateway_rules, gateway_route. intros H.
  apply result_bind_inv in H as (route & H & Hrules).
  do 6 (apply result_bind_inv in H as (? & ? & H)).
  injection H as <-.
  apply result_bind_inv in Hrules as (adapter & Had & Hrules).
  apply attr_inv in Had.
  match goal with H : attr _ = Ok _ |- _ => apply attr_inv in H end.
  unfold install_gateway_route, _get_mininet_nodes, the_net, the_adapter.
  repeat first
    [ rewrite bind_unfold
    | progress unfold lift, gets, attr
    | match goal with H : _ = Ok _ |- _ => rewrite H end
    | match goal with H : _ = Some _ |- _ => rewrite H end
    | progress cbv beta iota ].
  destruct (install_and_log_returns rules (ProblemInstallingGateway sub gw rules) w)
    as (w1 & E).
  rewrite bind_unfold in E. exists w1. by rewrite E.
Qed.

Lemma installation_events_app {X} out n (msg : X -> list FlowRule -> log_message)
    l1 l2 b1 b2 :
  length l1 = length b1 ->
  installation_events out n msg (l1 ++ l2) (b1 ++ b2)
  = installation_events out n msg l1 b1
    ++ installation_events out (n + length l1) msg l2 b2.
Proof.
  intros Hlen. unfold installation_events.
  rewrite zip_with_app by done. rewrite imap_app, concat_app. f_equal.
  rewrite length_zip_with, <- Hlen, Nat.min_id. f_equal. apply imap_ext.
  intros i xr _. cbn. do 2 f_equal. lia.
Qed.

Lemma imap_zip_fmap {X Y B C} (f : X -> Y) (g : nat -> Y * B -> C) (l : list X)
    (bs : list B) :
  imap g (zip (f <$> l) bs) = imap (λ i (xr : X * B), g i (f xr.1, xr.2)) (zip l bs).
Proof.
  revert g bs. induction l as [|x l IH]; intros g [|b bs]; try done.
  cbn. f_equal. apply IH.
Qed.

Lemma installation_events_fmap {X Y} out n (f : X -> Y)
    (msg : Y -> list FlowRule -> log_message) l batches :
  installation_events out n msg (f <$> l) batches
  = installation_events out n (λ x, msg (f x)) l batches.
Proof. unfold installation_events. by rewrite imap_zip_fmap. Qed.

Lemma subscriber_gateway_routes_spec cfg sub w w1 :
  subscriber_gateway_routes cfg sub w = (Ok tt, w1) ->
  ∃ batches,
    Forall2 (λ gw rules, gateway_route_rules cfg w (sub, gw) = Ok rules)
      (self_cloud_gateways w) batches
    ∧ trace w1
      = trace w ++ installation_events (outside w) (n_installs w)
                     (ProblemInstallingGateway sub) (self_cloud_gateways w) batches
    ∧ n_installs w1 = (n_installs w + length (self_cloud_gateways w))%nat
    ∧ same_controller w w1
    ∧ is_Some (self_cloud w).
Proof.
  unfold subscriber_gateway_routes. intros H.
  apply bind_ok_inv in H as (adapter & w0 & Ha & H). apply the_adapter_inv in Ha as [Ha ->].
  apply bind_ok_inv in H as (cloud & w0 & Hc & H). apply gets_inv in Hc as [-> ->].
  apply bind_ok_inv in H as (c & w0 & Hc & H). apply lift_inv in Hc as [Hc ->].
  apply attr_inv in Hc.
  apply bind_ok_inv in H as (gws & w0 & Hg & H). apply gets_inv in Hg as [-> ->].
  set (matches := SdnTopology.build_matches adapter _) in H.
  eapply (batch_loop (install_gateway_route cfg sub matches)
            (gateway_rules cfg sub matches) (ProblemInstallingGateway sub)) in H
    as (batches & Hall & Htr & Hn & SC).
  - exists batches. split_and!; [|done..|by eexists].
    eapply Forall2_impl; [exact Hall|]. intros gw rules Hr.
    unfold gateway_route_rules, gateway_matches. cbn [fst snd]. by rewrite Ha, Hc.
  - intros. by apply gateway_rules_same.
  - intros. by apply install_gateway_route_spec.
Qed.

Lemma cloud_gateway_routes_loop cfg subs :
  ∀ w w',
  cloud_gateway_routes cfg subs w = (Ok tt, w') ->
  ∃ batches,
    Forall2 (λ sg rules, gateway_route_rules cfg w sg = Ok rules)
      (subscriber_gateways w subs) batches
    ∧ trace w'
      = trace w ++ installation_events (outside w) (n_installs w)
                     (λ sg, ProblemInstallingGateway sg.1 sg.2)
                     (subscriber_gateways w subs) batches
    ∧ n_installs w' = (n_installs w + length (subscriber_gateways w subs))%nat
    ∧ same_controller w w'
    ∧ (subs ≠ [] -> is_Some (self_cloud w)).
Proof.
  induction subs as [|sub subs IH]; intros w w' H.
  - apply mret_inv in H as [_ ->]. exists []. cbn. rewrite app_nil_r, Nat.add_0_r.
    by split_and!.
  - change (cloud_gateway_routes cfg (sub :: subs))
      with (subscriber_gateway_routes cfg sub;; cloud_gateway_routes cfg subs) in H.
    apply bind_ok_inv in H as ([] & w1 & H1 & H).
    apply subscriber_gateway_routes_spec in H1 as (b1 & F1 & T1 & N1 & SC1 & Hc).
    apply IH in H as (b2 & F2 & T2 & N2 & SC2 & _).
    assert (subscriber_gateways w1 subs = subscriber_gateways w subs) as Eg.
    { unfold subscriber_gateways. by destruct SC1 as [(_ & -> & _) _]. }
    assert (outside w1 = outside w) as Eo by (by destruct SC1 as [(_&_&_&_&_&_&->) _]).
    rewrite Eg, Eo in *.
    exists (b1 ++ b2). unfold subscriber_gateways at 1 2 3. rewrite !bind_cons.
    fold (subscriber_gateways w subs).
    assert (length ((λ gw, (sub, gw)) <$> self_cloud_gateways w) = length b1) as Hlen.
    { rewrite length_fmap. by eapply Forall2_length. }
    split_and!.
    + apply Forall2_app.
      * by apply Forall2_fmap_l.
      * eapply Forall2_impl; [exact F2|]. intros sg rules Hr.
        by rewrite <- (gateway_route_rules_same cfg w w1).
    + rewrite T2, T1, installation_events_app by done. rewrite <- app_assoc.
      rewrite installation_events_fmap, length_fmap, N1. done.
    + rewrite N2, N1, length_app, length_fmap. lia.
    + by etransitivity.
    + done.
Qed.

Lemma subscriber_gateway_routes_returns cfg sub w :
  is_ok (gateway_matches w sub) = true ->
  Forall (λ gw, is_ok (gateway_route_rules cfg w (sub, gw)) = true) (self_cloud_gateways w) ->
  ∃ w1, subscriber_gateway_routes cfg sub w = (Ok tt, w1).
Proof.
  intros Hm Hall. unfold gateway_route_rules in Hall. cbn [fst snd] in Hall.
  destruct (gateway_matches w sub) as [matches| |] eqn:Em; [|done..].
  unfold gateway_matches in Em.
  apply result_bind_inv in Em as (adapter & Ha & Em). apply attr_inv in Ha.
  apply result_bind_inv in Em as (c & Hc & Em). apply attr_inv in Hc.
  injection Em as <-.
  unfold subscriber_gateway_routes, the_adapter.
  rewrite !bind_unfold. cbn [gets]. rewrite Ha. cbn [lift attr].
  rewrite !bind_unfold. cbn [gets]. rewrite Hc. cbn [lift attr].
  rewrite !bind_unfold. cbn [gets].
  eapply (batch_loop_returns (install_gateway_route cfg sub _)
            (gateway_rules cfg sub _) (ProblemInstallingGateway sub)).
  - intros. by apply gateway_rules_same.
  - intros. by apply install_gateway_route_spec.
  - intros. by eapply install_gateway_route_complete.
  - exact Hall.
Qed.

Lemma cloud_gateway_routes_returns cfg subs :
  ∀ w,
  Forall (λ sub, is_ok (gateway_matches w sub) = true) subs ->
  Forall (λ sg, is_ok (gateway_route_rules cfg w sg) = true) (subscriber_gateways w subs) ->
  ∃ w', cloud_gateway_routes cfg subs w = (Ok tt, w').
Proof.
  induction subs as [|sub subs IH]; intros w Hm Hall; [by exists w|].
  apply Forall_cons in Hm as [Hm Hms].
  unfold subscriber_gateways in Hall. rewrite bind_cons in Hall.
  apply Forall_app in Hall as [Hall1 Hall2]. apply Forall_fmap in Hall1.
  destruct (subscriber_gateway_routes_returns cfg sub w Hm Hall1) as (w1 & H1).
  pose proof (subscriber_gateway_routes_spec _ _ _ _ H1) as (_ & _ & _ & _ & SC & _).
  destruct (IH w1) as (w' & H).
  - eapply Forall_impl; [exact Hms|]. intros s Hs.
    destruct SC as [(_ & _ & _ & _ & _ & Hc & _) Had].
    unfold gateway_matches in *. by rewrite Hc, Had.
  - assert (subscriber_gateways w1 subs = subscriber_gateways w subs) as ->.
    { unfold subscriber_gateways. by destruct SC as [(_ & -> & _) _]. }
    eapply Forall_impl; [exact Hall2|]. intros sg Hsg.
    by rewrite (gateway_route_rules_same cfg w w1).
  - exists w'.
    change (cloud_gateway_routes cfg (sub :: subs))
      with (subscriber_gateway_routes cfg sub;; cloud_gateway_routes cfg subs).
    by rewrite bind_unfold, H1.
Qed.

(** X13: the static routes from the cloud gateways to the subscribers: for
    every subscriber, in order, and for every cloud gateway, in order,
    one batch of flow rules is installed, those of the path of the
    topology model from the gateway to the subscriber (not weighted),
    every name translated to the DPID of its node, after the DPID of the
    first cloud switch; the rules match the address of the subscriber as
    destination and that of the cloud as source and have the priority of
    the static paths; a batch that fails is followed by its error message
    and the next batch is installed all the same.  With a subscriber the
    experiment must hold a cloud, even without any gateway.  And when
    these matches and rules exist, the routes are installed. *)
Theorem cloud_gateway_static_routes cfg subs w :
  (∀ w',
     cloud_gateway_routes cfg subs w = (Ok tt, w') ->
     ∃ batches : list (list FlowRule),
       Forall2 (λ sg rules, gateway_route_rules cfg w sg = Ok rules)
         (subscriber_gateways w subs) batches
       ∧ trace w'
         = trace w ++ installation_events (outside w) (n_installs w)
                        (λ sg, ProblemInstallingGateway sg.1 sg.2)
                        (subscriber_gateways w subs) batches
       ∧ (subs ≠ [] -> is_Some (self_cloud w)))
  ∧ (Forall (λ sub, is_ok (gateway_matches w sub) = true) subs ->
     Forall (λ sg, is_ok (gateway_route_rules cfg w sg) = true)
       (subscriber_gateways w subs) ->
     ∃ w', cloud_gateway_routes cfg subs w = (Ok tt, w')).
Proof.
  split.
  - intros w' H. apply cloud_gateway_routes_loop in H as (batches & F & T & _ & _ & Hc).
    by exists batches.
  - apply cloud_gateway_routes_returns.
Qed.

Lemma cloud_gateway_static_routes_witness :
  let cfg := Campus.config None 1 true in
  let w := Campus.converged cfg
             (Campus.surroundings 0 (Campus.view 4 9 5) (λ j, bool_decide (j = 1%nat))) in
  let subs := Campus.nodes w ["h1"; "h2"] in
  ∃ w' (batches : list (list FlowRule)),
    cloud_gateway_routes cfg subs w = (Ok tt, w')
    ∧ Forall2 (λ sg rules, gateway_route_rules cfg w sg = Ok rules)
        (subscriber_gateways w subs) batches
    ∧ trace w'
      = trace w ++ installation_events (outside w) (n_installs w)
                     (λ sg, ProblemInstallingGateway sg.1 sg.2)
                     (subscriber_gateways w subs) batches
    ∧ (subs ≠ [] -> is_Some (self_cloud w)).
Proof.
  intros cfg w subs.
  destruct (cloud_gateway_static_routes cfg subs w) as [Hroutes Hreturns].
  destruct Hreturns as (w' & H).
  - apply Forall_fold_right. vm_compute. repeat split.
  - apply Forall_fold_right. vm_compute. repeat split.
  - exists w'. destruct (Hroutes w' H) as (batches & F & T & C). exists batches.
    exact (conj H (conj F (conj T C))).
Defined.


Example cloud_gateway_routes_campus :
  let cfg := Campus.config None 1 true in
  let w := Campus.converged cfg
             (Campus.surroundings 0 (Campus.view 4 9 5) (λ _, false)) in
  ((λ sg : Node * Node, (node_name sg.1, node_name sg.2))
     <$> subscriber_gateways w (Campus.nodes w ["h1"; "h2"]))
  = [("h1", "g1"); ("h1", "g0"); ("h2", "g1"); ("h2", "g0")]
  ∧ ((λ sg, gateway_route cfg w sg.1 sg.2)
       <$> subscriber_gateways w (Campus.nodes w ["h1"]))
    = [Ok ["of:00000000000000f0"; "of:00000000000000d1"; "of:00000000000000a0"; "AA:H1/None"];
       Ok ["of:00000000000000f0"; "of:00000000000000d0"; "of:00000000000000a0"; "AA:H1/None"]].
Proof. split; vm_compute; reflexivity. Qed.

(** ** The data plane identifiers *)

Lemma ascii_upper_not_o (c : ascii) : ascii_upper c ≠ "o"%char.
Proof. by destruct c as [[] [] [] [] [] [] [] []]. Qed.

Lemma host_dpid_not_switch_dpid (mac dpid : string) :
  str_upper mac +:+ "/None" ≠ "of:" +:+ dpid.
Proof.
  destruct mac as [|c mac]; [done|]. cbn. intros [= E _].
  by apply ascii_upper_not_o in E.
Qed.

(** X14: the identifiers of a host and of a switch are never the same: when
    [get_node_dpid] returns for two nodes of which one is a host and the
    other a switch, whatever their names, addresses and DPIDs, it returns
    two different identifiers; so an element of a route of identifiers
    tells whether it is a host or a switch.  (For the NAT, which is
    neither, it raises [TypeError].) *)
Theorem host_and_switch_dpids_differ cfg (n1 n2 : Node) (d1 d2 : string) :
  get_node_dpid cfg n1 = Ok d1 ->
  get_node_dpid cfg n2 = Ok d2 ->
  node_class_of n1 ≠ node_class_of n2 ->
  d1 ≠ d2.
Proof.
  unfold get_node_dpid, get_switch_dpid, get_host_dpid.
  destruct (decide (topology_adapter_type cfg = "onos")) as [_|_].
  - destruct (node_class_of n1), (node_class_of n2); try done; cbn;
      intros [= <-] [= <-] _ E.
    + symmetry in E. by apply host_dpid_not_switch_dpid in E.
    + by apply host_dpid_not_switch_dpid in E.
  - destruct (decide (topology_adapter_type cfg = "floodlight")) as [_|_];
      by destruct (node_class_of n1), (node_class_of n2).
Qed.

Lemma host_and_switch_dpids_differ_witness :
  let cfg := Campus.config None 1 true in
  let h1 := {| node_id := 3; node_name := "h1"; node_class_of := Host; node_dpid := "";
               node_IP := "10.0.0.h1"; node_MAC := "aa:h1" |} in
  let a0 := {| node_id := 0; node_name := "a0"; node_class_of := Switch;
               node_dpid := "00000000000000a0"; node_IP := ""; node_MAC := "" |} in
  get_node_dpid cfg h1 = Ok "AA:H1/None"
  ∧ get_node_dpid cfg a0 = Ok "of:00000000000000a0"
  ∧ "AA:H1/None" ≠ "of:00000000000000a0".
Proof.
  intros cfg h1 a0. split; [reflexivity|]. split; [reflexivity|].
  apply (host_and_switch_dpids_differ cfg h1 a0); [reflexivity|reflexivity|].
  vm_compute. discriminate.
Defined.

(** ** The teardown *)

Module TeardownFacts.

Import Teardown.

Lemma td_bind_unfold {A B} (m : T A) (f : A -> T B) (s : state) :
  (m ≫= f) s = match m s with
               | (Ok a, s') => f a s'
               | (Raise e, s') => (Raise e, s')
               | (Timeout, s') => (Timeout, s')
               end.
Proof. reflexivity. Qed.

Lemma td_bind_inv {A B} (m : T A) (f : A -> T B) (s : state) r s' :
  (m ≫= f) s = (r, s') ->
  (∃ a s1, m s = (Ok a, s1) ∧ f a s1 = (r, s'))
  ∨ (∃ e, m s = (Raise e, s') ∧ r = Raise e)
  ∨ (m s = (Timeout, s') ∧ r = Timeout).
Proof.
  rewrite td_bind_unfold. destruct (m s) as [[a|e|] s1]; intros H.
  - left. eauto.
  - right. left. inversion H. eauto.
  - right. right. by inversion H.
Qed.

Lemma td_bind_ok_inv {A B} (m : T A) (f : A -> T B) (s : state) b s' :
  (m ≫= f) s = (Ok b, s') ->
  ∃ a s1, m s = (Ok a, s1) ∧ f a s1 = (Ok b, s').
Proof.
  intros H. apply td_bind_inv in H as [H|[[e [_ H]]|[_ H]]]; [done|discriminate..].
Qed.

Section Respects.

Context (R : relation state) `{!PreOrder R}.

Lemma td_respects_ret {A} (a : A) : teardown_respects R (mret a).
Proof. intros s r s' [= _ <-]. reflexivity. Qed.

Lemma td_respects_raise {A} e : teardown_respects R (@raise A e).
Proof. intros s r s' [= _ <-]. reflexivity. Qed.

Lemma td_respects_timeout {A} : teardown_respects R (@timeout A).
Proof. intros s r s' [= _ <-]. reflexivity. Qed.

Lemma td_respects_gets {A} (f : state -> A) : teardown_respects R (gets f).
Proof. intros s r s' [= _ <-]. reflexivity. Qed.

Lemma td_respects_attr {A} (o : option A) : teardown_respects R (attr o).
Proof. destruct o; [apply td_respects_ret|apply td_respects_raise]. Qed.

Lemma td_respects_getitem {A} (l : list A) i : teardown_respects R (getitem l i).
Proof. unfold getitem. destruct (l !! i); [apply td_respects_ret|apply td_respects_raise]. Qed.

Lemma td_respects_state {A} (m : T A) :
  (∀ s, R s (m s).2) -> teardown_respects R m.
Proof. intros Hm s r s' H. specialize (Hm s). by rewrite H in Hm. Qed.

Lemma td_respects_bind {A B} (m : T A) (f : A -> T B) :
  teardown_respects R m -> (∀ a, teardown_respects R (f a)) ->
  teardown_respects R (m ≫= f).
Proof.
  intros Hm Hf s r s' H.
  apply td_bind_inv in H as [(a & s1 & H1 & H2)|[(e & H1 & _)|[H1 _]]].
  - transitivity s1; [apply (Hm _ _ _ H1)|apply (Hf _ _ _ _ H2)].
  - apply (Hm _ _ _ H1).
  - apply (Hm _ _ _ H1).
Qed.

Lemma td_respects_try_except {A} (body : T A) kind (handler : exn -> T A) :
  teardown_respects R body -> (∀ e, teardown_respects R (handler e)) ->
  teardown_respects R (try_except body kind handler).
Proof.
  intros Hb Hh s r s' H. unfold try_except in H.
  destruct (body s) as [[a|e|] s1] eqn:E.
  - inversion H; subst. apply (Hb _ _ _ E).
  - destruct (decide (e = kind)).
    + transitivity s1; [apply (Hb _ _ _ E)|apply (Hh _ _ _ _ H)].
    + inversion H; subst. apply (Hb _ _ _ E).
  - inversion H; subst. apply (Hb _ _ _ E).
Qed.

Lemma td_respects_for_each {A} (l : list A) (body : A -> T unit) :
  (∀ x, teardown_respects R (body x)) -> teardown_respects R (for_each l body).
Proof.
  intros Hb. induction l as [|x l IH]; cbn [for_each].
  - apply td_respects_ret.
  - apply td_respects_bind; auto.
Qed.

End Respects.

(** One step of a proof that a computation of the teardown respects a
    relation: the structure of the computation is followed down to the
    steps that change the state, which are left to [prim]. *)
Ltac td_respects_step prim :=
  lazymatch goal with
  | |- PreOrder _ => apply _
  | |- teardown_respects _ (mret _) => apply td_respects_ret
  | |- teardown_respects _ (raise _) => apply td_respects_raise
  | |- teardown_respects _ timeout => apply td_respects_timeout
  | |- teardown_respects _ (gets _) => apply td_respects_gets
  | |- teardown_respects _ (attr _) => apply td_respects_attr
  | |- teardown_respects _ (getitem _ _) => apply td_respects_getitem
  | |- teardown_respects _ (_ ≫= _) => apply td_respects_bind; [..|intros ?]
  | |- teardown_respects _ (try_except _ _ _) => apply td_respects_try_except; [..|intros ?]
  | |- teardown_respects _ (for_each _ _) => apply td_respects_for_each; [..|intros ?]
  | |- teardown_respects _ (emit _) => apply td_respects_state; [..|intros ?; prim]
  | |- teardown_respects _ (assign _) => apply td_respects_state; [..|intros ?; prim]
  | |- teardown_respects _ (poll _ _) => apply td_respects_state; [..|intros ?; prim]
  | |- teardown_respects _ (kill _ _) => apply td_respects_state; [..|intros ?; prim]
  | |- teardown_respects _ (wait _ _) => apply td_respects_state; [..|intros ?; prim]
  | |- teardown_respects _ (rest_get_hosts _) => apply td_respects_state; [..|intros ?; prim]
  | |- teardown_respects _ (rest_get_switches _) => apply td_respects_state; [..|intros ?; prim]
  | |- teardown_respects _ (get_groups _) => apply td_respects_state; [..|intros ?; prim]
  | |- teardown_respects _ (net_stop _) => apply td_respects_state; [..|intros ?; prim]
  | |- teardown_respects _ (if ?b then _ else _) => destruct b
  | |- teardown_respects _ (match ?x with _ => _ end) => destruct x
  | |- teardown_respects _ _ =>
      progress unfold sleep, run_command, report_exit
  end.

Ltac td_respects_auto prim := repeat td_respects_step prim.

#[global] Instance teardown_logs_preorder (P : event -> Prop) : PreOrder (teardown_logs P).
Proof.
  split.
  - intros s. exists []. by rewrite app_nil_r.
  - intros s1 s2 s3 (e1 & H1 & F1) (e2 & H2 & F2). exists (e1 ++ e2). split.
    + by rewrite H2, H1, app_assoc.
    + by apply Forall_app_2.
Qed.

#[global] Instance keeps_servers_preorder : PreOrder keeps_servers.
Proof.
  split.
  - by intros s.
  - intros s1 s2 s3 (A1 & B1 & C1) (A2 & B2 & C2). unfold keeps_servers.
    by rewrite A2, B2, C2.
Qed.

#[global] Instance same_self_preorder : PreOrder same_self.
Proof.
  split.
  - by intros s.
  - intros s1 s2 s3 H1 H2. unfold same_self in *. by rewrite H2.
Qed.

Ltac td_logs_prim :=
  cbn;
  first
    [ exists []; split; [by rewrite app_nil_r|by constructor]
    | eexists [_]; split; [reflexivity|]; by repeat constructor ].


Section TeardownProperties.

Context (cfg : Config) (k : Constants) (out : Surroundings).

Lemma wait_loop_logs (P : event -> Prop) p timeout range ret :
  (∀ e, e ≠ EvLogError ClientNeverQuit -> P e) ->
  teardown_respects (teardown_logs P) (wait_loop out p timeout range ret).
Proof.
  intros HP. revert ret. induction range as [|i range IH]; intros ret; cbn [wait_loop].
  - td_respects_auto td_logs_prim.
  - td_respects_auto ltac:(cbn; eexists [_]; split; [reflexivity|];
                           repeat constructor; by apply HP).
    apply IH.
Qed.

(** The loop of [wait_then_kill] is left by [break] with the code that
    [poll] gave. *)
Lemma wait_loop_break p timeout range ret s r s' :
  wait_loop out p timeout range ret s = (Ok (r, true), s') -> is_Some r.
Proof.
  revert ret s. induction range as [|i range IH]; intros ret s H; cbn [wait_loop] in H.
  - by injection H.
  - apply td_bind_ok_inv in H as (ret' & s1 & _ & H).
    destruct ret' as [c|].
    + injection H as <- _. by eexists.
    + apply td_bind_ok_inv in H as ([] & s2 & _ & H). by apply IH in H.
Qed.

Lemma wait_then_kill_code p s r s' :
  wait_then_kill out p s = (Ok r, s') -> is_Some r.
Proof.
  unfold wait_then_kill. intros H.
  apply td_bind_ok_inv in H as ([ret b] & s1 & H1 & H). destruct b.
  - injection H as <- _. by apply wait_loop_break in H1.
  - do 4 (apply td_bind_ok_inv in H as (? & ? & _ & H)). injection H as <- _. by eexists.
Qed.

Lemma wait_then_kill_logs (P : event -> Prop) p :
  (∀ e, e ≠ EvLogError ClientNeverQuit -> P e) ->
  teardown_respects (teardown_logs P) (wait_then_kill out p).
Proof.
  intros HP. unfold wait_then_kill.
  apply td_respects_bind; [apply _|by apply wait_loop_logs|intros [ret b]].
  td_respects_auto ltac:(cbn; eexists [_]; split; [reflexivity|];
                         repeat constructor; by apply HP).
Qed.

Lemma inspect_client_logs p :
  teardown_respects (teardown_logs (λ e, e ≠ EvLogError ClientNeverQuit))
    (inspect_client k out p).
Proof.
  intros s r s' H. unfold inspect_client in H.
  apply td_bind_inv in H as [(ret & s1 & H1 & H)|[(e & H1 & _)|[H1 _]]].
  - pose proof (wait_then_kill_logs _ _ (λ _ H, H) _ _ _ H1) as L1.
    apply wait_then_kill_code in H1 as [c ->].
    transitivity s1; [done|]. revert H.
    apply (λ Hm : teardown_respects _ _, Hm s1 r s').
    td_respects_auto ltac:(cbn; eexists [_]; split; [reflexivity|]; by repeat constructor).
  - by apply (wait_then_kill_logs _ _ (λ _ H, H)) in H1.
  - by apply (wait_then_kill_logs _ _ (λ _ H, H)) in H1.
Qed.

Lemma await_onos_logs (P : event -> Prop) fuel running :
  (∀ e, e ≠ EvLogError ClientNeverQuit -> P e) ->
  teardown_respects (teardown_logs P) (await_onos out fuel running).
Proof.
  intros HP. revert running. induction fuel as [|fuel IH]; intros running; cbn [await_onos].
  - td_respects_auto td_logs_prim.
  - td_respects_auto ltac:(cbn; first [td_logs_prim
      | eexists [_]; split; [reflexivity|]; repeat constructor; by apply HP]).
    all: apply IH.
Qed.

Lemma remove_groups_logs (P : event -> Prop) fuel n :
  (∀ e, e ≠ EvLogError ClientNeverQuit -> P e) ->
  teardown_respects (teardown_logs P) (remove_groups out fuel n).
Proof.
  intros HP. revert n. induction fuel as [|fuel IH]; intros n; cbn [remove_groups].
  - td_respects_auto td_logs_prim.
  - td_respects_auto ltac:(cbn; first [td_logs_prim
      | eexists [_]; split; [reflexivity|]; repeat constructor; by apply HP]).
    apply IH.
Qed.

(** X15: the teardown never reports a client that did not quit: what
    [wait_then_kill] returns is always an exit code, that of [poll] or,
    after [kill], that of [wait], never [None]; so of the messages about
    a client only those about its exit code can be logged, whatever the
    processes, the emulation and the controller do. *)
Theorem teardown_never_reports_unquit_client fuel s r s' :
  teardown_experiment cfg k out fuel s = (r, s') ->
  teardown_logs (λ e, e ≠ EvLogError ClientNeverQuit) s s'
  ∧ ∀ p s0 ret s1, wait_then_kill out p s0 = (Ok ret, s1) -> is_Some ret.
Proof.
  intros H. split; [|intros p s0 ret s1; apply wait_then_kill_code].
  revert H. apply (λ Hm : teardown_respects _ _, Hm s r s').
  unfold teardown_experiment, inspect_servers, clean_up_traffic_generators,
    stop_mininet, reset_controller, reset_collections.
  td_respects_auto ltac:(cbn; first [td_logs_prim
      | eexists [_]; split; [reflexivity|]; by repeat constructor]).
  all: first [ apply inspect_client_logs
             | by apply wait_then_kill_logs
             | by apply await_onos_logs
             | by apply remove_groups_logs ].
Qed.

End TeardownProperties.

Lemma teardown_never_reports_unquit_client_witness :
  let cfg := Campus.config None 1 true in
  let w0 := Campus.ready cfg (Campus.surroundings 0 (Campus.view 4 9 5) (λ _, false)) in
  let w := (run_experiment cfg 10 (Campus.nodes w0 ["h1"]) (Campus.nodes w0 ["h2"])
              [] [] w0).2 in
  let run := teardown_experiment cfg sample_constants sample_surroundings 5 (start w) in
  teardown_logs (λ e, e ≠ EvLogError ClientNeverQuit) (start w) run.2
  ∧ ∀ p s0 ret s1,
      wait_then_kill sample_surroundings p s0 = (Ok ret, s1) -> is_Some ret.
Proof.
  intros cfg w0 w run.
  apply (teardown_never_reports_unquit_client cfg sample_constants sample_surroundings
           5 (start w) run.1 run.2).
  apply surjective_pairing.
Defined.

Example teardown_campus :
  let cfg := Campus.config None 1 true in
  let w0 := Campus.ready cfg (Campus.surroundings 0 (Campus.view 4 9 5) (λ _, false)) in
  let w := (run_experiment cfg 10 (Campus.nodes w0 ["h1"]) (Campus.nodes w0 ["h2"])
              [] [] w0).2 in
  let run := teardown_experiment cfg sample_constants sample_surroundings 5 (start w) in
  run.1 = Ok tt
  ∧ (λ p, (node_name p.1, p.2)) <$> self_popens w
    = [("hs0", EdgeServer); ("hx0", CloudServer);
       ("h1", Client true false); ("h2", Client false true)]
  ∧ omap (λ e, match e with
               | EvPoll (Scale h _) => Some ("poll " +:+ node_name h)
               | EvKill (Scale h _) => Some ("kill " +:+ node_name h)
               | EvWait (Scale h _) => Some ("wait " +:+ node_name h)
               | EvWait (IperfClient _) => Some "wait iperf client"
               | EvPoll (IperfServer _) => Some "poll iperf server"
               | EvLogError (ClientExited _) => Some "client exited"
               | EvLogError (ServerExited _) => Some "server exited"
               | EvLogError (CloudExited _) => Some "cloud exited"
               | EvLogError (StoppingMininetFailed _) => Some "stopping failed"
               | EvLogError (SwitchesLeft _) => Some "switches left"
               | EvGetHosts => Some "get hosts"
               | _ => None
               end) (log run.2)
    = ["poll h1"; "poll h1"; "kill h1"; "wait h1"; "client exited";
       "poll h2"; "client exited"; "poll hs0"; "server exited"; "poll hx0"; "poll hx0";
       "kill hx0"; "wait hx0"; "cloud exited"; "wait iperf client"; "poll iperf server";
       "stopping failed"; "get hosts"; "get hosts"; "get hosts"; "switches left"].
Proof. vm_compute. done. Qed.


Section TeardownReset.

Context (cfg : Config) (k : Constants) (out : Surroundings).

Ltac keeps_prim :=
  match goal with
  | |- _ ?s _ => destruct s as [[] ? ? ? ? ? ? ?]; by repeat split
  end.

Lemma wait_loop_keeps (R : relation state) `{!PreOrder R} p timeout range ret :
  (∀ s e, R s {| self := self s; log := log s ++ [e]; polls := polls s; kills := kills s;
                 waits := waits s; host_queries := host_queries s;
                 switch_queries := switch_queries s; group_queries := group_queries s |}) ->
  (∀ s e, R s {| self := self s; log := log s ++ [e]; polls := S (polls s);
                 kills := kills s; waits := waits s; host_queries := host_queries s;
                 switch_queries := switch_queries s; group_queries := group_queries s |}) ->
  teardown_respects R (wait_loop out p timeout range ret).
Proof.
  intros He Hp. revert ret. induction range as [|i range IH]; intros ret; cbn [wait_loop].
  - td_respects_auto idtac.
  - td_respects_auto ltac:(cbn; first [apply He|apply Hp]). apply IH.
Qed.

Lemma wait_then_kill_same_self p : teardown_respects same_self (wait_then_kill out p).
Proof.
  unfold wait_then_kill.
  apply td_respects_bind;
    [apply _|apply wait_loop_keeps; [apply _|..]; intros ? ?; by repeat split
    |intros [ret b]].
  td_respects_auto ltac:(by cbn).
Qed.

Lemma wait_then_kill_keeps_servers p :
  teardown_respects keeps_servers (wait_then_kill out p).
Proof.
  unfold wait_then_kill.
  apply td_respects_bind;
    [apply _|apply wait_loop_keeps; [apply _|..]; intros ? ?; by repeat split
    |intros [ret b]].
  td_respects_auto ltac:(by cbn).
Qed.

Lemma await_onos_keeps_servers fuel running :
  teardown_respects keeps_servers (await_onos out fuel running).
Proof.
  revert running. induction fuel as [|fuel IH]; intros running; cbn [await_onos].
  - td_respects_auto ltac:(by cbn).
  - td_respects_auto ltac:(by cbn). all: apply IH.
Qed.

Lemma remove_groups_keeps_servers fuel n :
  teardown_respects keeps_servers (remove_groups out fuel n).
Proof.
  revert n. induction fuel as [|fuel IH]; intros n; cbn [remove_groups].
  - td_respects_auto ltac:(by cbn).
  - td_respects_auto ltac:(by cbn). apply IH.
Qed.

Lemma teardown_keeps_servers fuel :
  teardown_respects keeps_servers (teardown_experiment cfg k out fuel).
Proof.
  unfold teardown_experiment, inspect_client, inspect_servers,
    clean_up_traffic_generators, stop_mininet, reset_controller, reset_collections.
  td_respects_auto ltac:(first [by cbn|keeps_prim]).
  all: first [ apply wait_then_kill_keeps_servers
             | apply await_onos_keeps_servers
             | apply remove_groups_keeps_servers ].
Qed.

Lemma sleep_ok_inv secs s s' :
  sleep secs s = (Ok tt, s') -> 0 <= secs ∧ self s' = self s.
Proof. unfold sleep. destruct (Z.ltb_spec secs 0); [done|]. by intros [= <-]. Qed.

Lemma reset_collections_inv s s1 :
  reset_collections s = (Ok tt, s1) -> collections_reset (self s1).
Proof.
  destruct s as [[] ? ? ? ? ? ? ?]. intros H. vm_compute in H. injection H as <-.
  by repeat split.
Qed.

(** X16: when the teardown returns, the experiment is as its constructor left
    it, but for the server, the cloud and the adapter: the hosts, the
    switches, the cloud gateways, the cloud switches, the links, the
    processes and the traffic generators are empty lists and the
    emulation, the NAT and the server switch are [None], while
    [self.server], [self.cloud] and [self.topology_adapter] are still
    those of the run.  And the pause between two runs is not negative. *)
Theorem teardown_resets fuel s s' :
  teardown_experiment cfg k out fuel s = (Ok tt, s') ->
  collections_reset (self s')
  ∧ keeps_servers s s'
  ∧ 0 <= SLEEP_TIME_BETWEEN_RUNS k.
Proof.
  intros H. pose proof (teardown_keeps_servers fuel _ _ _ H) as HK.
  unfold teardown_experiment in H.
  do 8 (apply td_bind_ok_inv in H as (? & ? & _ & H)).
  apply td_bind_ok_inv in H as ([] & s1 & H1 & H).
  apply sleep_ok_inv in H as [Hs ->].
  split_and!; [|done..]. by apply reset_collections_inv in H1.
Qed.

End TeardownReset.

Lemma teardown_resets_witness :
  let cfg := Campus.config None 1 true in
  let w0 := Campus.ready cfg (Campus.surroundings 0 (Campus.view 4 9 5) (λ _, false)) in
  let w := (run_experiment cfg 10 (Campus.nodes w0 ["h1"]) (Campus.nodes w0 ["h2"])
              [] [] w0).2 in
  let run := teardown_experiment cfg sample_constants sample_surroundings 5 (start w) in
  collections_reset (self run.2)
  ∧ keeps_servers (start w) run.2
  ∧ 0 <= SLEEP_TIME_BETWEEN_RUNS sample_constants.
Proof.
  intros cfg w0 w run.
  apply (teardown_resets cfg sample_constants sample_surroundings 5 (start w) run.2).
  vm_compute. reflexivity.
Defined.

Section TeardownFails.

Context (cfg : Config) (k : Constants) (out : Surroundings).

Lemma report_exit_same_self ret m : teardown_respects same_self (report_exit ret m).
Proof. td_respects_auto ltac:(by cbn). Qed.

Lemma td_bind_fails {A B} (m : T A) (f : A -> T B) s r s' :
  (m ≫= f) s = (r, s') ->
  (∀ a s1, m s = (Ok a, s1) -> (∀ b, r ≠ Ok b) ∧ same_self s s') ->
  teardown_respects same_self m ->
  (∀ b, r ≠ Ok b) ∧ same_self s s'.
Proof.
  intros H Hok Hm. apply td_bind_inv in H as [(a & s1 & H1 & H)|[(e & H1 & ->)|[H1 ->]]].
  - by eapply Hok.
  - split; [done|]. by apply Hm in H1.
  - split; [done|]. by apply Hm in H1.
Qed.

Lemma inspect_servers_short s r s' :
  (length (self_popens (self s)) < (if with_cloud cfg then 2 else 1))%nat ->
  inspect_servers cfg out s = (r, s') ->
  (∀ u, r ≠ Ok u) ∧ same_self s s'
  ∧ (self_popens (self s) = [] -> r = Raise IndexError ∧ s' = s).
Proof.
  intros Hlen H. unfold inspect_servers in H.
  rewrite td_bind_unfold in H. cbn [gets] in H.
  destruct (self_popens (self s)) as [|p popens] eqn:Ep.
  { injection H as <- <-. by split_and!. }
  enough ((∀ u, r ≠ Ok u) ∧ same_self s s') as [? ?] by (by split_and!).
  destruct (with_cloud cfg); [|cbn in Hlen; lia].
  destruct popens as [|p' popens]; [|cbn in Hlen; lia].
  rewrite td_bind_unfold in H. cbn [getitem lookup list_lookup mret T_ret] in H.
  eapply td_bind_fails; [exact H| |apply wait_then_kill_same_self].
  intros ret s1 H1. apply wait_then_kill_same_self in H1 as E1.
  rewrite td_bind_unfold, H1 in H.
  destruct (report_exit ret ServerExited s1) as [[[]|e|] s2] eqn:H2.
  - apply report_exit_same_self in H2 as E2.
    rewrite td_bind_unfold, H2, td_bind_unfold in H. cbn [gets] in H.
    unfold same_self in E1, E2. rewrite E2, E1, Ep in H. injection H as <- <-.
    split; [done|]. unfold same_self. by rewrite E2.
  - apply report_exit_same_self in H2 as E2.
    rewrite td_bind_unfold, H2 in H. injection H as <- <-.
    split; [done|]. by transitivity s1.
  - apply report_exit_same_self in H2 as E2.
    rewrite td_bind_unfold, H2 in H. injection H as <- <-.
    split; [done|]. by transitivity s1.
Qed.

(** X17: the teardown needs the processes of the servers: when the experiment
    holds fewer processes than its servers (none, or with [with_cloud]
    only one), as after a run that stopped before it started them, the
    teardown does not return and resets nothing: the attributes of the
    experiment are left as they were.  With no process at all it raises
    [IndexError] right after its first sleep. *)
Theorem teardown_needs_the_servers fuel s r s' :
  (length (self_popens (self s)) < (if with_cloud cfg then 2 else 1))%nat ->
  teardown_experiment cfg k out fuel s = (r, s') ->
  (∀ u, r ≠ Ok u)
  ∧ self s' = self s
  ∧ (self_popens (self s) = [] -> r = Raise IndexError ∧ log s' = log s ++ [EvSleep 20]).
Proof.
  intros Hlen H. unfold teardown_experiment in H.
  rewrite td_bind_unfold in H. cbn [sleep Z.ltb Z.compare emit] in H.
  rewrite td_bind_unfold in H. cbn [gets self] in H.
  rewrite drop_ge in H by (destruct (with_cloud cfg); cbn in *; lia).
  cbn [for_each] in H. rewrite td_bind_unfold in H. cbn [mret T_ret] in H.
  rewrite td_bind_unfold in H.
  match type of H with context [inspect_servers cfg out ?s1] =>
    destruct (inspect_servers cfg out s1) as [r1 s2] eqn:H1;
    apply inspect_servers_short in H1 as (Hr & Hs & He); [|done]
  end.
  destruct r1 as [[]|e|]; [by destruct (Hr tt)| |]; injection H as <- <-.
  - split_and!; [done|exact Hs|]. intros Ep. by destruct (He Ep) as [-> ->].
  - split_and!; [done|exact Hs|]. intros Ep. by destruct (He Ep) as [? _].
Qed.

End TeardownFails.

Lemma teardown_needs_the_servers_witness :
  let cfg := on_topology campus_without_cloud (Campus.config None 1 true) in
  let out := Campus.surroundings 0 (Campus.view 3 6 4) (λ _, false) in
  let w0 := (setup_topology cfg (Campus.initial out)).2 in
  let w := (run_experiment cfg 10 (Campus.nodes w0 ["h1"]) (Campus.nodes w0 ["h2"])
              [] [] w0).2 in
  let run := teardown_experiment cfg sample_constants sample_surroundings 5 (start w) in
  (∀ u, run.1 ≠ Ok u)
  ∧ self run.2 = self (start w)
  ∧ (self_popens (self (start w)) = [] ->
     run.1 = Raise IndexError ∧ log run.2 = log (start w) ++ [EvSleep 20]).
Proof.
  intros cfg out w0 w run.
  apply (teardown_needs_the_servers cfg sample_constants sample_surroundings 5
           (start w) run.1 run.2).
  - vm_compute. lia.
  - apply surjective_pairing.
Defined.

Section TeardownProcesses.

Context (out : Surroundings).

(** X18: [wait_then_kill] polls a process at most twice, one second apart, and
    never a third time: a process that has exited at one of the two polls
    is left alone and its code is returned; a process found running at
    both is given one more second and then killed, without a look at
    whether it exited meanwhile, and the code of [wait] is returned (or
    the exception of [kill] is raised, before any [wait]). *)
Theorem wait_then_kill_policy (p : process) (s : state) :
  ∃ s',
    polls s' = (polls s + (if poll_answer out (polls s) is Some _ then 1 else 2))%nat
    ∧ match poll_answer out (polls s), poll_answer out (S (polls s)) with
      | Some c, _ =>
          wait_then_kill out p s = (Ok (Some c), s')
          ∧ log s' = log s ++ [EvPoll p]
      | None, Some c =>
          wait_then_kill out p s = (Ok (Some c), s')
          ∧ log s' = log s ++ [EvPoll p; EvSleep 1; EvPoll p]
      | None, None =>
          match kill_answer out (kills s) with
          | Returns _ =>
              wait_then_kill out p s = (Ok (Some (wait_answer out (waits s))), s')
              ∧ log s' = log s ++ [EvPoll p; EvSleep 1; EvPoll p; EvSleep 1;
                                   EvLogError ProcessNeverQuit; EvKill p; EvWait p;
                                   EvLogError (NowExited (wait_answer out (waits s)))]
          | Raises e =>
              wait_then_kill out p s = (Raise e, s')
              ∧ log s' = log s ++ [EvPoll p; EvSleep 1; EvPoll p; EvSleep 1;
                                   EvLogError ProcessNeverQuit; EvKill p]
          end
      end.
Proof.
  destruct s as [w l np nk nw hq sq gq]. cbn [polls kills waits log].
  unfold wait_then_kill. change (py_range (2 / 1)) with [0; 1].
  cbv beta iota zeta delta
    [wait_loop mbind T_bind mret T_ret poll sleep emit kill wait Z.ltb Z.compare
     self log polls kills waits host_queries switch_queries group_queries].
  destruct (poll_answer out np) as [c|].
  { eexists. split_and!; [|reflexivity|]; cbn; [lia|done]. }
  destruct (poll_answer out (S np)) as [c|].
  { eexists. split_and!; [|reflexivity|]; cbn; [lia|by rewrite <- !app_assoc]. }
  destruct (kill_answer out nk) as [[]|e].
  - eexists. split_and!; [|reflexivity|]; cbn; [lia|by rewrite <- !app_assoc].
  - eexists. split_and!; [|reflexivity|]; cbn; [lia|by rewrite <- !app_assoc].
Qed.

End TeardownProcesses.

End TeardownFacts.

(** ** The name of the results file *)

Lemma string_app_cons (c : ascii) (a b : string) :
  String c a +:+ b = String c (a +:+ b).
Proof. reflexivity. Qed.

Lemma string_app_nil_l (b : string) : "" +:+ b = b.
Proof. reflexivity. Qed.

Lemma string_app_length (a b : string) :
  String.length (a +:+ b) = (String.length a + String.length b)%nat.
Proof.
  induction a as [|c a IH]; [done|]. rewrite string_app_cons. cbn [String.length].
  by rewrite IH.
Qed.

Lemma string_app_assoc (a b c : string) : (a +:+ b) +:+ c = a +:+ (b +:+ c).
Proof.
  induction a as [|x a IH]; [done|]. rewrite !string_app_cons. by rewrite IH.
Qed.

Lemma string_app_inj_length (a b x y : string) :
  String.length a = String.length b -> a +:+ x = b +:+ y -> a = b.
Proof.
  revert b. induction a as [|c a IH]; intros [|d b] Hlen H; try done.
  rewrite !string_app_cons in H. injection H as -> H. f_equal.
  apply IH; [by injection Hlen|done].
Qed.

Lemma string_prefix_length (a s : string) :
  String.prefix a s = true -> (String.length a <= String.length s)%nat.
Proof.
  revert s. induction a as [|c a IH]; intros [|d s] H; cbn in *; try done; try lia.
  destruct (Ascii.ascii_dec c d); [|done]. apply IH in H. lia.
Qed.

Lemma replace_from_length old new skip s :
  (0 < String.length old)%nat ->
  (String.length (replace_from old new skip s) + Nat.min skip (String.length s)
   + replaced_from old skip s * String.length old
   = String.length s + replaced_from old skip s * String.length new)%nat.
Proof.
  intros Hold. revert skip. induction s as [|c s IH]; intros skip.
  { cbn [replace_from replaced_from String.length]. lia. }
  cbn [replace_from replaced_from]. destruct skip as [|n].
  - destruct (String.prefix old (String c s)) eqn:E.
    + apply string_prefix_length in E. cbn [String.length] in E.
      specialize (IH (String.length old - 1)%nat).
      rewrite string_app_length. cbn [String.length]. nia.
    + specialize (IH 0%nat). cbn [String.length]. lia.
  - specialize (IH n). cbn [String.length]. lia.
Qed.

Lemma replace_from_none old new s :
  replaced_from old 0 s = 0%nat -> replace_from old new 0 s = s.
Proof.
  induction s as [|c s IH]; [done|]. cbn [replace_from replaced_from].
  destruct (String.prefix old (String c s)); [done|]. intros H. by rewrite IH.
Qed.

Lemma replace_from_inj old (f : string -> string) h1 h2 s :
  (∀ x y, String.length h1 = String.length h2 -> f h1 +:+ x = f h2 +:+ y -> h1 = h2) ->
  String.length h1 = String.length h2 ->
  (0 < replaced_from old 0 s)%nat ->
  replace_from old (f h1) 0 s = replace_from old (f h2) 0 s ->
  h1 = h2.
Proof.
  intros Hf Hlen. induction s as [|c s IH]; [cbn; lia|].
  cbn [replace_from replaced_from].
  destruct (String.prefix old (String c s)).
  - intros _ H. by apply Hf in H.
  - intros Hk [= H]. by apply IH.
Qed.

(** X19: two configurations get one name for their results file exactly when
    they have the same choosing heuristic (the comparison, when there is
    one, taking the place of the tree-choosing heuristic) or when the
    name of the superclass does not contain [.json]: then the name is
    that of the superclass, without any heuristic. *)
Theorem results_file_names_differ default super_name args1 args2 :
  let h1 := format_s (choosing_heuristic default args1) in
  let h2 := format_s (choosing_heuristic default args2) in
  build_default_results_file_name default super_name args1
  = build_default_results_file_name default super_name args2
  <-> h1 = h2 ∨ replaced_from ".json" 0 super_name = 0%nat.
Proof.
  intros h1 h2. unfold build_default_results_file_name, str_replace_all.
  fold h1 h2. destruct (decide (".json" = "")) as [?|_]; [done|]. split.
  - intros H. destruct (replaced_from ".json" 0 super_name) as [|n] eqn:En; [by right|].
    left.
    assert (String.length h1 = String.length h2) as Hlen.
    { pose proof (replace_from_length ".json" ("_" +:+ h1 +:+ ".json") 0 super_name
                    ltac:(cbn; lia)) as L1.
      pose proof (replace_from_length ".json" ("_" +:+ h2 +:+ ".json") 0 super_name
                    ltac:(cbn; lia)) as L2.
      rewrite H, En in L1. rewrite En in L2.
      rewrite !string_app_length in L1, L2. cbn [String.length] in L1, L2. nia. }
    apply (replace_from_inj ".json" (λ h, "_" +:+ h +:+ ".json") h1 h2 super_name);
      [|done|lia|done].
    intros x y _ E. rewrite !string_app_cons, !string_app_nil_l in E. injection E as E.
    rewrite !string_app_assoc in E. by apply string_app_inj_length in E.
  - intros [->|H0]; [done|]. by rewrite !replace_from_none.
Qed.

Example results_file_names :
  build_default_results_file_name "importance" "results/results_4t_0.10f.json"
    (Namespace (Some "importance") None)
  = "results/results_4t_0.10f_importance.json"
  ∧ build_default_results_file_name "importance" "results/results_4t_0.10f.json"
      (Dict {[ "tree_choosing_heuristic" := Some "max-overlap";
               "comparison" := Some "unicast" ]})
    = "results/results_4t_0.10f_unicast.json"
  ∧ build_default_results_file_name "importance" "runs.json.d/results.json" (Dict ∅)
    = "runs_importance.json.d/results_importance.json"
  ∧ build_default_results_file_name "importance" "results/results_4t" (Dict ∅)
    = "results/results_4t".
Proof. vm_compute. done. Qed.
